(** * Living Resume: the template parser of [src/parser/parse-profile.ts]

    A shallow embedding of the template parser (section locator, field, list
    and table extractors, the two compound block extractors, the assembly of
    the nine records and the endpoint writer) together with the properties
    the design document states about it.

    JavaScript strings are sequences of UTF-16 code units; they are modelled
    as lists of code units ([N]).  [indexOf] and [search], which answer -1 in
    JavaScript when nothing is found, answer [None] here. *)

From Stdlib Require Import String Ascii.
From Stdlib Require Import List NArith Arith Bool Lia.
From Stdlib Require DecimalNat DecimalFacts.
Import ListNotations.

Set Warnings "-register-all".

(* ================================================================== *)
(** * Part I.  Definitions                                             *)
(* ================================================================== *)

(** ** JavaScript strings and the built-ins the parser calls *)

Module JS.

Definition jschar := N.
Definition jsstring := list jschar.

(** String literals.  The two characters backslash-n of the literal stand
    for a line feed, as they do in the TypeScript source. *)
Fixpoint js (s : string) : jsstring :=
  match s with
  | EmptyString => []
  | String "\" (String "n" r) => 10%N :: js r
  | String c r => N_of_ascii c :: js r
  end.
Arguments js s%_string.

Definition LF : jschar := 10%N.
Definition SPACE : jschar := 32%N.

(** [WhiteSpace] and [LineTerminator] of ECMAScript: what [\s] matches and
    what [trim] removes. *)
Definition isWhiteSpace (c : jschar) : bool :=
  (  (c =? 9) || (c =? 10) || (c =? 11) || (c =? 12) || (c =? 13)
  || (c =? 32) || (c =? 160) || (c =? 5760)
  || ((8192 <=? c) && (c <=? 8202))
  || (c =? 8232) || (c =? 8233) || (c =? 8239) || (c =? 8287)
  || (c =? 12288) || (c =? 65279))%N.

(** What [^] looks back at under the [m] flag and what [.] refuses without
    the [s] flag. *)
Definition isLineTerminator (c : jschar) : bool :=
  ((c =? 10) || (c =? 13) || (c =? 8232) || (c =? 8233))%N.

(** [\d] *)
Definition isDigit (c : jschar) : bool := ((48 <=? c) && (c <=? 57))%N.

Fixpoint jseqb (a b : jsstring) : bool :=
  match a, b with
  | [], [] => true
  | x :: a', y :: b' => (x =? y)%N && jseqb a' b'
  | _, _ => false
  end.

(** [s.startsWith(p)] *)
Fixpoint startsWith (p s : jsstring) : bool :=
  match p, s with
  | [], _ => true
  | x :: p', y :: s' => (x =? y)%N && startsWith p' s'
  | _ :: _, [] => false
  end.

(** The first position of [s] whose suffix satisfies [m]: the common core
    of [String.prototype.indexOf] and of [String.prototype.search] for the
    anchor-free patterns used by the parser. *)
Fixpoint search (m : jsstring -> bool) (s : jsstring) : option nat :=
  if m s then Some 0
  else match s with
       | [] => None
       | _ :: t => option_map S (search m t)
       end.

(** [s.indexOf(needle)] *)
Definition indexOf (needle s : jsstring) : option nat :=
  search (startsWith needle) s.

(** [s.slice(n)] is [skipn n s]; [s.slice(0, n)] is [firstn n s]. *)

Fixpoint dropWhile (p : jschar -> bool) (s : jsstring) : jsstring :=
  match s with
  | [] => []
  | c :: t => if p c then dropWhile p t else s
  end.

Fixpoint takeWhile (p : jschar -> bool) (s : jsstring) : jsstring :=
  match s with
  | [] => []
  | c :: t => if p c then c :: takeWhile p t else []
  end.

Definition trimStart (s : jsstring) : jsstring := dropWhile isWhiteSpace s.
Definition trimEnd (s : jsstring) : jsstring :=
  rev (dropWhile isWhiteSpace (rev s)).

(** [s.trim()] *)
Definition trim (s : jsstring) : jsstring := trimEnd (trimStart s).

(** [s.split(sep)] for a separator of one code unit. *)
Fixpoint split (sep : jschar) (s : jsstring) : list jsstring :=
  match s with
  | [] => [[]]
  | c :: t =>
      if (c =? sep)%N then [] :: split sep t
      else match split sep t with
           | h :: r => (c :: h) :: r
           | [] => [[c]]
           end
  end.

(** [s.replace(/X+/g, r)] where [X] is a class of single code units: every
    maximal run of [X] becomes one [r]. *)
Fixpoint replaceRuns (p : jschar -> bool) (r : jschar) (inRun : bool)
         (s : jsstring) : jsstring :=
  match s with
  | [] => []
  | c :: t =>
      if p c then
        if inRun then replaceRuns p r true t else r :: replaceRuns p r true t
      else c :: replaceRuns p r false t
  end.

(** Truthiness of a string: non-empty. *)
Definition truthy (s : jsstring) : bool :=
  match s with [] => false | _ :: _ => true end.

End JS.
Export JS.

(** ** Parsing helpers *)

Module Parser.

(** [s.replace(/<!--.*?-->/gs, empty)]: scanning from the left, a [<!--] that
    is followed somewhere by [-->] is deleted up to and including the first
    such [-->]; the scan resumes after it.  [skip] counts the code units of
    the current match that are still to be deleted. *)
Fixpoint stripCommentsFrom (skip : nat) (s : jsstring) : jsstring :=
  match s with
  | [] => []
  | c :: t =>
      match skip with
      | S k => stripCommentsFrom k t
      | O =>
          if startsWith (js "<!--") s then
            match indexOf (js "-->") (skipn 4 s) with
            | Some k => stripCommentsFrom (3 + k + 3) t
            | None => c :: stripCommentsFrom 0 t
            end
          else c :: stripCommentsFrom 0 t
      end
  end.

Definition stripComments (s : jsstring) : jsstring := stripCommentsFrom 0 s.

(** [cleanValue]: the four chained calls of the source.  The second one,
    [replace(/^\s+|\s+$/g, empty)], has no [m] flag: it deletes the leading run
    of white space and the run that reaches the end of the string, which is
    what [trim] does. *)
Definition cleanValue (s : jsstring) : jsstring :=
  trim (replaceRuns (N.eqb LF) SPACE false (trim (stripComments s))).

(** The pattern [/\n###\s/] tried at the head of [s]. *)
Definition headingRe (s : jsstring) : bool :=
  match skipn 4 s with
  | c :: _ => startsWith (js "\n###") s && isWhiteSpace c
  | [] => false
  end.

(** One update of [endIdx]: [if (pos !== -1 && pos < endIdx) endIdx = pos]. *)
Definition lower (pos : option nat) (endIdx : nat) : nat :=
  match pos with
  | Some p => if p <? endIdx then p else endIdx
  | None => endIdx
  end.

Definition fieldMarker (label : jsstring) : jsstring :=
  js "**" ++ label ++ js ":**".

Definition fieldEnd (afterMarker : jsstring) : nat :=
  let endIdx := length afterMarker in
  let endIdx :=
    fold_left (fun endIdx delimiter => lower (indexOf delimiter afterMarker) endIdx)
              [js "\n**"; js "\n- **"] endIdx in
  let endIdx := lower (search headingRe afterMarker) endIdx in
  let endIdx := lower (indexOf (js "\n---") afterMarker) endIdx in
  endIdx.

(** [extractField] *)
Definition extractField (content label : jsstring) : jsstring :=
  let marker := fieldMarker label in
  match indexOf marker content with
  | None => []
  | Some idx =>
      let afterMarker := skipn (idx + length marker) content in
      cleanValue (firstn (fieldEnd afterMarker) afterMarker)
  end.

(** *** [extractBulletList] *)

Definition isBullet (trimmed : jsstring) : bool :=
  startsWith (js "- ") trimmed || startsWith (js "* ") trimmed.

Definition isStopper (trimmed : jsstring) : bool :=
  jseqb trimmed [] || startsWith (js "#") trimmed || startsWith (js "---") trimmed.

(** What a bullet line pushes: [val] when [val && !val.startsWith("<!--")]. *)
Definition keepsItem (val : jsstring) : bool :=
  truthy val && negb (startsWith (js "<!--") val).

(** The [for ... of] loop over the lines; [items] is the array being filled,
    returning it before the end of the list is the [break]. *)
Fixpoint bulletLoop (lines : list jsstring) (items : list jsstring)
  : list jsstring :=
  match lines with
  | [] => items
  | line :: rest =>
      let trimmed := trim line in
      if isBullet trimmed then
        let val := cleanValue (skipn 2 trimmed) in
        if keepsItem val then bulletLoop rest (items ++ [val])
        else bulletLoop rest items
      else if isStopper trimmed then
        if 0 <? length items then items else bulletLoop rest items
      else bulletLoop rest items
  end.

Definition extractBulletList (content afterMarker : jsstring) : list jsstring :=
  match indexOf afterMarker content with
  | None => []
  | Some idx =>
      let afterContent := skipn (idx + length afterMarker) content in
      bulletLoop (split LF afterContent) []
  end.

(** *** Row objects

    A row is a plain object keyed by strings.  The parser only ever reads a
    row back by key, so the enumeration order of the keys is not modelled:
    a row is the association list of its own properties, first assignment
    first. *)
Definition object (V : Type) := list (jsstring * V).

Fixpoint objDefine {V} (k : jsstring) (v : V) (o : object V) : object V :=
  match o with
  | [] => [(k, v)]
  | (k', v') :: r =>
      if jseqb k' k then (k', v) :: r else (k', v') :: objDefine k v r
  end.

(** [o[k] = v] on an object literal.  Assigning a string to [__proto__]
    reaches the accessor of [Object.prototype], which ignores it. *)
Definition objSet {V} (k : jsstring) (v : V) (o : object V) : object V :=
  if jseqb k (js "__proto__") then o else objDefine k v o.

(** [o.k]: [None] is [undefined]. *)
Fixpoint objGet {V} (k : jsstring) (o : object V) : option V :=
  match o with
  | [] => None
  | (k', v) :: r => if jseqb k' k then Some v else objGet k r
  end.

Definition PIPE : jschar := 124%N.
Definition UNDERSCORE : jschar := 95%N.

(** [a.slice(1, -1)] *)
Definition sliceInner {A} (a : list A) : list A := removelast (tl a).

(** [parseTableRow] *)
Definition parseTableRow (line : jsstring) : list jsstring :=
  map cleanValue (sliceInner (split PIPE line)).

(** [s.includes(x)] *)
Definition includes (x s : jsstring) : bool :=
  match indexOf x s with Some _ => true | None => false end.

(** The search for the header row: [i] is the loop counter. *)
Fixpoint findHeader (lines : list jsstring) (i : nat) : option nat :=
  match lines with
  | [] => None
  | l :: rest =>
      if startsWith (js "|") l && includes (js "|") l then Some i
      else findHeader rest (S i)
  end.

(** [cells.every((c) => !c || c.startsWith("<!--"))] *)
Definition blankCell (c : jsstring) : bool :=
  negb (truthy c) || startsWith (js "<!--") c.

(** [x || empty] for [x] a string or [undefined]. *)
Definition orEmpty (x : option jsstring) : jsstring :=
  match x with Some s => s | None => [] end.

Section Table.

(** [String.prototype.toLowerCase], a built-in of the language. *)
Variable toLowerCase : jsstring -> jsstring.

(** [h.toLowerCase().replace(/\s+/g, "_")] *)
Definition headerKey (h : jsstring) : jsstring :=
  replaceRuns isWhiteSpace UNDERSCORE false (toLowerCase h).

(** [headers.forEach((h, idx) => { row[...] = cells[idx] || empty; })] *)
Fixpoint fillRow (headers : list jsstring) (idx : nat) (cells : list jsstring)
         (row : object jsstring) : object jsstring :=
  match headers with
  | [] => row
  | h :: hs =>
      fillRow hs (S idx) cells
              (objSet (headerKey h) (orEmpty (nth_error cells idx)) row)
  end.

(** The loop over the data lines, from [dataStart] on. *)
Fixpoint rowLoop (headers : list jsstring) (lines : list jsstring)
         (rows : list (object jsstring)) : list (object jsstring) :=
  match lines with
  | [] => rows
  | line :: rest =>
      if negb (startsWith (js "|") line) then rows
      else
        let cells := parseTableRow line in
        if forallb blankCell cells then rowLoop headers rest rows
        else rowLoop headers rest (rows ++ [fillRow headers 0 cells []])
  end.

(** [extractTable] *)
Definition extractTable (content afterMarker : jsstring)
  : list (object jsstring) :=
  match indexOf afterMarker content with
  | None => []
  | Some idx =>
      let afterContent := skipn (idx + length afterMarker) content in
      let lines := map trim (split LF afterContent) in
      match findHeader lines 0 with
      | None => []
      | Some headerIdx =>
          let headers := parseTableRow (nth headerIdx lines []) in
          if length headers =? 0 then []
          else
            let dataStart := headerIdx + 2 in
            rowLoop headers (skipn dataStart lines) []
      end
  end.

End Table.

(** *** [extractSection] *)
Definition extractSection (content heading : jsstring) : jsstring :=
  let marker := js "## " ++ heading in
  let idx := indexOf (LF :: marker) content in
  let startIdx :=
    match idx with
    | Some i => Some (i + 1)
    | None => if startsWith marker content then Some 0 else None
    end in
  match startIdx with
  | None => []
  | Some startIdx =>
      let afterHeading := skipn (startIdx + length marker) content in
      match indexOf (js "\n") afterHeading with
      | None => []
      | Some newlinePos =>
          let sectionContent := skipn (newlinePos + 1) afterHeading in
          match indexOf (js "\n## ") sectionContent with
          | None => trim sectionContent
          | Some nextSection => trim (firstn nextSection sectionContent)
          end
      end
  end.

(** *** Splitting on a regular expression

    [s.split(re)] for a pattern without capture groups that never matches
    the empty string.  [m bol s] tries the pattern at the head of [s] and
    answers the length of the match; [bol] tells whether [^] (with the [m]
    flag) holds there: at the start of the input or right after a line
    terminator.  [skip] counts the code units of the current match that are
    still to be passed over. *)
Fixpoint regexSplit (m : bool -> jsstring -> option nat) (skip : nat)
         (bol : bool) (s : jsstring) : list jsstring :=
  match s with
  | [] => [[]]
  | c :: t =>
      match skip with
      | S k => regexSplit m k (isLineTerminator c) t
      | O =>
          match m bol s with
          | Some (S k) => [] :: regexSplit m k (isLineTerminator c) t
          | _ =>
              match regexSplit m 0 (isLineTerminator c) t with
              | h :: r => (c :: h) :: r
              | [] => [[c]]
              end
          end
      end
  end.

(** [/^- \*\*Title:\*\*/m] *)
Definition titleRe (bol : bool) (s : jsstring) : option nat :=
  if bol && startsWith (js "- **Title:**") s then Some 12 else None.

(** [/^### Role \d+[^\n]*/m]: after the first digit the match runs to the
    end of the line, since neither [\d+] nor [[^\n]*] can stop earlier. *)
Definition roleRe (bol : bool) (s : jsstring) : option nat :=
  if bol && startsWith (js "### Role ") s
     && match skipn 9 s with c :: _ => isDigit c | [] => false end
  then Some (length (takeWhile (fun c => negb (c =? LF)%N) s))
  else None.

(** The capture of [block.match(/\*\*Description:\*\*\s*(.+)/)]; [None] is
    the [null] of a failed match.  [\s*] is greedy: [(.+)] starts at the
    first code unit that is not white space and runs to the end of its line.
    When the label is followed by white space only, the matcher backtracks
    and [(.+)] gets the last of those code units that is not a line
    terminator, if there is one. *)
Definition descriptionRe (block : jsstring) : option jsstring :=
  match indexOf (js "**Description:**") block with
  | None => None
  | Some i =>
      let rest := skipn (i + 16) block in
      match dropWhile isWhiteSpace rest with
      | [] =>
          match find (fun c => negb (isLineTerminator c)) (rev rest) with
          | Some c => Some [c]
          | None => None
          end
      | r => Some (takeWhile (fun c => negb (isLineTerminator c)) r)
      end
  end.

Module OfferItem.
Record t := { title : jsstring; description : jsstring }.
End OfferItem.

(** [extractWhatIOffer] *)
Definition extractWhatIOffer (section : jsstring) : list OfferItem.t :=
  let blocks := regexSplit titleRe 0 true section in
  fold_left
    (fun items block =>
       let title := cleanValue (hd [] (split LF block)) in
       let description :=
         match descriptionRe block with
         | Some d => cleanValue d
         | None => []
         end in
       if truthy title && negb (startsWith (js "<!--") title)
       then items ++ [{| OfferItem.title := title;
                         OfferItem.description := description |}]
       else items)
    (tl blocks) [].

Module ExperienceEntry.
Record t := {
  title : jsstring;
  company : jsstring;
  dates : jsstring;
  location : jsstring;
  description : jsstring;
  contributions : list jsstring
}.
End ExperienceEntry.

(** The record one block of the Experience section gives. *)
Definition roleOfBlock (block : jsstring) : ExperienceEntry.t :=
  {| ExperienceEntry.title := extractField block (js "Title");
     ExperienceEntry.company := extractField block (js "Company");
     ExperienceEntry.dates := extractField block (js "Dates");
     ExperienceEntry.location := extractField block (js "Location");
     ExperienceEntry.description := extractField block (js "Description");
     ExperienceEntry.contributions :=
       filter truthy (extractBulletList block (js "**Key Contributions:**")) |}.

(** [if (title || company)] *)
Definition keepsRole (r : ExperienceEntry.t) : bool :=
  truthy (ExperienceEntry.title r) || truthy (ExperienceEntry.company r).

(** [extractRoles] *)
Definition extractRoles (section : jsstring) : list ExperienceEntry.t :=
  let roleBlocks := regexSplit roleRe 0 true section in
  fold_left
    (fun roles block =>
       let r := roleOfBlock block in
       if keepsRole r then roles ++ [r] else roles)
    (tl roleBlocks) [].

End Parser.
Export Parser.

(** ** The nine records *)

Module AboutData.
Record t := {
  name : jsstring;
  preferred_name : jsstring;
  title : jsstring;
  location : jsstring;
  core_thesis : jsstring;
  the_moment : jsstring;
  what_i_offer : list OfferItem.t
}.
End AboutData.

Module NarrativeData.
Record t := { professional_narrative : jsstring; philosophy : jsstring }.
End NarrativeData.

Module ThesisData.
Record t := {
  core_thesis : jsstring;
  the_moment : jsstring;
  implications : list jsstring
}.
End ThesisData.

(** The rows copied out of a table: a column the header does not name reads
    as [undefined] ([None]). *)
Module FinancialRow.
Record t := {
  accomplishment : option jsstring;
  company : option jsstring;
  value : option jsstring
}.
End FinancialRow.

Module AccomplishmentsData.
Record t := {
  financial_impact : list FinancialRow.t;
  operational_scale : list jsstring;
  recognition_innovation : list jsstring
}.
End AccomplishmentsData.

Module StatRow.
Record t := { stat : option jsstring; context : option jsstring }.
End StatRow.

Module TrackRecordData.
Record t := {
  headline_stats : list StatRow.t;
  financial_impact : list FinancialRow.t
}.
End TrackRecordData.

Module ExperienceData.
Record t := { experience : list ExperienceEntry.t }.
End ExperienceData.

Module OrgTypeRow.
Record t := { type : option jsstring; what_i_bring : option jsstring }.
End OrgTypeRow.

Module SeekingData.
Record t := {
  target_roles : list jsstring;
  reporting_relationship : jsstring;
  organization_types : list OrgTypeRow.t;
  industry : jsstring
}.
End SeekingData.

Module CulturalFitData.
Record t := { thrive_in : list jsstring; not_right_for : list jsstring }.
End CulturalFitData.

Module Expertise.
Record t := {
  methodologies : list jsstring;
  technical : list jsstring;
  domain : list jsstring
}.
End Expertise.

Module SkillsData.
Record t := { what_i_offer : list OfferItem.t; expertise : Expertise.t }.
End SkillsData.

Module ProfileData.
Record t := {
  about : AboutData.t;
  narrative : NarrativeData.t;
  thesis : ThesisData.t;
  accomplishments : AccomplishmentsData.t;
  track_record : TrackRecordData.t;
  experience : ExperienceData.t;
  seeking : SeekingData.t;
  cultural_fit : CulturalFitData.t;
  skills : SkillsData.t
}.
End ProfileData.

(** ** The file system

    A path is kept as the arguments handed to [resolve] of [node:path]. *)
Module Fs.

Definition path := list jsstring.

Inductive node :=
| File (content : jsstring)
| Directory.

Definition FileSystem := path -> option node.

Definition existsSync (fs : FileSystem) (p : path) : bool :=
  match fs p with Some _ => true | None => false end.

(** [readFileSync(p, "utf-8")]; [None] is the exception it throws. *)
Definition readFileSync (fs : FileSystem) (p : path) : option jsstring :=
  match fs p with Some (File c) => Some c | _ => None end.

(** The directory a path lies in: the path without its last argument, which
    is a plain name in every path the program writes to. *)
Definition dirname (p : path) : path := removelast p.

Fixpoint patheqb (p q : path) : bool :=
  match p, q with
  | [], [] => true
  | a :: p', b :: q' => jseqb a b && patheqb p' q'
  | _, _ => false
  end.

(** The file system with [n] at [p]. *)
Definition put (fs : FileSystem) (p : path) (n : node) : FileSystem :=
  fun q => if patheqb q p then Some n else fs q.

(** The paths from [p] up, [reversed] being [p] in reverse: [p] itself, the
    directory it lies in, and so on. *)
Fixpoint upwardFrom (reversed : path) : list path :=
  rev reversed :: match reversed with
                  | [] => []
                  | _ :: above => upwardFrom above
                  end.

Definition upward (p : path) : list path := upwardFrom (rev p).

(** The first of [ps] that exists. *)
Fixpoint nearest (fs : FileSystem) (ps : list path) : option node :=
  match ps with
  | [] => None
  | q :: rest =>
      match fs q with
      | Some n => Some n
      | None => nearest fs rest
      end
  end.

(** [mkdirSync(p, { recursive: true })]; [None] is the exception it throws,
    otherwise the file system it leaves.  The directories from [p] up that
    are missing are made; the call throws when the nearest path that
    exists is a file. *)
Definition mkdirSync (fs : FileSystem) (p : path) : option FileSystem :=
  match nearest fs (upward p) with
  | Some (File _) => None
  | _ =>
      Some (fun q =>
              match fs q with
              | Some n => Some n
              | None =>
                  if existsb (patheqb q) (upward p) then Some Directory else None
              end)
  end.

(** [writeFileSync(p, text)]: the file is made, or replaced; the call
    throws when [p] is a directory and when the directory [p] lies in is
    missing or is a file.  Permissions, quotas and device errors are left
    out, for writing as they are for reading. *)
Definition writeFileSync (fs : FileSystem) (p : path) (text : jsstring)
  : option FileSystem :=
  match fs (dirname p), fs p with
  | Some Directory, Some Directory => None
  | Some Directory, _ => Some (put fs p (File text))
  | _, _ => None
  end.

End Fs.
Export Fs.

(** ** Main parser *)

Module Assembly.

(** Truthiness of [r.k] for a row [r]. *)
Definition truthyField (k : jsstring) (r : object jsstring) : bool :=
  match objGet k r with Some v => truthy v | None => false end.

Section Assembly.

Variable toLowerCase : jsstring -> jsstring.

(** The body of [parseTemplate] after the document has been read. *)
Definition assemble (raw : jsstring) : ProfileData.t :=
  let aboutSection := extractSection raw (js "About") in
  let narrativeSection := extractSection raw (js "Narrative") in
  let thesisSection := extractSection raw (js "Thesis") in
  let accomplishmentsSection := extractSection raw (js "Accomplishments") in
  let trackRecordSection := extractSection raw (js "Track Record") in
  let experienceSection := extractSection raw (js "Experience") in
  let seekingSection := extractSection raw (js "Seeking") in
  let culturalFitSection := extractSection raw (js "Cultural Fit") in
  let skillsSection := extractSection raw (js "Skills") in
  let whatIOffer := extractWhatIOffer aboutSection in
  let about :=
    {| AboutData.name := extractField aboutSection (js "Name");
       AboutData.preferred_name := extractField aboutSection (js "Preferred Name");
       AboutData.title := extractField aboutSection (js "Title");
       AboutData.location := extractField aboutSection (js "Location");
       AboutData.core_thesis := extractField aboutSection (js "Core Thesis");
       AboutData.the_moment := extractField aboutSection (js "The Moment");
       AboutData.what_i_offer := whatIOffer |} in
  let narrative :=
    {| NarrativeData.professional_narrative :=
         extractField narrativeSection (js "Professional Narrative");
       NarrativeData.philosophy := extractField narrativeSection (js "Philosophy") |} in
  let thesis :=
    {| ThesisData.core_thesis := extractField thesisSection (js "Core Thesis");
       ThesisData.the_moment := extractField thesisSection (js "The Moment");
       ThesisData.implications :=
         extractBulletList thesisSection (js "### Implications") |} in
  let financialImpactTable :=
    extractTable toLowerCase accomplishmentsSection (js "### Financial Impact") in
  let accomplishments :=
    {| AccomplishmentsData.financial_impact :=
         map (fun r =>
                {| FinancialRow.accomplishment := objGet (js "accomplishment") r;
                   FinancialRow.company := objGet (js "company") r;
                   FinancialRow.value := objGet (js "value") r |})
             (filter (truthyField (js "accomplishment")) financialImpactTable);
       AccomplishmentsData.operational_scale :=
         extractBulletList accomplishmentsSection (js "### Operational Scale");
       AccomplishmentsData.recognition_innovation :=
         extractBulletList accomplishmentsSection (js "### Recognition & Innovation") |} in
  let headlineTable :=
    extractTable toLowerCase trackRecordSection (js "### Headline Stats") in
  let trackRecord :=
    {| TrackRecordData.headline_stats :=
         map (fun r =>
                {| StatRow.stat := objGet (js "stat") r;
                   StatRow.context := objGet (js "context") r |})
             (filter (truthyField (js "stat")) headlineTable);
       TrackRecordData.financial_impact :=
         AccomplishmentsData.financial_impact accomplishments |} in
  let experience :=
    {| ExperienceData.experience := extractRoles experienceSection |} in
  let orgTypesTable :=
    extractTable toLowerCase seekingSection (js "### Organization Types") in
  let seeking :=
    {| SeekingData.target_roles :=
         extractBulletList seekingSection (js "**Target Roles:**");
       SeekingData.reporting_relationship :=
         extractField seekingSection (js "Reporting Relationship");
       SeekingData.organization_types :=
         map (fun r =>
                {| OrgTypeRow.type := objGet (js "organization_type") r;
                   OrgTypeRow.what_i_bring := objGet (js "what_i_bring") r |})
             (filter (truthyField (js "organization_type")) orgTypesTable);
       SeekingData.industry := extractField seekingSection (js "Industry") |} in
  let culturalFit :=
    {| CulturalFitData.thrive_in :=
         extractBulletList culturalFitSection (js "### I Thrive In");
       CulturalFitData.not_right_for :=
         extractBulletList culturalFitSection (js "### Not Right For") |} in
  let skills :=
    {| SkillsData.what_i_offer := whatIOffer;
       SkillsData.expertise :=
         {| Expertise.methodologies :=
              extractBulletList skillsSection (js "### Methodologies");
            Expertise.technical :=
              extractBulletList skillsSection (js "### Technical");
            Expertise.domain :=
              extractBulletList skillsSection (js "### Domain Expertise") |} |} in
  {| ProfileData.about := about;
     ProfileData.narrative := narrative;
     ProfileData.thesis := thesis;
     ProfileData.accomplishments := accomplishments;
     ProfileData.track_record := trackRecord;
     ProfileData.experience := experience;
     ProfileData.seeking := seeking;
     ProfileData.cultural_fit := culturalFit;
     ProfileData.skills := skills |}.

(** [parseTemplate]: [None] is the exception of [readFileSync]. *)
Definition parseTemplate (fs : FileSystem) (templatePath : path)
  : option ProfileData.t :=
  match readFileSync fs templatePath with
  | Some raw => Some (assemble raw)
  | None => None
  end.

End Assembly.

End Assembly.
Export Assembly.

(** ** File output *)

Module Output.

(** Run-time values, as far as [isEmptyData] tells them apart. *)
Inductive value :=
| VUndefined
| VNull
| VBoolean (b : bool)
| VNumber (n : N)
| VString (s : jsstring)
| VArray (items : list value)
| VObject (props : list (jsstring * value)).

(** [isEmptyData] *)
Fixpoint isEmptyData (data : value) : bool :=
  match data with
  | VNull | VUndefined => true
  | VString s => jseqb (trim s) []
  | VArray items => length items =? 0
  | VObject props =>
      (fix every (l : list (jsstring * value)) : bool :=
         match l with
         | [] => true
         | (_, v) :: r => isEmptyData v && every r
         end) props
  | VBoolean _ | VNumber _ => false
  end.

(** The objects [parseTemplate] builds, as run-time values: one property
    per line of the object literals of the source, in their order. *)
Definition strings (l : list jsstring) : value := VArray (map VString l).

Definition optional (x : option jsstring) : value :=
  match x with Some s => VString s | None => VUndefined end.

Definition valueOfOffer (i : OfferItem.t) : value :=
  VObject [ (js "title", VString (OfferItem.title i));
            (js "description", VString (OfferItem.description i)) ].

Definition valueOfAbout (a : AboutData.t) : value :=
  VObject [ (js "name", VString (AboutData.name a));
            (js "preferred_name", VString (AboutData.preferred_name a));
            (js "title", VString (AboutData.title a));
            (js "location", VString (AboutData.location a));
            (js "core_thesis", VString (AboutData.core_thesis a));
            (js "the_moment", VString (AboutData.the_moment a));
            (js "what_i_offer", VArray (map valueOfOffer (AboutData.what_i_offer a))) ].

Definition valueOfNarrative (n : NarrativeData.t) : value :=
  VObject [ (js "professional_narrative", VString (NarrativeData.professional_narrative n));
            (js "philosophy", VString (NarrativeData.philosophy n)) ].

Definition valueOfThesis (t : ThesisData.t) : value :=
  VObject [ (js "core_thesis", VString (ThesisData.core_thesis t));
            (js "the_moment", VString (ThesisData.the_moment t));
            (js "implications", strings (ThesisData.implications t)) ].

Definition valueOfFinancialRow (r : FinancialRow.t) : value :=
  VObject [ (js "accomplishment", optional (FinancialRow.accomplishment r));
            (js "company", optional (FinancialRow.company r));
            (js "value", optional (FinancialRow.value r)) ].

Definition valueOfAccomplishments (a : AccomplishmentsData.t) : value :=
  VObject [ (js "financial_impact",
             VArray (map valueOfFinancialRow (AccomplishmentsData.financial_impact a)));
            (js "operational_scale", strings (AccomplishmentsData.operational_scale a));
            (js "recognition_innovation",
             strings (AccomplishmentsData.recognition_innovation a)) ].

Definition valueOfStatRow (r : StatRow.t) : value :=
  VObject [ (js "stat", optional (StatRow.stat r));
            (js "context", optional (StatRow.context r)) ].

Definition valueOfTrackRecord (t : TrackRecordData.t) : value :=
  VObject [ (js "headline_stats",
             VArray (map valueOfStatRow (TrackRecordData.headline_stats t)));
            (js "financial_impact",
             VArray (map valueOfFinancialRow (TrackRecordData.financial_impact t))) ].

Definition valueOfEntry (e : ExperienceEntry.t) : value :=
  VObject [ (js "title", VString (ExperienceEntry.title e));
            (js "company", VString (ExperienceEntry.company e));
            (js "dates", VString (ExperienceEntry.dates e));
            (js "location", VString (ExperienceEntry.location e));
            (js "description", VString (ExperienceEntry.description e));
            (js "contributions", strings (ExperienceEntry.contributions e)) ].

Definition valueOfExperience (e : ExperienceData.t) : value :=
  VObject [ (js "experience", VArray (map valueOfEntry (ExperienceData.experience e))) ].

Definition valueOfOrgTypeRow (r : OrgTypeRow.t) : value :=
  VObject [ (js "type", optional (OrgTypeRow.type r));
            (js "what_i_bring", optional (OrgTypeRow.what_i_bring r)) ].

Definition valueOfSeeking (k : SeekingData.t) : value :=
  VObject [ (js "target_roles", strings (SeekingData.target_roles k));
            (js "reporting_relationship", VString (SeekingData.reporting_relationship k));
            (js "organization_types",
             VArray (map valueOfOrgTypeRow (SeekingData.organization_types k)));
            (js "industry", VString (SeekingData.industry k)) ].

Definition valueOfCulturalFit (c : CulturalFitData.t) : value :=
  VObject [ (js "thrive_in", strings (CulturalFitData.thrive_in c));
            (js "not_right_for", strings (CulturalFitData.not_right_for c)) ].

Definition valueOfSkills (k : SkillsData.t) : value :=
  VObject [ (js "what_i_offer", VArray (map valueOfOffer (SkillsData.what_i_offer k)));
            (js "expertise",
             VObject [ (js "methodologies",
                        strings (Expertise.methodologies (SkillsData.expertise k)));
                       (js "technical",
                        strings (Expertise.technical (SkillsData.expertise k)));
                       (js "domain",
                        strings (Expertise.domain (SkillsData.expertise k))) ]) ].

(** The [ProfileData] object returned by [parseTemplate]. *)
Definition objectOfProfile (data : ProfileData.t) : object value :=
  [ (js "about", valueOfAbout (ProfileData.about data));
    (js "narrative", valueOfNarrative (ProfileData.narrative data));
    (js "thesis", valueOfThesis (ProfileData.thesis data));
    (js "accomplishments", valueOfAccomplishments (ProfileData.accomplishments data));
    (js "track-record", valueOfTrackRecord (ProfileData.track_record data));
    (js "experience", valueOfExperience (ProfileData.experience data));
    (js "seeking", valueOfSeeking (ProfileData.seeking data));
    (js "cultural-fit", valueOfCulturalFit (ProfileData.cultural_fit data));
    (js "skills", valueOfSkills (ProfileData.skills data)) ].

(** [Object.keys(o)] *)
Definition keys {V} (o : object V) : list jsstring := map fst o.

(** [o[k]] of a run-time object. *)
Definition prop (o : object value) (k : jsstring) : value :=
  match objGet k o with Some v => v | None => VUndefined end.

(** What the program says on the console. *)
Inductive message :=
| Skipping (endpoint : jsstring)
| Wrote (endpoint : jsstring)
| WroteRoot
| Parsing (p : path)
| TemplateNotFound (p : path)
| FillInTemplateFirst
| HowToFix
| WritingTo (p : path)
| Done (files : nat)
| ParseFailed.

(** What the program does to the outside world.  A file is written with
    [JSON.stringify(payload, null, 2) + "\n"]; the event keeps the payload. *)
Inductive event :=
| Mkdir (p : path)
| WriteFile (p : path) (payload : value)
| Log (m : message)
| Error (m : message).

(** [endpointDescription] *)
Definition descriptions : object jsstring :=
  [ (js "about", js "Core identity and professional positioning");
    (js "narrative", js "Professional story and philosophy");
    (js "thesis", js "Core professional thesis and implications");
    (js "accomplishments", js "Quantified achievements with evidence");
    (js "track-record", js "Headline stats with context");
    (js "experience", js "Role history with contributions");
    (js "seeking", js "Target roles, org types, what they want");
    (js "cultural-fit", js "Thrive-in environments and not-right-for signals");
    (js "skills", js "Expertise: methodologies, technical, domain") ].

Definition endpointDescription (endpoint : jsstring) : jsstring :=
  match objGet endpoint descriptions with Some d => d | None => endpoint end.

(** [Object.fromEntries] *)
Definition fromEntries {V} (entries : list (jsstring * V)) : object V :=
  fold_left (fun o kv => objDefine (fst kv) (snd kv) o) entries [].

Section Write.

(** [new Date().toISOString().split("T")[0]], read from the clock. *)
Variable today : jsstring.

Definition metaOf (version : jsstring) : object value :=
  [ (js "api_version", VString version);
    (js "last_updated", VString today);
    (js "source", VString (js "Living Resume API"));
    (js "note", VString (js "Machine-readable professional profile")) ].

(** The file an endpoint is written to: [resolve(outputDir, endpoint + ".json")]. *)
Definition endpointFile (outputDir : path) (endpoint : jsstring) : path :=
  outputDir ++ [endpoint ++ js ".json"].

Definition endpointPayload (version endpoint : jsstring) (endpointData : value)
  : value :=
  VObject [ (js "meta",
             VObject (objDefine (js "endpoint") (VString (js "/" ++ endpoint))
                                (metaOf version)));
            (js "data", endpointData) ].

(** The loop over the endpoints. *)
Fixpoint endpointLoop (data : object value) (outputDir : path)
         (version : jsstring) (endpoints : list jsstring) : list event :=
  match endpoints with
  | [] => []
  | endpoint :: rest =>
      let endpointData := prop data endpoint in
      if isEmptyData endpointData then
        Log (Skipping endpoint) :: endpointLoop data outputDir version rest
      else
        WriteFile (endpointFile outputDir endpoint)
                  (endpointPayload version endpoint endpointData)
        :: Log (Wrote endpoint)
        :: endpointLoop data outputDir version rest
  end.

(** The directory of endpoints inside [root.json]. *)
Definition directory (data : object value) (endpoints : list jsstring)
  : object value :=
  let availableEndpoints :=
    filter (fun e => negb (isEmptyData (prop data e))) endpoints in
  fromEntries
    (map (fun e => (js "GET /" ++ e, VString (endpointDescription e)))
         availableEndpoints).

Definition rootPayload (profile : ProfileData.t) (version : jsstring) : value :=
  let data := objectOfProfile profile in
  let name := AboutData.name (ProfileData.about profile) in
  VObject [ (js "name",
             VString ((if truthy name then name else js "Unknown")
                      ++ js " Living Resume API"));
            (js "description",
             VString (js "Query this professional profile programmatically"));
            (js "version", VString version);
            (js "last_updated", VString today);
            (js "endpoints", VObject (directory data (keys data))) ].

(** [writeEndpointFiles]: the calls it makes, in order, when none of them
    throws.  [perform] below makes them on the file system. *)
Definition writeEndpointFiles (fs : FileSystem) (profile : ProfileData.t)
           (outputDir : path) (version : jsstring) : list event :=
  let data := objectOfProfile profile in
  (if negb (existsSync fs outputDir) then [Mkdir outputDir] else [])
  ++ endpointLoop data outputDir version (keys data)
  ++ [ WriteFile (outputDir ++ [js "root.json"]) (rootPayload profile version);
       Log WroteRoot ].

Definition defaultVersion : jsstring := js "1.0.0".

End Write.

End Output.
Export Output.

(** ** The two command-line entry points *)

Module Cli.

(** A finished run: what it did, and the exit status of the process. *)
Record run := { trace : list event; exitCode : nat }.

(** [resolve(process.argv[2] || "TEMPLATE.md")] *)
Definition mainTemplatePath (argv2 : option jsstring) : path :=
  [match argv2 with
   | Some a => if truthy a then a else js "TEMPLATE.md"
   | None => js "TEMPLATE.md"
   end].

Section Cli.

Variable toLowerCase : jsstring -> jsstring.
Variable today : jsstring.

(** [JSON.stringify(v, null, 2)] *)
Variable stringify : value -> jsstring.

(** What a call does to the file system; [None] is the exception of
    [mkdirSync] or [writeFileSync]. *)
Definition effect (fs : FileSystem) (e : event) : option FileSystem :=
  match e with
  | Mkdir p => mkdirSync fs p
  | WriteFile p payload => writeFileSync fs p (stringify payload ++ js "\n")
  | Log _ | Error _ => Some fs
  end.

(** The calls of [events] made in order up to the first that throws: the
    calls that returned, and the file system they leave, [None] after an
    exception. *)
Fixpoint perform (fs : FileSystem) (events : list event)
  : list event * option FileSystem :=
  match events with
  | [] => ([], Some fs)
  | e :: rest =>
      match effect fs e with
      | Some fs' => let (made, left) := perform fs' rest in (e :: made, left)
      | None => ([], None)
      end
  end.

(** The [import.meta.main] block of [parse-profile.ts].  [argv2] is
    [process.argv[2]].  An exception that nothing catches, that of
    [readFileSync] or that of a write, ends the process with status 1. *)
Definition main (fs : FileSystem) (argv2 : option jsstring) : run :=
  let templatePath : path := mainTemplatePath argv2 in
  let outputDir : path := [js "data"] in
  if negb (existsSync fs templatePath) then
    {| trace := [ Log (Parsing templatePath);
                  Error (TemplateNotFound templatePath);
                  Error FillInTemplateFirst ];
       exitCode := 1 |}
  else
    match parseTemplate toLowerCase fs templatePath with
    | None => {| trace := [Log (Parsing templatePath)]; exitCode := 1 |}
    | Some data =>
        let started := [Log (Parsing templatePath); Log (WritingTo outputDir)] in
        match perform fs (writeEndpointFiles today fs data outputDir defaultVersion)
        with
        | (made, Some _) =>
            {| trace :=
                 started ++ made
                 ++ [Log (Done (length (keys (objectOfProfile data)) + 1))];
               exitCode := 0 |}
        | (made, None) => {| trace := started ++ made; exitCode := 1 |}
        end
    end.

(** [parse] of [deploy.ts]: [templatePath] is what [resolveTemplatePath]
    answers and [root] is [ROOT]; the boolean is the promised result.  The
    [catch] takes the exception of [readFileSync] and that of a write. *)
Definition parse (fs : FileSystem) (root : path) (templatePath : path)
  : list event * bool :=
  if negb (existsSync fs templatePath) then
    ([ Log (Parsing templatePath);
       Error (TemplateNotFound templatePath);
       Error HowToFix ], false)
  else
    match parseTemplate toLowerCase fs templatePath with
    | Some data =>
        match perform fs (writeEndpointFiles today fs data (root ++ [js "data"])
                                             defaultVersion)
        with
        | (made, Some _) => (Log (Parsing templatePath) :: made, true)
        | (made, None) =>
            (Log (Parsing templatePath) :: made ++ [Error ParseFailed], false)
        end
    | None => ([Log (Parsing templatePath); Error ParseFailed], false)
    end.

(** [case "parse"] of [deploy.ts]: [process.exit(ok ? 0 : 1)]. *)
Definition parseCommand (fs : FileSystem) (root : path) (templatePath : path)
  : run :=
  let (events, ok) := parse fs root templatePath in
  {| trace := events; exitCode := if ok then 0 else 1 |}.

End Cli.

(** The files a run wrote. *)
Definition filesWritten (events : list event) : list path :=
  flat_map (fun e => match e with WriteFile p _ => [p] | _ => [] end) events.

End Cli.
Export Cli.

(** ** The worker that serves the files *)

Module Worker.

(** What the worker reads of a request: [request.method] and the
    [pathname] of its URL, which starts with a slash. *)
Record request := { method : jsstring; pathname : jsstring }.

(** A response: [JSON.stringify(body, null, 2)] is kept as the body it
    prints; [None] is the [null] body of the preflight answer. *)
Record response := {
  status : nat;
  headers : object jsstring;
  body : option value
}.

Definition CORS_HEADERS : object jsstring :=
  [ (js "Access-Control-Allow-Origin", js "*");
    (js "Access-Control-Allow-Methods", js "GET, OPTIONS");
    (js "Access-Control-Allow-Headers", js "Content-Type") ].

(** [jsonResponse] *)
Definition jsonResponse (body : value) (status : nat) : response :=
  {| status := status;
     headers := (js "Content-Type", js "application/json") :: CORS_HEADERS;
     body := Some body |}.

Definition ENDPOINT_DESCRIPTIONS : object jsstring :=
  [ (js "/about", js "Core identity and professional positioning");
    (js "/narrative", js "Professional story and philosophy");
    (js "/thesis", js "Core professional thesis and implications");
    (js "/accomplishments", js "Quantified achievements with evidence");
    (js "/track-record", js "Headline stats with context");
    (js "/experience", js "Role history with contributions");
    (js "/seeking", js "Target roles, org types, what they want");
    (js "/cultural-fit", js "Thrive-in environments and not-right-for signals");
    (js "/skills", js "Expertise: methodologies, technical, domain") ].

(** Truthiness of a run-time value. *)
Definition truthyValue (v : value) : bool :=
  match v with
  | VUndefined | VNull => false
  | VBoolean b => b
  | VNumber n => negb (n =? 0)%N
  | VString s => truthy s
  | VArray _ | VObject _ => true
  end.

(** [a || b] *)
Definition orElse (a b : value) : value := if truthyValue a then a else b.

(** [v?.k], for a name [k] that no prototype defines. *)
Definition member (v : value) (k : jsstring) : value :=
  match v with
  | VObject props => prop props k
  | _ => VUndefined
  end.

Definition SLASH : jschar := 47%N.

(** [s.replace(/\/+$/, empty)]: the slashes that end [s] are removed. *)
Definition stripSlashes (s : jsstring) : jsstring :=
  rev (dropWhile (N.eqb SLASH) (rev s)).

(** What [JSON.parse] reads back from what [JSON.stringify] printed: a
    property that is [undefined] is not printed, an item that is
    [undefined] is printed as [null]. *)
Fixpoint viaJSON (v : value) : value :=
  match v with
  | VArray items =>
      VArray (map (fun i => match i with
                            | VUndefined => VNull
                            | _ => viaJSON i
                            end) items)
  | VObject props =>
      VObject
        ((fix each (l : list (jsstring * value)) : list (jsstring * value) :=
            match l with
            | [] => []
            | (_, VUndefined) :: r => each r
            | (k, x) :: r => (k, viaJSON x) :: each r
            end) props)
  | _ => v
  end.

Section Worker.

(** The nine imported files. *)
Variables aboutData narrativeData thesisData accomplishmentsData
          trackRecordData experienceData seekingData culturalFitData
          skillsData : value.

(** [new Date().toISOString().split("T")[0]], read from the clock. *)
Variable today : jsstring.

(** The text a template literal prints for a value that is no string. *)
Variable display : value -> jsstring.

Definition routes : object value :=
  [ (js "/about", aboutData);
    (js "/narrative", narrativeData);
    (js "/thesis", thesisData);
    (js "/accomplishments", accomplishmentsData);
    (js "/track-record", trackRecordData);
    (js "/experience", experienceData);
    (js "/seeking", seekingData);
    (js "/cultural-fit", culturalFitData);
    (js "/skills", skillsData) ].

(** [`${v}`] *)
Definition text (v : value) : jsstring :=
  match v with VString s => s | _ => display v end.

(** [buildRootResponse] *)
Definition buildRootResponse : value :=
  let name := orElse (member (member aboutData (js "data")) (js "name"))
                     (VString (js "Living Resume")) in
  let endpoints :=
    fold_left
      (fun endpoints path =>
         objSet (js "GET " ++ path)
                (match objGet path ENDPOINT_DESCRIPTIONS with
                 | Some d => if truthy d then d else path
                 | None => path
                 end)
                endpoints)
      (keys routes) [] in
  VObject
    [ (js "name", VString (text name ++ js " Living Resume API"));
      (js "description",
       VString (js "Query this professional profile programmatically"));
      (js "version",
       orElse (member (member aboutData (js "meta")) (js "api_version"))
              (VString (js "1.0.0")));
      (js "last_updated",
       orElse (member (member aboutData (js "meta")) (js "last_updated"))
              (VString today));
      (js "endpoints",
       VObject (map (fun kv => (fst kv, VString (snd kv))) endpoints)) ].

(** The [fetch] handler. *)
Definition fetch (request : request) : response :=
  if jseqb (method request) (js "OPTIONS") then
    {| status := 204; headers := CORS_HEADERS; body := None |}
  else if negb (jseqb (method request) (js "GET")) then
    jsonResponse
      (VObject
         [ (js "error",
            VString (js "Method not allowed. This API only supports GET requests.")) ])
      405
  else
    let stripped := stripSlashes (pathname request) in
    let path := if truthy stripped then stripped else js "/" in
    if jseqb path (js "/") then jsonResponse buildRootResponse 200
    else
      let data := prop routes path in
      if truthyValue data then jsonResponse data 200
      else
        jsonResponse
          (VObject
             [ (js "error", VString (js "Not found"));
               (js "message", VString (js "No endpoint at " ++ path));
               (js "available_endpoints", strings (keys routes)) ])
          404.

End Worker.

End Worker.
Export Worker.

(** ** The deploy tool *)

Module Deploy.

(** [[A-Z_]] *)
Definition isEnvNameChar (c : jschar) : bool :=
  (((65 <=? c) && (c <=? 90)) || (c =? 95))%N.

(** [line.match(/^([A-Z_]+)=(.+)$/)]: the two groups of a match.  The name
    is the longest run of capitals and underscores that starts the line; an
    equals sign follows it, and the value is the rest of the line, which is
    not empty and holds no line terminator. *)
Definition envLine (line : jsstring) : option (jsstring * jsstring) :=
  let name := takeWhile isEnvNameChar line in
  match name, skipn (length name) line with
  | _ :: _, c :: v =>
      if (c =? 61)%N && truthy v
         && forallb (fun x => negb (isLineTerminator x)) v
      then Some (name, v)
      else None
  | _, _ => None
  end.

(** The body of the loop that loads [.env] into [process.env]. *)
Definition envStep (env : object jsstring) (line : jsstring)
  : object jsstring :=
  match envLine line with
  | Some (k, v) =>
      if match objGet k env with Some x => truthy x | None => false end
      then env
      else objDefine k (trim v) env
  | None => env
  end.

(** [for (const line of envContent.split("\n")) { ... }] *)
Definition loadEnvContent (envContent : jsstring) (env : object jsstring)
  : object jsstring :=
  fold_left envStep (split LF envContent) env.

(** [[a-z0-9]] *)
Definition isSlugChar (c : jschar) : bool :=
  (((97 <=? c) && (c <=? 122)) || ((48 <=? c) && (c <=? 57)))%N.

Definition HYPHEN : jschar := 45%N.

(** [s.replace(/^-|-$/g, empty)]: a hyphen that starts [s] and a hyphen that
    ends it are removed. *)
Definition stripHyphens (s : jsstring) : jsstring :=
  let s1 := match s with
            | c :: t => if (c =? HYPHEN)%N then t else s
            | [] => []
            end in
  match rev s1 with
  | c :: r => if (c =? HYPHEN)%N then rev r else s1
  | [] => []
  end.

Section Slug.

(** [String.prototype.toLowerCase], a built-in of the language. *)
Variable toLowerCase : jsstring -> jsstring.

(** The [slug] of [setup]. *)
Definition slug (name : jsstring) : jsstring :=
  stripHyphens
    (replaceRuns (fun c => negb (isSlugChar c)) HYPHEN false (toLowerCase name)).

End Slug.

(** The text [setup] writes to [.env] for the token it was given. *)
Definition tokenFile (token : jsstring) : jsstring :=
  js "CLOUDFLARE_API_TOKEN=" ++ token ++ js "\n".

(** The quotation mark and the dollar sign. *)
Definition QUOTE : jschar := 34%N.
Definition DOLLAR : jschar := 36%N.

(** The start of both patterns, [name\s*=\s*] and a quotation mark, tried
    at the head of [s]: what follows the quotation mark.  Neither [=] nor
    the quotation mark is white space, so each [\s*] takes the whole run of
    white space. *)
Definition nameAssign (s : jsstring) : option jsstring :=
  if startsWith (js "name") s then
    match dropWhile isWhiteSpace (skipn 4 s) with
    | c :: r =>
        if (c =? 61)%N then
          match dropWhile isWhiteSpace r with
          | q :: v => if (q =? QUOTE)%N then Some v else None
          | [] => None
          end
        else None
    | [] => None
    end
  else None.

(** The pattern of [setup], which goes on with a run of code units other
    than the quotation mark and with a quotation mark, tried at the head of
    [s]: what follows the match, which ends with the first quotation mark
    after the one that opens the value. *)
Definition nameRe (s : jsstring) : option jsstring :=
  match nameAssign s with
  | Some v =>
      match dropWhile (fun c => negb (c =? QUOTE)%N) v with
      | _ :: after => Some after
      | [] => None
      end
  | None => None
  end.

(** The replacement text of [String.prototype.replace] with its patterns
    filled in: [$$], [$&], [$`] and the dollar sign with an apostrophe; the
    pattern of [nameRe] has no
    group, so a dollar sign before anything else stands for itself. *)
Fixpoint expand (matched before after : jsstring) (r : jsstring) : jsstring :=
  match r with
  | [] => []
  | c :: t =>
      if (c =? DOLLAR)%N then
        match t with
        | d :: u =>
            if (d =? DOLLAR)%N then DOLLAR :: expand matched before after u
            else if (d =? 38)%N then matched ++ expand matched before after u
            else if (d =? 96)%N then before ++ expand matched before after u
            else if (d =? 39)%N then after ++ expand matched before after u
            else DOLLAR :: expand matched before after t
        | [] => [DOLLAR]
        end
      else c :: expand matched before after t
  end.

(** [s.replace(re, replacement)] for the pattern of [setup]: the first
    match is replaced; [before] is what was passed over. *)
Fixpoint replaceNameFrom (replacement before s : jsstring) : jsstring :=
  match nameRe s with
  | Some after =>
      let matched := firstn (length s - length after) s in
      before ++ expand matched before after replacement ++ after
  | None =>
      match s with
      | [] => before
      | c :: t => replaceNameFrom replacement (before ++ [c]) t
      end
  end.

(** The update of [wrangler.toml] by [setup]. *)
Definition updateWrangler (workerName wranglerContent : jsstring) : jsstring :=
  replaceNameFrom (js "name = " ++ [QUOTE] ++ workerName ++ [QUOTE]) []
                  wranglerContent.

(** The capture of [(.+)] before a quotation mark, tried at the head of
    [v]: [.+] runs to the end of the line and gives back up to the last
    quotation mark of the line; it keeps one code unit at least. *)
Definition quoted (v : jsstring) : option jsstring :=
  let line := takeWhile (fun c => negb (isLineTerminator c)) v in
  match dropWhile (fun c => negb (c =? QUOTE)%N) (rev line) with
  | _ :: r =>
      match rev r with
      | [] => None
      | capture => Some capture
      end
  | [] => None
  end.

(** The capture of the pattern of [deploy], which holds at the start of a
    line only, tried at the head of [s]; [bol] tells whether [^] holds
    there. *)
Definition wranglerNameRe (bol : bool) (s : jsstring) : option jsstring :=
  if bol then
    match nameAssign s with
    | Some v => quoted v
    | None => None
    end
  else None.

(** The capture of the first match of the pattern in [s]. *)
Fixpoint firstName (bol : bool) (s : jsstring) : option jsstring :=
  match wranglerNameRe bol s with
  | Some capture => Some capture
  | None =>
      match s with
      | [] => None
      | c :: t => firstName (isLineTerminator c) t
      end
  end.

(** [wranglerName] of [deploy]: [nameMatch?.[1] || empty]. *)
Definition wranglerName (wranglerContent : jsstring) : jsstring :=
  match firstName true wranglerContent with
  | Some capture => capture
  | None => []
  end.

(** Why [deploy] stops before it calls wrangler. *)
Inductive refusal :=
| WorkerNameNotConfigured
| PlaceholderInWrangler
| WorkerNameMismatch.

(** The two safety checks of [deploy] on the worker name; [wrangler] is the
    content of [wrangler.toml], [None] when the file is not there. *)
Definition checkWorkerName (workerName : jsstring) (wrangler : option jsstring)
  : option refusal :=
  if jseqb workerName (js "living-resume-your-name") || negb (truthy workerName)
  then Some WorkerNameNotConfigured
  else
    match wrangler with
    | Some wranglerContent =>
        let name := wranglerName wranglerContent in
        if jseqb name (js "living-resume-your-name")
        then Some PlaceholderInWrangler
        else if negb (jseqb name workerName) then Some WorkerNameMismatch
        else None
    | None => None
    end.

Section Suggested.

Variable toLowerCase : jsstring -> jsstring.

(** [suggestedWorkerName] of [setup]; [profileData] is what was read from
    [profile-data.json], [None] when the file is not there or is no JSON.
    A name that is no string stops the [try] block before the worker name
    is set. *)
Definition suggestedWorkerName (profileData : option value) : jsstring :=
  match profileData with
  | Some data =>
      match member data (js "name") with
      | VString name =>
          if truthy name then js "living-resume-" ++ slug toLowerCase name
          else js "living-resume-your-name"
      | _ => js "living-resume-your-name"
      end
  | None => js "living-resume-your-name"
  end.

End Suggested.

End Deploy.
Export Deploy.

(** ** The wizard that writes the template *)

Module Wizard.

Module Offer.
Record t := { title : jsstring; description : jsstring }.
End Offer.

Module Financial.
Record t := { accomplishment : jsstring; company : jsstring; value : jsstring }.
End Financial.

Module Stat.
Record t := { stat : jsstring; context : jsstring }.
End Stat.

Module Role.
Record t := {
  title : jsstring;
  company : jsstring;
  dates : jsstring;
  location : jsstring;
  description : jsstring;
  contributions : list jsstring
}.
End Role.

Module OrgType.
Record t := { type : jsstring; whatIBring : jsstring }.
End OrgType.

Module WizardData.
Record t := {
  name : jsstring;
  preferredName : jsstring;
  title : jsstring;
  location : jsstring;
  coreThesis : jsstring;
  theMoment : jsstring;
  whatIOffer : list Offer.t;
  professionalNarrative : jsstring;
  philosophy : jsstring;
  implications : list jsstring;
  financialImpact : list Financial.t;
  operationalScale : list jsstring;
  recognition : list jsstring;
  headlineStats : list Stat.t;
  experience : list Role.t;
  targetRoles : list jsstring;
  reportingRelationship : jsstring;
  organizationTypes : list OrgType.t;
  industry : jsstring;
  thriveIn : list jsstring;
  notRightFor : list jsstring;
  methodologies : list jsstring;
  technical : list jsstring;
  domain : list jsstring
}.
End WizardData.

(** The digits of a number in base ten, most significant first. *)
Fixpoint digits (u : Decimal.uint) : jsstring :=
  match u with
  | Decimal.Nil => []
  | Decimal.D0 r => 48%N :: digits r
  | Decimal.D1 r => 49%N :: digits r
  | Decimal.D2 r => 50%N :: digits r
  | Decimal.D3 r => 51%N :: digits r
  | Decimal.D4 r => 52%N :: digits r
  | Decimal.D5 r => 53%N :: digits r
  | Decimal.D6 r => 54%N :: digits r
  | Decimal.D7 r => 55%N :: digits r
  | Decimal.D8 r => 56%N :: digits r
  | Decimal.D9 r => 57%N :: digits r
  end.

(** [`${n}`] for a number [n] that counts the items of an array. *)
Definition decimal (n : nat) : jsstring := digits (Nat.to_uint n).

(** The em dash of the title line. *)
Definition EMDASH : jschar := 8212%N.

(** The loop over [data.experience]; [i] is the loop counter. *)
Fixpoint roleLoop (i : nat) (roles : list Role.t) : jsstring :=
  match roles with
  | [] => []
  | role :: rest =>
      js "### Role " ++ decimal (i + 1)
         ++ (if i =? 0 then js " (Most Recent)" else []) ++ js "\n\n"
      ++ js "- **Title:** " ++ Role.title role ++ js "\n"
      ++ js "- **Company:** " ++ Role.company role ++ js "\n"
      ++ js "- **Dates:** " ++ Role.dates role ++ js "\n"
      ++ js "- **Location:** " ++ Role.location role ++ js "\n"
      ++ js "- **Description:** " ++ Role.description role ++ js "\n"
      ++ js "- **Key Contributions:**\n"
      ++ flat_map (fun contribution => js "  - " ++ contribution ++ js "\n")
                  (Role.contributions role)
      ++ js "\n"
      ++ roleLoop (S i) rest
  end.

(** A loop that writes one bullet line for each item. *)
Definition bullets (items : list jsstring) : jsstring :=
  flat_map (fun item => js "- " ++ item ++ js "\n") items.

(** [generateTemplate]: each line appends what the statement of the source
    on the same place appends to [template]. *)
Definition generateTemplate (data : WizardData.t) : jsstring :=
  js "# Living Resume API " ++ [EMDASH] ++ js " Your Professional Profile\n\n"
  ++ js "> Fill in each section below. This file becomes your Living Resume API.\n"
  ++ js "> Every section maps directly to an API endpoint that machines, recruiters,\n"
  ++ js "> and AI agents can query about you.\n\n"
  ++ js "---\n\n"
  (* About *)
  ++ js "## About\n\n"
  ++ js "**Name:** " ++ WizardData.name data ++ js "\n\n"
  ++ js "**Preferred Name:** " ++ WizardData.preferredName data ++ js "\n\n"
  ++ js "**Title:** " ++ WizardData.title data ++ js "\n\n"
  ++ js "**Location:** " ++ WizardData.location data ++ js "\n\n"
  ++ js "**Core Thesis:**\n" ++ WizardData.coreThesis data ++ js "\n\n"
  ++ js "**The Moment:**\n" ++ WizardData.theMoment data ++ js "\n\n"
  ++ js "### What I Offer\n\n"
  ++ flat_map (fun item =>
                 js "- **Title:** " ++ Offer.title item ++ js "\n"
                 ++ js "  **Description:** " ++ Offer.description item ++ js "\n\n")
              (WizardData.whatIOffer data)
  ++ js "---\n\n"
  (* Narrative *)
  ++ js "## Narrative\n\n"
  ++ js "**Professional Narrative:**\n" ++ WizardData.professionalNarrative data
  ++ js "\n\n"
  ++ js "**Philosophy:**\n" ++ WizardData.philosophy data ++ js "\n\n"
  ++ js "---\n\n"
  (* Thesis *)
  ++ js "## Thesis\n\n"
  ++ js "**Core Thesis:**\n" ++ WizardData.coreThesis data ++ js "\n\n"
  ++ js "**The Moment:**\n" ++ WizardData.theMoment data ++ js "\n\n"
  ++ js "### Implications\n\n"
  ++ bullets (WizardData.implications data)
  ++ js "\n---\n\n"
  (* Accomplishments *)
  ++ js "## Accomplishments\n\n"
  ++ js "### Financial Impact\n\n"
  ++ js "| Accomplishment | Company | Value |\n"
  ++ js "|----------------|---------|-------|\n"
  ++ flat_map (fun item =>
                 js "| " ++ Financial.accomplishment item ++ js " | "
                 ++ Financial.company item ++ js " | "
                 ++ Financial.value item ++ js " |\n")
              (WizardData.financialImpact data)
  ++ js "\n### Operational Scale\n\n"
  ++ bullets (WizardData.operationalScale data)
  ++ js "\n### Recognition & Innovation\n\n"
  ++ (if 0 <? length (WizardData.recognition data)
      then bullets (WizardData.recognition data)
      else js "- <!-- Add recognition items if applicable -->\n")
  ++ js "\n---\n\n"
  (* Track Record *)
  ++ js "## Track Record\n\n"
  ++ js "### Headline Stats\n\n"
  ++ js "| Stat | Context |\n"
  ++ js "|------|---------|\n"
  ++ flat_map (fun item =>
                 js "| " ++ Stat.stat item ++ js " | " ++ Stat.context item
                 ++ js " |\n")
              (WizardData.headlineStats data)
  ++ js "\n---\n\n"
  (* Experience *)
  ++ js "## Experience\n\n"
  ++ roleLoop 0 (WizardData.experience data)
  ++ js "---\n\n"
  (* Seeking *)
  ++ js "## Seeking\n\n"
  ++ js "**Target Roles:**\n"
  ++ bullets (WizardData.targetRoles data)
  ++ js "\n**Reporting Relationship:**\n"
  ++ WizardData.reportingRelationship data ++ js "\n\n"
  ++ js "### Organization Types\n\n"
  ++ js "| Organization Type | What I Bring |\n"
  ++ js "|-------------------|--------------|\n"
  ++ flat_map (fun org =>
                 js "| " ++ OrgType.type org ++ js " | " ++ OrgType.whatIBring org
                 ++ js " |\n")
              (WizardData.organizationTypes data)
  ++ js "\n**Industry:**\n" ++ WizardData.industry data ++ js "\n\n"
  ++ js "---\n\n"
  (* Cultural Fit *)
  ++ js "## Cultural Fit\n\n"
  ++ js "### I Thrive In\n\n"
  ++ bullets (WizardData.thriveIn data)
  ++ js "\n### Not Right For\n\n"
  ++ bullets (WizardData.notRightFor data)
  ++ js "\n---\n\n"
  (* Skills *)
  ++ js "## Skills\n\n"
  ++ js "### Methodologies\n\n"
  ++ bullets (WizardData.methodologies data)
  ++ js "\n### Technical\n\n"
  ++ bullets (WizardData.technical data)
  ++ js "\n### Domain Expertise\n\n"
  ++ bullets (WizardData.domain data)
  ++ js "\n".

(** [Partial<WizardData>]: [None] is a property that is not there. *)
Module PartialData.
Record t := {
  name : option jsstring;
  preferredName : option jsstring;
  title : option jsstring;
  location : option jsstring;
  coreThesis : option jsstring;
  theMoment : option jsstring;
  whatIOffer : option (list Offer.t);
  professionalNarrative : option jsstring;
  philosophy : option jsstring;
  implications : option (list jsstring);
  financialImpact : option (list Financial.t);
  operationalScale : option (list jsstring);
  recognition : option (list jsstring);
  headlineStats : option (list Stat.t);
  experience : option (list Role.t);
  targetRoles : option (list jsstring);
  reportingRelationship : option jsstring;
  organizationTypes : option (list OrgType.t);
  industry : option jsstring;
  thriveIn : option (list jsstring);
  notRightFor : option (list jsstring);
  methodologies : option (list jsstring);
  technical : option (list jsstring);
  domain : option (list jsstring)
}.
End PartialData.

(** The leftwards arrow. *)
Definition ARROW : jschar := 8592%N.

(** [PH], the placeholder marker. *)
Definition PH : jsstring := ARROW :: js " REPLACE THIS".

(** [x || d] for a text [x] that may be missing. *)
Definition orText (x : option jsstring) (d : jsstring) : jsstring :=
  match x with
  | Some s => if truthy s then s else d
  | None => d
  end.

(** [if (x && x.length > 0) { loop } else { otherwise }], both branches
    appending to the template. *)
Definition ifItems {A : Type} (x : option (list A)) (loop : list A -> jsstring)
           (otherwise : jsstring) : jsstring :=
  match x with
  | Some l => if 0 <? length l then loop l else otherwise
  | None => otherwise
  end.

(** [generateTemplateFromPartial]: each line appends what the statement of
    the source on the same place appends to [t]. *)
Definition generateTemplateFromPartial (data : PartialData.t) : jsstring :=
  js "# Living Resume API " ++ [EMDASH] ++ js " Your Professional Profile\n\n"
  ++ js "> Your wizard answers are filled in below. Replace any "
  ++ [QUOTE; ARROW] ++ js " REPLACE THIS" ++ [QUOTE] ++ js "\n"
  ++ js "> placeholder with your own content, then run: bun run deploy\n\n"
  ++ js "---\n\n"
  (* About *)
  ++ js "## About\n\n"
  ++ js "**Name:** " ++ orText (PartialData.name data) (js "Your Name " ++ PH)
  ++ js "\n\n"
  ++ js "**Preferred Name:** "
  ++ orText (PartialData.preferredName data) (js "Your Nickname " ++ PH)
  ++ js "\n\n"
  ++ js "**Title:** "
  ++ orText (PartialData.title data) (js "VP, Your Specialty " ++ PH)
  ++ js "\n\n"
  ++ js "**Location:** "
  ++ orText (PartialData.location data) (js "City, State " ++ PH)
  ++ js "\n\n"
  ++ js "**Core Thesis:**\n"
  ++ orText (PartialData.coreThesis data)
            (js "Your big idea about how your industry should work. " ++ PH)
  ++ js "\n\n"
  ++ js "**The Moment:**\n"
  ++ orText (PartialData.theMoment data)
            (js "The experience that crystallized your thesis. " ++ PH)
  ++ js "\n\n"
  ++ js "### What I Offer\n\n"
  ++ ifItems (PartialData.whatIOffer data)
       (flat_map (fun item =>
                    js "- **Title:** " ++ Offer.title item ++ js "\n"
                    ++ js "  **Description:** " ++ Offer.description item
                    ++ js "\n\n"))
       (js "- **Title:** Capability Area 1 " ++ PH ++ js "\n"
        ++ js "  **Description:** What you deliver in this area " ++ PH
        ++ js "\n\n"
        ++ js "- **Title:** Capability Area 2 " ++ PH ++ js "\n"
        ++ js "  **Description:** What you deliver in this area " ++ PH
        ++ js "\n\n")
  ++ js "---\n\n"
  (* Narrative *)
  ++ js "## Narrative\n\n"
  ++ js "**Professional Narrative:**\n"
  ++ orText (PartialData.professionalNarrative data)
            (js "Your career story in 1-2 paragraphs. Not a list of jobs "
             ++ [EMDASH] ++ js " how does each chapter build on the last? "
             ++ PH)
  ++ js "\n\n"
  ++ js "**Philosophy:**\n"
  ++ orText (PartialData.philosophy data)
            (js "Your operating philosophy in 1-2 sentences. " ++ PH)
  ++ js "\n\n"
  ++ js "---\n\n"
  (* Thesis *)
  ++ js "## Thesis\n\n"
  ++ js "**Core Thesis:**\n"
  ++ orText (PartialData.coreThesis data) (js "Same as About section. " ++ PH)
  ++ js "\n\n"
  ++ js "**The Moment:**\n"
  ++ orText (PartialData.theMoment data) (js "Same as About section. " ++ PH)
  ++ js "\n\n"
  ++ js "### Implications\n\n"
  ++ ifItems (PartialData.implications data) bullets
       (js "- What follows logically from your thesis " ++ [EMDASH]
        ++ js " implication 1 " ++ PH ++ js "\n"
        ++ js "- Another logical consequence of your worldview " ++ PH
        ++ js "\n")
  ++ js "\n---\n\n"
  (* Accomplishments *)
  ++ js "## Accomplishments\n\n"
  ++ js "### Financial Impact\n\n"
  ++ js "| Accomplishment | Company | Value |\n"
  ++ js "|----------------|---------|-------|\n"
  ++ ifItems (PartialData.financialImpact data)
       (flat_map (fun item =>
                    js "| " ++ Financial.accomplishment item ++ js " | "
                    ++ Financial.company item ++ js " | "
                    ++ Financial.value item ++ js " |\n"))
       (js "| What you did " ++ PH ++ js " | Company Name " ++ PH
        ++ js " | $X savings " ++ PH ++ js " |\n")
  ++ js "\n### Operational Scale\n\n"
  ++ ifItems (PartialData.operationalScale data) bullets
       (js "- Scale metric, e.g. " ++ [QUOTE]
        ++ js "Managed 5,000 agents across 8 centers" ++ [QUOTE] ++ js " "
        ++ PH ++ js "\n")
  ++ js "\n### Recognition & Innovation\n\n"
  ++ ifItems (PartialData.recognition data) bullets
       (js "- Awards, certifications, or publications " ++ PH ++ js "\n")
  ++ js "\n---\n\n"
  (* Track Record *)
  ++ js "## Track Record\n\n"
  ++ js "### Headline Stats\n\n"
  ++ js "| Stat | Context |\n"
  ++ js "|------|---------|\n"
  ++ ifItems (PartialData.headlineStats data)
       (flat_map (fun item =>
                    js "| " ++ Stat.stat item ++ js " | " ++ Stat.context item
                    ++ js " |\n"))
       (js "| $50M+ " ++ PH ++ js " | Total documented cost savings " ++ PH
        ++ js " |\n"
        ++ js "| 20+ years " ++ PH ++ js " | Industry experience " ++ PH
        ++ js " |\n")
  ++ js "\n---\n\n"
  (* Experience *)
  ++ js "## Experience\n\n"
  ++ ifItems (PartialData.experience data) (roleLoop 0)
       (js "### Role 1 (Most Recent)\n\n"
        ++ js "- **Title:** Your Title " ++ PH ++ js "\n"
        ++ js "- **Company:** Company Name " ++ PH ++ js "\n"
        ++ js "- **Dates:** 2021 - Present " ++ PH ++ js "\n"
        ++ js "- **Location:** City, State " ++ PH ++ js "\n"
        ++ js "- **Description:** What you did in this role " ++ PH ++ js "\n"
        ++ js "- **Key Contributions:**\n"
        ++ js "  - Key achievement or contribution " ++ PH ++ js "\n"
        ++ js "  - Another key contribution " ++ PH ++ js "\n\n")
  ++ js "---\n\n"
  (* Seeking *)
  ++ js "## Seeking\n\n"
  ++ js "**Target Roles:**\n"
  ++ ifItems (PartialData.targetRoles data) bullets
       (js "- VP, Your Specialty " ++ PH ++ js "\n"
        ++ js "- Another target title " ++ PH ++ js "\n")
  ++ js "\n**Reporting Relationship:**\n"
  ++ orText (PartialData.reportingRelationship data)
            (js "Who you expect to report to " ++ PH)
  ++ js "\n\n"
  ++ js "### Organization Types\n\n"
  ++ js "| Organization Type | What I Bring |\n"
  ++ js "|-------------------|--------------|\n"
  ++ ifItems (PartialData.organizationTypes data)
       (flat_map (fun org =>
                    js "| " ++ OrgType.type org ++ js " | "
                    ++ OrgType.whatIBring org ++ js " |\n"))
       (js "| Fortune 500 " ++ PH ++ js " | What you bring to this type " ++ PH
        ++ js " |\n")
  ++ js "\n**Industry:**\n"
  ++ orText (PartialData.industry data) (js "Target industries " ++ PH)
  ++ js "\n\n"
  ++ js "---\n\n"
  (* Cultural Fit *)
  ++ js "## Cultural Fit\n\n"
  ++ js "### I Thrive In\n\n"
  ++ ifItems (PartialData.thriveIn data) bullets
       (js "- Environments where you do your best work " ++ PH ++ js "\n"
        ++ js "- Another environment trait " ++ PH ++ js "\n")
  ++ js "\n### Not Right For\n\n"
  ++ ifItems (PartialData.notRightFor data) bullets
       (js "- Environments that aren't a good match " ++ PH ++ js "\n"
        ++ js "- Another environment to avoid " ++ PH ++ js "\n")
  ++ js "\n---\n\n"
  (* Skills *)
  ++ js "## Skills\n\n"
  ++ js "### Methodologies\n\n"
  ++ ifItems (PartialData.methodologies data) bullets
       (js "- Six Sigma, Lean, etc. " ++ PH ++ js "\n")
  ++ js "\n### Technical\n\n"
  ++ ifItems (PartialData.technical data) bullets
       (js "- Tools, languages, platforms " ++ PH ++ js "\n")
  ++ js "\n### Domain Expertise\n\n"
  ++ ifItems (PartialData.domain data) bullets
       (js "- Your areas of deep knowledge " ++ PH ++ js "\n")
  ++ js "\n".

End Wizard.
Export Wizard.

(** ** The check of the live endpoints *)

Module Verify.

(** [Config], the object of [config.json]. *)
Module Config.
Record t := {
  name : jsstring;
  worker_name : jsstring;
  template_path : option jsstring
}.
End Config.

(** [getWorkerURL] *)
Definition getWorkerURL (workerName : jsstring) : jsstring :=
  js "https://" ++ workerName ++ js ".tedlango.workers.dev".

(** What [await fetch(url)] comes to: the promise is rejected, or a
    response arrives.  [json] is what [res.json()] resolves to, [None] when
    that promise is rejected. *)
Inductive fetched :=
| Rejected
| Responded (status : nat) (json : option value).

(** [res.ok] *)
Definition ok (status : nat) : bool := (200 <=? status) && (status <=? 299).

Definition MAX_RETRIES : nat := 3.
Definition DELAYS : list nat := [5; 10; 15].

(** [Object.keys(v)] for a value other than [null] and [undefined]: the
    names of an object, the indices of an array or of a string. *)
Definition objectKeys (v : value) : list jsstring :=
  match v with
  | VObject props => keys props
  | VArray items => map decimal (seq 0 (length items))
  | VString s => map decimal (seq 0 (length s))
  | _ => []
  end.

(** [e.replace(x, empty)] for a string [x]: its first occurrence is
    removed. *)
Definition removeFirst (x e : jsstring) : jsstring :=
  match indexOf x e with
  | Some i => firstn i e ++ skipn (i + length x) e
  | None => e
  end.

(** [Object.keys(rootData.endpoints ?? {}).map(...)]; [None] is the
    exception of reading a property of [null]. *)
Definition listedEndpoints (rootData : value) : option (list jsstring) :=
  match rootData with
  | VNull | VUndefined => None
  | _ =>
      let endpoints :=
        match member rootData (js "endpoints") with
        | VNull | VUndefined => VObject []
        | e => e
        end in
      Some (map (removeFirst (js "GET ")) (objectKeys endpoints))
  end.

Section Verify.

(** The world outside: [fetch] and the passing of time change it. *)
Variable World : Type.
Variable fetch : World -> jsstring -> fetched * World.

(** [await new Promise((r) => setTimeout(r, ms))] *)
Variable sleep : World -> nat -> World.

(** The loop over the endpoints; [failed] is the counter. *)
Fixpoint checkEndpoints (baseUrl : jsstring) (endpoints : list jsstring)
         (failed : nat) (w : World) : nat * World :=
  match endpoints with
  | [] => (failed, w)
  | endpoint :: rest =>
      let (res, w) := fetch w (baseUrl ++ endpoint) in
      match res with
      | Responded status _ =>
          if ok status then checkEndpoints baseUrl rest failed w
          else checkEndpoints baseUrl rest (S failed) w
      | Rejected => checkEndpoints baseUrl rest (S failed) w
      end
  end.

(** The loop over the attempts, from [attempt] on; [n] attempts are left.
    What is said on the console is left out. *)
Fixpoint attempts (baseUrl : jsstring) (n attempt : nat) (w : World)
  : bool * World :=
  match n with
  | 0 => (false, w)
  | S n' =>
      let w := if attempt =? 0 then sleep w (nth 0 DELAYS 0 * 1000) else w in
      let (rootRes, w) := fetch w baseUrl in
      (* [continue] after a wait, or the answer [last] at the last attempt *)
      let again (last : bool) :=
        if attempt <? MAX_RETRIES - 1
        then attempts baseUrl n' (S attempt)
                      (sleep w (nth (attempt + 1) DELAYS 0 * 1000))
        else (last, w) in
      match rootRes with
      | Rejected => again true
      | Responded status json =>
          if negb (ok status) then again false
          else
            match json with
            | None => again true
            | Some rootData =>
                match listedEndpoints rootData with
                | None => again true
                | Some endpoints =>
                    let (failed, w) := checkEndpoints baseUrl endpoints 0 w in
                    (failed =? 0, w)
                end
            end
      end
  end.

(** [verify]; [config] is what [loadConfig] returns. *)
Definition verify (config : option Config.t) (w : World) : bool * World :=
  match config with
  | None => (false, w)
  | Some config =>
      attempts (getWorkerURL (Config.worker_name config)) MAX_RETRIES 0 w
  end.

End Verify.

End Verify.
Export Verify.


(** ** Vocabulary of the properties *)

Module Spec.

(** [m] holds at position [i] of [s] and at no earlier position. *)
Definition firstAt (m : jsstring -> bool) (s : jsstring) (i : nat) : Prop :=
  i <= length s /\ m (skipn i s) = true /\
  forall j, j < i -> m (skipn j s) = false.

(** [m] holds nowhere in [s]. *)
Definition nowhere (m : jsstring -> bool) (s : jsstring) : Prop :=
  forall j, m (skipn j s) = false.

(** The boundaries of a field: the next field marker in paragraph style or
    in bulleted style, a level-3 heading, a horizontal rule. *)
Definition fieldBoundary (s : jsstring) : bool :=
  startsWith (js "\n**") s || startsWith (js "\n- **") s
  || headingRe s || startsWith (js "\n---") s.

(** [e] is where the field that starts [after] ends: at the earliest
    boundary, or at the end of the span when there is none. *)
Definition earliestBoundary (after : jsstring) (e : nat) : Prop :=
  e <= length after /\
  (forall j, j < e -> fieldBoundary (skipn j after) = false) /\
  (e = length after \/ fieldBoundary (skipn e after) = true).

(** [raw] holds an annotation span: a [<!--] that a [-->] closes. *)
Definition hasCommentSpan (raw : jsstring) : bool :=
  match search (fun s => startsWith (js "<!--") s
                         && includes (js "-->") (skipn 4 s)) raw with
  | Some _ => true
  | None => false
  end.

(** [raw] is nothing but annotation spans and white space. *)
Inductive placeholderOnly : jsstring -> Prop :=
| po_end : placeholderOnly []
| po_space c s :
    isWhiteSpace c = true -> placeholderOnly s -> placeholderOnly (c :: s)
| po_span body s :
    firstAt (startsWith (js "-->")) (body ++ js "-->" ++ s) (length body) ->
    placeholderOnly s ->
    placeholderOnly (js "<!--" ++ body ++ js "-->" ++ s).

(** What one line of a list gives: the cleaned text of a bullet line, when
    it is not empty and does not start an unclosed annotation. *)
Definition lineItem (line : jsstring) : option jsstring :=
  let trimmed := trim line in
  if isBullet trimmed then
    let val := cleanValue (skipn 2 trimmed) in
    if keepsItem val then Some val else None
  else None.


(** A blank line, a heading line or a rule line. *)
Definition stopsList (line : jsstring) : bool :=
  negb (isBullet (trim line)) && isStopper (trim line).



(** A line of a table: it starts with a pipe once trimmed. *)
Definition isPipeLine (l : jsstring) : bool := startsWith (js "|") l.

(** The lines of the table body: up to the first line that is no pipe line. *)
Fixpoint tableLines (lines : list jsstring) : list jsstring :=
  match lines with
  | l :: r => if isPipeLine l then l :: tableLines r else []
  | [] => []
  end.

(** The row object of a line: the header names, normalised, zipped by
    position with the cells; a row that is too short is filled up with
    empty strings, a row that is too long is cut. *)
Definition zipRow (toLowerCase : jsstring -> jsstring)
           (headers cells : list jsstring) : object jsstring :=
  fold_left (fun row kv => objSet (fst kv) (snd kv) row)
            (combine (map (headerKey toLowerCase) headers)
                     (cells ++ repeat [] (length headers)))
            [].

(** The rows of a table whose header cells are [headers] and whose lines
    after the separator are [dataLines]. *)
Definition rowsOf (toLowerCase : jsstring -> jsstring)
           (headers : list jsstring) (dataLines : list jsstring)
  : list (object jsstring) :=
  map (zipRow toLowerCase headers)
      (filter (fun cells => negb (forallb blankCell cells))
              (map parseTableRow (tableLines dataLines))).

(** [toLowerCase] on text made of ASCII characters, where the built-in
    turns the letters A to Z into a to z and keeps the rest. *)
Definition toLowerCaseAscii (s : jsstring) : jsstring :=
  map (fun c => if ((65 <=? c) && (c <=? 90))%N then (c + 32)%N else c) s.

(** A string that holds nothing once trimmed. *)
Definition blankString (s : jsstring) : Prop := trim s = [].

(** A record all of whose fields, lists and tables are empty. *)
Definition blankAbout (a : AboutData.t) : Prop :=
  blankString (AboutData.name a) /\ blankString (AboutData.preferred_name a) /\
  blankString (AboutData.title a) /\ blankString (AboutData.location a) /\
  blankString (AboutData.core_thesis a) /\ blankString (AboutData.the_moment a) /\
  AboutData.what_i_offer a = [].

Definition blankNarrative (n : NarrativeData.t) : Prop :=
  blankString (NarrativeData.professional_narrative n) /\
  blankString (NarrativeData.philosophy n).

Definition blankThesis (t : ThesisData.t) : Prop :=
  blankString (ThesisData.core_thesis t) /\ blankString (ThesisData.the_moment t) /\
  ThesisData.implications t = [].

Definition blankAccomplishments (a : AccomplishmentsData.t) : Prop :=
  AccomplishmentsData.financial_impact a = [] /\
  AccomplishmentsData.operational_scale a = [] /\
  AccomplishmentsData.recognition_innovation a = [].

Definition blankTrackRecord (t : TrackRecordData.t) : Prop :=
  TrackRecordData.headline_stats t = [] /\ TrackRecordData.financial_impact t = [].

Definition blankExperience (e : ExperienceData.t) : Prop :=
  ExperienceData.experience e = [].

Definition blankSeeking (k : SeekingData.t) : Prop :=
  SeekingData.target_roles k = [] /\
  blankString (SeekingData.reporting_relationship k) /\
  SeekingData.organization_types k = [] /\
  blankString (SeekingData.industry k).

Definition blankCulturalFit (c : CulturalFitData.t) : Prop :=
  CulturalFitData.thrive_in c = [] /\ CulturalFitData.not_right_for c = [].

Definition blankSkills (k : SkillsData.t) : Prop :=
  SkillsData.what_i_offer k = [] /\
  Expertise.methodologies (SkillsData.expertise k) = [] /\
  Expertise.technical (SkillsData.expertise k) = [] /\
  Expertise.domain (SkillsData.expertise k) = [].

(** The nine endpoints, each with what it means for its record to be
    entirely empty. *)
Definition blankness (p : ProfileData.t) : list (jsstring * Prop) :=
  [ (js "about", blankAbout (ProfileData.about p));
    (js "narrative", blankNarrative (ProfileData.narrative p));
    (js "thesis", blankThesis (ProfileData.thesis p));
    (js "accomplishments", blankAccomplishments (ProfileData.accomplishments p));
    (js "track-record", blankTrackRecord (ProfileData.track_record p));
    (js "experience", blankExperience (ProfileData.experience p));
    (js "seeking", blankSeeking (ProfileData.seeking p));
    (js "cultural-fit", blankCulturalFit (ProfileData.cultural_fit p));
    (js "skills", blankSkills (ProfileData.skills p)) ].

(** The directory of endpoints a root payload carries. *)
Definition listingOf (payload : value) : object value :=
  match payload with
  | VObject props =>
      match objGet (js "endpoints") props with
      | Some (VObject l) => l
      | _ => []
      end
  | _ => []
  end.

(** The directory [dir] can take the files of a run: it is a directory, or
    it is missing and lies in a directory; and no name in it is that of a
    directory. *)
Definition takesFiles (fs : FileSystem) (dir : path) : Prop :=
  (fs dir = Some Directory \/ (fs dir = None /\ fs (dirname dir) = Some Directory))
  /\ forall name, fs (dir ++ [name]) <> Some Directory.

(** The directory [dir] is there and no name in it is that of a
    directory: every file of a run can be written. *)
Definition ready (fs : FileSystem) (dir : path) : Prop :=
  fs dir = Some Directory /\ forall name, fs (dir ++ [name]) <> Some Directory.

(** A message, or a file written directly inside [dir]. *)
Definition writesInto (dir : path) (e : event) : Prop :=
  match e with
  | Mkdir _ => False
  | WriteFile p _ => exists name, p = dir ++ [name]
  | Log _ | Error _ => True
  end.

(** The calls of [writeEndpointFiles] once the directory has been seen
    to. *)
Definition afterMkdir (today : jsstring) (profile : ProfileData.t) (dir : path)
           (version : jsstring) : list event :=
  endpointLoop today (objectOfProfile profile) dir version
               (keys (objectOfProfile profile))
  ++ [ WriteFile (dir ++ [js "root.json"]) (rootPayload today profile version);
       Log WroteRoot ].

(** A working directory that holds the file [name] and nothing else. *)
Definition directoryWith (name content : jsstring) : FileSystem :=
  fun p =>
    match p with
    | [] => Some Directory
    | [n] => if jseqb n name then Some (File content) else None
    | _ => None
    end.

(** The keys of an object and, for each, the keys of the record it holds. *)
Definition shape (o : object value) : list (jsstring * list jsstring) :=
  map (fun kv => (fst kv,
                  match snd kv with VObject props => keys props | _ => [] end))
      o.

(** The nine records of [ProfileData] with their fields. *)
Definition profileShape : list (jsstring * list jsstring) :=
  [ (js "about", [js "name"; js "preferred_name"; js "title"; js "location";
                  js "core_thesis"; js "the_moment"; js "what_i_offer"]);
    (js "narrative", [js "professional_narrative"; js "philosophy"]);
    (js "thesis", [js "core_thesis"; js "the_moment"; js "implications"]);
    (js "accomplishments", [js "financial_impact"; js "operational_scale";
                            js "recognition_innovation"]);
    (js "track-record", [js "headline_stats"; js "financial_impact"]);
    (js "experience", [js "experience"]);
    (js "seeking", [js "target_roles"; js "reporting_relationship";
                    js "organization_types"; js "industry"]);
    (js "cultural-fit", [js "thrive_in"; js "not_right_for"]);
    (js "skills", [js "what_i_offer"; js "expertise"]) ].

(** No line of [body] is a top-level heading: [body] neither starts with
    [## ] nor holds it right after a line feed. *)
Definition noHeadingLine (body : jsstring) : Prop :=
  startsWith (js "## ") body = false /\
  nowhere (startsWith (js "\n## ")) body.

(** What follows a section: nothing, or the next top-level heading. *)
Definition nextHeading (post : jsstring) : Prop :=
  post = [] \/ startsWith (js "\n## ") post = true.

(** The section that [afterHeading], the text after a heading marker, holds:
    the second half of [extractSection]. *)
Definition sectionAfter (afterHeading : jsstring) : jsstring :=
  match indexOf (js "\n") afterHeading with
  | None => []
  | Some newlinePos =>
      let sectionContent := skipn (newlinePos + 1) afterHeading in
      match indexOf (js "\n## ") sectionContent with
      | None => trim sectionContent
      | Some nextSection => trim (firstn nextSection sectionContent)
      end
  end.

(** The nine section names. *)
Definition sectionNames : list jsstring :=
  [ js "About"; js "Narrative"; js "Thesis"; js "Accomplishments";
    js "Track Record"; js "Experience"; js "Seeking"; js "Cultural Fit";
    js "Skills" ].

(** The sections each endpoint is built from.  The track record repeats
    the financial impact of the accomplishments and the skills repeat what
    About offers. *)
Definition sourcesTable : list (jsstring * list jsstring) :=
  [ (js "about", [js "About"]);
    (js "narrative", [js "Narrative"]);
    (js "thesis", [js "Thesis"]);
    (js "accomplishments", [js "Accomplishments"]);
    (js "track-record", [js "Track Record"; js "Accomplishments"]);
    (js "experience", [js "Experience"]);
    (js "seeking", [js "Seeking"]);
    (js "cultural-fit", [js "Cultural Fit"]);
    (js "skills", [js "Skills"; js "About"]) ].

(** [pre] is empty or ends with a line feed: what follows opens a line. *)
Definition atLineStart (pre : jsstring) : Prop :=
  pre = [] \/ exists p, pre = p ++ [LF].

(** The last line of [pre] is a heading line of [name]. *)
Definition endsWithHeading (pre name : jsstring) : Prop :=
  exists p t,
    pre = p ++ js "## " ++ name ++ t ++ [LF] /\ ~ In LF t /\ atLineStart p.

(** The section held by [w], the text after a heading marker, when the
    heading line and the next heading both lie inside [w]. *)
Definition closedResult (w : jsstring) : jsstring :=
  match indexOf (js "\n") w with
  | Some i =>
      let sectionContent := skipn (i + 1) w in
      match indexOf (js "\n## ") sectionContent with
      | Some n => trim (firstn n sectionContent)
      | None => []
      end
  | None => []
  end.

(** What [extractSection] answers for the marker [marker] in a document
    made of [u], a section body without heading lines, and [post]: the
    section lies inside [u], or inside [post], or is missing. *)
Definition layoutResult (marker u post : jsstring) : jsstring :=
  match indexOf (LF :: marker) u with
  | Some j => closedResult (skipn (j + 1 + length marker) u)
  | None =>
      match indexOf (LF :: marker) post with
      | Some k => sectionAfter (skipn (k + 1 + length marker) post)
      | None =>
          if startsWith marker u
          then closedResult (skipn (length marker) u)
          else []
      end
  end.

(** The text of a role heading: [### Role], an ordinal that starts with a
    digit, and an annotation that runs to the end of the line. *)
Definition roleHeadingText (h : jsstring) : Prop :=
  exists d r, h = js "### Role " ++ d :: r /\ isDigit d = true /\ ~ In LF r.

(** [b] ends with a line terminator: what follows opens a line. *)
Definition endsLine (b : jsstring) : Prop :=
  exists p c, b = p ++ [c] /\ isLineTerminator c = true.

(** [b] is empty or starts with a line feed. *)
Definition opensLine (b : jsstring) : Prop :=
  b = [] \/ exists b', b = LF :: b'.

(** No line of [b] after its first is a role heading. *)
Definition quietBlock (b : jsstring) : Prop :=
  forall p c q, b = p ++ c :: q -> isLineTerminator c = true ->
                roleRe true q = None.

(** A sequence of role headings, each with the block under it. *)
Fixpoint roleLayout (blocks : list (jsstring * jsstring)) : Prop :=
  match blocks with
  | [] => True
  | (h, b) :: rest =>
      roleHeadingText h /\ opensLine b /\ quietBlock b /\
      (rest = [] \/ endsLine b) /\ roleLayout rest
  end.

(** The text before the first role heading. *)
Definition introLayout (intro : jsstring) (blocks : list (jsstring * jsstring))
  : Prop :=
  roleRe true intro = None /\ quietBlock intro /\
  (blocks = [] \/ intro = [] \/ endsLine intro).

(** The Experience section these make. *)
Definition sectionText (intro : jsstring) (blocks : list (jsstring * jsstring))
  : jsstring :=
  intro ++ flat_map (fun hb => fst hb ++ snd hb) blocks.

(** Whether [^] holds after [x], when it held or not before. *)
Definition bolAfter (bol : bool) (x : jsstring) : bool :=
  fold_left (fun _ c => isLineTerminator c) x bol.

(** [b] put in front of the first piece of a split. *)
Definition prependHead (b : jsstring) (l : list jsstring) : list jsstring :=
  match l with
  | h :: r => (b ++ h) :: r
  | [] => [b]
  end.

(** [quietBlock], decided. *)
Fixpoint quietFrom (b : jsstring) : bool :=
  match b with
  | [] => true
  | c :: q =>
      (negb (isLineTerminator c)
       || match roleRe true q with None => true | Some _ => false end)
      && quietFrom q
  end.

(** The shape of an item of [extractWhatIOffer]: a title that is not empty
    and is no unclosed annotation, both texts on one line and trimmed. *)
Definition offerShape (i : OfferItem.t) : Prop :=
  OfferItem.title i <> [] /\
  startsWith (js "<!--") (OfferItem.title i) = false /\
  ~ In LF (OfferItem.title i) /\ trim (OfferItem.title i) = OfferItem.title i /\
  ~ In LF (OfferItem.description i) /\
  trim (OfferItem.description i) = OfferItem.description i.

(** What the worker imports as the file of the endpoint [e], when the
    files are those [writeEndpointFiles] wrote for [profile]. *)
Definition importedFile (today version : jsstring) (profile : ProfileData.t)
           (e : jsstring) : value :=
  viaJSON (endpointPayload today version e (prop (objectOfProfile profile) e)).

(** The worker built from the files written for [profile]. *)
Definition deployed (today version : jsstring) (profile : ProfileData.t)
           (clock : jsstring) (display : value -> jsstring)
  : request -> response :=
  let file := importedFile today version profile in
  fetch (file (js "about")) (file (js "narrative")) (file (js "thesis"))
        (file (js "accomplishments")) (file (js "track-record"))
        (file (js "experience")) (file (js "seeking"))
        (file (js "cultural-fit")) (file (js "skills")) clock display.

(** *** Texts as lists of lines *)

(** The text whose lines are [ls], each ended by a line feed. *)
Fixpoint unlines (ls : list jsstring) : jsstring :=
  match ls with
  | [] => []
  | l :: r => l ++ LF :: unlines r
  end.

(** The text whose lines are [ls], with a line feed between two lines. *)
Fixpoint joinLines (ls : list jsstring) : jsstring :=
  match ls with
  | [] => []
  | [l] => l
  | l :: r => l ++ LF :: joinLines r
  end.

(** *** Plain text

    The code units that mean nothing to the parser wherever they stand: no
    line terminator and none of [#], [*], [|], [<]. *)
Definition plainChar (c : jschar) : bool :=
  negb (isLineTerminator c)
  && negb ((c =? 35) || (c =? 42) || (c =? 124) || (c =? 60))%N.

(** A plain text: plain code units, no white space at either end. *)
Definition plain (s : jsstring) : Prop :=
  forallb plainChar s = true /\ trim s = s.

(** A plain text that is not empty. *)
Definition filled (s : jsstring) : Prop := plain s /\ s <> [].

(** A plain text that can stand on a line of its own: it does not start
    with a hyphen. *)
Definition plainLine (s : jsstring) : Prop :=
  plain s /\ startsWith (js "-") s = false.

(** *** Lines with holes

    A line of the template: fixed code units and plain texts put in. *)
Inductive tok :=
| C (c : jschar)
| D (d : jsstring).

Fixpoint denote (s : list tok) : jsstring :=
  match s with
  | [] => []
  | C c :: r => c :: denote r
  | D d :: r => match r with [] => d | _ => d ++ denote r end
  end.

(** The texts put into a line are made of plain code units. *)
Fixpoint holesPlain (s : list tok) : Prop :=
  match s with
  | [] => True
  | C _ :: r => holesPlain r
  | D d :: r => forallb plainChar d = true /\ holesPlain r
  end.

(** [f] may hold of [m] once a plain text has eaten a part of it. *)
Fixpoint afterPlain (f : jsstring -> bool) (m : jsstring) : bool :=
  f m || match m with
         | x :: m' => plainChar x && afterPlain f m'
         | [] => false
         end.

(** Whether [m] may start the line [s], whatever the plain texts are. *)
Fixpoint mayStart (s : list tok) (m : jsstring) : bool :=
  match s with
  | [] => match m with [] => true | _ => false end
  | C c :: r =>
      match m with
      | [] => true
      | x :: m' => (x =? c)%N && mayStart r m'
      end
  | D _ :: r => afterPlain (mayStart r) m
  end.

(** Whether [m] may occur in the line [s], whatever the plain texts are. *)
Fixpoint mayInclude (s : list tok) (m : jsstring) : bool :=
  mayStart s m
  || match s with
     | [] => false
     | _ :: r => mayInclude r m
     end.

(** *** Documents made of sections *)

(** The lines of a section: its heading and its body. *)
Definition sectionLines (s : jsstring * list jsstring) : list jsstring :=
  (js "## " ++ fst s) :: snd s.

(** A body that holds no heading line, under a name that fits on a line. *)
Definition calmSection (s : jsstring * list jsstring) : Prop :=
  ~ In LF (fst s) /\ snd s <> [] /\
  Forall (fun l => ~ In LF l) (snd s) /\
  Forall (fun l => startsWith (js "## ") l = false) (snd s).

(** A line that does not end the text of a field. *)
Definition insideField (l : jsstring) : Prop :=
  startsWith (js "**") l = false /\ startsWith (js "- **") l = false /\
  startsWith (js "###") l = false /\ startsWith (js "---") l = false.

(** A line that ends the text of a field. *)
Definition endsField (l : jsstring) : bool :=
  startsWith (js "**") l || startsWith (js "- **") l
  || startsWith (js "### ") l || startsWith (js "---") l.

(** Whether the fixed code units of a line leave out the line feed. *)
Fixpoint fixedNoLF (s : list tok) : bool :=
  match s with
  | [] => true
  | C c :: r => negb (c =? LF)%N && fixedNoLF r
  | D _ :: r => fixedNoLF r
  end.

(** *** The lines of the template

    The lines [generateTemplate] writes for each section, without the blank
    lines that open and close the section. *)

Definition bulletLine (item : jsstring) : jsstring := js "- " ++ item.

Definition offerLines (item : Offer.t) : list jsstring :=
  [ js "- **Title:** " ++ Offer.title item;
    js "  **Description:** " ++ Offer.description item;
    [] ].

Definition aboutLines (data : WizardData.t) : list jsstring :=
  [ js "**Name:** " ++ WizardData.name data; [];
    js "**Preferred Name:** " ++ WizardData.preferredName data; [];
    js "**Title:** " ++ WizardData.title data; [];
    js "**Location:** " ++ WizardData.location data; [];
    js "**Core Thesis:**"; WizardData.coreThesis data; [];
    js "**The Moment:**"; WizardData.theMoment data; [];
    js "### What I Offer"; [] ]
  ++ flat_map offerLines (WizardData.whatIOffer data)
  ++ [ js "---" ].

Definition narrativeLines (data : WizardData.t) : list jsstring :=
  [ js "**Professional Narrative:**"; WizardData.professionalNarrative data; [];
    js "**Philosophy:**"; WizardData.philosophy data; [];
    js "---" ].

Definition thesisLines (data : WizardData.t) : list jsstring :=
  [ js "**Core Thesis:**"; WizardData.coreThesis data; [];
    js "**The Moment:**"; WizardData.theMoment data; [];
    js "### Implications"; [] ]
  ++ map bulletLine (WizardData.implications data)
  ++ [ []; js "---" ].

Definition financialLine (item : Financial.t) : jsstring :=
  js "| " ++ Financial.accomplishment item ++ js " | "
  ++ Financial.company item ++ js " | " ++ Financial.value item ++ js " |".

Definition recognitionLines (items : list jsstring) : list jsstring :=
  match items with
  | [] => [ js "- <!-- Add recognition items if applicable -->" ]
  | _ => map bulletLine items
  end.

Definition accomplishmentsLines (data : WizardData.t) : list jsstring :=
  [ js "### Financial Impact"; [];
    js "| Accomplishment | Company | Value |";
    js "|----------------|---------|-------|" ]
  ++ map financialLine (WizardData.financialImpact data)
  ++ [ []; js "### Operational Scale"; [] ]
  ++ map bulletLine (WizardData.operationalScale data)
  ++ [ []; js "### Recognition & Innovation"; [] ]
  ++ recognitionLines (WizardData.recognition data)
  ++ [ []; js "---" ].

Definition statLine (item : Stat.t) : jsstring :=
  js "| " ++ Stat.stat item ++ js " | " ++ Stat.context item ++ js " |".

Definition trackRecordLines (data : WizardData.t) : list jsstring :=
  [ js "### Headline Stats"; [];
    js "| Stat | Context |";
    js "|------|---------|" ]
  ++ map statLine (WizardData.headlineStats data)
  ++ [ []; js "---" ].

(** The heading of the role that the loop reaches with counter [i]. *)
Definition roleHeading (i : nat) : jsstring :=
  js "### Role " ++ decimal (i + 1) ++ (if i =? 0 then js " (Most Recent)" else []).

(** The lines under the heading of a role. *)
Definition roleBody (role : Role.t) : list jsstring :=
  [ [];
    js "- **Title:** " ++ Role.title role;
    js "- **Company:** " ++ Role.company role;
    js "- **Dates:** " ++ Role.dates role;
    js "- **Location:** " ++ Role.location role;
    js "- **Description:** " ++ Role.description role;
    js "- **Key Contributions:**" ]
  ++ map (fun contribution => js "  - " ++ contribution) (Role.contributions role)
  ++ [ [] ].

Fixpoint roleLines (i : nat) (roles : list Role.t) : list jsstring :=
  match roles with
  | [] => []
  | role :: rest => roleHeading i :: roleBody role ++ roleLines (S i) rest
  end.

Definition experienceLines (data : WizardData.t) : list jsstring :=
  roleLines 0 (WizardData.experience data) ++ [ js "---" ].

Definition orgTypeLine (org : OrgType.t) : jsstring :=
  js "| " ++ OrgType.type org ++ js " | " ++ OrgType.whatIBring org ++ js " |".

Definition seekingLines (data : WizardData.t) : list jsstring :=
  [ js "**Target Roles:**" ]
  ++ map bulletLine (WizardData.targetRoles data)
  ++ [ []; js "**Reporting Relationship:**";
       WizardData.reportingRelationship data; [];
       js "### Organization Types"; [];
       js "| Organization Type | What I Bring |";
       js "|-------------------|--------------|" ]
  ++ map orgTypeLine (WizardData.organizationTypes data)
  ++ [ []; js "**Industry:**"; WizardData.industry data; []; js "---" ].

Definition culturalFitLines (data : WizardData.t) : list jsstring :=
  [ js "### I Thrive In"; [] ]
  ++ map bulletLine (WizardData.thriveIn data)
  ++ [ []; js "### Not Right For"; [] ]
  ++ map bulletLine (WizardData.notRightFor data)
  ++ [ []; js "---" ].

(** The last section ends with its last list; the blank line that opens
    the list belongs to the section only when the list has an item. *)
Definition domainLines (items : list jsstring) : list jsstring :=
  match items with
  | [] => []
  | _ => [] :: map bulletLine items
  end.

Definition skillsLines (data : WizardData.t) : list jsstring :=
  [ js "### Methodologies"; [] ]
  ++ map bulletLine (WizardData.methodologies data)
  ++ [ []; js "### Technical"; [] ]
  ++ map bulletLine (WizardData.technical data)
  ++ [ []; js "### Domain Expertise" ]
  ++ domainLines (WizardData.domain data).

(** The blank lines that close the last section. *)
Definition domainEnd (items : list jsstring) : list jsstring :=
  match items with
  | [] => [ []; [] ]
  | _ => [ [] ]
  end.

Definition skillsEnd (data : WizardData.t) : list jsstring :=
  domainEnd (WizardData.domain data).

Definition headerLines : list jsstring :=
  [ js "# Living Resume API " ++ [EMDASH] ++ js " Your Professional Profile"; [];
    js "> Fill in each section below. This file becomes your Living Resume API.";
    js "> Every section maps directly to an API endpoint that machines, recruiters,";
    js "> and AI agents can query about you."; [];
    js "---"; [] ].

(** The sections of the template, each with the blank lines around it. *)
Definition templateSections (data : WizardData.t)
  : list (jsstring * list jsstring) :=
  [ (js "About", [] :: aboutLines data ++ [[]]);
    (js "Narrative", [] :: narrativeLines data ++ [[]]);
    (js "Thesis", [] :: thesisLines data ++ [[]]);
    (js "Accomplishments", [] :: accomplishmentsLines data ++ [[]]);
    (js "Track Record", [] :: trackRecordLines data ++ [[]]);
    (js "Experience", [] :: experienceLines data ++ [[]]);
    (js "Seeking", [] :: seekingLines data ++ [[]]);
    (js "Cultural Fit", [] :: culturalFitLines data ++ [[]]);
    (js "Skills", [] :: skillsLines data ++ skillsEnd data) ].

(** *** Answers the parser reads back

    What the wizard may be given for the template to be read back as it
    was written. *)
Definition plainOffer (i : Offer.t) : Prop :=
  filled (Offer.title i) /\ filled (Offer.description i).

Definition plainFinancial (r : Financial.t) : Prop :=
  filled (Financial.accomplishment r) /\ plain (Financial.company r)
  /\ plain (Financial.value r).

Definition plainStat (r : Stat.t) : Prop :=
  filled (Stat.stat r) /\ plain (Stat.context r).

Definition plainRole (r : Role.t) : Prop :=
  plain (Role.title r) /\ plain (Role.company r) /\ plain (Role.dates r)
  /\ plain (Role.location r) /\ plain (Role.description r)
  /\ Forall filled (Role.contributions r)
  /\ (Role.title r <> [] \/ Role.company r <> []).

Definition plainOrgType (r : OrgType.t) : Prop :=
  filled (OrgType.type r) /\ plain (OrgType.whatIBring r).

(** A list that is followed by the list [next] in its section must have an
    item when [next] has one: the parser reads an empty list up to the first
    item that follows. *)
Definition guards (items next : list jsstring) : Prop :=
  items <> [] \/ next = [].

Record plainAnswers (data : WizardData.t) : Prop := {
  plain_name : plain (WizardData.name data);
  plain_preferredName : plain (WizardData.preferredName data);
  plain_title : plain (WizardData.title data);
  plain_location : plain (WizardData.location data);
  plain_coreThesis : plainLine (WizardData.coreThesis data);
  plain_theMoment : plainLine (WizardData.theMoment data);
  plain_whatIOffer : Forall plainOffer (WizardData.whatIOffer data);
  plain_professionalNarrative : plainLine (WizardData.professionalNarrative data);
  plain_philosophy : plainLine (WizardData.philosophy data);
  plain_implications : Forall filled (WizardData.implications data);
  plain_financialImpact : Forall plainFinancial (WizardData.financialImpact data);
  plain_operationalScale : Forall filled (WizardData.operationalScale data);
  plain_recognition : Forall filled (WizardData.recognition data);
  plain_headlineStats : Forall plainStat (WizardData.headlineStats data);
  plain_experience : Forall plainRole (WizardData.experience data);
  plain_targetRoles : Forall filled (WizardData.targetRoles data);
  plain_reportingRelationship : plainLine (WizardData.reportingRelationship data);
  plain_organizationTypes : Forall plainOrgType (WizardData.organizationTypes data);
  plain_industry : plainLine (WizardData.industry data);
  plain_thriveIn : Forall filled (WizardData.thriveIn data);
  plain_notRightFor : Forall filled (WizardData.notRightFor data);
  plain_methodologies : Forall filled (WizardData.methodologies data);
  plain_technical : Forall filled (WizardData.technical data);
  plain_domain : Forall filled (WizardData.domain data)
}.

(** What is read for a list that is followed by the list [next]. *)
Definition orNext (items next : list jsstring) : list jsstring :=
  match items with
  | [] => next
  | _ => items
  end.

(** The answers with each list as the parser reads it. *)
Definition listsRead (data : WizardData.t) : WizardData.t :=
  {| WizardData.name := WizardData.name data;
     WizardData.preferredName := WizardData.preferredName data;
     WizardData.title := WizardData.title data;
     WizardData.location := WizardData.location data;
     WizardData.coreThesis := WizardData.coreThesis data;
     WizardData.theMoment := WizardData.theMoment data;
     WizardData.whatIOffer := WizardData.whatIOffer data;
     WizardData.professionalNarrative := WizardData.professionalNarrative data;
     WizardData.philosophy := WizardData.philosophy data;
     WizardData.implications := WizardData.implications data;
     WizardData.financialImpact := WizardData.financialImpact data;
     WizardData.operationalScale :=
       orNext (WizardData.operationalScale data) (WizardData.recognition data);
     WizardData.recognition := WizardData.recognition data;
     WizardData.headlineStats := WizardData.headlineStats data;
     WizardData.experience := WizardData.experience data;
     WizardData.targetRoles := WizardData.targetRoles data;
     WizardData.reportingRelationship := WizardData.reportingRelationship data;
     WizardData.organizationTypes := WizardData.organizationTypes data;
     WizardData.industry := WizardData.industry data;
     WizardData.thriveIn :=
       orNext (WizardData.thriveIn data) (WizardData.notRightFor data);
     WizardData.notRightFor := WizardData.notRightFor data;
     WizardData.methodologies :=
       orNext (WizardData.methodologies data)
              (orNext (WizardData.technical data) (WizardData.domain data));
     WizardData.technical :=
       orNext (WizardData.technical data) (WizardData.domain data);
     WizardData.domain := WizardData.domain data |}.

(** Every list that is followed by another list guards it. *)
Definition guardedLists (data : WizardData.t) : Prop :=
  guards (WizardData.operationalScale data) (WizardData.recognition data)
  /\ guards (WizardData.thriveIn data) (WizardData.notRightFor data)
  /\ guards (WizardData.methodologies data)
            (WizardData.technical data ++ WizardData.domain data)
  /\ guards (WizardData.technical data) (WizardData.domain data).

(** [toLowerCase] on text made of ASCII characters. *)
Definition lowersAscii (toLowerCase : jsstring -> jsstring) : Prop :=
  forall s, forallb (fun c => (c <? 128)%N) s = true ->
            toLowerCase s = toLowerCaseAscii s.

(** The profile that holds the answers given to the wizard. *)
Definition offerOf (i : Offer.t) : OfferItem.t :=
  {| OfferItem.title := Offer.title i;
     OfferItem.description := Offer.description i |}.

Definition financialRowOf (r : Financial.t) : FinancialRow.t :=
  {| FinancialRow.accomplishment := Some (Financial.accomplishment r);
     FinancialRow.company := Some (Financial.company r);
     FinancialRow.value := Some (Financial.value r) |}.

Definition statRowOf (r : Stat.t) : StatRow.t :=
  {| StatRow.stat := Some (Stat.stat r);
     StatRow.context := Some (Stat.context r) |}.

Definition entryOf (r : Role.t) : ExperienceEntry.t :=
  {| ExperienceEntry.title := Role.title r;
     ExperienceEntry.company := Role.company r;
     ExperienceEntry.dates := Role.dates r;
     ExperienceEntry.location := Role.location r;
     ExperienceEntry.description := Role.description r;
     ExperienceEntry.contributions := Role.contributions r |}.

Definition orgTypeRowOf (r : OrgType.t) : OrgTypeRow.t :=
  {| OrgTypeRow.type := Some (OrgType.type r);
     OrgTypeRow.what_i_bring := Some (OrgType.whatIBring r) |}.

Definition profileOf (data : WizardData.t) : ProfileData.t :=
  let whatIOffer := map offerOf (WizardData.whatIOffer data) in
  let financialImpact := map financialRowOf (WizardData.financialImpact data) in
  {| ProfileData.about :=
       {| AboutData.name := WizardData.name data;
          AboutData.preferred_name := WizardData.preferredName data;
          AboutData.title := WizardData.title data;
          AboutData.location := WizardData.location data;
          AboutData.core_thesis := WizardData.coreThesis data;
          AboutData.the_moment := WizardData.theMoment data;
          AboutData.what_i_offer := whatIOffer |};
     ProfileData.narrative :=
       {| NarrativeData.professional_narrative :=
            WizardData.professionalNarrative data;
          NarrativeData.philosophy := WizardData.philosophy data |};
     ProfileData.thesis :=
       {| ThesisData.core_thesis := WizardData.coreThesis data;
          ThesisData.the_moment := WizardData.theMoment data;
          ThesisData.implications := WizardData.implications data |};
     ProfileData.accomplishments :=
       {| AccomplishmentsData.financial_impact := financialImpact;
          AccomplishmentsData.operational_scale := WizardData.operationalScale data;
          AccomplishmentsData.recognition_innovation :=
            WizardData.recognition data |};
     ProfileData.track_record :=
       {| TrackRecordData.headline_stats :=
            map statRowOf (WizardData.headlineStats data);
          TrackRecordData.financial_impact := financialImpact |};
     ProfileData.experience :=
       {| ExperienceData.experience := map entryOf (WizardData.experience data) |};
     ProfileData.seeking :=
       {| SeekingData.target_roles := WizardData.targetRoles data;
          SeekingData.reporting_relationship :=
            WizardData.reportingRelationship data;
          SeekingData.organization_types :=
            map orgTypeRowOf (WizardData.organizationTypes data);
          SeekingData.industry := WizardData.industry data |};
     ProfileData.cultural_fit :=
       {| CulturalFitData.thrive_in := WizardData.thriveIn data;
          CulturalFitData.not_right_for := WizardData.notRightFor data |};
     ProfileData.skills :=
       {| SkillsData.what_i_offer := whatIOffer;
          SkillsData.expertise :=
            {| Expertise.methodologies := WizardData.methodologies data;
               Expertise.technical := WizardData.technical data;
               Expertise.domain := WizardData.domain data |} |} |}.

(** *** The items of What I Offer, block by block *)

(** The item [extractWhatIOffer] reads from one block of the split. *)
Definition offerOfBlock (block : jsstring) : OfferItem.t :=
  {| OfferItem.title := cleanValue (hd [] (split LF block));
     OfferItem.description :=
       match descriptionRe block with
       | Some d => cleanValue d
       | None => []
       end |}.

(** [if (title && !title.startsWith("<!--"))] *)
Definition keepsOffer (item : OfferItem.t) : bool :=
  truthy (OfferItem.title item)
  && negb (startsWith (js "<!--") (OfferItem.title item)).

(** The text of an item after its [- **Title:**]. *)
Definition offerBlock (item : Offer.t) : list jsstring :=
  [ js " " ++ Offer.title item;
    js "  **Description:** " ++ Offer.description item;
    [] ].

(** The blocks of the items: the last one runs to the end of the section. *)
Fixpoint offerBlocks (items : list Offer.t) (tail : jsstring) : list jsstring :=
  match items with
  | [] => []
  | [item] => [unlines (offerBlock item) ++ tail]
  | item :: rest => unlines (offerBlock item) :: offerBlocks rest tail
  end.

(** *** The roles of Experience, block by block *)

(** The text under the heading of a role. *)
Definition roleBlock (role : Role.t) : jsstring := LF :: unlines (roleBody role).

(** The headings of the roles, each with the block under it: the last block
    runs to the end of the section. *)
Fixpoint roleBlocks (i : nat) (roles : list Role.t) (tail : jsstring)
  : list (jsstring * jsstring) :=
  match roles with
  | [] => []
  | [role] => [(roleHeading i, roleBlock role ++ tail)]
  | role :: rest => (roleHeading i, roleBlock role) :: roleBlocks (S i) rest tail
  end.

(** *** Answers to try the wizard and the parser on *)

Definition sampleAnswers : WizardData.t :=
  {| WizardData.name := js "Ada Lovelace";
     WizardData.preferredName := js "Ada";
     WizardData.title := js "Analyst";
     WizardData.location := js "London";
     WizardData.coreThesis := js "Machines compute.";
     WizardData.theMoment := js "Notes, 1843";
     WizardData.whatIOffer :=
       [ {| Offer.title := js "Programs";
            Offer.description := js "First of their kind" |};
         {| Offer.title := js "Vision"; Offer.description := js "Beyond numbers" |} ];
     WizardData.professionalNarrative := js "Mathematician.";
     WizardData.philosophy := js "Poetical science";
     WizardData.implications := [js "Engines can compose"; js "Symbols matter"];
     WizardData.financialImpact :=
       [ {| Financial.accomplishment := js "Notes";
            Financial.company := js "Babbage";
            Financial.value := js "$1" |} ];
     WizardData.operationalScale := [js "One engine"];
     WizardData.recognition := [];
     WizardData.headlineStats :=
       [ {| Stat.stat := js "1"; Stat.context := js "program" |} ];
     WizardData.experience :=
       [ {| Role.title := js "Analyst"; Role.company := js "Engine Co";
            Role.dates := js "1842 - 1843"; Role.location := js "London";
            Role.description := js "Wrote notes";
            Role.contributions := [js "Note G"; js "Bernoulli"] |};
         {| Role.title := js "Student"; Role.company := [];
            Role.dates := []; Role.location := [];
            Role.description := [];
            Role.contributions := [] |} ];
     WizardData.targetRoles := [js "Chief Analyst"];
     WizardData.reportingRelationship := js "The inventor";
     WizardData.organizationTypes :=
       [ {| OrgType.type := js "Labs"; OrgType.whatIBring := js "Rigour" |} ];
     WizardData.industry := js "Computing";
     WizardData.thriveIn := [js "Quiet rooms"];
     WizardData.notRightFor := [js "Noise"];
     WizardData.methodologies := [js "Analysis"];
     WizardData.technical := [js "Punch cards"];
     WizardData.domain := [] |}.

(** Answers with lists left empty in front of lists that are not. *)
Definition sparseAnswers : WizardData.t :=
  {| WizardData.name := js "Ada Lovelace";
     WizardData.preferredName := js "Ada";
     WizardData.title := js "Analyst";
     WizardData.location := js "London";
     WizardData.coreThesis := js "Machines compute.";
     WizardData.theMoment := js "Notes, 1843";
     WizardData.whatIOffer :=
       [ {| Offer.title := js "Programs";
            Offer.description := js "First of their kind" |} ];
     WizardData.professionalNarrative := js "Mathematician.";
     WizardData.philosophy := js "Poetical science";
     WizardData.implications := [js "Engines can compose"];
     WizardData.financialImpact := [];
     WizardData.operationalScale := [];
     WizardData.recognition := [js "Royal notice"];
     WizardData.headlineStats := [];
     WizardData.experience := [];
     WizardData.targetRoles := [js "Chief Analyst"];
     WizardData.reportingRelationship := js "The inventor";
     WizardData.organizationTypes := [];
     WizardData.industry := js "Computing";
     WizardData.thriveIn := [];
     WizardData.notRightFor := [js "Noise"];
     WizardData.methodologies := [];
     WizardData.technical := [];
     WizardData.domain := [js "Number theory"] |}.

(** *** The template of answers that may be missing *)

(** The items given, or else the examples. *)
Definition orItems {A : Type} (x : option (list A)) (examples : list A)
  : list A :=
  match x with
  | Some (i :: l) => i :: l
  | _ => examples
  end.

(** The answers the template of [generateTemplateFromPartial] shows: those
    given, and a text or examples to replace for each one that is missing. *)
Definition shownAnswers (data : PartialData.t) : WizardData.t :=
  {| WizardData.name := orText (PartialData.name data) (js "Your Name " ++ PH);
     WizardData.preferredName :=
       orText (PartialData.preferredName data) (js "Your Nickname " ++ PH);
     WizardData.title :=
       orText (PartialData.title data) (js "VP, Your Specialty " ++ PH);
     WizardData.location :=
       orText (PartialData.location data) (js "City, State " ++ PH);
     WizardData.coreThesis :=
       orText (PartialData.coreThesis data)
              (js "Your big idea about how your industry should work. " ++ PH);
     WizardData.theMoment :=
       orText (PartialData.theMoment data)
              (js "The experience that crystallized your thesis. " ++ PH);
     WizardData.whatIOffer :=
       orItems (PartialData.whatIOffer data)
         [ {| Offer.title := js "Capability Area 1 " ++ PH;
              Offer.description := js "What you deliver in this area " ++ PH |};
           {| Offer.title := js "Capability Area 2 " ++ PH;
              Offer.description := js "What you deliver in this area " ++ PH |} ];
     WizardData.professionalNarrative :=
       orText (PartialData.professionalNarrative data)
              (js "Your career story in 1-2 paragraphs. Not a list of jobs "
               ++ [EMDASH] ++ js " how does each chapter build on the last? "
               ++ PH);
     WizardData.philosophy :=
       orText (PartialData.philosophy data)
              (js "Your operating philosophy in 1-2 sentences. " ++ PH);
     WizardData.implications :=
       orItems (PartialData.implications data)
         [ js "What follows logically from your thesis " ++ [EMDASH]
           ++ js " implication 1 " ++ PH;
           js "Another logical consequence of your worldview " ++ PH ];
     WizardData.financialImpact :=
       orItems (PartialData.financialImpact data)
         [ {| Financial.accomplishment := js "What you did " ++ PH;
              Financial.company := js "Company Name " ++ PH;
              Financial.value := js "$X savings " ++ PH |} ];
     WizardData.operationalScale :=
       orItems (PartialData.operationalScale data)
         [ js "Scale metric, e.g. " ++ [QUOTE]
           ++ js "Managed 5,000 agents across 8 centers" ++ [QUOTE] ++ js " "
           ++ PH ];
     WizardData.recognition :=
       orItems (PartialData.recognition data)
         [ js "Awards, certifications, or publications " ++ PH ];
     WizardData.headlineStats :=
       orItems (PartialData.headlineStats data)
         [ {| Stat.stat := js "$50M+ " ++ PH;
              Stat.context := js "Total documented cost savings " ++ PH |};
           {| Stat.stat := js "20+ years " ++ PH;
              Stat.context := js "Industry experience " ++ PH |} ];
     WizardData.experience :=
       orItems (PartialData.experience data)
         [ {| Role.title := js "Your Title " ++ PH;
              Role.company := js "Company Name " ++ PH;
              Role.dates := js "2021 - Present " ++ PH;
              Role.location := js "City, State " ++ PH;
              Role.description := js "What you did in this role " ++ PH;
              Role.contributions :=
                [ js "Key achievement or contribution " ++ PH;
                  js "Another key contribution " ++ PH ] |} ];
     WizardData.targetRoles :=
       orItems (PartialData.targetRoles data)
         [ js "VP, Your Specialty " ++ PH; js "Another target title " ++ PH ];
     WizardData.reportingRelationship :=
       orText (PartialData.reportingRelationship data)
              (js "Who you expect to report to " ++ PH);
     WizardData.organizationTypes :=
       orItems (PartialData.organizationTypes data)
         [ {| OrgType.type := js "Fortune 500 " ++ PH;
              OrgType.whatIBring := js "What you bring to this type " ++ PH |} ];
     WizardData.industry :=
       orText (PartialData.industry data) (js "Target industries " ++ PH);
     WizardData.thriveIn :=
       orItems (PartialData.thriveIn data)
         [ js "Environments where you do your best work " ++ PH;
           js "Another environment trait " ++ PH ];
     WizardData.notRightFor :=
       orItems (PartialData.notRightFor data)
         [ js "Environments that aren't a good match " ++ PH;
           js "Another environment to avoid " ++ PH ];
     WizardData.methodologies :=
       orItems (PartialData.methodologies data)
         [ js "Six Sigma, Lean, etc. " ++ PH ];
     WizardData.technical :=
       orItems (PartialData.technical data)
         [ js "Tools, languages, platforms " ++ PH ];
     WizardData.domain :=
       orItems (PartialData.domain data)
         [ js "Your areas of deep knowledge " ++ PH ] |}.

(** What the Thesis section shows for a core thesis and a moment. *)
Definition shownCoreThesis (data : PartialData.t) : jsstring :=
  orText (PartialData.coreThesis data) (js "Same as About section. " ++ PH).

Definition shownTheMoment (data : PartialData.t) : jsstring :=
  orText (PartialData.theMoment data) (js "Same as About section. " ++ PH).

(** The profile that holds what the template shows. *)
Definition shownProfile (data : PartialData.t) : ProfileData.t :=
  let p := profileOf (shownAnswers data) in
  {| ProfileData.about := ProfileData.about p;
     ProfileData.narrative := ProfileData.narrative p;
     ProfileData.thesis :=
       {| ThesisData.core_thesis := shownCoreThesis data;
          ThesisData.the_moment := shownTheMoment data;
          ThesisData.implications :=
            ThesisData.implications (ProfileData.thesis p) |};
     ProfileData.accomplishments := ProfileData.accomplishments p;
     ProfileData.track_record := ProfileData.track_record p;
     ProfileData.experience := ProfileData.experience p;
     ProfileData.seeking := ProfileData.seeking p;
     ProfileData.cultural_fit := ProfileData.cultural_fit p;
     ProfileData.skills := ProfileData.skills p |}.

(** The answers as the Thesis section shows them. *)
Definition withThesis (coreThesis theMoment : jsstring) (data : WizardData.t)
  : WizardData.t :=
  {| WizardData.name := WizardData.name data;
     WizardData.preferredName := WizardData.preferredName data;
     WizardData.title := WizardData.title data;
     WizardData.location := WizardData.location data;
     WizardData.coreThesis := coreThesis;
     WizardData.theMoment := theMoment;
     WizardData.whatIOffer := WizardData.whatIOffer data;
     WizardData.professionalNarrative := WizardData.professionalNarrative data;
     WizardData.philosophy := WizardData.philosophy data;
     WizardData.implications := WizardData.implications data;
     WizardData.financialImpact := WizardData.financialImpact data;
     WizardData.operationalScale := WizardData.operationalScale data;
     WizardData.recognition := WizardData.recognition data;
     WizardData.headlineStats := WizardData.headlineStats data;
     WizardData.experience := WizardData.experience data;
     WizardData.targetRoles := WizardData.targetRoles data;
     WizardData.reportingRelationship := WizardData.reportingRelationship data;
     WizardData.organizationTypes := WizardData.organizationTypes data;
     WizardData.industry := WizardData.industry data;
     WizardData.thriveIn := WizardData.thriveIn data;
     WizardData.notRightFor := WizardData.notRightFor data;
     WizardData.methodologies := WizardData.methodologies data;
     WizardData.technical := WizardData.technical data;
     WizardData.domain := WizardData.domain data |}.

Definition partialHeaderLines : list jsstring :=
  [ js "# Living Resume API " ++ [EMDASH] ++ js " Your Professional Profile"; [];
    js "> Your wizard answers are filled in below. Replace any "
    ++ [QUOTE; ARROW] ++ js " REPLACE THIS" ++ [QUOTE];
    js "> placeholder with your own content, then run: bun run deploy"; [];
    js "---"; [] ].

(** The sections of the template of [generateTemplateFromPartial]. *)
Definition partialSections (data : PartialData.t)
  : list (jsstring * list jsstring) :=
  let a := shownAnswers data in
  let t := withThesis (shownCoreThesis data) (shownTheMoment data) a in
  [ (js "About", [] :: aboutLines a ++ [[]]);
    (js "Narrative", [] :: narrativeLines a ++ [[]]);
    (js "Thesis", [] :: thesisLines t ++ [[]]);
    (js "Accomplishments", [] :: accomplishmentsLines a ++ [[]]);
    (js "Track Record", [] :: trackRecordLines a ++ [[]]);
    (js "Experience", [] :: experienceLines a ++ [[]]);
    (js "Seeking", [] :: seekingLines a ++ [[]]);
    (js "Cultural Fit", [] :: culturalFitLines a ++ [[]]);
    (js "Skills", [] :: skillsLines a ++ skillsEnd a) ].

(** Answers of a wizard that was left after its first section. *)
Definition samplePartial : PartialData.t :=
  {| PartialData.name := Some (js "Ada Lovelace");
     PartialData.preferredName := Some (js "Ada");
     PartialData.title := Some (js "Analyst");
     PartialData.location := Some [];
     PartialData.coreThesis := Some (js "Machines compute.");
     PartialData.theMoment := None;
     PartialData.whatIOffer :=
       Some [ {| Offer.title := js "Programs";
                 Offer.description := js "First of their kind" |} ];
     PartialData.professionalNarrative := None;
     PartialData.philosophy := None;
     PartialData.implications := Some [];
     PartialData.financialImpact := None;
     PartialData.operationalScale := None;
     PartialData.recognition := None;
     PartialData.headlineStats := None;
     PartialData.experience := None;
     PartialData.targetRoles := None;
     PartialData.reportingRelationship := None;
     PartialData.organizationTypes := None;
     PartialData.industry := None;
     PartialData.thriveIn := None;
     PartialData.notRightFor := None;
     PartialData.methodologies := None;
     PartialData.technical := None;
     PartialData.domain := None |}.

(** What [fetch] comes to when the worker answers with [r]: [res.json()]
    reads the body that the worker printed. *)
Definition answerOf (r : response) : fetched :=
  Responded (status r)
            (match body r with Some v => Some (viaJSON v) | None => None end).

End Spec.
Export Spec.

(* ================================================================== *)
(** * Part II.  Properties                                             *)
(* ================================================================== *)

(** ** Strings *)

(** Linear arithmetic over lengths of strings. *)
Ltac slia := unfold jsstring, jschar in *; lia.

Section Strings.

Lemma skipn_add_app {A : Type} (a b : list A) (n : nat) :
  skipn (length a + n) (a ++ b) = skipn n b.
Proof. induction a as [|x a IH]; simpl; auto. Qed.

Lemma skipn_length_app {A : Type} (a b : list A) :
  skipn (length a) (a ++ b) = b.
Proof. induction a as [|x a IH]; simpl; auto. Qed.

Lemma firstn_length_app {A : Type} (a b : list A) :
  firstn (length a) (a ++ b) = a.
Proof. induction a as [|x a IH]; simpl; [reflexivity | now rewrite IH]. Qed.

Lemma startsWith_app (p s : jsstring) : startsWith p (p ++ s) = true.
Proof.
  induction p as [|x p IH]; simpl; [reflexivity|].
  now rewrite N.eqb_refl, IH.
Qed.

Lemma startsWith_inv {p s : jsstring} :
  startsWith p s = true -> exists r, s = p ++ r.
Proof.
  revert s; induction p as [|x p IH]; intros s H; simpl in *.
  - now exists s.
  - destruct s as [|y s]; [discriminate|].
    apply andb_true_iff in H as [Hxy Hp].
    apply N.eqb_eq in Hxy; subst y.
    destruct (IH _ Hp) as [r ->]. now exists r.
Qed.

Lemma startsWith_iff (p s : jsstring) :
  startsWith p s = true <-> exists r, s = p ++ r.
Proof.
  split; [apply startsWith_inv|].
  intros [r ->]. apply startsWith_app.
Qed.

Lemma jseqb_eq (a b : jsstring) : jseqb a b = true <-> a = b.
Proof.
  revert b; induction a as [|x a IH]; intros [|y b]; simpl;
    try (split; [discriminate|discriminate]); try tauto.
  rewrite andb_true_iff, N.eqb_eq, IH.
  split; [intros [-> ->]; reflexivity | intros H; injection H; auto].
Qed.

Lemma jseqb_refl (a : jsstring) : jseqb a a = true.
Proof. now apply jseqb_eq. Qed.

Lemma search_head (m : jsstring -> bool) (s : jsstring) :
  m s = true -> search m s = Some 0.
Proof. intros H. destruct s; simpl; now rewrite H. Qed.

Lemma search_Some {m : jsstring -> bool} {s : jsstring} {i : nat} :
  search m s = Some i -> firstAt m s i.
Proof.
  revert i; induction s as [|c t IH]; intros i; simpl.
  - destruct (m []) eqn:E; [|discriminate].
    intros [= <-]. repeat split; auto. intros j Hj; lia.
  - destruct (m (c :: t)) eqn:E.
    + intros [= <-]. repeat split; simpl; auto; [lia | intros j Hj; lia].
    + destruct (search m t) as [k|] eqn:Ek; [|discriminate].
      intros [= <-]. destruct (IH k eq_refl) as (Hk & Hm & Hlt).
      repeat split; simpl; auto; [lia|].
      intros [|j] Hj; simpl; [assumption | apply Hlt; lia].
Qed.

Lemma search_None {m : jsstring -> bool} {s : jsstring} :
  search m s = None -> nowhere m s.
Proof.
  induction s as [|c t IH]; simpl.
  - destruct (m []) eqn:E; [discriminate|].
    intros _ [|j]; assumption.
  - destruct (m (c :: t)) eqn:E; [discriminate|].
    destruct (search m t) eqn:Et; [discriminate|].
    intros _ [|j]; simpl; [assumption | now apply IH].
Qed.

Lemma firstAt_search {m : jsstring -> bool} {s : jsstring} {i : nat} :
  firstAt m s i -> search m s = Some i.
Proof.
  revert i; induction s as [|c t IH]; intros i (Hle & Hm & Hlt); simpl in *.
  - assert (i = 0) by lia; subst. simpl in Hm. now rewrite Hm.
  - destruct i as [|i].
    + simpl in Hm. now rewrite Hm.
    + pose proof (Hlt 0 ltac:(lia)) as H0. simpl in H0. rewrite H0.
      simpl in Hm. rewrite (IH i); [reflexivity|].
      repeat split; [lia | assumption |].
      intros j Hj. apply (Hlt (S j)). lia.
Qed.

Lemma nowhere_search {m : jsstring -> bool} {s : jsstring} :
  nowhere m s -> search m s = None.
Proof.
  intros H. destruct (search m s) as [i|] eqn:E; [|reflexivity].
  apply search_Some in E as (_ & Hm & _). now rewrite H in Hm.
Qed.

Lemma firstAt_unique (m : jsstring -> bool) (s : jsstring) (i j : nat) :
  firstAt m s i -> firstAt m s j -> i = j.
Proof.
  intros Hi Hj. apply firstAt_search in Hi, Hj. congruence.
Qed.

End Strings.

(** ** The field extractor *)

Section Field.

Lemma lower_le (pos : option nat) (e : nat) : lower pos e <= e.
Proof.
  destruct pos as [p|]; simpl; [|lia].
  destruct (p <? e) eqn:E; [apply Nat.ltb_lt in E|]; lia.
Qed.

Lemma lower_le_pos (p e : nat) : lower (Some p) e <= p.
Proof.
  simpl. destruct (p <? e) eqn:E; [lia | apply Nat.ltb_ge in E; lia].
Qed.

Lemma lower_cases (pos : option nat) (e : nat) :
  lower pos e = e \/ pos = Some (lower pos e).
Proof.
  destruct pos as [p|]; simpl; [|now left].
  destruct (p <? e); [now right | now left].
Qed.

(** One update of [endIdx] keeps it an earliest position for the matchers
    seen so far. *)
Lemma lower_step (m seen : jsstring -> bool) (after : jsstring) (e : nat) :
  e <= length after ->
  (forall j, j < e -> seen (skipn j after) = false) ->
  (e = length after \/ seen (skipn e after) = true) ->
  let e' := lower (search m after) e in
  e' <= length after /\
  (forall j, j < e' -> (seen (skipn j after) || m (skipn j after)) = false) /\
  (e' = length after \/ (seen (skipn e' after) || m (skipn e' after)) = true).
Proof.
  intros Hle Hbefore Hat e'.
  assert (He' : e' <= e) by apply lower_le.
  split; [lia|]. split.
  - intros j Hj. rewrite Hbefore by lia. simpl.
    destruct (search m after) as [p|] eqn:Ep.
    + apply search_Some in Ep as (_ & _ & Hlt). apply Hlt.
      pose proof (lower_le_pos p e). unfold e' in Hj. lia.
    + now apply search_None.
  - destruct (lower_cases (search m after) e) as [Heq|Heq]; fold e' in Heq.
    + rewrite Heq. destruct Hat as [->|Hs]; [now left|right].
      now rewrite Hs.
    + right. apply search_Some in Heq as (_ & Hm & _).
      rewrite Hm. apply orb_true_r.
Qed.

Lemma fieldEnd_earliest (after : jsstring) :
  earliestBoundary after (fieldEnd after).
Proof.
  unfold fieldEnd, earliestBoundary, fieldBoundary, indexOf. simpl fold_left.
  set (e0 := length after).
  assert (H0 : e0 <= length after /\
               (forall j, j < e0 -> (fun _ : jsstring => false) (skipn j after) = false) /\
               (e0 = length after \/ (fun _ : jsstring => false) (skipn e0 after) = true))
    by (repeat split; auto).
  destruct H0 as (A0 & B0 & C0).
  pose (s0 := fun _ : jsstring => false).
  pose (s1 := fun s => s0 s || startsWith (js "\n**") s).
  pose (s2 := fun s => s1 s || startsWith (js "\n- **") s).
  pose (s3 := fun s => s2 s || headingRe s).
  destruct (@lower_step (startsWith (js "\n**")) s0 after _ A0 B0 C0) as (A1 & B1 & C1).
  destruct (@lower_step (startsWith (js "\n- **")) s1 after _ A1 B1 C1) as (A2 & B2 & C2).
  destruct (@lower_step headingRe s2 after _ A2 B2 C2) as (A3 & B3 & C3).
  destruct (@lower_step (startsWith (js "\n---")) s3 after _ A3 B3 C3) as (A4 & B4 & C4).
  unfold s3, s2, s1, s0 in *.
  simpl in *. repeat split; [exact A4 | exact B4 | exact C4].
Qed.

End Field.



(** ** Cleaning *)

Section Cleaning.

Lemma dropWhile_all (p : jschar -> bool) (s : jsstring) :
  Forall (fun c => p c = true) s -> dropWhile p s = [].
Proof.
  induction 1 as [|c s Hc _ IH]; simpl; [reflexivity|].
  now rewrite Hc.
Qed.

Lemma trim_blank (s : jsstring) :
  Forall (fun c => isWhiteSpace c = true) s -> trim s = [].
Proof.
  intros H. unfold trim, trimStart, trimEnd.
  now rewrite (@dropWhile_all isWhiteSpace s H).
Qed.

Lemma cleanValue_blank (s : jsstring) :
  Forall (fun c => isWhiteSpace c = true) (stripComments s) ->
  cleanValue s = [].
Proof.
  intros H. unfold cleanValue. now rewrite (trim_blank _ H).
Qed.

Lemma stripCommentsFrom_skip (n : nat) (s : jsstring) :
  stripCommentsFrom n s = stripCommentsFrom 0 (skipn n s).
Proof.
  revert n; induction s as [|c t IH]; intros [|n]; try reflexivity.
  simpl skipn. rewrite <- IH. reflexivity.
Qed.

Lemma stripComments_space (c : jschar) (s : jsstring) :
  isWhiteSpace c = true -> stripComments (c :: s) = c :: stripComments s.
Proof.
  intros Hc.
  assert (E : startsWith (js "<!--") (c :: s) = false).
  { change (startsWith (js "<!--") (c :: s))
      with ((60 =? c)%N && startsWith (js "!--") s).
    destruct (N.eqb_spec 60 c) as [<-|_]; [discriminate Hc | reflexivity]. }
  unfold stripComments. cbn [stripCommentsFrom]. now rewrite E.
Qed.

Lemma stripComments_match (c : jschar) (t : jsstring) (k : nat) :
  startsWith (js "<!--") (c :: t) = true ->
  indexOf (js "-->") (skipn 4 (c :: t)) = Some k ->
  stripComments (c :: t) = stripComments (skipn (3 + k + 3) t).
Proof.
  intros Hs Hk. unfold stripComments. cbn [stripCommentsFrom].
  rewrite Hs, Hk. apply stripCommentsFrom_skip.
Qed.

Lemma stripComments_span (body s : jsstring) :
  firstAt (startsWith (js "-->")) (body ++ js "-->" ++ s) (length body) ->
  stripComments (js "<!--" ++ body ++ js "-->" ++ s) = stripComments s.
Proof.
  intros H. apply firstAt_search in H.
  change (js "<!--" ++ body ++ js "-->" ++ s)
    with (60%N :: [33%N; 45%N; 45%N] ++ body ++ js "-->" ++ s).
  rewrite (@stripComments_match _ _ (length body)); [|reflexivity|exact H].
  f_equal.
  replace (3 + length body + 3) with (length ([33%N; 45%N; 45%N] ++ body ++ js "-->") + 0)
    by (rewrite !length_app; simpl; slia).
  replace ([33%N; 45%N; 45%N] ++ body ++ js "-->" ++ s)
    with (([33%N; 45%N; 45%N] ++ body ++ js "-->") ++ s)
    by (now rewrite <- !app_assoc).
  apply skipn_add_app.
Qed.

Lemma placeholderOnly_strip (raw : jsstring) :
  placeholderOnly raw ->
  Forall (fun c => isWhiteSpace c = true) (stripComments raw).
Proof.
  induction 1 as [|c s Hc _ IH|body s Hfirst _ IH].
  - constructor.
  - rewrite stripComments_space by assumption. now constructor.
  - now rewrite stripComments_span.
Qed.

Lemma bulletLoop_cons (line : jsstring) (rest items : list jsstring) :
  bulletLoop (line :: rest) items =
  if isBullet (trim line) then
    if keepsItem (cleanValue (skipn 2 (trim line)))
    then bulletLoop rest (items ++ [cleanValue (skipn 2 (trim line))])
    else bulletLoop rest items
  else if isStopper (trim line) then
    if 0 <? length items then items else bulletLoop rest items
  else bulletLoop rest items.
Proof. reflexivity. Qed.

Lemma bulletLoop_keeps (lines items : list jsstring) :
  Forall (fun v => keepsItem v = true) items ->
  Forall (fun v => keepsItem v = true) (bulletLoop lines items).
Proof.
  revert items; induction lines as [|line rest IH]; intros items H.
  - assumption.
  - rewrite bulletLoop_cons. destruct (isBullet (trim line)).
    + destruct (keepsItem (cleanValue (skipn 2 (trim line)))) eqn:E.
      * apply IH. apply Forall_app. split; [assumption|]. now repeat constructor.
      * now apply IH.
    + destruct (isStopper (trim line)); [|now apply IH].
      destruct (0 <? length items); [assumption | now apply IH].
Qed.

End Cleaning.

(** C7, as the claim states it, fails: a value that holds an annotation
    span next to real text keeps the text, as a field and as a list item. *)
Lemma annotated_text_is_kept :
  hasCommentSpan (js "Jane <!-- your full name -->") = true /\
  cleanValue (js "Jane <!-- your full name -->") = js "Jane" /\
  extractField (js "**Name:** Jane <!-- your full name -->") (js "Name")
  = js "Jane" /\
  extractBulletList (js "### Technical\n- Rocq <!-- e.g. a tool -->")
                    (js "### Technical")
  = [js "Rocq"].
Proof. vm_compute. repeat split; reflexivity. Qed.

(** C7, amended.  A raw text that is nothing but annotation spans and white
    space cleans to the empty string; no item returned by
    [extractBulletList] is empty or starts with an annotation that was left
    unclosed. *)
Theorem placeholder_only_is_empty :
  (forall raw, placeholderOnly raw -> cleanValue raw = []) /\
  (forall content marker item,
      In item (extractBulletList content marker) ->
      item <> [] /\ startsWith (js "<!--") item = false).
Proof.
  split.
  - intros raw H. apply cleanValue_blank. now apply placeholderOnly_strip.
  - intros content marker item Hin.
    assert (H : Forall (fun v => keepsItem v = true)
                       (extractBulletList content marker)).
    { unfold extractBulletList. destruct (indexOf marker content); [|constructor].
      apply bulletLoop_keeps. constructor. }
    rewrite Forall_forall in H. specialize (H _ Hin).
    unfold keepsItem in H. apply andb_true_iff in H as [Ht Hs].
    split.
    + intros ->. discriminate Ht.
    + now apply negb_true_iff.
Qed.

Lemma placeholder_only_is_empty_witness :
  placeholderOnly (js " <!-- Your full name -->\n") /\
  cleanValue (js " <!-- Your full name -->\n") = [].
Proof.
  assert (H : placeholderOnly (js " <!-- Your full name -->\n")).
  { apply po_space; [reflexivity|].
    apply (@po_span (js " Your full name ") [LF]).
    - apply search_Some. vm_compute. reflexivity.
    - apply po_space; [reflexivity | constructor]. }
  split; [exact H|].
  exact (proj1 placeholder_only_is_empty _ H).
Defined.

(** ** The list extractor *)

Section Lists.







End Lists.




(** ** The table extractor *)

Section Tables.

Variable toLowerCase : jsstring -> jsstring.

Lemma split_nonempty (c : jschar) (s : jsstring) :
  exists h r, split c s = h :: r.
Proof.
  destruct s as [|x s]; simpl; [now exists [], []|].
  destruct (x =? c)%N; [now eexists _, _|].
  destruct (split c s); now eexists _, _.
Qed.

Lemma split_snoc (c : jschar) (s : jsstring) :
  split c (s ++ [c]) = split c s ++ [[]].
Proof.
  induction s as [|x s IH]; simpl.
  - now rewrite N.eqb_refl.
  - destruct (x =? c)%N; [now rewrite IH|].
    rewrite IH. destruct (split_nonempty c s) as (h & r & ->). reflexivity.
Qed.

(** A line that opens and closes with a pipe: the two outer segments are
    empty and the cells are the segments between the pipes. *)
Lemma parseTableRow_outer (middle : jsstring) :
  parseTableRow (PIPE :: middle ++ [PIPE]) = map cleanValue (split PIPE middle).
Proof.
  unfold parseTableRow, sliceInner.
  change (split PIPE (PIPE :: middle ++ [PIPE]))
    with ([] :: split PIPE (middle ++ [PIPE])).
  rewrite split_snoc. simpl tl. now rewrite removelast_last.
Qed.

Lemma pipeLine_includes (l : jsstring) :
  isPipeLine l = true -> includes (js "|") l = true.
Proof.
  unfold isPipeLine, includes, indexOf. intros H.
  now rewrite (search_head _ _ H).
Qed.

Lemma findHeader_cons (l : jsstring) (rest : list jsstring) (i : nat) :
  findHeader (l :: rest) i =
  if isPipeLine l && includes (js "|") l then Some i
  else findHeader rest (S i).
Proof. reflexivity. Qed.

Lemma findHeader_first (before : list jsstring) (header : jsstring)
      (rest : list jsstring) (i : nat) :
  Forall (fun l => isPipeLine l = false) before ->
  isPipeLine header = true ->
  findHeader (before ++ header :: rest) i = Some (i + length before).
Proof.
  intros Hb Hh. revert i.
  induction Hb as [|l before Hl _ IH]; intros i.
  - simpl app. rewrite findHeader_cons, Hh, (pipeLine_includes _ Hh). simpl.
    f_equal. lia.
  - simpl app. rewrite findHeader_cons, Hl. simpl. rewrite IH. f_equal. lia.
Qed.

Lemma findHeader_none (lines : list jsstring) (i : nat) :
  Forall (fun l => isPipeLine l = false) lines -> findHeader lines i = None.
Proof.
  intros H. revert i. induction H as [|l lines Hl _ IH]; intros i.
  - reflexivity.
  - rewrite findHeader_cons, Hl. simpl. apply IH.
Qed.

Lemma skipn_cases {A : Type} (idx : nat) (cells : list A) :
  (skipn idx cells = [] /\ nth_error cells idx = None /\
   skipn (S idx) cells = []) \/
  (exists c cs, skipn idx cells = c :: cs /\ nth_error cells idx = Some c /\
                skipn (S idx) cells = cs).
Proof.
  revert cells; induction idx as [|idx IH]; intros [|x cells].
  - left. auto.
  - right. exists x, cells. auto.
  - left. auto.
  - destruct (IH cells) as [(A1 & A2 & A3)|(c & cs & A1 & A2 & A3)].
    + left. auto.
    + right. exists c, cs. auto.
Qed.

Lemma fillRow_zip (headers : list jsstring) (idx n : nat)
      (cells : list jsstring) (row : object jsstring) :
  length headers <= n ->
  fillRow toLowerCase headers idx cells row =
  fold_left (fun row kv => objSet (fst kv) (snd kv) row)
            (combine (map (headerKey toLowerCase) headers)
                     (skipn idx cells ++ repeat [] n))
            row.
Proof.
  revert idx n row; induction headers as [|h hs IH]; intros idx n row Hn.
  - reflexivity.
  - simpl fillRow. simpl map.
    destruct (skipn_cases idx cells) as [(A1 & A2 & A3)|(c & cs & A1 & A2 & A3)].
    + rewrite A1, A2. destruct n as [|n]; [simpl in Hn; lia|].
      simpl. rewrite (IH (S idx) n) by (simpl in Hn; lia).
      now rewrite A3.
    + rewrite A1, A2. simpl. rewrite (IH (S idx) n) by (simpl in Hn; lia).
      now rewrite A3.
Qed.

Lemma rowLoop_cons (headers : list jsstring) (line : jsstring)
      (lines : list jsstring) (rows : list (object jsstring)) :
  rowLoop toLowerCase headers (line :: lines) rows =
  if negb (isPipeLine line) then rows
  else if forallb blankCell (parseTableRow line)
       then rowLoop toLowerCase headers lines rows
       else rowLoop toLowerCase headers lines
                    (rows ++ [fillRow toLowerCase headers 0 (parseTableRow line) []]).
Proof. reflexivity. Qed.

Lemma rowLoop_rows (headers lines : list jsstring)
      (rows : list (object jsstring)) :
  rowLoop toLowerCase headers lines rows
  = rows ++ rowsOf toLowerCase headers lines.
Proof.
  unfold rowsOf.
  revert rows; induction lines as [|line lines IH]; intros rows.
  - simpl. now rewrite app_nil_r.
  - rewrite rowLoop_cons. cbn [tableLines].
    destruct (isPipeLine line); cbn [negb map filter].
    + destruct (forallb blankCell (parseTableRow line)); cbn [negb map].
      * apply IH.
      * rewrite IH, <- app_assoc. cbn [app]. do 2 f_equal.
        unfold zipRow. rewrite (@fillRow_zip headers 0 (length headers)) by lia.
        reflexivity.
    + now rewrite app_nil_r.
Qed.

Lemma extractTable_found (content marker : jsstring) (idx : nat)
      (before : list jsstring) (header : jsstring) (rest : list jsstring) :
  firstAt (startsWith marker) content idx ->
  map trim (split LF (skipn (idx + length marker) content))
  = before ++ header :: rest ->
  Forall (fun l => isPipeLine l = false) before ->
  isPipeLine header = true ->
  extractTable toLowerCase content marker =
  match parseTableRow header with
  | [] => []
  | headers => rowsOf toLowerCase headers (tl rest)
  end.
Proof.
  intros Hm Hl Hb Hh.
  unfold extractTable, indexOf. rewrite (firstAt_search Hm), Hl.
  rewrite findHeader_first by assumption. simpl Nat.add.
  rewrite nth_middle.
  replace (skipn (length before + 2) (before ++ header :: rest)) with (tl rest).
  2:{ rewrite skipn_add_app. now destruct rest. }
  destruct (parseTableRow header) as [|h hs]; [reflexivity|].
  simpl. apply rowLoop_rows.
Qed.

End Tables.

(** C4, as the claim states it, fails.  When the header line is a lone
    pipe no row is returned, although the line after the separator is a
    pipe line with a cell that is neither empty nor a placeholder. *)
Lemma table_without_header_cells :
  extractTable toLowerCaseAscii (js "### T\n|\n|---|\n| a |") (js "### T") = [] /\
  map trim (split LF (js "\n|\n|---|\n| a |"))
  = [[]; js "|"; js "|---|"; js "| a |"] /\
  parseTableRow (js "| a |") = [js "a"] /\
  forallb blankCell (parseTableRow (js "| a |")) = false.
Proof. vm_compute. repeat split; reflexivity. Qed.

(** C4, amended.  [extractTable] takes the first pipe line after the marker
    as the header and returns no row when that line has no cell between its
    outer pipes.  Otherwise it skips the next line whatever it holds, reads
    the pipe lines that follow up to the first line that is not one, splits
    each at the pipes leaving out the first and the last segment (the two
    empty outer cells of a line that opens and closes with a pipe), drops
    exactly the rows whose cells are all empty or placeholder comments, and
    zips the cells of the others by position with the header names in lower
    case with each run of white space turned into an underscore, missing
    cells reading as empty strings.  The Stat/Context table of the design
    document gives its two rows. *)
Theorem extractTable_rows :
  (forall lower content marker,
      nowhere (startsWith marker) content ->
      extractTable lower content marker = []) /\
  (forall lower content marker idx,
      firstAt (startsWith marker) content idx ->
      let lines := map trim (split LF (skipn (idx + length marker) content)) in
      (Forall (fun l => isPipeLine l = false) lines ->
       extractTable lower content marker = []) /\
      (forall before header rest,
          lines = before ++ header :: rest ->
          Forall (fun l => isPipeLine l = false) before ->
          isPipeLine header = true ->
          extractTable lower content marker =
          match parseTableRow header with
          | [] => []
          | headers => rowsOf lower headers (tl rest)
          end)) /\
  (forall middle,
      parseTableRow (PIPE :: middle ++ [PIPE]) = map cleanValue (split PIPE middle)) /\
  extractTable toLowerCaseAscii
    (js "### Headline Stats\n\n| Stat | Context |\n|------|---------|\n| $50M+ | Savings |\n| 300% | ROI |\n")
    (js "### Headline Stats")
  = [ [(js "stat", js "$50M+"); (js "context", js "Savings")];
      [(js "stat", js "300%"); (js "context", js "ROI")] ].
Proof.
  split; [|split; [|split]].
  - intros lower content marker H. unfold extractTable, indexOf.
    now rewrite (nowhere_search H).
  - intros lower content marker idx H lines. split.
    + intros Hnone. unfold extractTable, indexOf. rewrite (firstAt_search H).
      fold lines. now rewrite findHeader_none.
    + intros before header rest Hl Hb Hh.
      now apply (@extractTable_found lower content marker idx before header rest).
  - apply parseTableRow_outer.
  - vm_compute. reflexivity.
Qed.

Lemma extractTable_rows_witness :
  let content := js "### T\n\n| Organization Type | What I Bring |\nno separator\n| Startup |\n| | |\n| Bank | Scale | more |\n\n| late | row |" in
  firstAt (startsWith (js "### T")) content 0 /\
  extractTable toLowerCaseAscii content (js "### T")
  = [ [(js "organization_type", js "Startup"); (js "what_i_bring", [])];
      [(js "organization_type", js "Bank"); (js "what_i_bring", js "Scale")] ].
Proof.
  intros content.
  assert (H : firstAt (startsWith (js "### T")) content 0).
  { apply search_Some. vm_compute. reflexivity. }
  split; [exact H|].
  rewrite (proj2 (proj1 (proj2 extractTable_rows) toLowerCaseAscii _ _ _ H)
                 [[]; []] (js "| Organization Type | What I Bring |")
                 [js "no separator"; js "| Startup |"; js "| | |";
                  js "| Bank | Scale | more |"; []; js "| late | row |"]).
  - vm_compute. reflexivity.
  - vm_compute. reflexivity.
  - repeat constructor.
  - reflexivity.
Defined.

(** ** File output *)

Section Omission.

Lemma map_empty {A B : Type} (f : A -> B) (l : list A) :
  (length (map f l) =? 0) = true <-> l = [].
Proof. destruct l; simpl; split; intros H; try discriminate; auto. Qed.

Lemma blank_iff (s : jsstring) : jseqb (trim s) [] = true <-> blankString s.
Proof. apply jseqb_eq. Qed.

Ltac blank_record :=
  cbn [isEmptyData strings];
  rewrite ?andb_true_iff, ?blank_iff, ?map_empty;
  intuition auto.

Lemma isEmptyData_about a : isEmptyData (valueOfAbout a) = true <-> blankAbout a.
Proof. unfold valueOfAbout, blankAbout. blank_record. Qed.

Lemma isEmptyData_narrative n :
  isEmptyData (valueOfNarrative n) = true <-> blankNarrative n.
Proof. unfold valueOfNarrative, blankNarrative. blank_record. Qed.

Lemma isEmptyData_thesis t : isEmptyData (valueOfThesis t) = true <-> blankThesis t.
Proof. unfold valueOfThesis, blankThesis. blank_record. Qed.

Lemma isEmptyData_accomplishments a :
  isEmptyData (valueOfAccomplishments a) = true <-> blankAccomplishments a.
Proof. unfold valueOfAccomplishments, blankAccomplishments. blank_record. Qed.

Lemma isEmptyData_trackRecord t :
  isEmptyData (valueOfTrackRecord t) = true <-> blankTrackRecord t.
Proof. unfold valueOfTrackRecord, blankTrackRecord. blank_record. Qed.

Lemma isEmptyData_experience e :
  isEmptyData (valueOfExperience e) = true <-> blankExperience e.
Proof. unfold valueOfExperience, blankExperience. blank_record. Qed.

Lemma isEmptyData_seeking k : isEmptyData (valueOfSeeking k) = true <-> blankSeeking k.
Proof. unfold valueOfSeeking, blankSeeking. blank_record. Qed.

Lemma isEmptyData_culturalFit c :
  isEmptyData (valueOfCulturalFit c) = true <-> blankCulturalFit c.
Proof. unfold valueOfCulturalFit, blankCulturalFit. blank_record. Qed.

Lemma isEmptyData_skills k : isEmptyData (valueOfSkills k) = true <-> blankSkills k.
Proof. unfold valueOfSkills, blankSkills. blank_record. Qed.

(** Each endpoint of [blankness] is a key of the profile object, and its
    record is empty for [isEmptyData] exactly when it is blank. *)
Lemma blankness_sound {p : ProfileData.t} {e : jsstring} {B : Prop} :
  In (e, B) (blankness p) ->
  In e (keys (objectOfProfile p)) /\
  e ++ js ".json" <> js "root.json" /\
  (isEmptyData (prop (objectOfProfile p) e) = true <-> B).
Proof.
  unfold blankness. intros H.
  repeat (destruct H as [H|H];
          [injection H as <- <-;
           split; [vm_compute; tauto|];
           split; [vm_compute; discriminate|]|]).
  - apply isEmptyData_about.
  - apply isEmptyData_narrative.
  - apply isEmptyData_thesis.
  - apply isEmptyData_accomplishments.
  - apply isEmptyData_trackRecord.
  - apply isEmptyData_experience.
  - apply isEmptyData_seeking.
  - apply isEmptyData_culturalFit.
  - apply isEmptyData_skills.
  - destruct H.
Qed.

Variable today : jsstring.

Lemma endpointLoop_files (data : object value) (dir : path)
      (version : jsstring) (endpoints : list jsstring) :
  filesWritten (endpointLoop today data dir version endpoints)
  = map (endpointFile dir)
        (filter (fun e => negb (isEmptyData (prop data e))) endpoints).
Proof.
  induction endpoints as [|e eps IH]; [reflexivity|].
  cbn [endpointLoop filter].
  destruct (isEmptyData (prop data e)); cbn [negb]; simpl; now rewrite IH.
Qed.

Lemma endpointLoop_writes (data : object value) (dir : path)
      (version : jsstring) (endpoints : list jsstring) (e : jsstring) :
  In e endpoints ->
  isEmptyData (prop data e) = false ->
  In (WriteFile (endpointFile dir e)
                (endpointPayload today version e (prop data e)))
     (endpointLoop today data dir version endpoints).
Proof.
  intros Hin He.
  induction endpoints as [|e' eps IH]; [destruct Hin|].
  cbn [endpointLoop].
  destruct Hin as [->|Hin].
  - rewrite He. now left.
  - destruct (isEmptyData (prop data e')); simpl; auto.
Qed.

Lemma endpointFile_inj (dir : path) (a b : jsstring) :
  endpointFile dir a = endpointFile dir b -> a = b.
Proof.
  unfold endpointFile. intros H.
  apply app_inv_head in H. injection H as H.
  now apply app_inv_tail in H.
Qed.

Lemma objGet_objDefine {V : Type} (k k' : jsstring) (v : V) (o : object V) :
  objGet k (objDefine k' v o) = if jseqb k' k then Some v else objGet k o.
Proof.
  induction o as [|[k0 v0] r IH]; simpl.
  - reflexivity.
  - destruct (jseqb k0 k') eqn:E0; simpl.
    + apply jseqb_eq in E0; subst k0. now destruct (jseqb k' k).
    + rewrite IH. destruct (jseqb k0 k) eqn:E1; [|reflexivity].
      apply jseqb_eq in E1; subst k0.
      destruct (jseqb k' k) eqn:E2; [|reflexivity].
      apply jseqb_eq in E2; subst k'. now rewrite jseqb_refl in E0.
Qed.

Lemma jseqb_app (pre a b : jsstring) : jseqb (pre ++ a) (pre ++ b) = jseqb a b.
Proof.
  induction pre as [|x pre IH]; simpl; [reflexivity|].
  now rewrite N.eqb_refl.
Qed.

Lemma fromEntries_lookup {V : Type} (pre : jsstring) (F : jsstring -> V)
      (l : list jsstring) (e : jsstring) (o : object V) :
  objGet (pre ++ e)
         (fold_left (fun o kv => objDefine (fst kv) (snd kv) o)
                    (map (fun e' => (pre ++ e', F e')) l) o)
  = if existsb (fun e' => jseqb e' e) l then Some (F e)
    else objGet (pre ++ e) o.
Proof.
  revert o; induction l as [|e' l IH]; intros o; simpl; [reflexivity|].
  rewrite IH, objGet_objDefine, jseqb_app.
  destruct (jseqb e' e) eqn:E; simpl.
  - apply jseqb_eq in E; subst e'. now destruct (existsb _ l).
  - reflexivity.
Qed.

Lemma existsb_filter (g : jsstring -> bool) (l : list jsstring) (e : jsstring) :
  existsb (fun e' => jseqb e' e) (filter g l)
  = existsb (fun e' => jseqb e' e) l && g e.
Proof.
  induction l as [|x l IH]; simpl; [reflexivity|].
  destruct (g x) eqn:Gx; simpl; rewrite IH.
  - destruct (jseqb x e) eqn:E; simpl; [|reflexivity].
    apply jseqb_eq in E; subst x. now rewrite Gx.
  - destruct (jseqb x e) eqn:E; simpl; [|reflexivity].
    apply jseqb_eq in E; subst x. rewrite Gx. now rewrite andb_false_r.
Qed.

Lemma existsb_In (l : list jsstring) (e : jsstring) :
  In e l -> existsb (fun e' => jseqb e' e) l = true.
Proof.
  intros H. apply existsb_exists. exists e. split; [assumption|apply jseqb_refl].
Qed.

Lemma directory_lookup (data : object value) (endpoints : list jsstring)
      (e : jsstring) :
  In e endpoints ->
  objGet (js "GET /" ++ e) (directory data endpoints)
  = if isEmptyData (prop data e) then None
    else Some (VString (endpointDescription e)).
Proof.
  intros Hin. unfold directory, fromEntries.
  rewrite (@fromEntries_lookup value (js "GET /")
             (fun e => VString (endpointDescription e))).
  rewrite existsb_filter, (@existsb_In endpoints e Hin). simpl.
  now destruct (isEmptyData (prop data e)).
Qed.

End Omission.

(** C6.  For every profile and each of its nine records: when all the
    fields, lists and tables of the record are empty, no endpoint file is
    written for it and the directory of [root.json] does not list it; when
    one of them is not empty, its file is written, with the record as its
    data, and the directory lists it. *)
Theorem empty_records_are_omitted
        (today : jsstring) (fs : FileSystem) (profile : ProfileData.t)
        (outputDir : path) (version : jsstring)
        (endpoint : jsstring) (blank : Prop) :
  In (endpoint, blank) (blankness profile) ->
  let data := objectOfProfile profile in
  let events := writeEndpointFiles today fs profile outputDir version in
  let root := rootPayload today profile version in
  In (WriteFile (outputDir ++ [js "root.json"]) root) events /\
  (blank ->
   ~ In (endpointFile outputDir endpoint) (filesWritten events) /\
   objGet (js "GET /" ++ endpoint) (listingOf root) = None) /\
  (~ blank ->
   In (WriteFile (endpointFile outputDir endpoint)
                 (endpointPayload today version endpoint (prop data endpoint)))
      events /\
   objGet (js "GET /" ++ endpoint) (listingOf root)
   = Some (VString (endpointDescription endpoint))).
Proof.
  intros Hin data events root.
  destruct (blankness_sound Hin) as (Hkey & Hroot & Hblank).
  fold data in Hkey, Hblank.
  assert (Hlist : listingOf root = directory data (keys data)) by reflexivity.
  rewrite Hlist, (@directory_lookup data (keys data) endpoint Hkey).
  unfold events, writeEndpointFiles. fold data.
  split; [|split].
  - apply in_or_app. right. apply in_or_app. right. now left.
  - intros Hb. apply Hblank in Hb. rewrite Hb. split; [|reflexivity].
    unfold filesWritten. rewrite !flat_map_app.
    fold (filesWritten (endpointLoop today data outputDir version (keys data))).
    rewrite endpointLoop_files. intros Hf.
    apply in_app_or in Hf as [Hf|Hf].
    { destruct (existsSync fs outputDir); simpl in Hf; destruct Hf. }
    apply in_app_or in Hf as [Hf|Hf].
    + apply in_map_iff in Hf as (e' & He' & Hin').
      apply endpointFile_inj in He'; subst e'.
      apply filter_In in Hin' as [_ Hne]. now rewrite Hb in Hne.
    + simpl in Hf. destruct Hf as [Hf|[]].
      apply app_inv_head in Hf. injection Hf as Hf. now symmetry in Hf.
  - intros Hnb.
    assert (He : isEmptyData (prop data endpoint) = false).
    { destruct (isEmptyData (prop data endpoint)); [|reflexivity].
      exfalso. apply Hnb. now apply Hblank. }
    rewrite He. split; [|reflexivity].
    apply in_or_app. right. apply in_or_app. left.
    now apply endpointLoop_writes.
Qed.

Lemma empty_records_are_omitted_witness :
  let profile :=
    assemble toLowerCaseAscii (js "## About\n\n**Name:** Jane\n\n## Narrative\n\n") in
  In (js "narrative", blankNarrative (ProfileData.narrative profile))
     (blankness profile) /\
  blankNarrative (ProfileData.narrative profile) /\
  ~ In (endpointFile [js "data"] (js "narrative"))
       (filesWritten (writeEndpointFiles (js "2026-01-01") (fun _ => None)
                                         profile [js "data"] defaultVersion)).
Proof.
  intros profile.
  assert (Hin : In (js "narrative", blankNarrative (ProfileData.narrative profile))
                   (blankness profile)).
  { right. left. reflexivity. }
  assert (Hb : blankNarrative (ProfileData.narrative profile)).
  { split; vm_compute; reflexivity. }
  split; [exact Hin|]. split; [exact Hb|].
  exact (proj1 (proj1 (proj2 (@empty_records_are_omitted
                                (js "2026-01-01") (fun _ => None) profile
                                [js "data"] defaultVersion _ _ Hin)) Hb)).
Defined.

(** ** The command line and the shape of the result *)

Section Runs.

Lemma filesWritten_app (a b : list event) :
  filesWritten (a ++ b) = filesWritten a ++ filesWritten b.
Proof. apply flat_map_app. Qed.

Lemma existsSync_file (fs : FileSystem) (p : path) (raw : jsstring) :
  fs p = Some (File raw) ->
  existsSync fs p = true /\ readFileSync fs p = Some raw.
Proof. intros H. unfold existsSync, readFileSync. now rewrite H. Qed.

Variable toLowerCase : jsstring -> jsstring.
Variable today : jsstring.
Variable stringify : value -> jsstring.

Lemma root_is_written (fs : FileSystem) (profile : ProfileData.t)
      (dir : path) (version : jsstring) :
  In (dir ++ [js "root.json"])
     (filesWritten (writeEndpointFiles today fs profile dir version)).
Proof.
  unfold writeEndpointFiles. rewrite !filesWritten_app.
  apply in_or_app. right. apply in_or_app. right. now left.
Qed.

Lemma main_missing (fs : FileSystem) (argv2 : option jsstring) :
  existsSync fs (mainTemplatePath argv2) = false ->
  main toLowerCase today stringify fs argv2
  = {| trace := [ Log (Parsing (mainTemplatePath argv2));
                  Error (TemplateNotFound (mainTemplatePath argv2));
                  Error FillInTemplateFirst ];
       exitCode := 1 |}.
Proof. intros H. unfold main. now rewrite H. Qed.

End Runs.

(** ** Calls that throw *)

Section Paths.

Lemma patheqb_eq (p q : path) : patheqb p q = true <-> p = q.
Proof.
  revert q; induction p as [|a p IH]; intros [|b q]; cbn [patheqb];
    try (split; [discriminate|discriminate]); [tauto|].
  rewrite andb_true_iff, jseqb_eq, IH. split.
  - now intros [-> ->].
  - intros [= -> ->]. now split.
Qed.

Lemma upward_last (d : path) (x : jsstring) :
  upward (d ++ [x]) = (d ++ [x]) :: upward d.
Proof.
  unfold upward. rewrite rev_app_distr. cbn [rev app upwardFrom].
  now rewrite rev_involutive.
Qed.

Lemma upward_head (d : path) : exists above, upward d = d :: above.
Proof.
  unfold upward. destruct (rev d) as [|x r] eqn:E.
  - exists []. cbn. apply (f_equal (@rev _)) in E.
    rewrite rev_involutive in E. now rewrite E.
  - eexists. cbn [upwardFrom]. rewrite <- E, rev_involutive. reflexivity.
Qed.

Lemma upwardFrom_length (r : path) (q : path) :
  In q (upwardFrom r) -> length q <= length r.
Proof.
  induction r as [|x r IH]; cbn [upwardFrom]; intros [<-|H].
  - reflexivity.
  - destruct H.
  - now rewrite length_rev.
  - apply IH in H. simpl. lia.
Qed.

Lemma upward_length (p q : path) : In q (upward p) -> length q <= length p.
Proof.
  intros H. apply upwardFrom_length in H. now rewrite length_rev in H.
Qed.

Lemma dirname_last (d : path) (x : jsstring) : dirname (d ++ [x]) = d.
Proof. apply removelast_last. Qed.

Lemma longer_differs (d : path) (x : jsstring) : d ++ [x] <> d.
Proof.
  intros H. apply (f_equal (@length _)) in H.
  rewrite length_app in H. simpl in H. lia.
Qed.

Lemma mkdirSync_ready (fs : FileSystem) (dir : path) :
  fs dir = None -> fs (dirname dir) = Some Directory ->
  (forall name, fs (dir ++ [name]) <> Some Directory) ->
  exists fs', mkdirSync fs dir = Some fs' /\ ready fs' dir.
Proof.
  intros Hd Hp Hn.
  assert (Hne : dir <> []).
  { intros E. subst dir. cbn in Hp. congruence. }
  destruct (exists_last Hne) as (d & x & ->).
  rewrite dirname_last in Hp.
  unfold mkdirSync. rewrite upward_last. cbn [nearest]. rewrite Hd.
  destruct (upward_head d) as (above & Ha). rewrite Ha. cbn [nearest]. rewrite Hp.
  eexists. split; [reflexivity|]. split.
  - cbv beta. rewrite Hd. cbn [existsb].
    replace (patheqb (d ++ [x]) (d ++ [x])) with true
      by (symmetry; now apply patheqb_eq).
    reflexivity.
  - intros name. cbv beta. specialize (Hn name).
    destruct (fs ((d ++ [x]) ++ [name])) as [n|] eqn:E; [exact Hn|].
    match goal with
    | |- (if ?b then _ else _) <> _ => destruct b eqn:Ex; [|discriminate]
    end.
    exfalso. apply existsb_exists in Ex as (q & Hq & Heq).
    apply patheqb_eq in Heq. subst q.
    rewrite <- Ha, <- upward_last in Hq. apply upward_length in Hq.
    rewrite !length_app in Hq. simpl in Hq. lia.
Qed.

End Paths.

Section Calls.

Variable stringify : value -> jsstring.

Lemma effect_ready (fs : FileSystem) (dir : path) (e : event) :
  ready fs dir -> writesInto dir e ->
  exists fs', effect stringify fs e = Some fs' /\ ready fs' dir.
Proof.
  intros [Hd Hn] He. destruct e as [p|p v|m|m]; cbn [effect writesInto] in *.
  - destruct He.
  - destruct He as [name ->]. unfold writeFileSync. rewrite dirname_last, Hd.
    exists (put fs (dir ++ [name]) (File (stringify v ++ js "\n"))). split.
    + specialize (Hn name). destruct (fs (dir ++ [name])) as [[c|]|];
        [reflexivity | now contradiction Hn | reflexivity].
    + split.
      * unfold put. destruct (patheqb dir (dir ++ [name])) eqn:E; [|exact Hd].
        apply patheqb_eq in E. symmetry in E. now apply longer_differs in E.
      * intros n. unfold put.
        destruct (patheqb (dir ++ [n]) (dir ++ [name])); [discriminate|apply Hn].
  - now exists fs.
  - now exists fs.
Qed.

Lemma perform_ready (events : list event) (fs : FileSystem) (dir : path) :
  ready fs dir -> Forall (writesInto dir) events ->
  exists fs', perform stringify fs events = (events, Some fs').
Proof.
  revert fs; induction events as [|e events IH]; intros fs Hr Hall.
  - now exists fs.
  - inversion Hall as [|? ? He Hrest]; subst.
    destruct (effect_ready fs dir e Hr He) as (fs1 & E1 & Hr1).
    destruct (IH fs1 Hr1 Hrest) as (fs2 & E2).
    exists fs2. cbn [perform]. now rewrite E1, E2.
Qed.

(** The calls made are the first calls of the script, and all of them when
    none threw. *)
Lemma perform_prefix (events : list event) (fs : FileSystem) :
  exists rest,
    events = fst (perform stringify fs events) ++ rest /\
    (snd (perform stringify fs events) <> None -> rest = []) /\
    (snd (perform stringify fs events) = None -> rest <> []).
Proof.
  revert fs; induction events as [|e events IH]; intros fs.
  - exists []. cbn. repeat split; congruence.
  - cbn [perform]. destruct (effect stringify fs e) as [fs1|].
    + destruct (IH fs1) as (rest & E & Hs & Hn).
      destruct (perform stringify fs1 events) as [made left]. cbn [fst snd] in *.
      exists rest. repeat split; [cbn [app]; now f_equal | exact Hs | exact Hn].
    + exists (e :: events). cbn. repeat split; congruence.
Qed.

(** Where the output directory is a file, no file is written and the first
    write throws. *)
Lemma perform_refused (events : list event) (fs : FileSystem) (dir : path)
      (c : jsstring) :
  fs dir = Some (File c) -> Forall (writesInto dir) events ->
  filesWritten (fst (perform stringify fs events)) = [] /\
  (filesWritten events <> [] -> snd (perform stringify fs events) = None).
Proof.
  intros Hd. induction 1 as [|e events He Hall IH].
  - cbn. split; [reflexivity|congruence].
  - destruct e as [p|p v|m|m]; cbn [perform effect writesInto] in *.
    + destruct He.
    + destruct He as [name ->]. unfold writeFileSync.
      rewrite dirname_last, Hd. cbn. split; [reflexivity|reflexivity].
    + destruct (perform stringify fs events) as [made left].
      cbn [fst snd filesWritten flat_map app] in *. exact IH.
    + destruct (perform stringify fs events) as [made left].
      cbn [fst snd filesWritten flat_map app] in *. exact IH.
Qed.

End Calls.

Section Scripts.

Variable today : jsstring.
Variable stringify : value -> jsstring.

Lemma endpointLoop_into (data : object value) (dir : path)
      (version : jsstring) (endpoints : list jsstring) :
  Forall (writesInto dir) (endpointLoop today data dir version endpoints).
Proof.
  induction endpoints as [|e endpoints IH]; cbn [endpointLoop]; [constructor|].
  destruct (isEmptyData (prop data e)).
  - constructor; [exact I | exact IH].
  - constructor; [now exists (e ++ js ".json")|].
    constructor; [exact I | exact IH].
Qed.

Lemma afterMkdir_into (profile : ProfileData.t) (dir : path) (version : jsstring) :
  Forall (writesInto dir) (afterMkdir today profile dir version).
Proof.
  unfold afterMkdir. apply Forall_app. split; [apply endpointLoop_into|].
  constructor; [now exists (js "root.json")|]. constructor; [exact I|constructor].
Qed.

(** In a directory that can take them, every call of [writeEndpointFiles]
    returns. *)
Lemma perform_takes (fs : FileSystem) (profile : ProfileData.t) (dir : path)
      (version : jsstring) :
  takesFiles fs dir ->
  exists fs',
    perform stringify fs (writeEndpointFiles today fs profile dir version)
    = (writeEndpointFiles today fs profile dir version, Some fs').
Proof.
  intros [[Hd|[Hd Hp]] Hn]; unfold writeEndpointFiles, existsSync; rewrite Hd;
    cbn [negb app]; fold (afterMkdir today profile dir version).
  - apply (perform_ready stringify _ fs dir); [now split | apply afterMkdir_into].
  - destruct (mkdirSync_ready fs dir Hd Hp Hn) as (fs1 & E1 & Hr1).
    destruct (perform_ready stringify _ fs1 dir Hr1 (afterMkdir_into profile dir version))
      as (fs2 & E2).
    exists fs2. cbn [perform effect]. now rewrite E1, E2.
Qed.

Lemma writeEndpointFiles_refused (fs : FileSystem) (profile : ProfileData.t)
      (dir : path) (version : jsstring) (c : jsstring) :
  fs dir = Some (File c) ->
  exists made,
    perform stringify fs (writeEndpointFiles today fs profile dir version)
    = (made, None) /\ filesWritten made = [].
Proof.
  intros Hd. unfold writeEndpointFiles, existsSync. rewrite Hd.
  cbn [negb app]. fold (afterMkdir today profile dir version).
  destruct (perform_refused stringify _ fs dir c Hd (afterMkdir_into profile dir version))
    as [Hf Hn].
  destruct (perform stringify fs (afterMkdir today profile dir version)) as [made left].
  cbn [fst snd] in *. exists made. split; [|exact Hf].
  f_equal. apply Hn. unfold afterMkdir. rewrite filesWritten_app.
  intros H. apply app_eq_nil in H as [_ H]. discriminate H.
Qed.


(** [writeEndpointFiles] prints no error. *)
Lemma endpointLoop_quiet (data : object value) (dir : path)
      (version : jsstring) (endpoints : list jsstring) (m : message) :
  ~ In (Error m) (endpointLoop today data dir version endpoints).
Proof.
  induction endpoints as [|e endpoints IH]; cbn [endpointLoop]; [intros []|].
  destruct (isEmptyData (prop data e)).
  - intros [H|H]; [discriminate H | now apply IH].
  - intros [H|[H|H]]; [discriminate H | discriminate H | now apply IH].
Qed.

Lemma writeEndpointFiles_quiet (fs : FileSystem) (profile : ProfileData.t)
      (dir : path) (version : jsstring) (m : message) :
  ~ In (Error m) (writeEndpointFiles today fs profile dir version).
Proof.
  unfold writeEndpointFiles. intros H.
  apply in_app_or in H as [H|H].
  { destruct (negb (existsSync fs dir)); [destruct H as [H|[]]; discriminate H | destruct H]. }
  apply in_app_or in H as [H|H]; [now apply endpointLoop_quiet in H|].
  destruct H as [H|[H|[]]]; discriminate H.
Qed.

(** Nor does it print the closing message. *)
Lemma endpointLoop_silent (data : object value) (dir : path)
      (version : jsstring) (endpoints : list jsstring) (n : nat) :
  ~ In (Log (Done n)) (endpointLoop today data dir version endpoints).
Proof.
  induction endpoints as [|e endpoints IH]; cbn [endpointLoop]; [intros []|].
  destruct (isEmptyData (prop data e)).
  - intros [H|H]; [discriminate H | now apply IH].
  - intros [H|[H|H]]; [discriminate H | discriminate H | now apply IH].
Qed.

Lemma writeEndpointFiles_silent (fs : FileSystem) (profile : ProfileData.t)
      (dir : path) (version : jsstring) (n : nat) :
  ~ In (Log (Done n)) (writeEndpointFiles today fs profile dir version).
Proof.
  unfold writeEndpointFiles. intros H.
  apply in_app_or in H as [H|H].
  { destruct (negb (existsSync fs dir)); [destruct H as [H|[]]; discriminate H | destruct H]. }
  apply in_app_or in H as [H|H]; [now apply endpointLoop_silent in H|].
  destruct H as [H|[H|[]]]; discriminate H.
Qed.

Lemma perform_quiet (fs : FileSystem) (events : list event) (m : message) :
  ~ In (Error m) events -> ~ In (Error m) (fst (perform stringify fs events)).
Proof.
  intros Hq H. apply Hq.
  destruct (perform_prefix stringify events fs) as (rest & E & _).
  rewrite E. apply in_or_app. now left.
Qed.

End Scripts.

(** C9.  For every input path that does not exist, both entry points print
    the diagnostic that the template was not found, end with a status that
    is not zero and write no file.  A document that exists never gets that
    diagnostic, and is never fatal for what it holds, be it nothing at all:
    where the output directory can take the files, the status is zero and
    [root.json] is written. *)
Theorem missing_template_is_fatal :
  (forall lower today stringify fs argv2,
      existsSync fs (mainTemplatePath argv2) = false ->
      let r := main lower today stringify fs argv2 in
      exitCode r = 1 /\ filesWritten (trace r) = [] /\
      In (Error (TemplateNotFound (mainTemplatePath argv2))) (trace r)) /\
  (forall lower today stringify fs root templatePath,
      existsSync fs templatePath = false ->
      let r := parseCommand lower today stringify fs root templatePath in
      exitCode r = 1 /\ filesWritten (trace r) = [] /\
      In (Error (TemplateNotFound templatePath)) (trace r)) /\
  (forall lower today stringify fs argv2 raw,
      fs (mainTemplatePath argv2) = Some (File raw) ->
      let r := main lower today stringify fs argv2 in
      (forall p, ~ In (Error (TemplateNotFound p)) (trace r)) /\
      (takesFiles fs [js "data"] ->
       exitCode r = 0 /\
       In [js "data"; js "root.json"] (filesWritten (trace r)))) /\
  (forall lower today stringify fs root templatePath raw,
      fs templatePath = Some (File raw) ->
      let r := parseCommand lower today stringify fs root templatePath in
      (forall p, ~ In (Error (TemplateNotFound p)) (trace r)) /\
      (takesFiles fs (root ++ [js "data"]) ->
       exitCode r = 0 /\
       In (root ++ [js "data"; js "root.json"]) (filesWritten (trace r)))).
Proof.
  split; [|split; [|split]].
  - intros lower today stringify fs argv2 H r. unfold r.
    rewrite main_missing by assumption. simpl. auto.
  - intros lower today stringify fs root templatePath H r. unfold r.
    unfold parseCommand, parse. rewrite H. simpl. auto.
  - intros lower today stringify fs argv2 raw H r.
    destruct (existsSync_file _ _ _ H) as [He Hr].
    set (script := writeEndpointFiles today fs (assemble lower raw) [js "data"]
                                      defaultVersion).
    assert (Er : r = match perform stringify fs script with
                     | (made, Some _) =>
                         {| trace :=
                              [Log (Parsing (mainTemplatePath argv2));
                               Log (WritingTo [js "data"])]
                              ++ made ++ [Log (Done 10)];
                            exitCode := 0 |}
                     | (made, None) =>
                         {| trace :=
                              [Log (Parsing (mainTemplatePath argv2));
                               Log (WritingTo [js "data"])] ++ made;
                            exitCode := 1 |}
                     end).
    { unfold r, main, parseTemplate. rewrite He, Hr. reflexivity. }
    split.
    + intros p Hin.
      pose proof (perform_quiet stringify fs script (TemplateNotFound p)
                    (writeEndpointFiles_quiet today fs _ _ _ _)) as Hq.
      rewrite Er in Hin.
      destruct (perform stringify fs script) as [made [left|]];
        cbn [trace fst app In] in *.
      * destruct Hin as [Hin|[Hin|Hin]]; try discriminate Hin.
        apply in_app_or in Hin as [Hin|[Hin|[]]]; [now apply Hq | discriminate Hin].
      * destruct Hin as [Hin|[Hin|Hin]]; try discriminate Hin. now apply Hq.
    + intros Ht.
      destruct (perform_takes today stringify fs (assemble lower raw) [js "data"]
                              defaultVersion Ht) as (fs' & E).
      fold script in E. rewrite Er, E. cbn [trace exitCode].
      split; [reflexivity|].
      rewrite !filesWritten_app. apply in_or_app. right. apply in_or_app. left.
      apply (root_is_written today fs _ [js "data"]).
  - intros lower today stringify fs root templatePath raw H r.
    destruct (existsSync_file _ _ _ H) as [He Hr].
    set (script := writeEndpointFiles today fs (assemble lower raw)
                                      (root ++ [js "data"]) defaultVersion).
    assert (Er : r = match perform stringify fs script with
                     | (made, Some _) =>
                         {| trace := Log (Parsing templatePath) :: made;
                            exitCode := 0 |}
                     | (made, None) =>
                         {| trace := Log (Parsing templatePath)
                                     :: made ++ [Error ParseFailed];
                            exitCode := 1 |}
                     end).
    { unfold r, parseCommand, parse, parseTemplate. rewrite He, Hr.
      cbn [negb]. fold script.
      now destruct (perform stringify fs script) as [made [left|]]. }
    split.
    + intros p Hin.
      pose proof (perform_quiet stringify fs script (TemplateNotFound p)
                    (writeEndpointFiles_quiet today fs _ _ _ _)) as Hq.
      rewrite Er in Hin.
      destruct (perform stringify fs script) as [made [left|]];
        cbn [trace fst app In] in *.
      * destruct Hin as [Hin|Hin]; [discriminate Hin | now apply Hq].
      * destruct Hin as [Hin|Hin]; [discriminate Hin|].
        apply in_app_or in Hin as [Hin|[Hin|[]]]; [now apply Hq | discriminate Hin].
    + intros Ht.
      destruct (perform_takes today stringify fs (assemble lower raw)
                              (root ++ [js "data"]) defaultVersion Ht) as (fs' & E).
      fold script in E. rewrite Er, E. cbn [trace exitCode].
      split; [reflexivity|].
      change (filesWritten (Log (Parsing templatePath) :: script))
        with (filesWritten script).
      replace (root ++ [js "data"; js "root.json"])
        with ((root ++ [js "data"]) ++ [js "root.json"])
        by (now rewrite <- app_assoc).
      apply root_is_written.
Qed.

Lemma missing_template_is_fatal_witness :
  let fs := directoryWith (js "TEMPLATE.md") [] in
  let stringify := fun _ : value => js "{}" in
  let missing := main toLowerCaseAscii (js "2026-01-01") stringify fs
                      (Some (js "nowhere.md")) in
  let r := main toLowerCaseAscii (js "2026-01-01") stringify fs None in
  let r' := parseCommand toLowerCaseAscii (js "2026-01-01") stringify fs
                         [] [js "TEMPLATE.md"] in
  (existsSync fs (mainTemplatePath (Some (js "nowhere.md"))) = false /\
   exitCode missing = 1 /\ filesWritten (trace missing) = [] /\
   In (Error (TemplateNotFound (mainTemplatePath (Some (js "nowhere.md")))))
      (trace missing)) /\
  (fs (mainTemplatePath None) = Some (File []) /\
   takesFiles fs [js "data"] /\
   exitCode r = 0 /\ In [js "data"; js "root.json"] (filesWritten (trace r)) /\
   exitCode r' = 0 /\ In [js "data"; js "root.json"] (filesWritten (trace r'))).
Proof.
  intros fs stringify missing r r'. split.
  - split; [reflexivity|].
    exact (proj1 missing_template_is_fatal toLowerCaseAscii (js "2026-01-01")
                 stringify fs (Some (js "nowhere.md")) eq_refl).
  - assert (Ht : takesFiles fs [js "data"]).
    { split; [right; split; reflexivity | intros name; discriminate]. }
    split; [reflexivity|]. split; [exact Ht|].
    destruct (proj2 (proj1 (proj2 (proj2 missing_template_is_fatal))
                           toLowerCaseAscii (js "2026-01-01") stringify fs None []
                           eq_refl) Ht) as [H1 H2].
    destruct (proj2 (proj2 (proj2 (proj2 missing_template_is_fatal))
                           toLowerCaseAscii (js "2026-01-01") stringify fs []
                           [js "TEMPLATE.md"] [] eq_refl) Ht) as [H3 H4].
    repeat split; assumption.
Defined.

(** C10.  For every document that can be read, [parseTemplate] returns the
    nine records about, narrative, thesis, accomplishments, track-record,
    experience, seeking, cultural-fit and skills, each with all its fields.
    For the empty document every one of the nine is there and is empty; it
    is [writeEndpointFiles] that leaves them out, writing [root.json] only. *)
Theorem parse_result_has_nine_records :
  (forall lower fs templatePath raw,
      fs templatePath = Some (File raw) ->
      exists data,
        parseTemplate lower fs templatePath = Some data /\
        shape (objectOfProfile data) = profileShape) /\
  (forall lower today fs dir version,
      let data := assemble lower [] in
      shape (objectOfProfile data) = profileShape /\
      Forall (fun kv => isEmptyData (snd kv) = true) (objectOfProfile data) /\
      filesWritten (writeEndpointFiles today fs data dir version)
      = [dir ++ [js "root.json"]]).
Proof.
  split.
  - intros lower fs templatePath raw H.
    destruct (existsSync_file _ _ _ H) as [_ Hr].
    exists (assemble lower raw). unfold parseTemplate. rewrite Hr. now split.
  - intros lower today fs dir version data. split; [reflexivity|]. split.
    + vm_compute. repeat constructor.
    + unfold writeEndpointFiles. rewrite !filesWritten_app.
      rewrite endpointLoop_files.
      replace (filter _ (keys (objectOfProfile data))) with (@nil jsstring)
        by (vm_compute; reflexivity).
      destruct (existsSync fs dir); reflexivity.
Qed.

Lemma parse_result_has_nine_records_witness :
  let fs : FileSystem :=
    fun p => if jseqb (hd [] p) (js "TEMPLATE.md")
             then Some (File (js "no headings here\n")) else None in
  exists data,
    parseTemplate toLowerCaseAscii fs [js "TEMPLATE.md"] = Some data /\
    shape (objectOfProfile data) = profileShape.
Proof.
  intros fs.
  exact (proj1 parse_result_has_nine_records toLowerCaseAscii fs
               [js "TEMPLATE.md"] (js "no headings here\n") eq_refl).
Defined.

(** ** The section locator *)

Section Sections.

(** A pattern that opens with [c] and holds no other [c] cannot reach across
    a [c] of the text: it lies before it, starts at it, or lies after it. *)
Lemma startsWith_barrier (c : jschar) (q w v : jsstring) :
  ~ In c q -> startsWith q (w ++ c :: v) = startsWith q w.
Proof.
  revert w; induction q as [|x q IH]; intros w Hq; [reflexivity|].
  assert (Hx : (x =? c)%N = false).
  { apply N.eqb_neq. intros ->. apply Hq. now left. }
  assert (Hq' : ~ In c q) by (intros H; apply Hq; now right).
  destruct w as [|y w]; simpl.
  - now rewrite Hx.
  - now rewrite IH.
Qed.

Lemma indexOf_barrier (c : jschar) (q u v : jsstring) :
  ~ In c q ->
  indexOf (c :: q) (u ++ c :: v) =
  match indexOf (c :: q) u with
  | Some j => Some j
  | None =>
      if startsWith q v then Some (length u)
      else option_map (fun k => length u + 1 + k) (indexOf (c :: q) v)
  end.
Proof.
  intros Hq. unfold indexOf.
  induction u as [|y u IH].
  - simpl. rewrite N.eqb_refl. simpl.
    destruct (startsWith q v); [reflexivity|].
    now destruct (search (startsWith (c :: q)) v).
  - change ((y :: u) ++ c :: v) with (y :: (u ++ c :: v)).
    cbn [search]. rewrite IH.
    change (startsWith (c :: q) (y :: u ++ c :: v))
      with ((c =? y)%N && startsWith q (u ++ c :: v)).
    change (startsWith (c :: q) (y :: u))
      with ((c =? y)%N && startsWith q u).
    rewrite (startsWith_barrier c q u v Hq).
    destruct ((c =? y)%N && startsWith q u); [reflexivity|].
    destruct (search (startsWith (c :: q)) u); [reflexivity|].
    destruct (startsWith q v); [reflexivity|].
    now destruct (search (startsWith (c :: q)) v).
Qed.

Lemma indexOf_absent (c : jschar) (s : jsstring) :
  ~ In c s -> indexOf [c] s = None.
Proof.
  unfold indexOf. induction s as [|y s IH]; intros H; [reflexivity|].
  cbn [search].
  change (startsWith [c] (y :: s)) with ((c =? y)%N && true).
  destruct (N.eqb_spec c y) as [->|_].
  - exfalso. apply H. now left.
  - cbn [andb]. rewrite IH; [reflexivity|]. intros Hin. apply H. now right.
Qed.

(** The first line feed after a stretch without one. *)
Lemma indexOf_newline (line rest : jsstring) :
  ~ In LF line -> indexOf (js "\n") (line ++ LF :: rest) = Some (length line).
Proof.
  intros H. change (js "\n") with [LF].
  rewrite (indexOf_barrier LF [] line rest) by (intros []).
  now rewrite (indexOf_absent LF line H).
Qed.

Lemma noLF_heading : ~ In LF (js "## ").
Proof. intros [H|[H|[H|[]]]]; discriminate H. Qed.

(** Where a section ends: at the heading that follows its body. *)
Lemma indexOf_nextHeading (body post : jsstring) :
  nowhere (startsWith (js "\n## ")) body ->
  nextHeading post ->
  match indexOf (js "\n## ") (body ++ post) with
  | None => trim (body ++ post)
  | Some n => trim (firstn n (body ++ post))
  end = trim body.
Proof.
  intros Hb [->|Hp].
  - rewrite app_nil_r. unfold indexOf. now rewrite (nowhere_search Hb).
  - apply startsWith_inv in Hp as [r ->].
    change (js "\n## " ++ r) with (LF :: js "## " ++ r).
    change (js "\n## ") with (LF :: js "## ").
    rewrite (indexOf_barrier LF (js "## ") body (js "## " ++ r) noLF_heading).
    unfold indexOf at 1. change (LF :: js "## ") with (js "\n## ").
    rewrite (nowhere_search Hb), startsWith_app.
    now rewrite firstn_length_app.
Qed.

Lemma sectionAfter_body (line body post : jsstring) :
  ~ In LF line ->
  nowhere (startsWith (js "\n## ")) body ->
  nextHeading post ->
  sectionAfter (line ++ LF :: body ++ post) = trim body.
Proof.
  intros Hl Hb Hp. unfold sectionAfter.
  rewrite (indexOf_newline line (body ++ post) Hl).
  replace (skipn (length line + 1) (line ++ LF :: body ++ post))
    with (body ++ post).
  2:{ change (line ++ LF :: body ++ post) with (line ++ [LF] ++ body ++ post).
      rewrite app_assoc.
      replace (length line + 1) with (length (line ++ [LF]))
        by (rewrite length_app; reflexivity).
      now rewrite skipn_length_app. }
  now apply indexOf_nextHeading.
Qed.

Lemma extractSection_unfold (content heading : jsstring) :
  extractSection content heading =
  match
    match indexOf (LF :: js "## " ++ heading) content with
    | Some i => Some (i + 1)
    | None => if startsWith (js "## " ++ heading) content then Some 0 else None
    end
  with
  | None => []
  | Some startIdx =>
      sectionAfter (skipn (startIdx + length (js "## " ++ heading)) content)
  end.
Proof. reflexivity. Qed.

End Sections.

(** C2, as the claim states it, fails: the text between the heading line and
    the next heading comes back trimmed, not as it stands in the document. *)
Lemma section_is_trimmed :
  extractSection (js "## About\n" ++ js "\n  Hello  \n" ++ js "\n## Narrative\n")
                 (js "About")
  = js "Hello" /\
  js "Hello" <> js "\n  Hello  \n".
Proof. vm_compute. split; [reflexivity | discriminate]. Qed.

(** C2, amended.  [extractSection] never fails.  It returns the empty string
    when no line of the document starts with [## name].  Otherwise the
    heading line is the first such line that follows a line feed, or, when
    there is none, the line at position zero; and for a body that holds no
    top-level heading line, followed by the next top-level heading or by
    the end of the document, the result is the body with the white space at
    its two ends removed.  A heading line that ends the document without a
    line feed gives the empty string. *)
Theorem extractSection_body :
  (forall content name,
      nowhere (startsWith (LF :: js "## " ++ name)) content ->
      startsWith (js "## " ++ name) content = false ->
      extractSection content name = []) /\
  (forall pre name line body post,
      let content := pre ++ (LF :: js "## " ++ name) ++ line ++ LF :: body ++ post in
      firstAt (startsWith (LF :: js "## " ++ name)) content (length pre) ->
      ~ In LF line -> noHeadingLine body -> nextHeading post ->
      extractSection content name = trim body) /\
  (forall name line body post,
      let content := (js "## " ++ name) ++ line ++ LF :: body ++ post in
      nowhere (startsWith (LF :: js "## " ++ name)) content ->
      ~ In LF line -> noHeadingLine body -> nextHeading post ->
      extractSection content name = trim body) /\
  (forall pre name line,
      let content := pre ++ (LF :: js "## " ++ name) ++ line in
      firstAt (startsWith (LF :: js "## " ++ name)) content (length pre) ->
      ~ In LF line ->
      extractSection content name = []) /\
  (forall name line,
      let content := (js "## " ++ name) ++ line in
      nowhere (startsWith (LF :: js "## " ++ name)) content ->
      ~ In LF line ->
      extractSection content name = []).
Proof.
  split; [|split; [|split; [|split]]].
  - intros content name Hn Hs. rewrite extractSection_unfold.
    unfold indexOf. now rewrite (nowhere_search Hn), Hs.
  - intros pre name line body post content Hf Hl [_ Hb] Hp.
    rewrite extractSection_unfold. unfold indexOf at 1.
    rewrite (firstAt_search Hf).
    replace (skipn (length pre + 1 + length (js "## " ++ name)) content)
      with (line ++ LF :: body ++ post).
    2:{ unfold content. rewrite <- Nat.add_assoc, skipn_add_app.
        change (1 + length (js "## " ++ name))
          with (length (LF :: js "## " ++ name)).
        now rewrite skipn_length_app. }
    now apply sectionAfter_body.
  - intros name line body post content Hn Hl [_ Hb] Hp.
    rewrite extractSection_unfold. unfold indexOf at 1.
    rewrite (nowhere_search Hn).
    unfold content at 1. rewrite startsWith_app.
    unfold content. rewrite Nat.add_0_l, skipn_length_app.
    now apply sectionAfter_body.
  - intros pre name line content Hf Hl.
    rewrite extractSection_unfold. unfold indexOf at 1.
    rewrite (firstAt_search Hf).
    replace (skipn (length pre + 1 + length (js "## " ++ name)) content)
      with line.
    2:{ unfold content. rewrite <- Nat.add_assoc, skipn_add_app.
        change (1 + length (js "## " ++ name))
          with (length (LF :: js "## " ++ name)).
        now rewrite skipn_length_app. }
    unfold sectionAfter. change (js "\n") with [LF].
    now rewrite (indexOf_absent LF line Hl).
  - intros name line content Hn Hl.
    rewrite extractSection_unfold. unfold indexOf at 1.
    rewrite (nowhere_search Hn).
    unfold content at 1. rewrite startsWith_app.
    unfold content. rewrite Nat.add_0_l, skipn_length_app.
    unfold sectionAfter. change (js "\n") with [LF].
    now rewrite (indexOf_absent LF line Hl).
Qed.

Lemma extractSection_body_witness :
  let pre := js "# Profile\n\n---\n" in
  let body := js "\n**Name:** Jane\n\n---\n" in
  let post := js "\n## Narrative\n\n**Philosophy:** Measure twice.\n" in
  let content := pre ++ (LF :: js "## " ++ js "About") ++ [] ++ LF :: body ++ post in
  firstAt (startsWith (LF :: js "## " ++ js "About")) content (length pre) /\
  noHeadingLine body /\ nextHeading post /\
  extractSection content (js "About") = js "**Name:** Jane\n\n---".
Proof.
  intros pre body post content.
  assert (Hf : firstAt (startsWith (LF :: js "## " ++ js "About")) content (length pre)).
  { apply search_Some. vm_compute. reflexivity. }
  assert (Hb : noHeadingLine body).
  { split; [reflexivity|]. apply search_None. vm_compute. reflexivity. }
  assert (Hp : nextHeading post) by (right; reflexivity).
  split; [exact Hf|]. split; [exact Hb|]. split; [exact Hp|].
  refine (eq_trans (proj1 (proj2 extractSection_body) pre (js "About") [] body post
                          Hf (fun H => H) Hb Hp) _).
  vm_compute. reflexivity.
Defined.

(** ** Independence of the sections *)

Section Decompositions.

Lemma startsWith_length (p s : jsstring) :
  startsWith p s = true -> length p <= length s.
Proof.
  intros H. apply startsWith_inv in H as [r ->]. rewrite length_app. lia.
Qed.

Lemma startsWith_prefix (a c s : jsstring) :
  startsWith (a ++ c) s = true -> startsWith a s = true.
Proof.
  intros H. apply startsWith_inv in H as [r ->].
  rewrite <- app_assoc. apply startsWith_app.
Qed.

Lemma skipn_app_le (n : nat) (u v : jsstring) :
  n <= length u -> skipn n (u ++ v) = skipn n u ++ v.
Proof.
  intros H. rewrite skipn_app.
  replace (n - length u) with 0 by lia. reflexivity.
Qed.

Lemma firstn_app_le (n : nat) (u v : jsstring) :
  n <= length u -> firstn n (u ++ v) = firstn n u.
Proof.
  intros H. rewrite firstn_app.
  replace (n - length u) with 0 by lia. simpl. apply app_nil_r.
Qed.

(** The text around the first occurrence of a pattern. *)
Lemma firstAt_split (p s : jsstring) (i : nat) :
  firstAt (startsWith p) s i ->
  s = firstn i s ++ p ++ skipn (i + length p) s /\ i + length p <= length s.
Proof.
  intros (Hi & Hs & _).
  pose proof (startsWith_length _ _ Hs) as Hlen.
  rewrite length_skipn in Hlen.
  apply startsWith_inv in Hs as [r Hr].
  split; [|lia].
  rewrite Nat.add_comm, <- skipn_skipn, Hr, skipn_length_app, <- Hr.
  symmetry. apply firstn_skipn.
Qed.

Lemma indexOf_char_split (c : jschar) (w : jsstring) (i : nat) :
  indexOf [c] w = Some i ->
  exists t r, w = t ++ c :: r /\ ~ In c t /\ length t = i.
Proof.
  unfold indexOf. revert i; induction w as [|y w IH]; intros i; [discriminate|].
  cbn [search]. change (startsWith [c] (y :: w)) with ((c =? y)%N && true).
  destruct (N.eqb_spec c y) as [<-|Hne]; cbn [andb].
  - intros [= <-]. exists [], w. repeat split. intros [].
  - destruct (search (startsWith [c]) w) as [k|]; [|discriminate].
    intros [= <-]. destruct (IH k eq_refl) as (t & r & -> & Ht & Hk).
    exists (y :: t), r. repeat split; [|simpl; lia].
    intros [H|H]; [now apply Hne | now apply Ht].
Qed.

Lemma indexOf_char_none (c : jschar) (w : jsstring) :
  indexOf [c] w = None -> ~ In c w.
Proof.
  unfold indexOf. induction w as [|y w IH]; [intros _ []|].
  cbn [search]. change (startsWith [c] (y :: w)) with ((c =? y)%N && true).
  destruct (N.eqb_spec c y) as [<-|Hne]; cbn [andb]; [discriminate|].
  destruct (search (startsWith [c]) w); [discriminate|].
  intros _ [H|H]; [now apply Hne | now apply IH].
Qed.

(** Two ways of cutting a text at a [c]. *)
Lemma cut_cases (c : jschar) (a x b y : jsstring) :
  a ++ c :: x = b ++ c :: y ->
  (a = b /\ x = y) \/
  (exists z, x = z ++ c :: y /\ b = a ++ c :: z) \/
  (exists z, y = z ++ c :: x /\ a = b ++ c :: z).
Proof.
  intros H. apply app_eq_app in H as [l [[Ha Hy]|[Hb Hx]]].
  - destruct l as [|c' l].
    + left. rewrite app_nil_r in Ha. simpl in Hy. now injection Hy.
    + right. right. simpl in Hy. injection Hy as <- Hy. now exists l.
  - destruct l as [|c' l].
    + left. rewrite app_nil_r in Hb. simpl in Hx. now injection Hx.
    + right. left. simpl in Hx. injection Hx as <- Hx. now exists l.
Qed.

(** What follows the last line feed of a text is determined by the text. *)
Lemma last_line_unique (a x b y : jsstring) :
  atLineStart a -> atLineStart b -> ~ In LF x -> ~ In LF y ->
  a ++ x = b ++ y -> x = y.
Proof.
  intros [->|[a' ->]] [->|[b' ->]] Hx Hy H.
  - exact H.
  - exfalso. apply Hx. simpl in H. rewrite H, <- app_assoc.
    apply in_or_app. right. now left.
  - exfalso. apply Hy. simpl in H. rewrite <- H, <- app_assoc.
    apply in_or_app. right. now left.
  - rewrite <- !app_assoc in H. simpl in H.
    apply cut_cases in H as [[_ H]|[[z [H _]]|[z [H _]]]].
    + exact H.
    + exfalso. apply Hx. rewrite H. apply in_or_app. right. now left.
    + exfalso. apply Hy. rewrite H. apply in_or_app. right. now left.
Qed.

End Decompositions.

Section Independence.

(** The section [M] whose body changes, inside its document, and another
    section [T] that is looked up. *)
Variables T M pre line post : jsstring.

Hypothesis T_line : ~ In LF T.
Hypothesis M_line : ~ In LF (M ++ line).
Hypothesis T_not_M : startsWith T (M ++ line) = false.
Hypothesis pre_start : atLineStart pre.
Hypothesis post_heading : nextHeading post.
Hypothesis T_apart : ~ endsWithHeading pre T.

Let marker : jsstring := js "## " ++ T.
Let u : jsstring := pre ++ js "## " ++ M ++ line.

Lemma marker_line : ~ In LF marker.
Proof.
  unfold marker. intros H. apply in_app_or in H as [H|H].
  - now apply noLF_heading.
  - now apply T_line.
Qed.

Lemma M_heading_line : ~ In LF (js "## " ++ M ++ line).
Proof.
  intros H. apply in_app_or in H as [H|H].
  - now apply noLF_heading.
  - now apply M_line.
Qed.

(** The heading line of [T] does not run to the end of [u]: a line feed
    follows the marker. *)
Lemma heading_line_ends (p0 w : jsstring) :
  u = p0 ++ marker ++ w -> atLineStart p0 -> ~ In LF w -> False.
Proof.
  intros Hu Hp0 Hw.
  assert (Hmw : ~ In LF (marker ++ w)).
  { intros H. apply in_app_or in H as [H|H]; [now apply marker_line | now apply Hw]. }
  pose proof (last_line_unique pre _ p0 _ pre_start Hp0 M_heading_line Hmw Hu) as E.
  unfold marker in E. rewrite <- app_assoc in E. apply app_inv_head in E.
  rewrite E, startsWith_app in T_not_M. discriminate T_not_M.
Qed.

(** The section of [T] ends inside [u]: the body that follows the heading
    line of [T] holds a top-level heading, that of [M] at the latest. *)
Lemma section_ends (p0 t w2 : jsstring) :
  u = p0 ++ marker ++ t ++ LF :: w2 -> atLineStart p0 -> ~ In LF t ->
  indexOf (js "\n## ") w2 = None -> False.
Proof.
  intros Hu Hp0 Ht Hnone.
  destruct pre_start as [Hpre|[pre' Hpre]].
  - apply M_heading_line. unfold u in Hu. rewrite Hpre in Hu. cbn [app] in Hu.
    rewrite Hu. apply in_or_app. right. apply in_or_app. right.
    apply in_or_app. right. now left.
  - unfold u in Hu. rewrite Hpre, <- app_assoc in Hu. cbn [app] in Hu.
    replace (p0 ++ marker ++ t ++ LF :: w2)
      with ((p0 ++ marker ++ t) ++ LF :: w2) in Hu
      by (now rewrite <- !app_assoc).
    apply cut_cases in Hu as [[Ha _]|[[z [Hx _]]|[z [Hy _]]]].
    + apply T_apart. exists p0, t. split; [|split; assumption].
      rewrite Hpre, Ha. unfold marker. now rewrite <- !app_assoc.
    + apply M_heading_line. rewrite Hx. apply in_or_app. right. now left.
    + apply search_None in Hnone. specialize (Hnone (length z)).
      rewrite Hy, skipn_length_app in Hnone.
      change (LF :: js "## " ++ M ++ line) with (js "\n## " ++ M ++ line) in Hnone.
      now rewrite startsWith_app in Hnone.
Qed.

(** So the section of [T] is the same whatever follows [u]. *)
Lemma sectionAfter_closed (p0 w v : jsstring) :
  u = p0 ++ marker ++ w -> atLineStart p0 ->
  sectionAfter (w ++ LF :: v) = closedResult w.
Proof.
  intros Hu Hp0. unfold sectionAfter, closedResult.
  change (js "\n") with [LF].
  rewrite (indexOf_barrier LF [] w v) by (intros []).
  destruct (indexOf [LF] w) as [i|] eqn:E1.
  2:{ exfalso. apply (heading_line_ends p0 w Hu Hp0).
      now apply indexOf_char_none. }
  destruct (indexOf_char_split LF w i E1) as (t & w2 & -> & Ht & <-).
  assert (Esk : forall r, skipn (length t + 1) (t ++ LF :: r) = r).
  { intros r. change (t ++ LF :: r) with (t ++ [LF] ++ r).
    rewrite app_assoc.
    replace (length t + 1) with (length (t ++ [LF]))
      by (rewrite length_app; reflexivity).
    apply skipn_length_app. }
  rewrite <- app_assoc. simpl app. rewrite !Esk.
  change (js "\n## ") with (LF :: js "## ").
  rewrite (indexOf_barrier LF (js "## ") w2 v noLF_heading).
  destruct (indexOf (LF :: js "## ") w2) as [n|] eqn:E2.
  2:{ exfalso. now apply (section_ends p0 t w2 Hu Hp0 Ht). }
  apply search_Some in E2 as (Hn & _ & _).
  now rewrite firstn_app_le.
Qed.

Lemma body_start (body : jsstring) :
  noHeadingLine body -> startsWith marker (body ++ post) = false.
Proof.
  intros [Hb _].
  destruct (startsWith marker (body ++ post)) eqn:E; [|reflexivity].
  unfold marker in E. apply startsWith_prefix in E.
  destruct post_heading as [Hp|Hp].
  - rewrite Hp, app_nil_r in E. congruence.
  - apply startsWith_inv in Hp as [r Hr]. rewrite Hr in E.
    change (js "\n## " ++ r) with (LF :: js "## " ++ r) in E.
    rewrite (startsWith_barrier LF (js "## ") body _ noLF_heading) in E.
    congruence.
Qed.

Lemma body_search (body : jsstring) :
  noHeadingLine body ->
  indexOf (LF :: marker) (body ++ post)
  = option_map (fun k => length body + k) (indexOf (LF :: marker) post).
Proof.
  intros [_ Hb].
  assert (Hnone : indexOf (LF :: marker) body = None).
  { apply nowhere_search. intros j.
    destruct (startsWith (LF :: marker) (skipn j body)) eqn:E; [|reflexivity].
    change (LF :: marker) with (js "\n## " ++ T) in E.
    apply startsWith_prefix in E. now rewrite Hb in E. }
  destruct post_heading as [Hp|Hp].
  - rewrite Hp, app_nil_r, Hnone. reflexivity.
  - apply startsWith_inv in Hp as [r Hr]. rewrite Hr.
    change (js "\n## " ++ r) with (LF :: js "## " ++ r).
    rewrite (indexOf_barrier LF marker body _ marker_line), Hnone.
    unfold indexOf at 2. cbn [search].
    change (startsWith (LF :: marker) (LF :: js "## " ++ r))
      with ((LF =? LF)%N && startsWith marker (js "## " ++ r)).
    rewrite N.eqb_refl. cbn [andb].
    destruct (startsWith marker (js "## " ++ r)).
    + simpl. f_equal. lia.
    + fold (indexOf (LF :: marker) (js "## " ++ r)).
      destruct (indexOf (LF :: marker) (js "## " ++ r)); simpl; [f_equal; lia|reflexivity].
Qed.

Lemma extractSection_layout (body : jsstring) :
  noHeadingLine body ->
  extractSection (u ++ LF :: body ++ post) T = layoutResult marker u post.
Proof.
  intros Hb. rewrite extractSection_unfold. fold marker. unfold layoutResult.
  rewrite (indexOf_barrier LF marker u (body ++ post) marker_line).
  rewrite (body_start body Hb), (body_search body Hb).
  destruct (indexOf (LF :: marker) u) as [j|] eqn:Eu.
  - apply search_Some in Eu.
    destruct (firstAt_split _ _ _ Eu) as [Hu Hlen].
    change (length (LF :: marker)) with (S (length marker)) in Hlen, Hu.
    replace (j + 1 + length marker) with (j + S (length marker)) by lia.
    rewrite skipn_app_le by lia.
    apply (sectionAfter_closed (firstn j u ++ [LF])).
    + rewrite <- app_assoc. exact Hu.
    + right. now exists (firstn j u).
  - destruct (indexOf (LF :: marker) post) as [k|] eqn:Ep; cbn [option_map].
    + f_equal.
      replace (length u + 1 + (length body + k) + 1 + length marker)
        with (length (u ++ LF :: body) + (k + 1 + length marker))
        by (rewrite length_app; simpl; lia).
      replace (u ++ LF :: body ++ post) with ((u ++ LF :: body) ++ post)
        by (now rewrite <- app_assoc).
      apply skipn_add_app.
    + rewrite (startsWith_barrier LF marker u _ marker_line).
      destruct (startsWith marker u) eqn:Es; [|reflexivity].
      rewrite Nat.add_0_l.
      rewrite skipn_app_le by (now apply startsWith_length).
      apply startsWith_inv in Es as [w Hw].
      assert (Hsk : skipn (length marker) u = w)
        by (rewrite Hw; apply skipn_length_app).
      rewrite Hsk. apply (sectionAfter_closed []); [exact Hw | now left].
Qed.

(** The body of [M] does not show in what is extracted for [T]. *)
Lemma extractSection_other (body1 body2 : jsstring) :
  noHeadingLine body1 -> noHeadingLine body2 ->
  extractSection (u ++ LF :: body1 ++ post) T
  = extractSection (u ++ LF :: body2 ++ post) T.
Proof.
  intros H1 H2.
  now rewrite (extractSection_layout body1 H1), (extractSection_layout body2 H2).
Qed.

End Independence.

Section Names.

Lemma names_line (T : jsstring) : In T sectionNames -> ~ In LF T.
Proof.
  unfold sectionNames. intros H Hin.
  repeat (destruct H as [<-|H];
          [vm_compute in Hin;
           repeat (destruct Hin as [Hin|Hin]; [discriminate Hin|]);
           exact Hin|]).
  exact H.
Qed.

(** No section name starts another one. *)
Lemma names_apart (T M line : jsstring) :
  In T sectionNames -> In M sectionNames -> T <> M ->
  startsWith T (M ++ line) = false.
Proof.
  unfold sectionNames. intros HT HM Hne.
  repeat (destruct HT as [<-|HT]; [|]);
    try (destruct HT);
    repeat (destruct HM as [<-|HM]; [|]);
    try (destruct HM);
    solve [reflexivity | exfalso; apply Hne; reflexivity].
Qed.

Variable toLowerCase : jsstring -> jsstring.

(** Each record is computed from the sections of [sourcesTable]. *)
Lemma record_sources (raw1 raw2 endpoint : jsstring) (sources : list jsstring) :
  In (endpoint, sources) sourcesTable ->
  (forall T, In T sources -> extractSection raw1 T = extractSection raw2 T) ->
  prop (objectOfProfile (assemble toLowerCase raw1)) endpoint
  = prop (objectOfProfile (assemble toLowerCase raw2)) endpoint.
Proof.
  unfold sourcesTable. intros Hin Hsec.
  repeat (destruct Hin as [Hin|Hin];
          [injection Hin as <- <-;
           change (prop (objectOfProfile (assemble toLowerCase raw1)) ?e)
             with (match objGet e (objectOfProfile (assemble toLowerCase raw1))
                   with Some v => v | None => VUndefined end);
           change (prop (objectOfProfile (assemble toLowerCase raw2)) ?e)
             with (match objGet e (objectOfProfile (assemble toLowerCase raw2))
                   with Some v => v | None => VUndefined end);
           cbv beta iota zeta delta
               [assemble objectOfProfile objGet
                ProfileData.about ProfileData.narrative ProfileData.thesis
                ProfileData.accomplishments ProfileData.track_record
                ProfileData.experience ProfileData.seeking
                ProfileData.cultural_fit ProfileData.skills
                AccomplishmentsData.financial_impact];
           repeat match goal with
                  | |- context [extractSection raw1 ?T] =>
                      rewrite (Hsec T) by (simpl; tauto)
                  end;
           reflexivity|]).
  destruct Hin.
Qed.

(** After a blank line no heading line is the last line. *)
Lemma not_after_blank (before name : jsstring) :
  ~ In LF name -> ~ endsWithHeading (before ++ [LF; LF]) name.
Proof.
  intros Hname (p & t & E & Ht & _).
  change (before ++ [LF; LF]) with (before ++ [LF] ++ [LF]) in E.
  rewrite !app_assoc in E. apply app_inj_tail in E as [E _].
  destruct (rev t) as [|c r] eqn:Et.
  - apply (f_equal (@rev _)) in Et. rewrite rev_involutive in Et. subst t.
    rewrite app_nil_r in E.
    destruct (rev name) as [|c r] eqn:En.
    + apply (f_equal (@rev _)) in En. rewrite rev_involutive in En. subst name.
      rewrite app_nil_r in E.
      change (p ++ js "## ") with (p ++ js "##" ++ [SPACE]) in E.
      rewrite app_assoc in E. apply app_inj_tail in E as [_ E]. discriminate E.
    + apply (f_equal (@rev _)) in En. rewrite rev_involutive in En.
      cbn [rev] in En. subst name.
      rewrite app_assoc in E. apply app_inj_tail in E as [_ E].
      apply Hname. apply in_or_app. right. left. now symmetry.
  - apply (f_equal (@rev _)) in Et. rewrite rev_involutive in Et.
    cbn [rev] in Et. subst t.
    rewrite app_assoc in E. apply app_inj_tail in E as [_ E].
    apply Ht. apply in_or_app. right. left. now symmetry.
Qed.

End Names.

(** C8, as the claim states it, fails.  The two documents differ in the
    body of About only, and the record of skills differs; they differ in
    the body of Accomplishments only, and the track record differs. *)
Lemma copied_records_follow_their_source :
  (let doc := fun offer =>
     js "## About\n\n- **Title:** " ++ offer
     ++ js "\n  **Description:** Runs things\n\n## Skills\n\n### Technical\n- Rocq\n" in
   extractSection (doc (js "Ops")) (js "Skills")
   = extractSection (doc (js "Data")) (js "Skills") /\
   prop (objectOfProfile (assemble toLowerCaseAscii (doc (js "Ops")))) (js "skills")
   <> prop (objectOfProfile (assemble toLowerCaseAscii (doc (js "Data")))) (js "skills")) /\
  (let doc := fun saved =>
     js "## Accomplishments\n\n### Financial Impact\n\n| Accomplishment | Company | Value |\n|---|---|---|\n| Savings | Acme | "
     ++ saved ++ js " |\n\n## Track Record\n\n### Headline Stats\n\n| Stat | Context |\n|---|---|\n| 300% | ROI |\n" in
   extractSection (doc (js "$5M")) (js "Track Record")
   = extractSection (doc (js "$6M")) (js "Track Record") /\
   prop (objectOfProfile (assemble toLowerCaseAscii (doc (js "$5M")))) (js "track-record")
   <> prop (objectOfProfile (assemble toLowerCaseAscii (doc (js "$6M")))) (js "track-record")).
Proof.
  split; (split; [vm_compute; reflexivity | vm_compute; discriminate]).
Qed.

(** C8, amended.  Take two documents that differ only in the body of one
    named section [M], a body that holds no top-level heading line and is
    followed by the next top-level heading or by the end of the document.
    For every other named section [T] whose heading line is not the line
    just before the heading of [M], what [extractSection] returns for [T]
    is the same in both; and every record built only from such sections is
    the same in both.  The record of the track record is built from Track
    Record and Accomplishments, that of skills from Skills and About. *)
Theorem other_records_unchanged
        (lower : jsstring -> jsstring)
        (pre M line body1 body2 post : jsstring) :
  In M sectionNames -> atLineStart pre -> ~ In LF line ->
  noHeadingLine body1 -> noHeadingLine body2 -> nextHeading post ->
  let doc := fun body => pre ++ js "## " ++ M ++ line ++ LF :: body ++ post in
  (forall T, In T sectionNames -> T <> M -> ~ endsWithHeading pre T ->
             extractSection (doc body1) T = extractSection (doc body2) T) /\
  (forall endpoint sources,
      In (endpoint, sources) sourcesTable ->
      (forall T, In T sources -> T <> M /\ ~ endsWithHeading pre T) ->
      prop (objectOfProfile (assemble lower (doc body1))) endpoint
      = prop (objectOfProfile (assemble lower (doc body2))) endpoint).
Proof.
  intros HM Hpre Hline Hb1 Hb2 Hpost doc.
  assert (Hsec : forall T, In T sectionNames -> T <> M -> ~ endsWithHeading pre T ->
                           extractSection (doc body1) T = extractSection (doc body2) T).
  { intros T HT Hne Hadj. unfold doc.
    replace (pre ++ js "## " ++ M ++ line ++ LF :: body1 ++ post)
      with ((pre ++ js "## " ++ M ++ line) ++ LF :: body1 ++ post)
      by (now rewrite <- !app_assoc).
    replace (pre ++ js "## " ++ M ++ line ++ LF :: body2 ++ post)
      with ((pre ++ js "## " ++ M ++ line) ++ LF :: body2 ++ post)
      by (now rewrite <- !app_assoc).
    apply extractSection_other; try assumption.
    - now apply names_line.
    - intros H. apply in_app_or in H as [H|H]; [|now apply Hline].
      now apply (names_line M).
    - now apply names_apart. }
  split; [exact Hsec|].
  intros endpoint sources Hin Hsrc.
  apply (record_sources lower _ _ endpoint sources Hin).
  intros T HT. destruct (Hsrc T HT) as [Hne Hadj].
  apply Hsec; [|assumption|assumption].
  unfold sourcesTable in Hin. unfold sectionNames.
  repeat (destruct Hin as [Hin|Hin];
          [injection Hin as <- <-;
           repeat (destruct HT as [<-|HT]; [simpl; tauto|]); destruct HT|]).
  destruct Hin.
Qed.

Lemma other_records_unchanged_witness :
  let doc := fun body =>
    js "## Narrative\n\n**Philosophy:** Be kind\n\n## About" ++ LF :: body
    ++ js "\n## Seeking\n\n**Industry:** Retail\n" in
  let jane := assemble toLowerCaseAscii (doc (js "\n**Name:** Jane\n")) in
  let joan := assemble toLowerCaseAscii (doc (js "\n**Name:** Joan\n")) in
  prop (objectOfProfile jane) (js "narrative")
  = prop (objectOfProfile joan) (js "narrative") /\
  prop (objectOfProfile jane) (js "seeking")
  = prop (objectOfProfile joan) (js "seeking") /\
  NarrativeData.philosophy (ProfileData.narrative jane) = js "Be kind" /\
  SeekingData.industry (ProfileData.seeking jane) = js "Retail" /\
  AboutData.name (ProfileData.about jane) = js "Jane" /\
  AboutData.name (ProfileData.about joan) = js "Joan".
Proof.
  intros doc jane joan.
  assert (Hno : forall body,
             search (startsWith (js "\n## ")) body = None ->
             startsWith (js "## ") body = false -> noHeadingLine body).
  { intros body H1 H2. split; [exact H2 | now apply search_None]. }
  assert (Hpre : forall T, In T sectionNames ->
                   ~ endsWithHeading
                       (js "## Narrative\n\n**Philosophy:** Be kind\n\n") T).
  { intros T HT.
    apply (not_after_blank (js "## Narrative\n\n**Philosophy:** Be kind") T).
    now apply names_line. }
  destruct (other_records_unchanged toLowerCaseAscii
              (js "## Narrative\n\n**Philosophy:** Be kind\n\n")
              (js "About") [] (js "\n**Name:** Jane\n") (js "\n**Name:** Joan\n")
              (js "\n## Seeking\n\n**Industry:** Retail\n"))
    as [_ R].
  - left. reflexivity.
  - right. now exists (js "## Narrative\n\n**Philosophy:** Be kind\n").
  - intros [].
  - apply Hno; reflexivity.
  - apply Hno; reflexivity.
  - right. reflexivity.
  - split; [|split].
    + apply (R (js "narrative") [js "Narrative"]).
      * right. left. reflexivity.
      * intros T [<-|[]]. split; [discriminate|].
        apply Hpre. right. left. reflexivity.
    + apply (R (js "seeking") [js "Seeking"]).
      * do 6 right. left. reflexivity.
      * intros T [<-|[]]. split; [discriminate|].
        apply Hpre. do 6 right. left. reflexivity.
    + vm_compute. repeat split.
Defined.

(** ** The role extractor *)

Section Splitting.

Variable m : bool -> jsstring -> option nat.

Lemma regexSplit_cons (skip : nat) (bol : bool) (c : jschar) (t : jsstring) :
  regexSplit m skip bol (c :: t) =
  match skip with
  | S k => regexSplit m k (isLineTerminator c) t
  | O =>
      match m bol (c :: t) with
      | Some (S k) => [] :: regexSplit m k (isLineTerminator c) t
      | _ =>
          match regexSplit m 0 (isLineTerminator c) t with
          | h :: r => (c :: h) :: r
          | [] => [[c]]
          end
      end
  end.
Proof. reflexivity. Qed.

Lemma regexSplit_nonempty (skip : nat) (bol : bool) (s : jsstring) :
  exists h r, regexSplit m skip bol s = h :: r.
Proof.
  revert skip bol; induction s as [|c t IH]; intros skip bol.
  - now exists [], [].
  - rewrite regexSplit_cons. destruct skip as [|k]; [|apply IH].
    destruct (m bol (c :: t)) as [[|k]|];
      try (destruct (IH 0 (isLineTerminator c)) as (h & r & ->); now eexists _, _).
    now eexists _, _.
Qed.

(** Passing over the rest of a match. *)
Lemma regexSplit_skip (x : jsstring) (bol : bool) (s : jsstring) :
  regexSplit m (length x) bol (x ++ s) = regexSplit m 0 (bolAfter bol x) s.
Proof.
  revert bol; induction x as [|c x IH]; intros bol; [reflexivity|].
  cbn [length app]. rewrite regexSplit_cons. apply IH.
Qed.

(** A stretch in which the pattern matches nowhere joins the piece that
    follows it. *)
Lemma regexSplit_quiet (b z : jsstring) (bol : bool) :
  (forall p q, b = p ++ q -> q <> [] -> m (bolAfter bol p) (q ++ z) = None) ->
  regexSplit m 0 bol (b ++ z)
  = prependHead b (regexSplit m 0 (bolAfter bol b) z).
Proof.
  revert bol; induction b as [|c b IH]; intros bol H.
  - cbn [app]. change (bolAfter bol []) with bol.
    destruct (regexSplit_nonempty 0 bol z) as (h & r & ->). reflexivity.
  - cbn [app]. rewrite regexSplit_cons.
    assert (H0 : m bol (c :: b ++ z) = None)
      by (apply (H [] (c :: b)); [reflexivity | discriminate]).
    rewrite H0, (IH (isLineTerminator c)).
    + change (bolAfter bol (c :: b)) with (bolAfter (isLineTerminator c) b).
      destruct (regexSplit_nonempty 0 (bolAfter (isLineTerminator c) b) z)
        as (h & r & ->). reflexivity.
    + intros p q Hb Hq. apply (H (c :: p) q); [now rewrite Hb | exact Hq].
Qed.

End Splitting.

Section Roles.

Lemma last_cases (p : jsstring) : p = [] \/ exists p0 c0, p = p0 ++ [c0].
Proof.
  destruct p as [|c p]; [now left | right].
  destruct (@exists_last _ (c :: p)) as (p0 & c0 & E); [discriminate|].
  now exists p0, c0.
Qed.

Lemma bolAfter_snoc (bol : bool) (p : jsstring) (c : jschar) :
  bolAfter bol (p ++ [c]) = isLineTerminator c.
Proof. unfold bolAfter. now rewrite fold_left_app. Qed.

Lemma endsLine_bol (bol : bool) (b : jsstring) :
  endsLine b -> bolAfter bol b = true.
Proof. intros (p & c & -> & Hc). now rewrite bolAfter_snoc. Qed.

Lemma endsLine_suffix (p q : jsstring) :
  endsLine (p ++ q) -> q <> [] -> endsLine q.
Proof.
  intros (p1 & c & H & Hc) Hq.
  destruct (exists_last Hq) as (q' & c' & ->).
  rewrite app_assoc in H. apply app_inj_tail in H as [_ ->].
  now exists q', c.
Qed.

Lemma roleRe_false (s : jsstring) : roleRe false s = None.
Proof. reflexivity. Qed.

Lemma roleRe_inv (bol : bool) (s : jsstring) (n : nat) :
  roleRe bol s = Some n ->
  exists d r, s = js "### Role " ++ d :: r /\ isDigit d = true.
Proof.
  unfold roleRe. destruct bol; [|discriminate]. cbn [andb].
  destruct (startsWith (js "### Role ") s) eqn:Es; [|discriminate].
  apply startsWith_inv in Es as [r0 ->].
  change (skipn 9 (js "### Role " ++ r0)) with r0.
  destruct r0 as [|d r]; [discriminate|]. cbn [andb].
  destruct (isDigit d) eqn:Ed; [|discriminate].
  intros _. now exists d, r.
Qed.

Lemma roleRe_some (d : jschar) (r : jsstring) :
  isDigit d = true -> roleRe true (js "### Role " ++ d :: r) <> None.
Proof.
  intros Hd. unfold roleRe. rewrite startsWith_app.
  change (skipn 9 (js "### Role " ++ d :: r)) with (d :: r).
  cbn [andb]. rewrite Hd. discriminate.
Qed.

Lemma digit_line (d : jschar) : isDigit d = true -> isLineTerminator d = false.
Proof.
  unfold isDigit, isLineTerminator.
  rewrite andb_true_iff, !N.leb_le. intros [H1 H2].
  rewrite !(proj2 (N.eqb_neq _ _)) by lia. reflexivity.
Qed.

Lemma heading_chars (c d : jschar) :
  In c (js "### Role " ++ [d]) -> isDigit d = true ->
  isLineTerminator c = false.
Proof.
  intros H Hd.
  repeat (destruct H as [<-|H]; [try reflexivity; now apply digit_line|]).
  destruct H.
Qed.

Lemma takeWhile_line (h z : jsstring) :
  ~ In LF h -> opensLine z ->
  takeWhile (fun c => negb (c =? LF)%N) (h ++ z) = h.
Proof.
  intros Hh Hz. induction h as [|c h IH]; cbn [app].
  - destruct Hz as [->|[z' ->]]; [reflexivity|].
    cbn [takeWhile]. now rewrite N.eqb_refl.
  - cbn [takeWhile].
    destruct (N.eqb_spec c LF) as [->|_].
    + exfalso. apply Hh. now left.
    + cbn [negb]. rewrite IH; [reflexivity|].
      intros H. apply Hh. now right.
Qed.

Lemma heading_line (h : jsstring) : roleHeadingText h -> ~ In LF h.
Proof.
  intros (d & r & -> & Hd & Hr) H.
  apply in_app_or in H as [H|H].
  - repeat (destruct H as [H|H]; [discriminate H|]). destruct H.
  - destruct H as [->|H]; [discriminate Hd | now apply Hr].
Qed.

(** A role heading at the start of a line is matched in full. *)
Lemma roleRe_heading (h z : jsstring) :
  roleHeadingText h -> opensLine z -> roleRe true (h ++ z) = Some (length h).
Proof.
  intros Hh Hz. pose proof (heading_line h Hh) as Hline.
  destruct Hh as (d & r & -> & Hd & Hr).
  unfold roleRe. rewrite <- app_assoc, startsWith_app.
  change (skipn 9 (js "### Role " ++ (d :: r) ++ z)) with (d :: r ++ z).
  cbn [andb]. rewrite Hd.
  rewrite app_assoc, (takeWhile_line _ z Hline Hz). reflexivity.
Qed.

(** A match cannot start in a block that ends its line and reach into the
    text after it. *)
Lemma roleRe_local (q z : jsstring) :
  roleRe true q = None -> z = [] \/ endsLine q -> roleRe true (q ++ z) = None.
Proof.
  intros Hq [->|(q0 & c & -> & Hc)]; [now rewrite app_nil_r|].
  destruct (roleRe true ((q0 ++ [c]) ++ z)) as [n|] eqn:E; [|reflexivity].
  exfalso. apply roleRe_inv in E as (d & r & E & Hd).
  rewrite <- app_assoc in E. cbn [app] in E.
  replace (js "### Role " ++ d :: r) with ((js "### Role " ++ [d]) ++ r) in E
    by (now rewrite <- app_assoc).
  apply app_eq_app in E as [l [[E1 E2]|[E1 E2]]].
  - apply (roleRe_some d (l ++ [c]) Hd).
    rewrite <- Hq, E1, <- !app_assoc. reflexivity.
  - destruct l as [|c' l].
    + apply (roleRe_some d [c] Hd). rewrite app_nil_r in E1.
      rewrite <- Hq, <- E1, <- app_assoc. reflexivity.
    + cbn [app] in E2. injection E2 as <- _.
      assert (Hin : In c (js "### Role " ++ [d])).
      { rewrite E1. apply in_or_app. right. now left. }
      rewrite (heading_chars c d Hin Hd) in Hc. discriminate Hc.
Qed.

(** The condition of [regexSplit_quiet], from what a block is. *)
Lemma block_is_quiet (b z : jsstring) (bol : bool) :
  quietBlock b -> roleRe bol b = None -> z = [] \/ endsLine b ->
  forall p q, b = p ++ q -> q <> [] -> roleRe (bolAfter bol p) (q ++ z) = None.
Proof.
  intros Hquiet Hstart Hend p q Hb Hq.
  destruct (bolAfter bol p) eqn:Ebol; [|apply roleRe_false].
  apply roleRe_local.
  - destruct (last_cases p) as [->|(p0 & c0 & ->)].
    + cbn in Ebol, Hb. subst bol b. exact Hstart.
    + rewrite bolAfter_snoc in Ebol.
      apply (Hquiet p0 c0 q); [now rewrite Hb, <- app_assoc | exact Ebol].
  - destruct Hend as [Hz|He]; [now left | right].
    rewrite Hb in He. now apply (endsLine_suffix p q).
Qed.

Lemma roleRe_opensLine (bol : bool) (b : jsstring) :
  opensLine b -> roleRe bol b = None.
Proof. intros [->|[b' ->]]; destruct bol; reflexivity. Qed.

(** Splitting a sequence of headed blocks gives the blocks. *)
Lemma regexSplit_blocks (blocks : list (jsstring * jsstring)) :
  roleLayout blocks -> blocks <> [] ->
  regexSplit roleRe 0 true (flat_map (fun hb => fst hb ++ snd hb) blocks)
  = [] :: map snd blocks.
Proof.
  induction blocks as [|[h b] rest IH]; intros Hlay Hne; [now contradiction Hne|].
  destruct Hlay as (Hh & Hopen & Hquiet & Hend & Hrest).
  cbn [flat_map fst snd map]. rewrite <- app_assoc.
  set (z := b ++ flat_map (fun hb => fst hb ++ snd hb) rest).
  assert (Hz : opensLine z).
  { unfold z. destruct Hopen as [->|[b' ->]].
    - destruct Hend as [->|(p & c & He & _)]; [now left|].
      destruct p; discriminate He.
    - right. now eexists. }
  pose proof (roleRe_heading h z Hh Hz) as Hm.
  destruct Hh as (d & r & Eh & _).
  assert (Eh' : exists c0 h', h = c0 :: h').
  { rewrite Eh. now eexists _, _. }
  destruct Eh' as (c0 & h' & Eh').
  rewrite Eh' in Hm |- *. cbn [app length] in Hm |- *.
  rewrite regexSplit_cons, Hm, regexSplit_skip.
  f_equal. unfold z.
  rewrite (regexSplit_quiet roleRe b _ _
             (block_is_quiet b _ _ Hquiet (roleRe_opensLine _ b Hopen)
                (match Hend with
                 | or_introl E => or_introl (f_equal _ E)
                 | or_intror E => or_intror E
                 end))).
  destruct rest as [|hb rest'].
  - cbn [flat_map regexSplit prependHead map]. now rewrite app_nil_r.
  - destruct Hend as [E|He]; [discriminate E|].
    rewrite (endsLine_bol _ b He), IH by (assumption || discriminate).
    cbn [prependHead map]. now rewrite app_nil_r.
Qed.

Lemma push_kept {A B : Type} (f : A -> B) (keep : B -> bool) (l : list A)
      (acc : list B) :
  fold_left (fun roles block => if keep (f block) then roles ++ [f block] else roles)
            l acc
  = acc ++ filter keep (map f l).
Proof.
  revert acc; induction l as [|x l IH]; intros acc; cbn [fold_left map filter].
  - now rewrite app_nil_r.
  - rewrite IH. destruct (keep (f x)); [now rewrite <- app_assoc | reflexivity].
Qed.

Lemma extractRoles_layout (intro : jsstring) (blocks : list (jsstring * jsstring)) :
  introLayout intro blocks -> roleLayout blocks ->
  extractRoles (sectionText intro blocks)
  = filter keepsRole (map roleOfBlock (map snd blocks)).
Proof.
  intros (Hstart & Hquiet & Hend) Hlay.
  unfold extractRoles, sectionText.
  rewrite (push_kept roleOfBlock keepsRole). cbn [app].
  do 2 f_equal.
  rewrite (regexSplit_quiet roleRe intro _ true).
  - destruct blocks as [|hb rest]; [reflexivity|].
    assert (Hbol : bolAfter true intro = true).
    { destruct Hend as [E|[->|He]]; [discriminate E|reflexivity|].
      now apply endsLine_bol. }
    rewrite Hbol, regexSplit_blocks by (assumption || discriminate).
    reflexivity.
  - intros p q Hb Hq.
    destruct Hend as [->|[->|He]].
    + now apply (block_is_quiet intro [] true Hquiet Hstart (or_introl eq_refl)).
    + symmetry in Hb. apply app_eq_nil in Hb as [_ ->]. now contradiction Hq.
    + now apply (block_is_quiet intro _ true Hquiet Hstart (or_intror He)).
Qed.

Lemma quietFrom_sound (b : jsstring) : quietFrom b = true -> quietBlock b.
Proof.
  induction b as [|x b IH]; intros H p c q E Hc.
  - destruct p; discriminate E.
  - cbn [quietFrom] in H. apply andb_true_iff in H as [Hx Hb].
    destruct p as [|y p]; cbn [app] in E; injection E as -> ->.
    + rewrite Hc in Hx. cbn [negb orb] in Hx.
      now destruct (roleRe true q).
    + now apply (IH Hb p c q).
Qed.

End Roles.

(** C5.  An Experience section made of an introduction and of blocks, each
    under a heading [### Role], an ordinal and an annotation that runs to
    the end of the line, gives one record per block, in the order of the
    blocks, for exactly the blocks whose Title or Company is not empty.
    Every record is computed from the text of its block alone: sections
    that differ only in the text of their headings give the same records.
    The two blocks headed Role 1 (Most Recent) and Role 2 give two records
    in that order. *)
Theorem extractRoles_blocks :
  (forall intro blocks,
      introLayout intro blocks -> roleLayout blocks ->
      extractRoles (sectionText intro blocks)
      = filter keepsRole (map roleOfBlock (map snd blocks))) /\
  (forall intro blocks blocks',
      introLayout intro blocks -> roleLayout blocks ->
      introLayout intro blocks' -> roleLayout blocks' ->
      map snd blocks = map snd blocks' ->
      extractRoles (sectionText intro blocks)
      = extractRoles (sectionText intro blocks')) /\
  extractRoles
    (js "### Role 1 (Most Recent)\n\n- **Title:** VP\n- **Company:** Acme\n- **Dates:** 2021 - Present\n- **Key Contributions:**\n  - Saved $5M\n\n### Role 2\n\n- **Title:** Director\n- **Company:** Beta\n")
  = [ {| ExperienceEntry.title := js "VP";
         ExperienceEntry.company := js "Acme";
         ExperienceEntry.dates := js "2021 - Present";
         ExperienceEntry.location := [];
         ExperienceEntry.description := [];
         ExperienceEntry.contributions := [js "Saved $5M"] |};
      {| ExperienceEntry.title := js "Director";
         ExperienceEntry.company := js "Beta";
         ExperienceEntry.dates := [];
         ExperienceEntry.location := [];
         ExperienceEntry.description := [];
         ExperienceEntry.contributions := [] |} ].
Proof.
  split; [|split].
  - exact extractRoles_layout.
  - intros intro blocks blocks' Hi Hl Hi' Hl' E.
    rewrite (extractRoles_layout intro blocks Hi Hl).
    rewrite (extractRoles_layout intro blocks' Hi' Hl').
    now rewrite E.
  - vm_compute. reflexivity.
Qed.

Lemma extractRoles_blocks_witness :
  let intro := js "> Endpoint: GET /experience\n\n" in
  let blocks :=
    [ (js "### Role 1 (Most Recent)", js "\n\n- **Title:** VP\n- **Company:** Acme\n\n");
      (js "### Role 2", js "\n\n- **Title:**\n- **Company:**\n\n");
      (js "### Role 3 (first job)", js "\n\n- **Company:** Gamma\n") ] in
  introLayout intro blocks /\ roleLayout blocks /\
  map ExperienceEntry.company (extractRoles (sectionText intro blocks))
  = [js "Acme"; js "Gamma"].
Proof.
  intros intro blocks.
  assert (Hi : introLayout intro blocks).
  { split; [reflexivity|]. split; [now apply quietFrom_sound|].
    right. right. exists (js "> Endpoint: GET /experience\n"), LF. now split. }
  assert (Hh : forall d r, isDigit d = true -> forallb (fun c => negb (c =? LF)%N) r = true ->
                           roleHeadingText (js "### Role " ++ d :: r)).
  { intros d r Hd Hr. exists d, r. repeat split; [exact Hd|].
    intros Hin. rewrite forallb_forall in Hr. specialize (Hr _ Hin).
    now rewrite N.eqb_refl in Hr. }
  assert (Hl : roleLayout blocks).
  { repeat split.
    - now apply (Hh 49%N (js " (Most Recent)")).
    - right. now eexists.
    - now apply quietFrom_sound.
    - right. exists (js "\n\n- **Title:** VP\n- **Company:** Acme\n"), LF. now split.
    - now apply (Hh 50%N []).
    - right. now eexists.
    - now apply quietFrom_sound.
    - right. exists (js "\n\n- **Title:**\n- **Company:**\n"), LF. now split.
    - now apply (Hh 51%N (js " (first job)")).
    - right. now eexists.
    - now apply quietFrom_sound.
    - now left. }
  split; [exact Hi|]. split; [exact Hl|].
  rewrite (proj1 extractRoles_blocks intro blocks Hi Hl).
  vm_compute. reflexivity.
Defined.

(* ================================================================== *)
(** * Part III.  Further properties of the code                        *)
(* ================================================================== *)

(** ** What a cleaned value looks like *)

Section CleanShape.

Lemma dropWhile_stop (p : jschar -> bool) (l : jsstring) (c : jschar) (r : jsstring) :
  p c = false -> dropWhile p (l ++ c :: r) = dropWhile p l ++ c :: r.
Proof.
  intros Hc. induction l as [|x l IH]; cbn [app dropWhile].
  - now rewrite Hc.
  - destruct (p x); [exact IH | reflexivity].
Qed.

Lemma dropWhile_head (p : jschar -> bool) (c : jschar) (l : jsstring) :
  p c = false -> dropWhile p (c :: l) = c :: l.
Proof. intros Hc. cbn [dropWhile]. now rewrite Hc. Qed.

Lemma dropWhile_result (p : jschar -> bool) (l : jsstring) :
  dropWhile p l = [] \/
  exists c r, dropWhile p l = c :: r /\ p c = false.
Proof.
  induction l as [|x l IH]; [now left|].
  cbn [dropWhile]. destruct (p x) eqn:E; [exact IH|].
  right. now exists x, l.
Qed.

Lemma dropWhile_idem (p : jschar -> bool) (l : jsstring) :
  dropWhile p (dropWhile p l) = dropWhile p l.
Proof.
  destruct (dropWhile_result p l) as [->|(c & r & -> & Hc)]; [reflexivity|].
  now apply dropWhile_head.
Qed.

Lemma trimEnd_cons (c : jschar) (l : jsstring) :
  isWhiteSpace c = false -> trimEnd (c :: l) = c :: trimEnd l.
Proof.
  intros Hc. unfold trimEnd. cbn [rev].
  rewrite (dropWhile_stop isWhiteSpace (rev l) c [] Hc).
  now rewrite rev_app_distr.
Qed.

Lemma trimEnd_idem (l : jsstring) : trimEnd (trimEnd l) = trimEnd l.
Proof. unfold trimEnd. now rewrite rev_involutive, dropWhile_idem. Qed.

Lemma trim_idem (s : jsstring) : trim (trim s) = trim s.
Proof.
  unfold trim, trimStart.
  destruct (dropWhile_result isWhiteSpace s) as [->|(c & r & -> & Hc)].
  - reflexivity.
  - rewrite (trimEnd_cons c r Hc), (dropWhile_head isWhiteSpace c _ Hc).
    now rewrite <- (trimEnd_cons c r Hc), trimEnd_idem.
Qed.

Lemma Forall_dropWhile (P : jschar -> Prop) (p : jschar -> bool) (l : jsstring) :
  Forall P l -> Forall P (dropWhile p l).
Proof.
  induction 1 as [|x l Hx Hl IH]; cbn [dropWhile]; [constructor|].
  destruct (p x); [exact IH | now constructor].
Qed.

Lemma Forall_trim (P : jschar -> Prop) (s : jsstring) :
  Forall P s -> Forall P (trim s).
Proof.
  intros H. unfold trim, trimEnd, trimStart.
  apply Forall_rev, Forall_dropWhile, Forall_rev, Forall_dropWhile, H.
Qed.

Lemma replaceRuns_free (p : jschar -> bool) (r : jschar) (inRun : bool)
      (s : jsstring) :
  p r = false -> Forall (fun c => p c = false) (replaceRuns p r inRun s).
Proof.
  intros Hr. revert inRun; induction s as [|c s IH]; intros inRun;
    cbn [replaceRuns]; [constructor|].
  destruct (p c) eqn:Ec.
  - destruct inRun; [apply IH | constructor; [exact Hr | apply IH]].
  - constructor; [exact Ec | apply IH].
Qed.

Lemma replaceRuns_same (p : jschar -> bool) (r : jschar) (inRun : bool)
      (s : jsstring) :
  Forall (fun c => p c = false) s -> replaceRuns p r inRun s = s.
Proof.
  intros H. revert inRun; induction H as [|c s Hc _ IH]; intros inRun;
    cbn [replaceRuns]; [reflexivity|].
  now rewrite Hc, IH.
Qed.

Lemma stripComments_same (s : jsstring) :
  nowhere (startsWith (js "<!--")) s -> stripComments s = s.
Proof.
  unfold stripComments. induction s as [|c t IH]; intros H; [reflexivity|].
  cbn [stripCommentsFrom]. rewrite (H 0 : startsWith (js "<!--") (c :: t) = false).
  f_equal. apply IH. intros j. exact (H (S j)).
Qed.

Lemma noLF_forall (s : jsstring) :
  ~ In LF s <-> Forall (fun c => (LF =? c)%N = false) s.
Proof.
  rewrite Forall_forall. split.
  - intros H c Hc. apply N.eqb_neq. intros <-. now apply H.
  - intros H Hin. specialize (H LF Hin). now rewrite N.eqb_refl in H.
Qed.

Lemma cleanValue_noLF (s : jsstring) : ~ In LF (cleanValue s).
Proof.
  unfold cleanValue. apply noLF_forall, Forall_trim. now apply replaceRuns_free.
Qed.

Lemma cleanValue_trimmed (s : jsstring) : trim (cleanValue s) = cleanValue s.
Proof. unfold cleanValue. apply trim_idem. Qed.

End CleanShape.

(** X1.  Whatever the raw text, a cleaned value holds no line feed and has
    no white space left at either end: trimming it again changes nothing. *)
Theorem cleanValue_is_one_trimmed_line (s : jsstring) :
  ~ In LF (cleanValue s) /\ trim (cleanValue s) = cleanValue s.
Proof.
  split.
  - apply cleanValue_noLF.
  - apply cleanValue_trimmed.
Qed.

(** X2.  Cleaning keeps clean text as it is: a text without an annotation
    opener, without a line feed and without white space at its ends comes
    back unchanged.  So cleaning a second time changes nothing as long as
    the first cleaning left no annotation opener behind. *)
Theorem cleanValue_keeps_clean_text :
  (forall s,
      nowhere (startsWith (js "<!--")) s -> ~ In LF s -> trim s = s ->
      cleanValue s = s) /\
  (forall s,
      nowhere (startsWith (js "<!--")) (cleanValue s) ->
      cleanValue (cleanValue s) = cleanValue s).
Proof.
  assert (H : forall s, nowhere (startsWith (js "<!--")) s -> ~ In LF s ->
                        trim s = s -> cleanValue s = s).
  { intros s Hc Hl Ht. unfold cleanValue.
    rewrite (stripComments_same s Hc), Ht.
    rewrite replaceRuns_same by (now apply noLF_forall).
    exact Ht. }
  split; [exact H|].
  intros s Hc. apply H; [exact Hc | apply cleanValue_noLF | apply cleanValue_trimmed].
Qed.

Lemma cleanValue_keeps_clean_text_witness :
  nowhere (startsWith (js "<!--")) (js "VP, Business <Transformation>") /\
  cleanValue (js "VP, Business <Transformation>")
  = js "VP, Business <Transformation>".
Proof.
  assert (Hc : nowhere (startsWith (js "<!--")) (js "VP, Business <Transformation>")).
  { apply search_None. vm_compute. reflexivity. }
  split; [exact Hc|].
  apply (proj1 cleanValue_keeps_clean_text _ Hc).
  - intros H. vm_compute in H.
    repeat (destruct H as [H|H]; [discriminate H|]). exact H.
  - vm_compute. reflexivity.
Defined.

(** ** What [extractWhatIOffer] returns *)

Section Offers.

Lemma regexSplit_whole (m : bool -> jsstring -> option nat) (bol : bool)
      (s : jsstring) :
  (forall b q, m b q = None \/ ~ exists p, s = p ++ q) ->
  regexSplit m 0 bol s = [s].
Proof.
  intros H.
  rewrite <- (app_nil_r s) at 1.
  rewrite (regexSplit_quiet m s [] bol).
  - cbn [regexSplit prependHead]. now rewrite app_nil_r.
  - intros p q Hs _. rewrite app_nil_r.
    destruct (H (bolAfter bol p) q) as [Hm|Hn]; [exact Hm|].
    exfalso. apply Hn. now exists p.
Qed.

Lemma titleRe_nowhere (section : jsstring) :
  nowhere (startsWith (js "- **Title:**")) section ->
  regexSplit titleRe 0 true section = [section].
Proof.
  intros H. apply regexSplit_whole. intros b q.
  destruct (titleRe b q) eqn:E; [|now left].
  right. intros [p ->]. unfold titleRe in E.
  specialize (H (length p)). rewrite skipn_length_app in H.
  rewrite H, andb_false_r in E. discriminate E.
Qed.

Lemma offers_shape (blocks : list jsstring) (items : list OfferItem.t) :
  Forall offerShape items ->
  Forall offerShape
    (fold_left
       (fun items block =>
          let title := cleanValue (hd [] (split LF block)) in
          let description :=
            match descriptionRe block with
            | Some d => cleanValue d
            | None => []
            end in
          if truthy title && negb (startsWith (js "<!--") title)
          then items ++ [{| OfferItem.title := title;
                            OfferItem.description := description |}]
          else items)
       blocks items).
Proof.
  revert items; induction blocks as [|block blocks IH]; intros items H; [exact H|].
  cbn [fold_left]. apply IH. cbv zeta.
  destruct (truthy (cleanValue (hd [] (split LF block)))
            && negb (startsWith (js "<!--") (cleanValue (hd [] (split LF block)))))
    eqn:E; [|exact H].
  apply andb_true_iff in E as [Et Es]. apply negb_true_iff in Es.
  apply Forall_app. split; [exact H|]. constructor; [|constructor].
  unfold offerShape. cbn [OfferItem.title OfferItem.description].
  repeat split.
  - intros E0. rewrite E0 in Et. discriminate Et.
  - exact Es.
  - apply cleanValue_noLF.
  - apply cleanValue_trimmed.
  - destruct (descriptionRe block); [apply cleanValue_noLF | intros []].
  - destruct (descriptionRe block); [apply cleanValue_trimmed | reflexivity].
Qed.

End Offers.

(** X3.  [extractWhatIOffer] returns no item for a section that holds no
    [- **Title:**] label; and every item it returns, for any section, has a
    title that is not empty and does not start with an annotation opener,
    and a title and a description that hold no line feed and are trimmed. *)
Theorem extractWhatIOffer_items :
  (forall section, nowhere (startsWith (js "- **Title:**")) section ->
                   extractWhatIOffer section = []) /\
  (forall section item, In item (extractWhatIOffer section) -> offerShape item).
Proof.
  split.
  - intros section H. unfold extractWhatIOffer.
    rewrite (titleRe_nowhere section H). reflexivity.
  - intros section item Hin.
    assert (F : Forall offerShape (extractWhatIOffer section))
      by (apply offers_shape; constructor).
    rewrite Forall_forall in F. now apply F.
Qed.

Lemma extractWhatIOffer_items_witness :
  extractWhatIOffer (js "Nothing on offer yet.\n- one\n- two") = [] /\
  offerShape {| OfferItem.title := js "Turnarounds";
                OfferItem.description := js "Fix what is broken" |}.
Proof.
  destruct extractWhatIOffer_items as [H1 H2]. split.
  - apply H1. intros i.
    do 40 (destruct i as [|i]; [reflexivity|]). reflexivity.
  - apply (H2 (js "intro\n- **Title:** Turnarounds <!-- a -->\n  **Description:** Fix what is broken\n")).
    vm_compute. left. reflexivity.
Defined.

(** ** The keys and values of table rows *)

Section RowKeys.

Lemma jseqb_neq (a b : jsstring) : jseqb a b = false -> a <> b.
Proof. intros E ->. now rewrite jseqb_refl in E. Qed.

Lemma objGet_objSet {V : Type} (k k' : jsstring) (v : V) (o : object V) :
  objGet k (objSet k' v o) =
  if jseqb k' (js "__proto__") then objGet k o
  else if jseqb k' k then Some v else objGet k o.
Proof.
  unfold objSet. destruct (jseqb k' (js "__proto__")); [reflexivity|].
  apply objGet_objDefine.
Qed.

Lemma fold_objSet_keys {V : Type} (kvs : list (jsstring * V)) (o : object V)
      (k : jsstring) :
  objGet k (fold_left (fun row kv => objSet (fst kv) (snd kv) row) kvs o) <> None
  <-> (In k (map fst kvs) /\ k <> js "__proto__") \/ objGet k o <> None.
Proof.
  revert o; induction kvs as [|[k' v'] kvs IH]; intros o.
  - cbn [fold_left map]. split; [now right|]. intros [[[] _]|H]; exact H.
  - cbn [fold_left map fst snd]. rewrite IH, objGet_objSet.
    destruct (jseqb k' (js "__proto__")) eqn:Ep.
    + apply jseqb_eq in Ep. split.
      * intros [[H1 H2]|H]; [left; split; [now right|exact H2]|now right].
      * intros [[[H1|H1] H2]|H]; [congruence|left; now split|now right].
    + apply jseqb_neq in Ep. destruct (jseqb k' k) eqn:Ek.
      * apply jseqb_eq in Ek. subst k'. split; intros _.
        -- left. split; [now left|exact Ep].
        -- right. discriminate.
      * apply jseqb_neq in Ek. split.
        -- intros [[H1 H2]|H]; [left; split; [now right|exact H2]|now right].
        -- intros [[[H1|H1] H2]|H]; [congruence|left; now split|now right].
Qed.

Lemma fold_objSet_values {V : Type} (kvs : list (jsstring * V)) (o : object V)
      (k : jsstring) (v : V) :
  objGet k (fold_left (fun row kv => objSet (fst kv) (snd kv) row) kvs o) = Some v ->
  In v (map snd kvs) \/ objGet k o = Some v.
Proof.
  revert o; induction kvs as [|[k' v'] kvs IH]; intros o.
  - cbn [fold_left]. now right.
  - cbn [fold_left map fst snd]. intros H.
    destruct (IH _ H) as [H1|H1]; [left; now right|].
    rewrite objGet_objSet in H1.
    destruct (jseqb k' (js "__proto__")); [now right|].
    destruct (jseqb k' k); [|now right].
    left. left. congruence.
Qed.

Lemma in_fst_combine {A B : Type} (a : list A) (b : list B) (x : A) :
  length a <= length b -> (In x (map fst (combine a b)) <-> In x a).
Proof.
  revert b; induction a as [|a0 a IH]; intros [|b0 b] H; cbn in *;
    try tauto; try lia.
  rewrite IH by lia. tauto.
Qed.

Lemma in_snd_combine {A B : Type} (a : list A) (b : list B) (y : B) :
  In y (map snd (combine a b)) -> In y b.
Proof.
  revert b; induction a as [|a0 a IH]; intros [|b0 b]; cbn; try tauto.
  intros [H|H]; [now left|right; now apply IH].
Qed.

Variable toLowerCase : jsstring -> jsstring.

Lemma zipRow_keys (headers cells : list jsstring) (k : jsstring) :
  objGet k (zipRow toLowerCase headers cells) <> None <->
  In k (map (headerKey toLowerCase) headers) /\ k <> js "__proto__".
Proof.
  unfold zipRow. rewrite fold_objSet_keys, in_fst_combine.
  - cbn [objGet]. tauto.
  - rewrite length_map, length_app, repeat_length. lia.
Qed.

Lemma zipRow_values (headers cells : list jsstring) (k v : jsstring) :
  objGet k (zipRow toLowerCase headers cells) = Some v ->
  In v cells \/ v = [].
Proof.
  unfold zipRow. intros H. apply fold_objSet_values in H as [H|H].
  - apply in_snd_combine, in_app_or in H as [H|H]; [now left|].
    right. now apply repeat_spec in H.
  - discriminate H.
Qed.

Lemma extractTable_shape (content marker : jsstring) :
  exists headers dataLines,
    extractTable toLowerCase content marker = [] \/
    extractTable toLowerCase content marker = rowsOf toLowerCase headers dataLines.
Proof.
  unfold extractTable.
  destruct (indexOf marker content) as [idx|];
    [|exists [], []; now left].
  cbv zeta.
  destruct (findHeader _ 0) as [h|]; [|exists [], []; now left].
  destruct (length _ =? 0); [exists [], []; now left|].
  eexists _, _. right. rewrite rowLoop_rows. reflexivity.
Qed.

Lemma rowsOf_row (headers dataLines : list jsstring) (row : object jsstring) :
  In row (rowsOf toLowerCase headers dataLines) ->
  exists line, row = zipRow toLowerCase headers (parseTableRow line).
Proof.
  unfold rowsOf. intros H. apply in_map_iff in H as (cells & <- & H).
  apply filter_In in H as [H _]. apply in_map_iff in H as (line & <- & _).
  now exists line.
Qed.

End RowKeys.

(** X4.  The rows of one table returned by [extractTable] all have the same
    keys; no row has the key [__proto__], and every value is one trimmed
    line.  When the header is the first pipe line after the marker, the keys
    of every row are exactly the normalised header names other than
    [__proto__], whatever the number of cells of the row's line. *)
Theorem extractTable_row_keys :
  (forall lower content marker r1 r2 k,
      In r1 (extractTable lower content marker) ->
      In r2 (extractTable lower content marker) ->
      objGet k r1 <> None -> objGet k r2 <> None) /\
  (forall lower content marker row k v,
      In row (extractTable lower content marker) ->
      objGet k row = Some v ->
      k <> js "__proto__" /\ ~ In LF v /\ trim v = v) /\
  (forall lower content marker idx before header rest row k,
      firstAt (startsWith marker) content idx ->
      map trim (split LF (skipn (idx + length marker) content))
      = before ++ header :: rest ->
      Forall (fun l => isPipeLine l = false) before ->
      isPipeLine header = true ->
      In row (extractTable lower content marker) ->
      (objGet k row <> None <->
       In k (map (headerKey lower) (parseTableRow header)) /\
       k <> js "__proto__")).
Proof.
  split; [|split].
  - intros lower content marker r1 r2 k H1 H2 Hk.
    destruct (extractTable_shape lower content marker) as (hs & ls & [E|E]);
      rewrite E in H1, H2; [destruct H1|].
    apply rowsOf_row in H1 as (l1 & ->). apply rowsOf_row in H2 as (l2 & ->).
    apply zipRow_keys. now apply zipRow_keys in Hk.
  - intros lower content marker row k v H Hv.
    destruct (extractTable_shape lower content marker) as (hs & ls & [E|E]);
      rewrite E in H; [destruct H|].
    apply rowsOf_row in H as (l & ->).
    assert (Hk : objGet k (zipRow lower hs (parseTableRow l)) <> None)
      by (rewrite Hv; discriminate).
    apply zipRow_keys in Hk as [_ Hk]. split; [exact Hk|].
    apply zipRow_values in Hv as [Hv| ->].
    + unfold parseTableRow in Hv. apply in_map_iff in Hv as (x & <- & _).
      split; [apply cleanValue_noLF | apply cleanValue_trimmed].
    + split; [intros []|reflexivity].
  - intros lower content marker idx before header rest row k Hm Hl Hb Hh H.
    rewrite (extractTable_found lower content marker idx before header rest
                                Hm Hl Hb Hh) in H.
    destruct (parseTableRow header) as [|h hs] eqn:Eh; [destruct H|].
    apply rowsOf_row in H as (l & ->). apply zipRow_keys.
Qed.

Lemma extractTable_row_keys_witness :
  let content :=
    js "### T\n| Stat | Context |\n|---|---|\n| $50M+ | Savings |\n| 300% |" in
  let table := extractTable toLowerCaseAscii content (js "### T") in
  let row := [(js "stat", js "300%"); (js "context", [])] in
  In row table /\ In [(js "stat", js "$50M+"); (js "context", js "Savings")] table /\
  objGet (js "context") row <> None /\
  (js "context" <> js "__proto__" /\ ~ In LF [] /\ trim [] = []) /\
  (objGet (js "context") row <> None <->
   In (js "context")
      (map (headerKey toLowerCaseAscii) (parseTableRow (js "| Stat | Context |"))) /\
   js "context" <> js "__proto__").
Proof.
  intros content table row.
  destruct extractTable_row_keys as (K1 & K2 & K3).
  assert (H1 : In row table) by (vm_compute; right; left; reflexivity).
  assert (H2 : In [(js "stat", js "$50M+"); (js "context", js "Savings")] table)
    by (vm_compute; left; reflexivity).
  split; [exact H1|]. split; [exact H2|]. split; [|split].
  - apply (K1 toLowerCaseAscii content (js "### T") _ row (js "context") H2 H1).
    vm_compute. discriminate.
  - apply (K2 toLowerCaseAscii content (js "### T") row (js "context") [] H1).
    reflexivity.
  - apply (K3 toLowerCaseAscii content (js "### T") 0 [[]]
              (js "| Stat | Context |")
              [js "|---|---|"; js "| $50M+ | Savings |"; js "| 300% |"]).
    + apply search_Some. vm_compute. reflexivity.
    + vm_compute. reflexivity.
    + repeat constructor.
    + reflexivity.
    + exact H1.
Defined.

(** ** The files of a run and the count it reports *)

Section Report.

Lemma filter_all {A : Type} (f : A -> bool) (l : list A) :
  length (filter f l) = length l -> filter f l = l.
Proof.
  induction l as [|a l IH]; [reflexivity|]. cbn [filter].
  destruct (f a); cbn [length]; intros H.
  - f_equal. apply IH. lia.
  - pose proof (filter_length_le f l). lia.
Qed.

Lemma NoDup_snoc {A : Type} (l : list A) (x : A) :
  NoDup l -> ~ In x l -> NoDup (l ++ [x]).
Proof.
  induction 1 as [|a l Ha Hl IH]; intros Hx.
  - constructor; [intros []|constructor].
  - cbn [app]. constructor.
    + intros H. apply in_app_or in H as [H|[H|[]]]; [now apply Ha|].
      apply Hx. now left.
    + apply IH. intros H. apply Hx. now right.
Qed.

Lemma NoDup_map_filter {A B : Type} (g : A -> B) (f : A -> bool) (l : list A) :
  (forall a b, g a = g b -> a = b) -> NoDup l -> NoDup (map g (filter f l)).
Proof.
  intros Hg. induction 1 as [|a l Ha Hl IH]; [constructor|].
  cbn [filter]. destruct (f a); [|exact IH].
  cbn [map]. constructor; [|exact IH].
  intros H. apply in_map_iff in H as (b & E & H).
  apply Hg in E. subst b. apply filter_In in H as [H _]. now apply Ha.
Qed.

Lemma keys_of_profile (p : ProfileData.t) :
  keys (objectOfProfile p)
  = [js "about"; js "narrative"; js "thesis"; js "accomplishments";
     js "track-record"; js "experience"; js "seeking"; js "cultural-fit";
     js "skills"].
Proof. reflexivity. Qed.

Lemma keys_distinct (p : ProfileData.t) :
  NoDup (keys (objectOfProfile p)) /\ ~ In (js "root") (keys (objectOfProfile p)).
Proof.
  rewrite keys_of_profile. split.
  - repeat (constructor; [vm_compute; intuition discriminate|]). constructor.
  - vm_compute. intuition discriminate.
Qed.

Variable toLowerCase : jsstring -> jsstring.
Variable today : jsstring.

Lemma writeEndpointFiles_files (fs : FileSystem) (p : ProfileData.t)
      (dir : path) (version : jsstring) :
  filesWritten (writeEndpointFiles today fs p dir version)
  = map (endpointFile dir)
        (filter (fun e => negb (isEmptyData (prop (objectOfProfile p) e)))
                (keys (objectOfProfile p)))
    ++ [dir ++ [js "root.json"]].
Proof.
  unfold writeEndpointFiles. rewrite !filesWritten_app, endpointLoop_files.
  destruct (negb (existsSync fs dir)); reflexivity.
Qed.

Lemma writeEndpointFiles_distinct (fs : FileSystem) (p : ProfileData.t)
      (dir : path) (version : jsstring) :
  NoDup (filesWritten (writeEndpointFiles today fs p dir version)).
Proof.
  rewrite writeEndpointFiles_files.
  destruct (keys_distinct p) as [Hk Hr].
  apply NoDup_snoc.
  - apply NoDup_map_filter; [apply endpointFile_inj | exact Hk].
  - intros H. apply in_map_iff in H as (e & E & H).
    apply filter_In in H as [H _].
    change (dir ++ [js "root.json"]) with (endpointFile dir (js "root")) in E.
    apply endpointFile_inj in E. subst e. now apply Hr.
Qed.

End Report.

Section Reported.

Variable today : jsstring.
Variable stringify : value -> jsstring.

(** The files written by the calls that returned are among the first files
    of the script. *)
Lemma perform_files (fs : FileSystem) (events : list event) :
  exists later,
    filesWritten events
    = filesWritten (fst (perform stringify fs events)) ++ later.
Proof.
  destruct (perform_prefix stringify events fs) as (rest & E & _).
  exists (filesWritten rest). rewrite E at 1. apply filesWritten_app.
Qed.

Lemma performed_files (fs : FileSystem) (profile : ProfileData.t) (dir : path)
      (version : jsstring) :
  let files :=
    filesWritten (fst (perform stringify fs
                         (writeEndpointFiles today fs profile dir version))) in
  NoDup files /\ length files <= 10 /\
  (forall f, In f files -> exists name, f = dir ++ [name]).
Proof.
  intros files.
  destruct (perform_files fs (writeEndpointFiles today fs profile dir version))
    as (later & E).
  fold files in E.
  pose proof (writeEndpointFiles_distinct today fs profile dir version) as Hd.
  pose proof (writeEndpointFiles_files today fs profile dir version) as Hf.
  split; [|split].
  - rewrite E in Hd. now apply NoDup_app_remove_r in Hd.
  - apply (f_equal (@length _)) in E.
    rewrite Hf, !length_app, length_map in E. cbn [length] in E.
    pose proof (filter_length_le
                  (fun e => negb (isEmptyData (prop (objectOfProfile profile) e)))
                  (keys (objectOfProfile profile))) as H.
    assert (N : length (keys (objectOfProfile profile)) = 9) by reflexivity.
    rewrite N in H. slia.
  - intros f Hin.
    assert (Hin' : In f (filesWritten (writeEndpointFiles today fs profile dir version))).
    { rewrite E. apply in_or_app. now left. }
    rewrite Hf in Hin'.
    apply in_app_or in Hin' as [Hin'|[<-|[]]]; [|now eexists].
    apply in_map_iff in Hin' as (e & <- & _). now eexists.
Qed.

End Reported.

(** X5.  A run of [main] on a template that can be read writes each file at
    most once, directly inside [data], and at most ten files.  When it ends
    with status 0 it has written one file for each record that is not empty
    and [root.json], and its closing message reports ten files whatever
    their number: the count is right exactly when none of the nine records
    is empty.  When a call of [mkdirSync] or [writeFileSync] throws, the run
    ends with status 1 and without the closing message.  Where [data] can
    take the files the status is 0; where [data] is a file the status is 1
    and nothing is written. *)
Theorem files_written_and_reported :
  forall lower today stringify fs argv2 raw,
    fs (mainTemplatePath argv2) = Some (File raw) ->
    let data := objectOfProfile (assemble lower raw) in
    let r := main lower today stringify fs argv2 in
    let files := filesWritten (trace r) in
    (NoDup files /\ length files <= 10 /\
     (forall f, In f files -> exists name, f = [js "data"; name])) /\
    (exitCode r = 0 ->
     In (Log (Done 10)) (trace r) /\
     length files
     = 1 + length (filter (fun e => negb (isEmptyData (prop data e))) (keys data)) /\
     (length files = 10 <->
      forall e, In e (keys data) -> isEmptyData (prop data e) = false)) /\
    (exitCode r <> 0 ->
     exitCode r = 1 /\ forall n, ~ In (Log (Done n)) (trace r)) /\
    (takesFiles fs [js "data"] -> exitCode r = 0) /\
    (forall c, fs [js "data"] = Some (File c) -> exitCode r = 1 /\ files = []).
Proof.
  intros lower today stringify fs argv2 raw Hfs data r files.
  destruct (existsSync_file fs _ raw Hfs) as [He Hr].
  set (script := writeEndpointFiles today fs (assemble lower raw) [js "data"]
                                    defaultVersion).
  assert (Er : r = match perform stringify fs script with
                   | (made, Some _) =>
                       {| trace :=
                            [Log (Parsing (mainTemplatePath argv2));
                             Log (WritingTo [js "data"])]
                            ++ made ++ [Log (Done 10)];
                          exitCode := 0 |}
                   | (made, None) =>
                       {| trace :=
                            [Log (Parsing (mainTemplatePath argv2));
                             Log (WritingTo [js "data"])] ++ made;
                          exitCode := 1 |}
                   end).
  { unfold r, main, parseTemplate. rewrite He, Hr. reflexivity. }
  assert (Ef : files = filesWritten (fst (perform stringify fs script))).
  { unfold files. rewrite Er.
    destruct (perform stringify fs script) as [made [left|]]; cbn [trace fst].
    - rewrite !filesWritten_app. cbn [filesWritten flat_map app].
      now rewrite app_nil_r.
    - rewrite filesWritten_app. reflexivity. }
  split; [|split; [|split; [|split]]].
  - rewrite Ef.
    apply (performed_files today stringify fs (assemble lower raw) [js "data"]).
  - intros H0.
    destruct (perform_prefix stringify script fs) as (rest & E & Hs & _).
    assert (Hdone : snd (perform stringify fs script) <> None).
    { rewrite Er in H0.
      destruct (perform stringify fs script) as [made [left|]];
        cbn [exitCode snd] in *; [discriminate | discriminate H0]. }
    specialize (Hs Hdone). rewrite Hs, app_nil_r in E.
    assert (L : length files
                = 1 + length (filter (fun e => negb (isEmptyData (prop data e)))
                                     (keys data))).
    { rewrite Ef, <- E. unfold script.
      rewrite writeEndpointFiles_files, length_app, length_map.
      cbn [length]. fold data. lia. }
    split; [|split; [exact L|]].
    + rewrite Er.
      destruct (perform stringify fs script) as [made [left|]];
        cbn [trace snd] in *; [|now contradiction Hdone].
      apply in_or_app. right. apply in_or_app. right. now left.
    + rewrite L. split.
      * intros H e Hin.
        assert (F : filter (fun e => negb (isEmptyData (prop data e))) (keys data)
                    = keys data).
        { apply filter_all.
          assert (N : length (keys data) = 9) by reflexivity.
          rewrite N. slia. }
        rewrite <- F in Hin. apply filter_In in Hin as [_ Hin].
        now apply negb_true_iff in Hin.
      * intros H.
        assert (F : filter (fun e => negb (isEmptyData (prop data e))) (keys data)
                    = keys data).
        { apply forallb_filter_id. apply forallb_forall. intros e Hin.
          apply negb_true_iff. now apply H. }
        rewrite F. reflexivity.
  - intros H1.
    destruct (perform_prefix stringify script fs) as (rest & E & _).
    rewrite Er in H1 |- *.
    destruct (perform stringify fs script) as [made [left|]];
      cbn [trace exitCode fst] in *; [now contradiction H1|].
    split; [reflexivity|]. intros n Hin. cbn [app In] in Hin.
    destruct Hin as [Hin|[Hin|Hin]]; try discriminate Hin.
    apply (writeEndpointFiles_silent today fs (assemble lower raw) [js "data"]
                                     defaultVersion n).
    fold script. rewrite E. apply in_or_app. now left.
  - intros Ht.
    destruct (perform_takes today stringify fs (assemble lower raw) [js "data"]
                            defaultVersion Ht) as (fs' & E).
    fold script in E. now rewrite Er, E.
  - intros c Hc.
    destruct (writeEndpointFiles_refused today stringify fs (assemble lower raw)
                [js "data"] defaultVersion c Hc) as (made & E & Hm).
    fold script in E. rewrite Ef, Er, E. cbn [exitCode fst]. now split.
Qed.

Lemma files_written_and_reported_witness :
  let stringify := fun _ : value => js "{}" in
  let fresh := directoryWith (js "TEMPLATE.md") (js "## About\n\n**Name:** Jane\n") in
  let r := main toLowerCaseAscii (js "2026-01-01") stringify fresh None in
  let taken := directoryWith (js "data") (js "## About\n\n**Name:** Jane\n") in
  let r' := main toLowerCaseAscii (js "2026-01-01") stringify taken
                 (Some (js "data")) in
  (takesFiles fresh [js "data"] /\ exitCode r = 0 /\
   In (Log (Done 10)) (trace r) /\
   filesWritten (trace r)
   = [[js "data"; js "about.json"]; [js "data"; js "root.json"]]) /\
  (taken [js "data"] = Some (File (js "## About\n\n**Name:** Jane\n")) /\
   exitCode r' = 1 /\ filesWritten (trace r') = [] /\
   forall n, ~ In (Log (Done n)) (trace r')).
Proof.
  intros stringify fresh r taken r'.
  pose proof (files_written_and_reported toLowerCaseAscii (js "2026-01-01")
                stringify fresh None (js "## About\n\n**Name:** Jane\n") eq_refl)
    as (_ & Hdone & _ & Htakes & _).
  pose proof (files_written_and_reported toLowerCaseAscii (js "2026-01-01")
                stringify taken (Some (js "data"))
                (js "## About\n\n**Name:** Jane\n") eq_refl)
    as (_ & _ & Hfail & _ & Hfile).
  assert (Ht : takesFiles fresh [js "data"]).
  { split; [right; split; reflexivity | intros name; discriminate]. }
  split.
  - split; [exact Ht|]. split; [exact (Htakes Ht)|].
    split; [exact (proj1 (Hdone (Htakes Ht)))|].
    vm_compute. reflexivity.
  - destruct (Hfile (js "## About\n\n**Name:** Jane\n") eq_refl) as [H1 H2].
    split; [reflexivity|]. split; [exact H1|]. split; [exact H2|].
    apply Hfail. intros Q. discriminate (eq_trans (eq_sym Q) H1).
Defined.

(** ** The answers of the worker *)

Section Serving.

Lemma rev_repeat {A : Type} (x : A) (n : nat) : rev (repeat x n) = repeat x n.
Proof.
  induction n as [|n IH]; [reflexivity|].
  cbn [repeat rev]. rewrite IH. symmetry. apply repeat_cons.
Qed.

Lemma dropWhile_repeat (p : jschar -> bool) (c : jschar) (n : nat) (s : jsstring) :
  p c = true -> dropWhile p (repeat c n ++ s) = dropWhile p s.
Proof.
  intros H. induction n as [|n IH]; [reflexivity|].
  cbn [repeat app dropWhile]. now rewrite H.
Qed.

Lemma stripSlashes_slashes (p : jsstring) (n : nat) :
  stripSlashes (p ++ repeat SLASH n) = stripSlashes p.
Proof.
  unfold stripSlashes. rewrite rev_app_distr, rev_repeat, dropWhile_repeat.
  - reflexivity.
  - reflexivity.
Qed.

Lemma stripSlashes_all (n : nat) : stripSlashes (repeat SLASH n) = [].
Proof.
  change (repeat SLASH n) with ([] ++ repeat SLASH n).
  now rewrite stripSlashes_slashes.
Qed.

Lemma jseqb_false (a b : jsstring) : a <> b -> jseqb a b = false.
Proof.
  intros H. destruct (jseqb a b) eqn:E; [|reflexivity].
  now apply jseqb_eq in E.
Qed.

Variables aboutData narrativeData thesisData accomplishmentsData
          trackRecordData experienceData seekingData culturalFitData
          skillsData : value.
Variable today : jsstring.
Variable display : value -> jsstring.

Local Abbreviation serve :=
  (fetch aboutData narrativeData thesisData accomplishmentsData
         trackRecordData experienceData seekingData culturalFitData
         skillsData today display).
Local Abbreviation table :=
  (routes aboutData narrativeData thesisData accomplishmentsData
          trackRecordData experienceData seekingData culturalFitData
          skillsData).
Local Abbreviation root :=
  (buildRootResponse aboutData narrativeData thesisData accomplishmentsData
                     trackRecordData experienceData seekingData culturalFitData
                     skillsData today display).

Lemma fetch_path (m p q : jsstring) :
  stripSlashes p = stripSlashes q ->
  serve {| method := m; pathname := p |} = serve {| method := m; pathname := q |}.
Proof.
  intros H. unfold fetch. cbn [method pathname]. now rewrite H.
Qed.


Lemma fetch_get (p : jsstring) :
  serve {| method := js "GET"; pathname := p |} =
  if jseqb (stripSlashes p) [] then jsonResponse root 200
  else if jseqb (stripSlashes p) (js "/") then jsonResponse root 200
  else if truthyValue (prop table (stripSlashes p))
       then jsonResponse (prop table (stripSlashes p)) 200
       else jsonResponse
              (VObject
                 [ (js "error", VString (js "Not found"));
                   (js "message",
                    VString (js "No endpoint at " ++ stripSlashes p));
                   (js "available_endpoints", strings (keys table)) ])
              404.
Proof.
  unfold fetch. cbn [method pathname].
  change (jseqb (js "GET") (js "OPTIONS")) with false.
  change (jseqb (js "GET") (js "GET")) with true. cbn [negb].
  destruct (stripSlashes p) as [|c s]; reflexivity.
Qed.

Lemma stripSlashes_no_slash_end (p : jsstring) :
  stripSlashes p <> js "/".
Proof.
  unfold stripSlashes. intros H.
  apply (f_equal (@rev jschar)) in H. rewrite rev_involutive in H.
  destruct (dropWhile_result (N.eqb SLASH) (rev p)) as [D|(c & r & D & Hc)];
    rewrite D in H; [discriminate H|].
  injection H as -> _. discriminate Hc.
Qed.


Lemma cors_everywhere (r : request) (k v : jsstring) :
  objGet k CORS_HEADERS = Some v -> objGet k (headers (serve r)) = Some v.
Proof.
  intros H.
  assert (J : forall b st, objGet k (headers (jsonResponse b st)) = Some v).
  { intros b st. cbn [jsonResponse headers objGet].
    destruct (jseqb (js "Content-Type") k) eqn:E; [|exact H].
    apply jseqb_eq in E. subst k. discriminate H. }
  unfold fetch.
  destruct (jseqb (method r) (js "OPTIONS")); [exact H|].
  destruct (negb (jseqb (method r) (js "GET"))); [apply J|].
  cbv zeta.
  destruct (jseqb _ (js "/")); [apply J|].
  destruct (truthyValue _); apply J.
Qed.

End Serving.

(** X6.  The worker does not tell a path from the same path followed by
    slashes: the answer to any request is the answer to the request whose
    path has [n] more slashes at its end.  A path made of slashes only gets
    the directory of the endpoints. *)
Theorem fetch_ignores_trailing_slashes
        (aboutData narrativeData thesisData accomplishmentsData trackRecordData
         experienceData seekingData culturalFitData skillsData : value)
        (today : jsstring) (display : value -> jsstring) :
  let serve := fetch aboutData narrativeData thesisData accomplishmentsData
                     trackRecordData experienceData seekingData
                     culturalFitData skillsData today display in
  (forall m p n,
      startsWith (js "/") p = true ->
      serve {| method := m; pathname := p ++ repeat SLASH n |}
      = serve {| method := m; pathname := p |}) /\
  (forall n,
      serve {| method := js "GET"; pathname := repeat SLASH (S n) |}
      = jsonResponse
          (buildRootResponse aboutData narrativeData thesisData
                             accomplishmentsData trackRecordData experienceData
                             seekingData culturalFitData skillsData today display)
          200).
Proof.
  intros serve. split.
  - intros m p n _. apply fetch_path, stripSlashes_slashes.
  - intros n. unfold serve. rewrite fetch_get, stripSlashes_all. reflexivity.
Qed.

Lemma fetch_ignores_trailing_slashes_witness :
  let file := VObject [(js "data", VString (js "x"))] in
  let serve := fetch file file file file file file file file file
                     (js "2026-01-01") (fun _ => js "?") in
  serve {| method := js "GET"; pathname := js "/skills" ++ repeat SLASH 2 |}
  = serve {| method := js "GET"; pathname := js "/skills" |}.
Proof.
  intros file serve.
  apply (proj1 (fetch_ignores_trailing_slashes file file file file file file
                  file file file (js "2026-01-01") (fun _ => js "?"))).
  reflexivity.
Defined.

(** X7.  Every answer of the worker carries the three CORS headers.  A
    preflight request gets status 204 and no body, whatever its path; a
    request that is neither a preflight nor a GET gets status 405, whatever
    its path.  A GET gets status 200 with the directory when its path is
    made of slashes only, status 200 with the file of the route when the
    path, its final slashes removed, names a route whose file holds a truthy
    value, and status 404 otherwise. *)
Theorem fetch_answers
        (aboutData narrativeData thesisData accomplishmentsData trackRecordData
         experienceData seekingData culturalFitData skillsData : value)
        (today : jsstring) (display : value -> jsstring) (r : request) :
  startsWith (js "/") (pathname r) = true ->
  let table := routes aboutData narrativeData thesisData accomplishmentsData
                      trackRecordData experienceData seekingData
                      culturalFitData skillsData in
  let root := buildRootResponse aboutData narrativeData thesisData
                accomplishmentsData trackRecordData experienceData seekingData
                culturalFitData skillsData today display in
  let answer := fetch aboutData narrativeData thesisData accomplishmentsData
                      trackRecordData experienceData seekingData
                      culturalFitData skillsData today display r in
  let path := stripSlashes (pathname r) in
  (forall k v, objGet k CORS_HEADERS = Some v ->
               objGet k (headers answer) = Some v) /\
  (method r = js "OPTIONS" -> status answer = 204 /\ body answer = None) /\
  (method r <> js "OPTIONS" -> method r <> js "GET" ->
   status answer = 405 /\ body answer <> None) /\
  (method r = js "GET" ->
   (path = [] /\ answer = jsonResponse root 200) \/
   (exists file, path <> [] /\ objGet path table = Some file /\
                 truthyValue file = true /\ answer = jsonResponse file 200) \/
   (path <> [] /\ truthyValue (prop table path) = false /\
    status answer = 404 /\ body answer <> None)).
Proof.
  intros _ table root answer path.
  split; [intros k v; apply cors_everywhere|].
  split; [|split].
  - intros Hm. unfold answer, fetch. rewrite Hm. split; reflexivity.
  - intros H1 H2. unfold answer, fetch.
    rewrite (jseqb_false _ _ H1), (jseqb_false _ _ H2). split; [reflexivity|].
    discriminate.
  - intros Hm. unfold answer. destruct r as [m p]. cbn [method pathname] in *.
    subst m. rewrite fetch_get. fold path table root.
    destruct (jseqb path []) eqn:E0.
    { apply jseqb_eq in E0. left. split; [exact E0|reflexivity]. }
    assert (Hp : path <> []) by (intros E; rewrite E in E0; discriminate E0).
    rewrite (jseqb_false path (js "/") (stripSlashes_no_slash_end p)).
    right. destruct (truthyValue (prop table path)) eqn:Et.
    + left. unfold prop in *. destruct (objGet path table) as [file|].
      * exists file. repeat split; assumption.
      * discriminate Et.
    + right. repeat split; try assumption. discriminate.
Qed.

Lemma fetch_answers_witness :
  let file := VObject [(js "data", VString (js "x"))] in
  let answer := fetch file file file file file file file file file
                      (js "2026-01-01") (fun _ => js "?")
                      {| method := js "POST"; pathname := js "/about" |} in
  status answer = 405 /\ body answer <> None.
Proof.
  intros file answer.
  apply (fetch_answers file file file file file file file file file
                       (js "2026-01-01") (fun _ => js "?")
                       {| method := js "POST"; pathname := js "/about" |}
                       eq_refl);
    vm_compute; discriminate.
Defined.

(** ** The worker and the written files *)

Section Deployed.

Variables today version clock : jsstring.
Variable display : value -> jsstring.
Variable profile : ProfileData.t.

Lemma importedFile_truthy (e : jsstring) :
  truthyValue (importedFile today version profile e) = true.
Proof. reflexivity. Qed.

Lemma deployed_route (e : jsstring) (n : nat) :
  In e (keys (objectOfProfile profile)) ->
  deployed today version profile clock display
           {| method := js "GET"; pathname := js "/" ++ e ++ repeat SLASH n |}
  = jsonResponse (importedFile today version profile e) 200.
Proof.
  intros Hin. unfold deployed. cbv zeta.
  rewrite app_assoc.
  rewrite (fetch_path _ _ _ _ _ _ _ _ _ _ _ _ _ (js "/" ++ e)
                      (stripSlashes_slashes _ n)).
  rewrite fetch_get.
  rewrite keys_of_profile in Hin.
  repeat (destruct Hin as [<-|Hin]; [reflexivity|]).
  destruct Hin.
Qed.


Lemma directory_all (data : object value) (endpoints : list jsstring) :
  (forall e, In e endpoints -> isEmptyData (prop data e) = false) ->
  directory data endpoints
  = fromEntries (map (fun e => (js "GET /" ++ e, VString (endpointDescription e)))
                     endpoints).
Proof.
  intros H. unfold directory. cbv zeta. rewrite forallb_filter_id; [reflexivity|].
  apply forallb_forall. intros e He. now rewrite (H e He).
Qed.

Lemma deployed_root (n : nat) :
  (forall e, In e (keys (objectOfProfile profile)) ->
             isEmptyData (prop (objectOfProfile profile) e) = false) ->
  truthy (AboutData.name (ProfileData.about profile)) = true ->
  truthy today = true -> truthy version = true ->
  deployed today version profile clock display
           {| method := js "GET"; pathname := repeat SLASH (S n) |}
  = jsonResponse (rootPayload today profile version) 200.
Proof.
  intros Hall Hn Ht Hv. unfold deployed. cbv zeta.
  rewrite fetch_get, stripSlashes_all.
  change (jseqb [] []) with true. cbv iota. f_equal.
  unfold rootPayload. cbv zeta. rewrite (directory_all _ _ Hall), Hn.
  unfold buildRootResponse. cbv zeta.
  change (member (member (importedFile today version profile (js "about"))
                         (js "data")) (js "name"))
    with (VString (AboutData.name (ProfileData.about profile))).
  change (member (member (importedFile today version profile (js "about"))
                         (js "meta")) (js "api_version"))
    with (VString version).
  change (member (member (importedFile today version profile (js "about"))
                         (js "meta")) (js "last_updated"))
    with (VString today).
  unfold orElse. cbn [truthyValue]. rewrite Hn, Ht, Hv. cbn [text].
  reflexivity.
Qed.

End Deployed.

(** X8.  When none of the nine records is empty, the worker built from the
    files that [writeEndpointFiles] wrote answers a GET on each endpoint with
    the file written for it, as JSON reads it back.  When moreover the name
    of the profile, the date of the run and the version are not empty, it
    answers a GET on the root with exactly what was written to [root.json]:
    the directory it builds itself and the written one coincide. *)
Theorem worker_serves_written_files
        (today version clock : jsstring) (display : value -> jsstring)
        (profile : ProfileData.t) :
  let data := objectOfProfile profile in
  let serve := deployed today version profile clock display in
  (forall e, In e (keys data) -> isEmptyData (prop data e) = false) ->
  (forall e n,
      In e (keys data) ->
      serve {| method := js "GET"; pathname := js "/" ++ e ++ repeat SLASH n |}
      = jsonResponse (importedFile today version profile e) 200) /\
  (truthy (AboutData.name (ProfileData.about profile)) = true ->
   truthy today = true -> truthy version = true ->
   forall n,
     serve {| method := js "GET"; pathname := repeat SLASH (S n) |}
     = jsonResponse (rootPayload today profile version) 200).
Proof.
  intros data serve Hall. split.
  - intros e n He. now apply deployed_route.
  - intros Hn Ht Hv n. now apply deployed_root.
Qed.

Lemma worker_serves_written_files_witness :
  let profile :=
    assemble toLowerCaseAscii
      (js "## About\n\n**Name:** Ada\n\n## Narrative\n\n**Philosophy:**\nBuild\n\n## Thesis\n\n**Core Thesis:**\nProofs\n\n## Accomplishments\n\n### Operational Scale\n\n- Large\n\n## Track Record\n\n### Headline Stats\n\n| Stat | Context |\n|---|---|\n| 9 | nine |\n\n## Experience\n\n### Role 1\n\n- **Title:** VP\n\n## Seeking\n\n**Industry:**\nAny\n\n## Cultural Fit\n\n### I Thrive In\n\n- Calm\n\n## Skills\n\n### Technical\n\n- Rocq\n") in
  let serve := deployed (js "2026-01-01") defaultVersion profile
                        (js "2026-02-02") (fun _ => js "?") in
  serve {| method := js "GET"; pathname := js "/skills/" |}
  = jsonResponse (importedFile (js "2026-01-01") defaultVersion profile (js "skills"))
                 200 /\
  serve {| method := js "GET"; pathname := js "/" |}
  = jsonResponse (rootPayload (js "2026-01-01") profile defaultVersion) 200.
Proof.
  intros profile serve.
  assert (Hall : forall e, In e (keys (objectOfProfile profile)) ->
                           isEmptyData (prop (objectOfProfile profile) e) = false).
  { intros e He. rewrite keys_of_profile in He.
    repeat (destruct He as [<-|He]; [vm_compute; reflexivity|]). destruct He. }
  destruct (worker_serves_written_files (js "2026-01-01") defaultVersion
              (js "2026-02-02") (fun _ => js "?") profile Hall) as [H1 H2].
  split.
  - apply (H1 (js "skills") 1). vm_compute. tauto.
  - apply (H2 eq_refl eq_refl eq_refl 0).
Defined.

(** ** Loading the environment file *)

Section Environment.

Lemma takeWhile_app_stop (p : jschar -> bool) (k : jsstring) (c : jschar)
      (v : jsstring) :
  Forall (fun x => p x = true) k -> p c = false ->
  takeWhile p (k ++ c :: v) = k.
Proof.
  intros Hk Hc. induction Hk as [|x k Hx Hk IH]; cbn [app takeWhile].
  - now rewrite Hc.
  - now rewrite Hx, IH.
Qed.

Lemma takeWhile_prefix (p : jschar -> bool) (s : jsstring) :
  s = takeWhile p s ++ skipn (length (takeWhile p s)) s /\
  Forall (fun x => p x = true) (takeWhile p s).
Proof.
  induction s as [|c s [IH1 IH2]]; [split; [reflexivity|constructor]|].
  cbn [takeWhile]. destruct (p c) eqn:E.
  - cbn [length skipn app]. split; [now rewrite <- IH1|now constructor].
  - split; [reflexivity|constructor].
Qed.

(** What a line must look like to be read, and what is read of it. *)
Lemma envLine_Some (line k v : jsstring) :
  envLine line = Some (k, v) <->
  line = k ++ js "=" ++ v /\ k <> [] /\
  Forall (fun x => isEnvNameChar x = true) k /\ v <> [] /\
  Forall (fun x => isLineTerminator x = false) v.
Proof.
  unfold envLine. cbv zeta. split.
  - destruct (takeWhile_prefix isEnvNameChar line) as [E F].
    destruct (takeWhile isEnvNameChar line) as [|n0 name] eqn:En; [discriminate|].
    destruct (skipn _ line) as [|c w] eqn:Es; [discriminate|].
    destruct (c =? 61)%N eqn:Ec; [|discriminate]. apply N.eqb_eq in Ec. subst c.
    destruct (truthy w) eqn:Ew; [|discriminate].
    destruct (forallb _ w) eqn:Ef; [|discriminate].
    cbn [andb]. intros H. injection H as <- <-.
    split; [exact E|]. split; [discriminate|]. split; [exact F|].
    split; [intros ->; discriminate Ew|].
    rewrite forallb_forall in Ef. apply Forall_forall. intros x Hx.
    apply negb_true_iff. now apply Ef.
  - intros (-> & Hk & Fk & Hv & Fv).
    change (js "=" ++ v) with (61%N :: v).
    pose proof (takeWhile_app_stop isEnvNameChar k 61%N v Fk eq_refl) as T.
    unfold jsstring, jschar in *. rewrite T.
    destruct k as [|k0 k]; [contradiction|].
    pose proof (skipn_length_app (k0 :: k) (61%N :: v)) as T2.
    unfold jsstring, jschar in *. rewrite T2.
    change ((61 =? 61)%N) with true. cbn [andb].
    destruct v as [|v0 v]; [contradiction|]. cbn [truthy andb].
    replace (forallb _ (v0 :: v)) with true; [reflexivity|].
    symmetry. apply forallb_forall. intros x Hx.
    rewrite Forall_forall in Fv. now rewrite (Fv x Hx).
Qed.


Lemma jseqb_differ (a b : jsstring) : a <> b -> jseqb a b = false.
Proof.
  intros H. destruct (jseqb a b) eqn:E; [|reflexivity].
  now apply jseqb_eq in E.
Qed.

Lemma envStep_cases (env : object jsstring) (line : jsstring) :
  envStep env line = env \/
  exists k v, envLine line = Some (k, v) /\
              (forall x, objGet k env = Some x -> x = []) /\
              envStep env line = objDefine k (trim v) env.
Proof.
  unfold envStep. destruct (envLine line) as [[k v]|]; [|now left].
  destruct (objGet k env) as [x|] eqn:Ex.
  - destruct x as [|c x]; [|now left]. right. exists k, v.
    split; [reflexivity|]. split; [|reflexivity]. intros y Hy. congruence.
  - right. exists k, v. split; [reflexivity|]. split; [|reflexivity].
    intros y Hy. congruence.
Qed.

Lemma envStep_keeps (env : object jsstring) (line k v : jsstring) :
  objGet k env = Some v -> v <> [] -> objGet k (envStep env line) = Some v.
Proof.
  intros Hk Hv.
  destruct (envStep_cases env line) as [->|(k' & v' & _ & Hx & ->)]; [exact Hk|].
  rewrite objGet_objDefine. destruct (jseqb k' k) eqn:E; [|exact Hk].
  apply jseqb_eq in E. subst k'. now specialize (Hx v Hk).
Qed.

Lemma loop_keeps (lines : list jsstring) (env : object jsstring) (k v : jsstring) :
  objGet k env = Some v -> v <> [] ->
  objGet k (fold_left envStep lines env) = Some v.
Proof.
  revert env; induction lines as [|l lines IH]; intros env Hk Hv; [exact Hk|].
  cbn [fold_left]. apply IH; [now apply envStep_keeps | exact Hv].
Qed.

Lemma envStep_other (env : object jsstring) (line k : jsstring) :
  (k = [] \/ exists c, In c k /\ isEnvNameChar c = false) ->
  objGet k (envStep env line) = objGet k env.
Proof.
  intros Hk.
  destruct (envStep_cases env line) as [->|(k' & v' & Hl & _ & ->)]; [reflexivity|].
  rewrite objGet_objDefine, jseqb_differ; [reflexivity|].
  apply envLine_Some in Hl as (_ & Hn & Hf & _). intros ->.
  destruct Hk as [Hk|(c & Hc & Hp)]; [contradiction|].
  rewrite Forall_forall in Hf. rewrite (Hf c Hc) in Hp. discriminate Hp.
Qed.

Lemma loop_other (lines : list jsstring) (env : object jsstring) (k : jsstring) :
  (k = [] \/ exists c, In c k /\ isEnvNameChar c = false) ->
  objGet k (fold_left envStep lines env) = objGet k env.
Proof.
  intros Hk. revert env; induction lines as [|l lines IH]; intros env;
    [reflexivity|].
  cbn [fold_left]. now rewrite IH, envStep_other.
Qed.

Lemma envStep_sets (env : object jsstring) (line k v : jsstring) :
  envLine line = Some (k, v) -> trim v <> [] ->
  exists x, objGet k (envStep env line) = Some x /\ x <> [].
Proof.
  intros Hl Hv. unfold envStep. rewrite Hl.
  destruct (objGet k env) as [x|] eqn:Ex.
  - destruct x as [|c x]; cbn [truthy]; cbv iota.
    + exists (trim v). rewrite objGet_objDefine, jseqb_refl. now split.
    + exists (c :: x). split; [exact Ex|discriminate].
  - exists (trim v). rewrite objGet_objDefine, jseqb_refl. now split.
Qed.

Lemma loop_sets (lines : list jsstring) (env : object jsstring)
      (line k v : jsstring) :
  In line lines -> envLine line = Some (k, v) -> trim v <> [] ->
  exists x, objGet k (fold_left envStep lines env) = Some x /\ x <> [].
Proof.
  intros Hin Hl Hv. revert env; induction lines as [|l lines IH]; intros env;
    [destruct Hin|].
  cbn [fold_left]. destruct Hin as [->|Hin]; [|now apply IH].
  destruct (envStep_sets env line k v Hl Hv) as (x & Hx & Hn).
  exists x. split; [|exact Hn]. now apply loop_keeps.
Qed.

Lemma loop_values (lines : list jsstring) (env : object jsstring) (k x : jsstring) :
  objGet k (fold_left envStep lines env) = Some x ->
  objGet k env = Some x \/
  (trim x = x /\ Forall (fun c => isLineTerminator c = false) x).
Proof.
  revert env; induction lines as [|l lines IH]; intros env H; [now left|].
  cbn [fold_left] in H. apply IH in H as [H|H]; [|now right].
  destruct (envStep_cases env l) as [E|(k' & v' & Hl & _ & E)];
    rewrite E in H; [now left|].
  rewrite objGet_objDefine in H. destruct (jseqb k' k); [|now left].
  injection H as <-. right. split; [apply trim_idem|].
  apply Forall_trim. now apply envLine_Some in Hl.
Qed.

Lemma envLine_terminated (l : jsstring) (c : jschar) :
  isLineTerminator c = true -> envLine (l ++ [c]) = None.
Proof.
  intros Hc. destruct (envLine (l ++ [c])) as [[k v]|] eqn:E; [|reflexivity].
  apply envLine_Some in E as (E & _ & _ & Hv & Fv).
  destruct (last_cases v) as [->|(v' & d & ->)]; [contradiction|].
  change (js "=" ++ v' ++ [d]) with ((js "=" ++ v') ++ [d]) in E.
  rewrite app_assoc in E. apply app_inj_tail in E as [_ ->].
  apply Forall_app in Fv as [_ Fv]. inversion Fv as [|? ? Hd _]. congruence.
Qed.

End Environment.

(** X9.  Loading a [.env] text only fills gaps.  A variable that is set to
    a text that is not empty keeps it.  A variable whose name is empty or
    holds another character than a capital letter or an underscore is left
    as it is.  A variable named by a line [NAME=value], with a value that
    is not blank, is set and not empty afterwards.  Every value the loading
    sets is trimmed and holds no line terminator. *)
Theorem env_file_fills_gaps (envContent : jsstring) (env : object jsstring) :
  let env' := loadEnvContent envContent env in
  (forall k v, objGet k env = Some v -> v <> [] -> objGet k env' = Some v) /\
  (forall k, (k = [] \/ exists c, In c k /\ isEnvNameChar c = false) ->
             objGet k env' = objGet k env) /\
  (forall k v,
      In (k ++ js "=" ++ v) (split LF envContent) ->
      k <> [] -> Forall (fun c => isEnvNameChar c = true) k ->
      Forall (fun c => isLineTerminator c = false) v -> trim v <> [] ->
      exists x, objGet k env' = Some x /\ x <> []) /\
  (forall k x, objGet k env' = Some x ->
               objGet k env = Some x \/
               (trim x = x /\ Forall (fun c => isLineTerminator c = false) x)).
Proof.
  intros env'. unfold env', loadEnvContent. split; [|split; [|split]].
  - intros k v. apply loop_keeps.
  - intros k. apply loop_other.
  - intros k v Hin Hk Fk Fv Hv.
    apply (loop_sets _ env (k ++ js "=" ++ v) k v Hin); [|exact Hv].
    apply envLine_Some. repeat split; try assumption.
    intros ->. now apply Hv.
  - intros k x. apply loop_values.
Qed.

Lemma env_file_fills_gaps_witness :
  let env := [(js "HOME", js "/root"); (js "CLOUDFLARE_API_TOKEN", [])] in
  let env' := loadEnvContent (js "HOME=/tmp\nCLOUDFLARE_API_TOKEN= abc \nlower=x") env in
  objGet (js "HOME") env' = Some (js "/root") /\
  objGet (js "lower") env' = None /\
  (exists x, objGet (js "CLOUDFLARE_API_TOKEN") env' = Some x /\ x <> []) /\
  (objGet (js "CLOUDFLARE_API_TOKEN") env = Some (js "abc") \/
   (trim (js "abc") = js "abc" /\
    Forall (fun c => isLineTerminator c = false) (js "abc"))).
Proof.
  intros env env'.
  destruct (env_file_fills_gaps
              (js "HOME=/tmp\nCLOUDFLARE_API_TOKEN= abc \nlower=x") env)
    as (K1 & K2 & K3 & K4).
  split; [|split; [|split]].
  - apply K1; [reflexivity|discriminate].
  - apply (K2 (js "lower")). right. exists 108%N. split; [now left|reflexivity].
  - apply (K3 (js "CLOUDFLARE_API_TOKEN") (js " abc ")).
    + vm_compute. tauto.
    + discriminate.
    + repeat constructor.
    + repeat constructor.
    + vm_compute. discriminate.
  - apply K4. vm_compute. reflexivity.
Defined.

(** X10.  A [.env] text with Windows line ends is not read at all: when
    every line is empty or ends with a line terminator, such as the carriage
    return left by splitting at line feeds, loading changes nothing. *)
Theorem env_file_with_carriage_returns (envContent : jsstring)
        (env : object jsstring) :
  (forall line, In line (split LF envContent) ->
                line = [] \/
                exists l c, line = l ++ [c] /\ isLineTerminator c = true) ->
  loadEnvContent envContent env = env.
Proof.
  unfold loadEnvContent. generalize (split LF envContent) as lines.
  induction lines as [|l lines IH]; intros H; [reflexivity|].
  cbn [fold_left].
  assert (E : envStep env l = env).
  { unfold envStep. destruct (H l (or_introl eq_refl)) as [->|(l' & c & -> & Hc)].
    - reflexivity.
    - now rewrite (envLine_terminated l' c Hc). }
  rewrite E. apply IH. intros line Hin. apply H. now right.
Qed.

Lemma env_file_with_carriage_returns_witness :
  loadEnvContent (js "CLOUDFLARE_API_TOKEN=abc" ++ [13%N; LF]
                  ++ js "CODESPACES=true" ++ [13%N; LF]) []
  = [].
Proof.
  apply env_file_with_carriage_returns. intros line Hin.
  vm_compute in Hin.
  destruct Hin as [<-|[<-|[<-|[]]]].
  - right. exists (js "CLOUDFLARE_API_TOKEN=abc"), 13%N. split; reflexivity.
  - right. exists (js "CODESPACES=true"), 13%N. split; reflexivity.
  - now left.
Defined.

(** ** The worker name that setup suggests *)

Section Slugs.

Lemma replaceRuns_shape (p : jschar -> bool) (r : jschar) (inRun : bool)
      (s : jsstring) :
  p r = true ->
  let o := replaceRuns p r inRun s in
  Forall (fun c => p c = false \/ c = r) o /\
  (inRun = true -> forall t, o <> r :: t) /\
  (forall a b, o <> a ++ r :: r :: b) /\
  filter (fun c => negb (p c)) o = filter (fun c => negb (p c)) s.
Proof.
  intros Hr. revert inRun; induction s as [|c s IH]; intros inRun; cbn zeta.
  - cbn [replaceRuns]. split; [constructor|]. split; [discriminate|].
    split; [|reflexivity]. intros [|x a] b; discriminate.
  - cbn [replaceRuns filter]. destruct (p c) eqn:Ec; cbn [negb].
    + destruct (IH true) as (F & H1 & H2 & H3). destruct inRun.
      * repeat split; assumption.
      * split; [constructor; [now right|exact F]|].
        split; [discriminate|]. split.
        -- intros [|x a] b E; injection E as E.
           ++ now apply (H1 eq_refl b).
           ++ now apply (H2 a b).
        -- cbn [filter]. rewrite Hr. exact H3.
    + destruct (IH false) as (F & H1 & H2 & H3).
      split; [constructor; [now left|exact F]|].
      split; [intros _ t E; injection E as -> _; congruence|].
      split.
      * intros [|x a] b E; injection E as E.
        -- subst c. congruence.
        -- now apply (H2 a b).
      * cbn [filter]. rewrite Ec. cbn [negb]. now rewrite H3.
Qed.

Lemma rev_cons_eq {A : Type} (l r : list A) (c : A) :
  rev l = c :: r -> l = rev r ++ [c].
Proof.
  intros H. apply (f_equal (@rev A)) in H. now rewrite rev_involutive in H.
Qed.

Lemma stripHyphens_shape (P : jschar -> Prop) (s : jsstring) :
  Forall P s ->
  (forall a b, s <> a ++ HYPHEN :: HYPHEN :: b) ->
  let o := stripHyphens s in
  Forall P o /\
  (forall t, o <> HYPHEN :: t) /\ (forall t, o <> t ++ [HYPHEN]) /\
  (forall a b, o <> a ++ HYPHEN :: HYPHEN :: b) /\
  filter isSlugChar o = filter isSlugChar s.
Proof.
  intros F D. cbv zeta. unfold stripHyphens. cbv zeta.
  set (s1 := match s with
             | [] => []
             | c :: t => if (c =? HYPHEN)%N then t else s
             end).
  assert (A1 : Forall P s1 /\ (forall t, s1 <> HYPHEN :: t) /\
               (forall a b, s1 <> a ++ HYPHEN :: HYPHEN :: b) /\
               filter isSlugChar s1 = filter isSlugChar s).
  { unfold s1. destruct s as [|c t].
    - repeat split; try assumption; try discriminate.
    - destruct (c =? HYPHEN)%N eqn:Ec.
      + apply N.eqb_eq in Ec. subst c. inversion F; subst.
        split; [assumption|]. split; [|split].
        * intros u ->. now apply (D [] u).
        * intros a b ->. now apply (D (HYPHEN :: a) b).
        * reflexivity.
      + apply N.eqb_neq in Ec. split; [exact F|]. split; [|split].
        * intros u E. injection E as -> _. now apply Ec.
        * exact D.
        * reflexivity. }
  destruct A1 as (F1 & L1 & D1 & E1). clearbody s1.
  destruct (rev s1) as [|c r] eqn:Er.
  - repeat split; try constructor; try discriminate.
    + intros [|x t]; discriminate.
    + intros [|x a] b; discriminate.
    + rewrite <- E1. apply (f_equal (@rev jschar)) in Er.
      rewrite rev_involutive in Er. now rewrite Er.
  - apply rev_cons_eq in Er. destruct (c =? HYPHEN)%N eqn:Ec.
    + apply N.eqb_eq in Ec. subst c s1.
      apply Forall_app in F1 as [F1 _].
      split; [exact F1|]. split; [|split; [|split]].
      * intros t E. apply (L1 (t ++ [HYPHEN])). now rewrite E.
      * intros t E. apply (D1 t []). rewrite E, <- app_assoc. reflexivity.
      * intros a b E. apply (D1 a (b ++ [HYPHEN])). rewrite E, <- app_assoc.
        reflexivity.
      * rewrite <- E1, filter_app. cbn. now rewrite app_nil_r.
    + apply N.eqb_neq in Ec. split; [exact F1|]. split; [exact L1|].
      split; [|split; [exact D1|exact E1]].
      intros t E. rewrite Er in E. apply app_inj_tail in E as [_ E].
      now apply Ec.
Qed.

End Slugs.

(** X11.  The slug that [setup] derives from a name is made of small
    letters, digits and hyphens only; it neither starts nor ends with a
    hyphen and holds no two hyphens in a row; and its letters and digits are
    those of the lower-cased name, in the same order. *)
Theorem slug_is_a_label (toLowerCase : jsstring -> jsstring) (name : jsstring) :
  let s := slug toLowerCase name in
  Forall (fun c => isSlugChar c = true \/ c = HYPHEN) s /\
  (forall t, s <> HYPHEN :: t) /\ (forall t, s <> t ++ [HYPHEN]) /\
  (forall a b, s <> a ++ HYPHEN :: HYPHEN :: b) /\
  filter isSlugChar s = filter isSlugChar (toLowerCase name).
Proof.
  intros s. unfold s, slug.
  destruct (replaceRuns_shape (fun c => negb (isSlugChar c)) HYPHEN false
                              (toLowerCase name) eq_refl)
    as (F & _ & D & E).
  cbv zeta in F, D, E.
  assert (F' : Forall (fun c => isSlugChar c = true \/ c = HYPHEN)
                      (replaceRuns (fun c => negb (isSlugChar c)) HYPHEN false
                                   (toLowerCase name))).
  { eapply Forall_impl; [|exact F]. cbv beta. intros c [H|H]; [left|now right].
    now apply negb_false_iff in H. }
  destruct (stripHyphens_shape _ _ F' D) as (G1 & G2 & G3 & G4 & G5).
  repeat split; try assumption.
  rewrite G5.
  rewrite (filter_ext isSlugChar (fun c => negb (negb (isSlugChar c))))
    by (intros c; now rewrite negb_involutive).
  rewrite E. apply filter_ext. intros c. apply negb_involutive.
Qed.

(** ** Lines with holes *)

Section Holes.

Lemma denote_cons_D (d : jsstring) (r : list tok) :
  denote (D d :: r) = d ++ denote r.
Proof. destruct r; cbn [denote]; [now rewrite app_nil_r|reflexivity]. Qed.

Lemma startsWith_nil (s : jsstring) : startsWith [] s = true.
Proof. now destruct s. Qed.

(** A match that starts in a plain text [d] followed by [rest]. *)
Lemma startsWith_plain (f : jsstring -> bool) (d rest m : jsstring) :
  forallb plainChar d = true ->
  (forall m', startsWith m' rest = true -> f m' = true) ->
  startsWith m (d ++ rest) = true -> afterPlain f m = true.
Proof.
  intros Hd Hf. revert m; induction d as [|c d IH]; intros m H.
  - cbn [app] in H. destruct m; cbn [afterPlain]; rewrite (Hf _ H); reflexivity.
  - cbn [forallb] in Hd. apply andb_true_iff in Hd as [Hc Hd].
    destruct m as [|x m].
    + cbn [afterPlain]. rewrite (Hf [] (startsWith_nil rest)). reflexivity.
    + cbn [app startsWith] in H. apply andb_true_iff in H as [Hx H].
      apply N.eqb_eq in Hx. subst x.
      cbn [afterPlain]. rewrite Hc, (IH Hd m H). cbn [andb]. apply orb_true_r.
Qed.

Lemma mayStart_sound (s : list tok) (m : jsstring) :
  holesPlain s -> startsWith m (denote s) = true -> mayStart s m = true.
Proof.
  revert m; induction s as [|[c|d] r IH]; intros m Hp H.
  - destruct m; [reflexivity|discriminate H].
  - cbn [denote] in H. cbn [mayStart]. destruct m as [|x m]; [reflexivity|].
    cbn [startsWith] in H. apply andb_true_iff in H as [Hx H].
    rewrite Hx. cbn [andb]. apply IH; assumption.
  - rewrite denote_cons_D in H. destruct Hp as [Hd Hp]. cbn [mayStart].
    apply (startsWith_plain _ d (denote r)); try assumption.
    intros m' Hm'. now apply IH.
Qed.

Lemma mayStart_suffix (d : jsstring) (k : nat) (r : list tok) (m : jsstring) :
  holesPlain (D d :: r) ->
  startsWith m (skipn k d ++ denote r) = true -> mayStart (D d :: r) m = true.
Proof.
  intros [Hd Hp] H. cbn [mayStart].
  apply (startsWith_plain _ (skipn k d) (denote r)); try assumption.
  - rewrite forallb_forall in *. intros c Hc. apply Hd.
    rewrite <- (firstn_skipn k d). apply in_or_app. now right.
  - intros m' Hm'. now apply mayStart_sound.
Qed.

Lemma mayInclude_sound (s : list tok) (m : jsstring) :
  holesPlain s -> mayInclude s m = false -> nowhere (startsWith m) (denote s).
Proof.
  induction s as [|[c|d] r IH]; intros Hp H j.
  - cbn [mayInclude] in H. rewrite orb_false_r in H.
    cbn [denote]. rewrite skipn_nil.
    destruct (startsWith m []) eqn:E; [|reflexivity].
    now rewrite (mayStart_sound [] m I E) in H.
  - cbn [mayInclude] in H. apply orb_false_iff in H as [H1 H2].
    destruct j as [|j].
    + cbn [skipn]. destruct (startsWith m (denote (C c :: r))) eqn:E; [|reflexivity].
      now rewrite (mayStart_sound _ m Hp E) in H1.
    + cbn [denote skipn]. now apply IH.
  - cbn [mayInclude] in H. apply orb_false_iff in H as [H1 H2].
    rewrite denote_cons_D.
    destruct (le_lt_dec (length d) j) as [Hj|Hj].
    + replace j with (length d + (j - length d)) by lia.
      rewrite skipn_add_app. apply IH; [apply Hp|exact H2].
    + rewrite skipn_app. replace (j - length d) with 0 by lia. cbn [skipn].
      destruct (startsWith m (skipn j d ++ denote r)) eqn:E; [|reflexivity].
      now rewrite (mayStart_suffix d j r m Hp E) in H1.
Qed.

End Holes.

(** ** Texts as lines *)

Section LineTexts.

Lemma unlines_app (a b : list jsstring) :
  unlines (a ++ b) = unlines a ++ unlines b.
Proof.
  induction a as [|l a IH]; [reflexivity|].
  cbn [app unlines]. now rewrite IH, <- app_assoc.
Qed.

Lemma joinLines_cons (l : jsstring) (r : list jsstring) :
  r <> [] -> joinLines (l :: r) = l ++ LF :: joinLines r.
Proof. destruct r; [contradiction|reflexivity]. Qed.

Lemma unlines_join (ls : list jsstring) :
  ls <> [] -> unlines ls = joinLines ls ++ [LF].
Proof.
  induction ls as [|l r IH]; [contradiction|]. intros _.
  destruct r as [|l' r].
  - reflexivity.
  - rewrite joinLines_cons by discriminate. cbn [unlines] in *.
    rewrite IH by discriminate. now rewrite <- app_assoc.
Qed.

Lemma joinLines_app (a b : list jsstring) :
  b <> [] -> joinLines (a ++ b) = unlines a ++ joinLines b.
Proof.
  intros Hb. induction a as [|l a IH]; [reflexivity|].
  cbn [app unlines]. rewrite joinLines_cons.
  - now rewrite IH, <- app_assoc.
  - destruct a; [exact Hb|discriminate].
Qed.

Lemma split_noLF (l : jsstring) : ~ In LF l -> split LF l = [l].
Proof.
  induction l as [|c l IH]; intros H; [reflexivity|].
  cbn [split]. destruct (c =? LF)%N eqn:E.
  - apply N.eqb_eq in E. subst c. exfalso. apply H. now left.
  - rewrite IH; [reflexivity|]. intros Hin. apply H. now right.
Qed.

Lemma split_line (l r : jsstring) :
  ~ In LF l -> split LF (l ++ LF :: r) = l :: split LF r.
Proof.
  induction l as [|c l IH]; intros H.
  - cbn [app split]. now rewrite N.eqb_refl.
  - cbn [app split]. destruct (c =? LF)%N eqn:E.
    + apply N.eqb_eq in E. subst c. exfalso. apply H. now left.
    + rewrite IH; [reflexivity|]. intros Hin. apply H. now right.
Qed.

Lemma split_joinLines (ls : list jsstring) :
  ls <> [] -> Forall (fun l => ~ In LF l) ls -> split LF (joinLines ls) = ls.
Proof.
  induction ls as [|l r IH]; [contradiction|]. intros _ F.
  inversion F as [|? ? Hl Hr]; subst. destruct r as [|l' r].
  - now apply split_noLF.
  - rewrite joinLines_cons by discriminate.
    rewrite split_line by assumption. f_equal. now apply IH.
Qed.

(** *** Markers that start with a line feed *)

Lemma indexOf_LF_noLF (q l : jsstring) :
  ~ In LF l -> indexOf (LF :: q) l = None.
Proof.
  intros H. apply nowhere_search. intros j.
  destruct (skipn j l) as [|c t] eqn:E; [reflexivity|].
  cbn [startsWith]. destruct (LF =? c)%N eqn:Ec; [|reflexivity].
  apply N.eqb_eq in Ec. subst c. exfalso. apply H.
  rewrite <- (firstn_skipn j l), E. apply in_or_app. right. now left.
Qed.

Lemma startsWith_line (q l r : jsstring) :
  ~ In LF q -> startsWith q (l ++ LF :: r) = startsWith q l.
Proof. intros H. now apply startsWith_barrier. Qed.

Lemma startsWith_joinLines (q l : jsstring) (r : list jsstring) :
  ~ In LF q -> startsWith q (joinLines (l :: r)) = startsWith q l.
Proof.
  intros H. destruct r as [|l' r]; [reflexivity|].
  rewrite joinLines_cons by discriminate. now apply startsWith_line.
Qed.

(** No line after the first starts with [q]. *)
Lemma lines_quiet (q : jsstring) (ls : list jsstring) :
  ~ In LF q -> Forall (fun l => ~ In LF l) ls ->
  Forall (fun l => startsWith q l = false) (tl ls) ->
  indexOf (LF :: q) (joinLines ls) = None.
Proof.
  intros Hq. induction ls as [|l r IH]; intros F Q; [reflexivity|].
  inversion F as [|? ? Hl Hr]; subst. destruct r as [|l' r].
  - now apply indexOf_LF_noLF.
  - rewrite joinLines_cons by discriminate.
    rewrite (indexOf_barrier LF q l _ Hq), (indexOf_LF_noLF q l Hl).
    cbn [tl] in Q. inversion Q as [|? ? Ql' Qr]; subst.
    rewrite startsWith_joinLines, Ql' by assumption.
    rewrite IH; [reflexivity|assumption|]. exact Qr.
Qed.

(** The first line after the first that starts with [q]. *)
Lemma lines_found (q : jsstring) (a : list jsstring) (l r : jsstring) :
  ~ In LF q -> a <> [] -> Forall (fun l => ~ In LF l) a ->
  Forall (fun l => startsWith q l = false) (tl a) ->
  startsWith q l = true ->
  indexOf (LF :: q) (unlines a ++ l ++ r) = Some (length (joinLines a)).
Proof.
  intros Hq Ha F Q Hl.
  rewrite (unlines_join a Ha), <- app_assoc. cbn [app].
  rewrite (indexOf_barrier LF q _ _ Hq), (lines_quiet q a Hq F Q).
  destruct (startsWith_inv Hl) as [t ->]. rewrite <- app_assoc.
  now rewrite startsWith_app.
Qed.

(** *** Markers that lie inside a line *)

Lemma nowhere_line (m l r : jsstring) (j : nat) :
  ~ In LF m -> m <> [] -> nowhere (startsWith m) l -> j <= length l ->
  startsWith m (skipn j (l ++ LF :: r)) = false.
Proof.
  intros Hm Hne H Hj. rewrite skipn_app_le by exact Hj.
  rewrite startsWith_line by exact Hm. apply H.
Qed.

Lemma indexOf_skip_line (m l r : jsstring) :
  ~ In LF m -> m <> [] -> nowhere (startsWith m) l ->
  indexOf m (l ++ LF :: r)
  = option_map (fun k => length l + 1 + k) (indexOf m r).
Proof.
  intros Hm Hne H. unfold indexOf.
  destruct (search (startsWith m) r) as [k|] eqn:E; cbn [option_map].
  - apply firstAt_search. apply search_Some in E as (E1 & E2 & E3).
    split; [|split].
    + rewrite length_app. cbn [length]. lia.
    + replace (length l + 1 + k) with (length (l ++ [LF]) + k)
        by (rewrite length_app; cbn [length]; lia).
      change (l ++ LF :: r) with (l ++ [LF] ++ r). rewrite app_assoc.
      now rewrite skipn_add_app.
    + intros j Hj. destruct (le_lt_dec j (length l)) as [Hl|Hl].
      * now apply nowhere_line.
      * replace j with (length (l ++ [LF]) + (j - length l - 1))
          by (rewrite length_app; cbn [length]; lia).
        change (l ++ LF :: r) with (l ++ [LF] ++ r). rewrite app_assoc.
        rewrite skipn_add_app. apply E3. lia.
  - apply nowhere_search. intros j.
    destruct (le_lt_dec j (length l)) as [Hl|Hl].
    + now apply nowhere_line.
    + replace j with (length (l ++ [LF]) + (j - length l - 1))
        by (rewrite length_app; cbn [length]; lia).
      change (l ++ LF :: r) with (l ++ [LF] ++ r). rewrite app_assoc.
      rewrite skipn_add_app. now apply search_None.
Qed.

Lemma indexOf_in_line (m l r : jsstring) (o : nat) :
  ~ In LF m -> indexOf m l = Some o -> indexOf m (l ++ LF :: r) = Some o.
Proof.
  intros Hm E. apply firstAt_search. apply search_Some in E as (E1 & E2 & E3).
  split; [|split].
  - rewrite length_app. lia.
  - rewrite skipn_app_le by exact E1. now rewrite startsWith_line.
  - intros j Hj. rewrite skipn_app_le by lia. rewrite startsWith_line by exact Hm.
    now apply E3.
Qed.

(** The first line that holds the marker, and what follows the marker. *)
Lemma marker_in_lines (m : jsstring) (a : list jsstring) (p v : jsstring)
      (r : list jsstring) :
  ~ In LF m -> m <> [] ->
  Forall (fun l => nowhere (startsWith m) l) a ->
  indexOf m (p ++ m ++ v) = Some (length p) ->
  indexOf m (joinLines (a ++ (p ++ m ++ v) :: r))
  = Some (length (unlines a ++ p)) /\
  skipn (length (unlines a ++ p) + length m) (joinLines (a ++ (p ++ m ++ v) :: r))
  = joinLines (v :: r).
Proof.
  intros Hm Hne F E.
  rewrite joinLines_app by discriminate.
  induction F as [|l a Hl F IH].
  - cbn [unlines app]. split.
    + destruct r as [|l' r]; [exact E|].
      rewrite joinLines_cons by discriminate. now apply indexOf_in_line.
    + destruct r as [|l' r].
      * cbn [joinLines]. rewrite app_assoc, <- length_app. apply skipn_length_app.
      * rewrite !joinLines_cons by discriminate.
        rewrite <- !app_assoc.
        rewrite (app_assoc p m), <- length_app, <- app_assoc.
        rewrite (app_assoc p m). apply skipn_length_app.
  - destruct IH as [I1 I2]. cbn [unlines]. rewrite <- !app_assoc. cbn [app].
    split.
    + rewrite (indexOf_skip_line m l _ Hm Hne Hl), I1. cbn [option_map].
      f_equal. rewrite !length_app. cbn [length]. rewrite !length_app. lia.
    + rewrite <- I2.
      replace (length (l ++ LF :: unlines a ++ p) + length m)
        with (length (l ++ [LF]) + (length (unlines a ++ p) + length m))
        by (rewrite !length_app; cbn [length]; rewrite !length_app; lia).
      change (l ++ LF :: unlines a ++ joinLines ((p ++ m ++ v) :: r))
        with (l ++ [LF] ++ unlines a ++ joinLines ((p ++ m ++ v) :: r)).
      rewrite (app_assoc l [LF]). apply skipn_add_app.
Qed.

End LineTexts.

(** ** Trimming, and documents made of sections *)

Section Trimming.

Lemma dropWhile_app_all (p : jschar -> bool) (w y : jsstring) :
  Forall (fun c => p c = true) w -> dropWhile p (w ++ y) = dropWhile p y.
Proof.
  induction 1 as [|c w Hc _ IH]; [reflexivity|].
  cbn [app dropWhile]. now rewrite Hc.
Qed.

Lemma dropWhile_length (p : jschar -> bool) (s : jsstring) :
  length (dropWhile p s) <= length s.
Proof.
  induction s as [|c s IH]; [apply le_n|].
  cbn [dropWhile]. destruct (p c); cbn [length]; lia.
Qed.

Lemma dropWhile_full (p : jschar -> bool) (s : jsstring) :
  length (dropWhile p s) = length s -> dropWhile p s = s.
Proof.
  destruct s as [|c s]; [reflexivity|]. cbn [dropWhile].
  destruct (p c); [|reflexivity]. intros H.
  pose proof (dropWhile_length p s). cbn [length] in H. lia.
Qed.

Lemma trimEnd_length (s : jsstring) : length (trimEnd s) <= length s.
Proof.
  unfold trimEnd. rewrite length_rev.
  pose proof (dropWhile_length isWhiteSpace (rev s)) as H.
  now rewrite length_rev in H.
Qed.

(** A trimmed text has no white space at either end. *)
Lemma trimmed_ends (x : jsstring) :
  trim x = x -> trimStart x = x /\ trimEnd x = x.
Proof.
  intros H. unfold trim in H.
  assert (L : length (trimStart x) = length x).
  { pose proof (trimEnd_length (trimStart x)) as H1.
    pose proof (dropWhile_length isWhiteSpace x) as H2.
    fold (trimStart x) in H2. rewrite H in H1. lia. }
  assert (E : trimStart x = x) by (apply dropWhile_full, L).
  split; [exact E|]. now rewrite E in H.
Qed.

Lemma trimmed_head (x : jsstring) :
  trim x = x -> x = [] \/ exists c t, x = c :: t /\ isWhiteSpace c = false.
Proof.
  intros H. destruct (trimmed_ends x H) as [E _].
  destruct x as [|c t]; [now left|]. right. exists c, t. split; [reflexivity|].
  unfold trimStart in E. cbn [dropWhile] in E.
  destruct (isWhiteSpace c); [|reflexivity].
  pose proof (dropWhile_length isWhiteSpace t) as L. rewrite E in L.
  cbn [length] in L. lia.
Qed.

Lemma trimEnd_app_all (x w : jsstring) :
  Forall (fun c => isWhiteSpace c = true) w -> trimEnd (x ++ w) = trimEnd x.
Proof.
  intros H. unfold trimEnd. rewrite rev_app_distr, dropWhile_app_all.
  - reflexivity.
  - now apply Forall_rev.
Qed.

Lemma trim_pad (w1 x w2 : jsstring) :
  Forall (fun c => isWhiteSpace c = true) w1 ->
  Forall (fun c => isWhiteSpace c = true) w2 ->
  trim x = x -> trim (w1 ++ x ++ w2) = x.
Proof.
  intros H1 H2 Hx. unfold trim, trimStart.
  rewrite dropWhile_app_all by exact H1.
  destruct (trimmed_head x Hx) as [->|(c & t & -> & Hc)].
  - cbn [app]. rewrite dropWhile_all by exact H2. reflexivity.
  - cbn [app]. rewrite dropWhile_head by exact Hc.
    change (c :: t ++ w2) with ((c :: t) ++ w2).
    rewrite trimEnd_app_all by exact H2.
    now destruct (trimmed_ends _ Hx).
Qed.

Lemma trimEnd_snoc (u : jsstring) (c : jschar) :
  isWhiteSpace c = false -> trimEnd (u ++ [c]) = u ++ [c].
Proof.
  intros Hc. unfold trimEnd. rewrite rev_app_distr. cbn [rev app].
  rewrite dropWhile_head by exact Hc. cbn [rev]. now rewrite rev_involutive.
Qed.

Lemma trim_ends (c : jschar) (u : jsstring) (c' : jschar) :
  isWhiteSpace c = false -> isWhiteSpace c' = false ->
  trim (c :: u ++ [c']) = c :: u ++ [c'].
Proof.
  intros Hc Hc'. unfold trim, trimStart. rewrite dropWhile_head by exact Hc.
  change (c :: u ++ [c']) with ((c :: u) ++ [c']). now apply trimEnd_snoc.
Qed.

Lemma joinLines_last (ls : list jsstring) (l : jsstring) :
  joinLines (ls ++ [l]) = unlines ls ++ l.
Proof. now rewrite joinLines_app by discriminate. Qed.

(** The text of lines of which the first starts and the last ends with a
    code unit that is no white space is trimmed. *)
Lemma trim_core (c : jschar) (f : jsstring) (mid : list jsstring)
      (l : jsstring) (c' : jschar) :
  isWhiteSpace c = false -> isWhiteSpace c' = false ->
  trim (joinLines ((c :: f) :: mid ++ [l ++ [c']]))
  = joinLines ((c :: f) :: mid ++ [l ++ [c']]).
Proof.
  intros Hc Hc'.
  change ((c :: f) :: mid ++ [l ++ [c']]) with (((c :: f) :: mid) ++ [l ++ [c']]).
  rewrite joinLines_last.
  replace (unlines ((c :: f) :: mid) ++ l ++ [c'])
    with (c :: ((f ++ LF :: unlines mid) ++ l) ++ [c'])
    by (cbn [unlines app]; now rewrite <- !app_assoc).
  now apply trim_ends.
Qed.

Lemma trim_single (c : jschar) (u : jsstring) (c' : jschar) :
  isWhiteSpace c = false -> isWhiteSpace c' = false ->
  trim (joinLines [c :: u ++ [c']]) = joinLines [c :: u ++ [c']].
Proof. intros. cbn [joinLines]. now apply trim_ends. Qed.


Lemma trim_line_feed (x : jsstring) : trim (x ++ [LF]) = trim x.
Proof.
  unfold trim, trimStart.
  destruct (dropWhile_result isWhiteSpace x) as [E|(c & r & E & Hc)].
  - assert (F : Forall (fun c => isWhiteSpace c = true) x).
    { clear -E. induction x as [|c x IH]; [constructor|].
      cbn [dropWhile] in E. destruct (isWhiteSpace c) eqn:Ec; [|discriminate E].
      constructor; [exact Ec|now apply IH]. }
    rewrite dropWhile_app_all by exact F. rewrite E. reflexivity.
  - assert (E' : dropWhile isWhiteSpace (x ++ [LF]) = dropWhile isWhiteSpace x ++ [LF]).
    { clear -E. induction x as [|d x IH]; [discriminate E|].
      cbn [app dropWhile] in *. destruct (isWhiteSpace d); [now apply IH|reflexivity]. }
    rewrite E'. apply trimEnd_app_all. now repeat constructor.
Qed.

End Trimming.

Section Documents.

Lemma startsWith_longer (a c l : jsstring) :
  startsWith a l = false -> startsWith (a ++ c) l = false.
Proof.
  intros H. destruct (startsWith (a ++ c) l) eqn:E; [|reflexivity].
  now rewrite (startsWith_prefix a c l E) in H.
Qed.

Lemma unlines_as_join (ls : list jsstring) : unlines ls = joinLines (ls ++ [[]]).
Proof. rewrite joinLines_last. now rewrite app_nil_r. Qed.

Lemma sections_noLF (secs : list (jsstring * list jsstring)) :
  Forall calmSection secs ->
  Forall (fun l => ~ In LF l) (flat_map sectionLines secs).
Proof.
  induction 1 as [|[n b] secs (Hn & _ & Hb & _) _ IH]; [constructor|].
  cbn [flat_map sectionLines fst snd]. constructor.
  - intros Hin. apply in_app_or in Hin as [Hin|Hin]; [|now apply Hn].
    revert Hin. apply noLF_heading.
  - apply Forall_app. now split.
Qed.

Lemma sections_quiet (name : jsstring) (secs : list (jsstring * list jsstring)) :
  Forall calmSection secs ->
  Forall (fun s => startsWith (js "## " ++ name) (js "## " ++ fst s) = false) secs ->
  Forall (fun l => startsWith (js "## " ++ name) l = false)
         (flat_map sectionLines secs).
Proof.
  induction 1 as [|[n b] secs (_ & _ & _ & Hb) _ IH]; intros Q; [constructor|].
  inversion Q as [|? ? Q1 Q2]; subst.
  cbn [flat_map sectionLines fst snd]. constructor; [exact Q1|].
  apply Forall_app. split; [|now apply IH].
  eapply Forall_impl; [|exact Hb]. intros l Hl. now apply startsWith_longer.
Qed.

Lemma extractSection_at (u name rest : jsstring) :
  ~ In LF name ->
  indexOf (LF :: js "## " ++ name) u = None ->
  extractSection (u ++ LF :: (js "## " ++ name) ++ rest) name = sectionAfter rest.
Proof.
  intros Hn Hu.
  assert (Hq : ~ In LF (js "## " ++ name)).
  { intros Hin. apply in_app_or in Hin as [Hin|Hin]; [|now apply Hn].
    revert Hin. apply noLF_heading. }
  rewrite extractSection_unfold.
  change (LF :: js "## " ++ name) with (LF :: (js "## " ++ name)) in *.
  rewrite (indexOf_barrier LF (js "## " ++ name) u _ Hq), Hu, startsWith_app.
  replace (length u + 1 + length (js "## " ++ name))
    with (length ((u ++ [LF]) ++ (js "## " ++ name)))
    by (rewrite !length_app; cbn [length]; lia).
  replace (u ++ LF :: (js "## " ++ name) ++ rest)
    with (((u ++ [LF]) ++ (js "## " ++ name)) ++ rest)
    by (now rewrite <- !app_assoc).
  now rewrite skipn_length_app.
Qed.

(** In a document made of sections, [extractSection] finds the body of the
    first section of the name. *)
Lemma extractSection_document (intro : list jsstring)
      (before : list (jsstring * list jsstring)) (name : jsstring)
      (body : list jsstring) (after : list (jsstring * list jsstring)) :
  intro <> [] ->
  Forall (fun l => ~ In LF l) intro ->
  Forall (fun l => startsWith (js "## ") l = false) (tl intro) ->
  Forall calmSection before -> calmSection (name, body) ->
  Forall (fun s => startsWith (js "## " ++ name) (js "## " ++ fst s) = false)
         before ->
  extractSection
    (unlines (intro ++ flat_map sectionLines (before ++ (name, body) :: after)))
    name
  = trim (joinLines body).
Proof.
  intros Hi Fi Qi Cb (Hn & Hb & Fb & Qb) Nb. cbn [fst snd] in *.
  set (P := intro ++ flat_map sectionLines before).
  assert (HP : P <> []) by (unfold P; destruct intro; [contradiction|discriminate]).
  assert (FP : Forall (fun l => ~ In LF l) P).
  { unfold P. apply Forall_app. split; [exact Fi|now apply sections_noLF]. }
  assert (QP : Forall (fun l => startsWith (js "## " ++ name) l = false) (tl P)).
  { unfold P. destruct intro as [|i0 intro]; [contradiction|]. cbn [app tl] in *.
    apply Forall_app. split; [|now apply sections_quiet].
    eapply Forall_impl; [|exact Qi]. intros l Hl. now apply startsWith_longer. }
  assert (Hq : ~ In LF (js "## " ++ name)).
  { intros Hin. apply in_app_or in Hin as [Hin|Hin]; [|now apply Hn].
    revert Hin. apply noLF_heading. }
  replace (unlines (intro ++ flat_map sectionLines (before ++ (name, body) :: after)))
    with (joinLines P ++ LF :: (js "## " ++ name)
            ++ (LF :: unlines body ++ unlines (flat_map sectionLines after))).
  2:{ rewrite flat_map_app. cbn [flat_map].
      change (sectionLines (name, body)) with ((js "## " ++ name) :: body).
      rewrite app_assoc. fold P. rewrite unlines_app. cbn [app unlines].
      rewrite (unlines_join P HP), unlines_app, <- !app_assoc. reflexivity. }
  rewrite extractSection_at; [|exact Hn|now apply lines_quiet].
  destruct after as [|[n2 b2] after].
  - cbn [flat_map unlines]. rewrite app_nil_r.
    rewrite <- (trim_line_feed (joinLines body)), <- (unlines_join body Hb).
    rewrite <- (app_nil_r (unlines body)) at 1.
    apply (sectionAfter_body [] (unlines body) []).
    + intros [].
    + apply search_None. rewrite unlines_as_join.
      apply (lines_quiet (js "## ") (body ++ [[]])).
      * apply noLF_heading.
      * apply Forall_app. split; [exact Fb|]. constructor; [intros []|constructor].
      * destruct body as [|b0 body]; [contradiction|]. cbn [app tl].
        inversion Qb; subst. apply Forall_app. split; [assumption|].
        constructor; [reflexivity|constructor].
    + now left.
  - cbn [flat_map].
    change (sectionLines (n2, b2)) with ((js "## " ++ n2) :: b2).
    cbn [app unlines].
    rewrite (unlines_join body Hb), <- !app_assoc. cbn [app].
    apply (sectionAfter_body [] (joinLines body)).
    + intros [].
    + apply search_None. apply (lines_quiet (js "## ") body).
      * apply noLF_heading.
      * exact Fb.
      * destruct body as [|b0 body]; [contradiction|]. cbn [tl].
        now inversion Qb.
    + right. reflexivity.
Qed.

End Documents.

(** ** Fields written on lines *)

Section FieldsInLines.

Lemma fieldBoundary_other (c : jschar) (t : jsstring) :
  c <> LF -> fieldBoundary (c :: t) = false.
Proof.
  intros Hc. unfold fieldBoundary, headingRe.
  assert (E : (LF =? c)%N = false) by (apply N.eqb_neq; congruence).
  assert (S : forall q, startsWith (LF :: q) (c :: t) = false).
  { intros q. cbn [startsWith]. now rewrite E. }
  change (js "\n**") with (LF :: js "**").
  change (js "\n- **") with (LF :: js "- **").
  change (js "\n###") with (LF :: js "###").
  change (js "\n---") with (LF :: js "---").
  rewrite !S. destruct (skipn 4 (c :: t)); reflexivity.
Qed.

Lemma fieldBoundary_line (l w : jsstring) :
  ~ In LF l -> insideField l -> fieldBoundary (LF :: l ++ LF :: w) = false.
Proof.
  intros Hl (H1 & H2 & H3 & H4). unfold fieldBoundary, headingRe.
  assert (S : forall q, ~ In LF q ->
                        startsWith (LF :: q) (LF :: l ++ LF :: w) = startsWith q l).
  { intros q Hq. cbn [startsWith]. rewrite N.eqb_refl. cbn [andb].
    now apply startsWith_line. }
  change (js "\n**") with (LF :: js "**").
  change (js "\n- **") with (LF :: js "- **").
  change (js "\n###") with (LF :: js "###").
  change (js "\n---") with (LF :: js "---").
  rewrite !S by (vm_compute; intuition discriminate).
  rewrite H1, H2, H3, H4. destruct (skipn 4 _); reflexivity.
Qed.

Lemma startsWith_more (p b w : jsstring) :
  startsWith p b = true -> startsWith p (b ++ w) = true.
Proof.
  intros H. destruct (startsWith_inv H) as [r ->].
  rewrite <- app_assoc. apply startsWith_app.
Qed.

Lemma fieldBoundary_start (b w : jsstring) :
  endsField b = true -> fieldBoundary (LF :: b ++ w) = true.
Proof.
  unfold endsField, fieldBoundary. intros H.
  assert (S : forall q, startsWith q b = true ->
                        startsWith (LF :: q) (LF :: b ++ w) = true).
  { intros q Hq. cbn [startsWith]. rewrite N.eqb_refl. cbn [andb].
    now apply startsWith_more. }
  change (js "\n**") with (LF :: js "**").
  change (js "\n- **") with (LF :: js "- **").
  change (js "\n---") with (LF :: js "---").
  apply orb_true_iff in H as [H|H].
  - apply orb_true_iff in H as [H|H].
    + apply orb_true_iff in H as [H|H]; rewrite (S _ H).
      * reflexivity.
      * now rewrite orb_true_r.
    + destruct (startsWith_inv H) as [r ->].
      assert (E : headingRe (LF :: (js "### " ++ r) ++ w) = true) by reflexivity.
      rewrite E. now rewrite orb_true_r.
  - rewrite (S _ H). now rewrite orb_true_r.
Qed.

Lemma joinLines_head (l : jsstring) (r : list jsstring) :
  exists w, joinLines (l :: r) = l ++ w /\ (w = [] \/ exists w', w = LF :: w').
Proof.
  destruct r as [|l' r].
  - exists []. split; [now rewrite app_nil_r|now left].
  - exists (LF :: joinLines (l' :: r)). split; [reflexivity|right; now eexists].
Qed.

Lemma skipn_inside (l : jsstring) (j : nat) :
  j < length l -> exists c t, skipn j l = c :: t /\ In c l.
Proof.
  revert j; induction l as [|x l IH]; intros j Hj; [cbn in Hj; lia|].
  destruct j as [|j].
  - exists x, l. split; [reflexivity|now left].
  - cbn [length] in Hj. destruct (IH j) as (c & t & E & Hc); [lia|].
    exists c, t. split; [exact E|now right].
Qed.

(** No field ends inside lines that are [insideField]. *)
Lemma no_boundary_before (ls : list jsstring) (z : jsstring) (j : nat) :
  Forall (fun l => ~ In LF l) ls -> Forall insideField (tl ls) ->
  j + 1 < length (unlines ls) ->
  fieldBoundary (skipn j (unlines ls ++ z)) = false.
Proof.
  revert j; induction ls as [|l r IH]; intros j F Q Hj; [cbn in Hj; lia|].
  inversion F as [|? ? Hl Fr]; subst.
  cbn [unlines] in *. rewrite <- app_assoc. cbn [app].
  rewrite length_app in Hj. cbn [length] in Hj.
  destruct (lt_eq_lt_dec j (length l)) as [[Hlt|Heq]|Hgt].
  - rewrite skipn_app_le by lia.
    destruct (skipn_inside l j Hlt) as (c & t & -> & Hc).
    cbn [app]. apply fieldBoundary_other. intros ->. now apply Hl.
  - subst j. rewrite skipn_length_app.
    destruct r as [|l' r]; [cbn [unlines length] in Hj; lia|].
    cbn [tl] in Q. inversion Q as [|? ? Q1 Q2]; subst.
    inversion Fr as [|? ? Hl' _]; subst.
    cbn [unlines]. rewrite <- app_assoc. cbn [app].
    now apply fieldBoundary_line.
  - replace j with (length (l ++ [LF]) + (j - length l - 1))
      by (rewrite length_app; cbn [length]; lia).
    change (l ++ LF :: unlines r ++ z) with (l ++ [LF] ++ unlines r ++ z).
    rewrite app_assoc, skipn_add_app.
    apply IH; [exact Fr| |lia].
    destruct r as [|l' r]; [constructor|]. cbn [tl] in *. now inversion Q.
Qed.

Lemma earliest_unique (after : jsstring) (e : nat) :
  e < length after ->
  fieldBoundary (skipn e after) = true ->
  (forall j, j < e -> fieldBoundary (skipn j after) = false) ->
  fieldEnd after = e.
Proof.
  intros He Ht Hf.
  destruct (fieldEnd_earliest after) as (E1 & E2 & E3).
  destruct (lt_eq_lt_dec (fieldEnd after) e) as [[Hlt|Heq]|Hgt].
  - destruct E3 as [E3|E3]; [lia|]. now rewrite (Hf _ Hlt) in E3.
  - exact Heq.
  - now rewrite (E2 e Hgt) in Ht.
Qed.

Lemma fieldEnd_lines (v : jsstring) (vs : list jsstring) (b : jsstring)
      (rest : list jsstring) :
  Forall (fun l => ~ In LF l) (v :: vs) -> Forall insideField vs ->
  endsField b = true ->
  fieldEnd (joinLines ((v :: vs) ++ b :: rest)) = length (joinLines (v :: vs)) /\
  firstn (length (joinLines (v :: vs))) (joinLines ((v :: vs) ++ b :: rest))
  = joinLines (v :: vs).
Proof.
  intros F Q Hb. rewrite joinLines_app by discriminate.
  destruct (joinLines_head b rest) as (w & -> & _).
  assert (U : unlines (v :: vs) = joinLines (v :: vs) ++ [LF])
    by (apply unlines_join; discriminate).
  split.
  - apply earliest_unique.
    + rewrite U, !length_app. cbn [length]. lia.
    + rewrite U, <- app_assoc, skipn_length_app. cbn [app].
      now apply fieldBoundary_start.
    + intros j Hj. apply no_boundary_before; [exact F|exact Q|].
      rewrite U, length_app. cbn [length]. lia.
  - rewrite U, <- app_assoc. apply firstn_length_app.
Qed.

(** The text of a field that is written on lines of its own. *)
Lemma extractField_lines (label : jsstring) (a : list jsstring) (p v : jsstring)
      (vs : list jsstring) (b : jsstring) (rest : list jsstring) :
  ~ In LF label ->
  Forall (fun l => nowhere (startsWith (fieldMarker label)) l) a ->
  indexOf (fieldMarker label) (p ++ fieldMarker label ++ v) = Some (length p) ->
  Forall (fun l => ~ In LF l) (v :: vs) -> Forall insideField vs ->
  endsField b = true ->
  extractField (joinLines (a ++ (p ++ fieldMarker label ++ v) :: vs ++ b :: rest))
               label
  = cleanValue (joinLines (v :: vs)).
Proof.
  intros Hl Fa Hp F Q Hb. unfold extractField. cbv zeta.
  assert (Hm : ~ In LF (fieldMarker label)).
  { unfold fieldMarker. intros Hin.
    apply in_app_or in Hin as [Hin|Hin]; [revert Hin; vm_compute; intuition discriminate|].
    apply in_app_or in Hin as [Hin|Hin]; [now apply Hl|].
    revert Hin. vm_compute. intuition discriminate. }
  assert (Hne : fieldMarker label <> []) by discriminate.
  destruct (marker_in_lines (fieldMarker label) a p v (vs ++ b :: rest)
                            Hm Hne Fa Hp) as [I1 I2].
  rewrite I1, I2.
  change (v :: vs ++ b :: rest) with ((v :: vs) ++ b :: rest).
  destruct (fieldEnd_lines v vs b rest F Q Hb) as [E1 E2].
  now rewrite E1, E2.
Qed.

End FieldsInLines.

(** ** The template as lines *)

Section Representation.

Ltac flatten := repeat (progress (cbn [app]; rewrite <- ?app_assoc)).

Lemma unlines_cons (l : jsstring) (r : list jsstring) :
  unlines (l :: r) = l ++ LF :: unlines r.
Proof. reflexivity. Qed.

Lemma unlines_bullets (items : list jsstring) :
  unlines (map bulletLine items) = bullets items.
Proof.
  induction items as [|i items IH]; [reflexivity|].
  cbn [map unlines bullets flat_map]. unfold bullets in IH. rewrite IH.
  unfold bulletLine. now rewrite <- !app_assoc.
Qed.

Lemma unlines_flat_map {A : Type} (f : A -> list jsstring) (items : list A) :
  unlines (flat_map f items) = flat_map (fun i => unlines (f i)) items.
Proof.
  induction items as [|i items IH]; [reflexivity|].
  cbn [flat_map]. now rewrite unlines_app, IH.
Qed.

Lemma unlines_map {A : Type} (f : A -> jsstring) (items : list A) :
  unlines (map f items) = flat_map (fun i => f i ++ [LF]) items.
Proof.
  induction items as [|i items IH]; [reflexivity|].
  cbn [map unlines flat_map]. rewrite IH. now rewrite <- app_assoc.
Qed.

Lemma unlines_roleLines (i : nat) (roles : list Role.t) :
  unlines (roleLines i roles) = roleLoop i roles.
Proof.
  revert i; induction roles as [|r roles IH]; intros i; [reflexivity|].
  cbn [roleLines roleLoop]. rewrite unlines_cons, unlines_app, IH.
  unfold roleHeading, roleBody. rewrite unlines_app.
  rewrite !unlines_cons, unlines_app, unlines_map.
  cbn [unlines].
  rewrite (flat_map_ext (fun c => (js "  - " ++ c) ++ [LF])
                        (fun c => js "  - " ++ c ++ js "\n"))
    by (intros c; now rewrite <- app_assoc).
  flatten. reflexivity.
Qed.

Lemma unlines_offers (items : list Offer.t) :
  unlines (flat_map offerLines items)
  = flat_map (fun item =>
                js "- **Title:** " ++ Offer.title item ++ js "\n"
                ++ js "  **Description:** " ++ Offer.description item ++ js "\n\n")
             items.
Proof.
  rewrite unlines_flat_map. apply flat_map_ext. intros i.
  unfold offerLines. cbn [unlines]. flatten. reflexivity.
Qed.

Lemma unlines_financial (items : list Financial.t) :
  unlines (map financialLine items)
  = flat_map (fun item =>
                js "| " ++ Financial.accomplishment item ++ js " | "
                ++ Financial.company item ++ js " | "
                ++ Financial.value item ++ js " |\n")
             items.
Proof.
  rewrite unlines_map. apply flat_map_ext. intros i.
  unfold financialLine. flatten. reflexivity.
Qed.

Lemma unlines_stats (items : list Stat.t) :
  unlines (map statLine items)
  = flat_map (fun item =>
                js "| " ++ Stat.stat item ++ js " | " ++ Stat.context item
                ++ js " |\n")
             items.
Proof.
  rewrite unlines_map. apply flat_map_ext. intros i.
  unfold statLine. flatten. reflexivity.
Qed.

Lemma unlines_orgTypes (items : list OrgType.t) :
  unlines (map orgTypeLine items)
  = flat_map (fun org =>
                js "| " ++ OrgType.type org ++ js " | " ++ OrgType.whatIBring org
                ++ js " |\n")
             items.
Proof.
  rewrite unlines_map. apply flat_map_ext. intros i.
  unfold orgTypeLine. flatten. reflexivity.
Qed.

Lemma unlines_recognition (items : list jsstring) :
  unlines (recognitionLines items)
  = if 0 <? length items then bullets items
    else js "- <!-- Add recognition items if applicable -->\n".
Proof.
  destruct items as [|i items]; [reflexivity|].
  unfold recognitionLines. now rewrite unlines_bullets.
Qed.

Lemma unlines_domain (items : list jsstring) :
  unlines (domainLines items) ++ unlines (domainEnd items)
  = js "\n" ++ bullets items ++ js "\n".
Proof.
  destruct items as [|i items]; [reflexivity|].
  unfold domainLines, domainEnd. rewrite unlines_cons, unlines_bullets. reflexivity.
Qed.

Lemma generateTemplate_lines (data : WizardData.t) :
  generateTemplate data
  = unlines (headerLines ++ flat_map sectionLines (templateSections data)).
Proof.
  unfold generateTemplate, templateSections, headerLines.
  cbn [flat_map]. unfold sectionLines. cbn [fst snd].
  unfold aboutLines, narrativeLines, thesisLines, accomplishmentsLines,
    trackRecordLines, experienceLines, seekingLines, culturalFitLines,
    skillsLines, skillsEnd.
  repeat (rewrite ?unlines_app, ?unlines_cons).
  cbn [unlines]. flatten. rewrite app_nil_r, unlines_domain.
  rewrite !unlines_bullets, unlines_roleLines, unlines_offers, unlines_financial,
    unlines_stats, unlines_orgTypes, unlines_recognition.
  cbn [unlines]. flatten. reflexivity.
Qed.

End Representation.

(** ** Plain texts *)

Section PlainTexts.

Lemma plain_chars (d : jsstring) : plain d -> forallb plainChar d = true.
Proof. now intros [H _]. Qed.

Lemma filled_plain (d : jsstring) : filled d -> plain d.
Proof. now intros [H _]. Qed.

Lemma filled_chars (d : jsstring) : filled d -> forallb plainChar d = true.
Proof. intros [H _]. now apply plain_chars. Qed.

Lemma plainLine_plain (d : jsstring) : plainLine d -> plain d.
Proof. now intros [H _]. Qed.

Lemma plainLine_chars (d : jsstring) : plainLine d -> forallb plainChar d = true.
Proof. intros [H _]. now apply plain_chars. Qed.

Lemma chars_not (x : jschar) (d : jsstring) :
  plainChar x = false -> forallb plainChar d = true -> ~ In x d.
Proof.
  intros Hx Hd Hin. rewrite forallb_forall in Hd.
  rewrite (Hd x Hin) in Hx. discriminate Hx.
Qed.

Lemma chars_noLF (d : jsstring) : forallb plainChar d = true -> ~ In LF d.
Proof. now apply chars_not. Qed.

Lemma nowhere_char (x : jschar) (m s : jsstring) :
  ~ In x s -> nowhere (startsWith (x :: m)) s.
Proof.
  intros H j. destruct (skipn j s) as [|c t] eqn:E; [reflexivity|].
  cbn [startsWith]. destruct (x =? c)%N eqn:Ec; [|reflexivity].
  apply N.eqb_eq in Ec. subst c. exfalso. apply H.
  rewrite <- (firstn_skipn j s), E. apply in_or_app. right. now left.
Qed.

(** Cleaning a plain text that stands between spaces and line feeds gives
    the text. *)
Lemma cleanValue_pad (w1 d w2 : jsstring) :
  Forall (fun c => c = SPACE \/ c = LF) w1 ->
  Forall (fun c => c = SPACE \/ c = LF) w2 ->
  plain d -> cleanValue (w1 ++ d ++ w2) = d.
Proof.
  intros H1 H2 [Hc Ht]. unfold cleanValue.
  assert (W : forall w, Forall (fun c => c = SPACE \/ c = LF) w ->
                        Forall (fun c => isWhiteSpace c = true) w /\ ~ In 60%N w).
  { intros w Hw. split.
    - eapply Forall_impl; [|exact Hw]. intros c [->| ->]; reflexivity.
    - rewrite Forall_forall in Hw. intros Hin.
      destruct (Hw _ Hin) as [E|E]; discriminate E. }
  destruct (W w1 H1) as [S1 N1]. destruct (W w2 H2) as [S2 N2].
  rewrite stripComments_same.
  - rewrite (trim_pad w1 d w2 S1 S2 Ht).
    rewrite replaceRuns_same; [exact Ht|].
    apply noLF_forall. now apply chars_noLF.
  - apply (nowhere_char 60%N (js "!--")). intros Hin.
    apply in_app_or in Hin as [Hin|Hin]; [now apply N1|].
    apply in_app_or in Hin as [Hin|Hin]; [|now apply N2].
    revert Hin. now apply chars_not.
Qed.

Lemma cleanValue_plain (d : jsstring) : plain d -> cleanValue d = d.
Proof.
  intros H. rewrite <- (cleanValue_pad [] d [] (Forall_nil _) (Forall_nil _) H) at 2.
  now rewrite app_nil_r.
Qed.

Lemma plain_head (d : jsstring) :
  plain d ->
  d = [] \/ exists c t, d = c :: t /\ isWhiteSpace c = false /\ plainChar c = true.
Proof.
  intros [Hc Ht]. destruct (trimmed_head d Ht) as [->|(c & t & -> & Hw)];
    [now left|].
  right. exists c, t. repeat split; try assumption.
  cbn [forallb] in Hc. now apply andb_true_iff in Hc.
Qed.

Lemma plain_last (d : jsstring) :
  filled d -> exists t c, d = t ++ [c] /\ isWhiteSpace c = false.
Proof.
  intros [[Hc Ht] Hne].
  destruct (last_cases d) as [->|(t & c & ->)]; [contradiction|].
  exists t, c. split; [reflexivity|].
  destruct (trimmed_ends _ Ht) as [_ E]. unfold trimEnd in E.
  rewrite rev_app_distr in E. cbn [rev app dropWhile] in E.
  destruct (isWhiteSpace c); [|reflexivity].
  apply (f_equal (@length jschar)) in E.
  rewrite length_rev, length_app in E. cbn [length] in E.
  pose proof (dropWhile_length isWhiteSpace (rev t)) as L.
  rewrite length_rev in L. lia.
Qed.

Lemma insideField_nil : insideField [].
Proof. repeat split. Qed.

Lemma insideField_plainLine (d : jsstring) : plainLine d -> insideField d.
Proof.
  intros [Hp Hh]. destruct (plain_head d Hp) as [->|(c & t & -> & Hw & Hc)];
    [apply insideField_nil|].
  assert (H45 : (45 =? c)%N = false).
  { change (js "-") with [45%N] in Hh. cbn [startsWith] in Hh.
    destruct (45 =? c)%N; [|reflexivity]. now destruct t. }
  assert (H42 : (42 =? c)%N = false).
  { destruct (42 =? c)%N eqn:E; [|reflexivity]. apply N.eqb_eq in E. subst c.
    discriminate Hc. }
  assert (H35 : (35 =? c)%N = false).
  { destruct (35 =? c)%N eqn:E; [|reflexivity]. apply N.eqb_eq in E. subst c.
    discriminate Hc. }
  repeat split.
  - change (js "**") with (42%N :: js "*"). cbn [startsWith]. now rewrite H42.
  - change (js "- **") with (45%N :: js " **"). cbn [startsWith]. now rewrite H45.
  - change (js "###") with (35%N :: js "##"). cbn [startsWith]. now rewrite H35.
  - change (js "---") with (45%N :: js "--"). cbn [startsWith]. now rewrite H45.
Qed.

(** *** Lines with holes *)

Lemma holesPlain_fixed (l : jsstring) (r : list tok) :
  holesPlain (map C l ++ r) <-> holesPlain r.
Proof. induction l as [|c l IH]; [reflexivity|exact IH]. Qed.

Lemma denote_noLF (s : list tok) :
  holesPlain s -> fixedNoLF s = true -> ~ In LF (denote s).
Proof.
  induction s as [|[c|d] r IH]; intros Hp Hf.
  - intros [].
  - cbn [fixedNoLF] in Hf. apply andb_true_iff in Hf as [Hc Hf].
    cbn [denote]. intros [E|Hin].
    + subst c. discriminate Hc.
    + now apply IH.
  - destruct Hp as [Hd Hp]. rewrite denote_cons_D. intros Hin.
    apply in_app_or in Hin as [Hin|Hin].
    + revert Hin. now apply chars_noLF.
    + now apply IH.
Qed.

Lemma denote_not_start (s : list tok) (m : jsstring) :
  holesPlain s -> mayStart s m = false -> startsWith m (denote s) = false.
Proof.
  intros Hp H. destruct (startsWith m (denote s)) eqn:E; [|reflexivity].
  now rewrite (mayStart_sound s m Hp E) in H.
Qed.

End PlainTexts.

Create HintDb plainness.

#[export] Hint Resolve plain_chars filled_chars plainLine_chars filled_plain
  plainLine_plain : plainness.

(** The line [t] written with its holes. *)
Ltac holes t :=
  lazymatch t with
  | ?a ++ ?b => let ra := holes a in let rb := holes b in constr:(ra ++ rb)
  | js ?s => constr:(map C (js s))
  | @nil _ => constr:(@nil tok)
  | ?c :: ?b => let rb := holes b in constr:(C c :: rb)
  | ?d => constr:([D d])
  end.

Ltac holes_plain :=
  repeat first [ apply holesPlain_fixed | split | exact I ];
  auto with plainness.

(** Facts about one line of the template. *)
Ltac line_fact :=
  idtac;
  lazymatch goal with
  | |- ~ In LF ?l =>
      let r := holes l in
      change (~ In LF (denote r));
      apply denote_noLF; [cbn [app]; holes_plain | vm_compute; reflexivity]
  | |- nowhere (startsWith ?m) ?l =>
      let r := holes l in
      change (nowhere (startsWith m) (denote r));
      apply mayInclude_sound; [cbn [app]; holes_plain | vm_compute; reflexivity]
  | |- startsWith ?m ?l = false =>
      let r := holes l in
      change (startsWith m (denote r) = false);
      apply denote_not_start; [cbn [app]; holes_plain | vm_compute; reflexivity]
  end.

(** ** Lists written on lines *)

Section ListsInLines.

Lemma firstAt_indexOf (m s : jsstring) (i : nat) :
  indexOf m s = Some i -> firstAt (startsWith m) s i.
Proof. apply search_Some. Qed.

(** The lines [extractBulletList] reads. *)
Lemma extractBulletList_lines (marker : jsstring) (a : list jsstring)
      (p v : jsstring) (rest : list jsstring) :
  ~ In LF marker -> marker <> [] ->
  Forall (fun l => nowhere (startsWith marker) l) a ->
  indexOf marker (p ++ marker ++ v) = Some (length p) ->
  Forall (fun l => ~ In LF l) (v :: rest) ->
  extractBulletList (joinLines (a ++ (p ++ marker ++ v) :: rest)) marker
  = bulletLoop (v :: rest) [].
Proof.
  intros Hm Hne Fa Hp F. unfold extractBulletList.
  destruct (marker_in_lines marker a p v rest Hm Hne Fa Hp) as [I1 I2].
  rewrite I1. cbv zeta. rewrite I2.
  now rewrite split_joinLines by (discriminate || assumption).
Qed.

Lemma bulletLoop_skip (l : jsstring) (rest : list jsstring) :
  lineItem l = None -> bulletLoop (l :: rest) [] = bulletLoop rest [].
Proof.
  unfold lineItem. cbv zeta. intros H. rewrite bulletLoop_cons.
  destruct (isBullet (trim l)).
  - destruct (keepsItem _); [discriminate H|reflexivity].
  - destruct (isStopper (trim l)); reflexivity.
Qed.

Lemma bulletLoop_take (l v : jsstring) (rest items : list jsstring) :
  lineItem l = Some v ->
  bulletLoop (l :: rest) items = bulletLoop rest (items ++ [v]).
Proof.
  unfold lineItem. cbv zeta. intros H. rewrite bulletLoop_cons.
  destruct (isBullet (trim l)); [|discriminate H].
  destruct (keepsItem _); [|discriminate H]. now injection H as <-.
Qed.

Lemma bulletLoop_stop (l : jsstring) (rest items : list jsstring) :
  stopsList l = true -> items <> [] -> bulletLoop (l :: rest) items = items.
Proof.
  unfold stopsList. intros H Hne. apply andb_true_iff in H as [H1 H2].
  apply negb_true_iff in H1. rewrite bulletLoop_cons, H1, H2.
  destruct items; [contradiction|reflexivity].
Qed.

Lemma bulletLoop_none (ls : list jsstring) :
  Forall (fun l => lineItem l = None) ls -> bulletLoop ls [] = [].
Proof.
  induction 1 as [|l ls Hl _ IH]; [reflexivity|].
  now rewrite bulletLoop_skip.
Qed.

Lemma bulletLoop_items (f : jsstring -> jsstring) (items : list jsstring)
      (rest acc : list jsstring) :
  Forall (fun i => lineItem (f i) = Some i) items ->
  bulletLoop (map f items ++ rest) acc = bulletLoop rest (acc ++ items).
Proof.
  intros F. revert acc; induction F as [|i items Hi _ IH]; intros acc.
  - now rewrite app_nil_r.
  - cbn [map app]. rewrite (bulletLoop_take _ i _ _ Hi), IH, <- app_assoc.
    reflexivity.
Qed.

(** A list that has an item is read up to the line that stops it. *)
Lemma bulletLoop_list (pre : list jsstring) (f : jsstring -> jsstring)
      (items : list jsstring) (s : jsstring) (rest : list jsstring) :
  Forall (fun l => lineItem l = None) pre ->
  Forall (fun i => lineItem (f i) = Some i) items ->
  items <> [] -> stopsList s = true ->
  bulletLoop (pre ++ map f items ++ s :: rest) [] = items.
Proof.
  intros Fp Fi Hne Hs. induction Fp as [|l pre Hl _ IH].
  - cbn [app]. rewrite bulletLoop_items by exact Fi. cbn [app].
    now apply bulletLoop_stop.
  - cbn [app]. now rewrite bulletLoop_skip.
Qed.

Lemma trim_ends' (s : jsstring) (c : jschar) (x y : jsstring) (c' : jschar) :
  s = c :: x -> s = y ++ [c'] ->
  isWhiteSpace c = false -> isWhiteSpace c' = false -> trim s = s.
Proof.
  intros E1 E2 Hc Hc'. unfold trim, trimStart.
  rewrite E1 at 1. rewrite dropWhile_head by exact Hc. rewrite <- E1.
  rewrite E2. now apply trimEnd_snoc.
Qed.

Lemma trim_bulletLine (i : jsstring) : filled i -> trim (js "- " ++ i) = js "- " ++ i.
Proof.
  intros Hi. destruct (plain_last i Hi) as (t & c & -> & Hc).
  apply (trim_ends' _ 45%N (js " " ++ t ++ [c]) (js "- " ++ t) c);
    [reflexivity| |reflexivity|exact Hc].
  now rewrite <- app_assoc.
Qed.

Lemma keepsItem_filled (i : jsstring) : filled i -> keepsItem i = true.
Proof.
  intros [Hp Hne]. destruct i as [|c i]; [contradiction|].
  unfold keepsItem. cbn [truthy andb].
  change (js "<!--") with (60%N :: js "!--"). cbn [startsWith].
  destruct (60 =? c)%N eqn:E; [|reflexivity].
  apply N.eqb_eq in E. subst c. destruct Hp as [Hc _]. discriminate Hc.
Qed.

Lemma lineItem_bullet (w i : jsstring) :
  Forall (fun c => isWhiteSpace c = true) w -> filled i ->
  lineItem (w ++ js "- " ++ i) = Some i.
Proof.
  intros Hw Hi. unfold lineItem. cbv zeta.
  assert (E : trim (w ++ js "- " ++ i) = js "- " ++ i).
  { rewrite <- (app_nil_r (js "- " ++ i)) at 1.
    apply trim_pad; [exact Hw|constructor|now apply trim_bulletLine]. }
  rewrite E. change (isBullet (js "- " ++ i)) with true. cbv iota.
  change (skipn 2 (js "- " ++ i)) with i.
  rewrite (cleanValue_plain i (filled_plain i Hi)), (keepsItem_filled i Hi).
  reflexivity.
Qed.

Lemma lineItem_bulletLine (i : jsstring) : filled i -> lineItem (bulletLine i) = Some i.
Proof. intros Hi. now apply (lineItem_bullet [] i). Qed.

Lemma lineItem_head (c : jschar) (t : jsstring) :
  isWhiteSpace c = false -> c <> 45%N -> c <> 42%N -> lineItem (c :: t) = None.
Proof.
  intros Hw H45 H42. unfold lineItem. cbv zeta.
  unfold trim, trimStart. rewrite dropWhile_head by exact Hw.
  rewrite trimEnd_cons by exact Hw. unfold isBullet.
  change (js "- ") with (45%N :: js " "). change (js "* ") with (42%N :: js " ").
  cbn [startsWith].
  replace (45 =? c)%N with false by (symmetry; apply N.eqb_neq; congruence).
  replace (42 =? c)%N with false by (symmetry; apply N.eqb_neq; congruence).
  reflexivity.
Qed.

Lemma lineItem_plainLine (d : jsstring) : plainLine d -> lineItem d = None.
Proof.
  intros [Hp Hh]. destruct (plain_head d Hp) as [->|(c & t & -> & Hw & Hc)];
    [reflexivity|].
  apply lineItem_head; [exact Hw| |].
  - intros ->. discriminate Hh.
  - intros ->. discriminate Hc.
Qed.

End ListsInLines.

(** ** Tables written on lines *)

Section TablesInLines.

Lemma split_at (c : jschar) (x y : jsstring) :
  ~ In c x -> split c (x ++ c :: y) = x :: split c y.
Proof.
  induction x as [|d x IH]; intros H.
  - cbn [app split]. now rewrite N.eqb_refl.
  - cbn [app split]. destruct (d =? c)%N eqn:E.
    + apply N.eqb_eq in E. subst d. exfalso. apply H. now left.
    + rewrite IH; [reflexivity|]. intros Hin. apply H. now right.
Qed.

Lemma split_none (c : jschar) (x : jsstring) : ~ In c x -> split c x = [x].
Proof.
  induction x as [|d x IH]; intros H; [reflexivity|].
  cbn [split]. destruct (d =? c)%N eqn:E.
  - apply N.eqb_eq in E. subst d. exfalso. apply H. now left.
  - rewrite IH; [reflexivity|]. intros Hin. apply H. now right.
Qed.

Lemma tableLines_rows (rows rest : list jsstring) :
  Forall (fun r => isPipeLine r = true) rows ->
  tableLines (rows ++ [] :: rest) = rows.
Proof.
  induction 1 as [|r rows Hr _ IH]; [reflexivity|].
  cbn [app tableLines]. now rewrite Hr, IH.
Qed.

Lemma blankCell_filled (a : jsstring) : filled a -> blankCell a = false.
Proof.
  intros Ha. pose proof (keepsItem_filled a Ha) as K.
  unfold keepsItem in K. unfold blankCell.
  apply andb_true_iff in K as [K1 K2]. rewrite K1.
  apply negb_true_iff in K2. now rewrite K2.
Qed.

Lemma trim_pipes (middle : jsstring) :
  trim (PIPE :: middle ++ [PIPE]) = PIPE :: middle ++ [PIPE].
Proof. now apply trim_ends. Qed.

Lemma cell_clean (d : jsstring) :
  plain d -> cleanValue (js " " ++ d ++ js " ") = d.
Proof. intros H. apply cleanValue_pad; [| |exact H]; repeat constructor. Qed.

Lemma cell_noPipe (d : jsstring) : plain d -> ~ In PIPE (js " " ++ d ++ js " ").
Proof.
  intros [Hc _] Hin. apply in_app_or in Hin as [Hin|Hin].
  - revert Hin. vm_compute. intuition discriminate.
  - apply in_app_or in Hin as [Hin|Hin].
    + revert Hin. now apply chars_not.
    + revert Hin. vm_compute. intuition discriminate.
Qed.

(** A row of two cells. *)
Lemma parseTableRow_two (a b : jsstring) :
  plain a -> plain b ->
  parseTableRow (js "| " ++ a ++ js " | " ++ b ++ js " |") = [a; b].
Proof.
  intros Ha Hb.
  replace (js "| " ++ a ++ js " | " ++ b ++ js " |")
    with (PIPE :: ((js " " ++ a ++ js " ") ++ PIPE :: (js " " ++ b ++ js " "))
               ++ [PIPE])
    by (cbn [app]; rewrite <- !app_assoc; cbn [app]; rewrite <- !app_assoc;
        reflexivity).
  rewrite parseTableRow_outer, split_at by now apply cell_noPipe.
  rewrite split_none by now apply cell_noPipe.
  cbn [map]. now rewrite !cell_clean.
Qed.

(** A row of three cells. *)
Lemma parseTableRow_three (a b c : jsstring) :
  plain a -> plain b -> plain c ->
  parseTableRow (js "| " ++ a ++ js " | " ++ b ++ js " | " ++ c ++ js " |")
  = [a; b; c].
Proof.
  intros Ha Hb Hc.
  replace (js "| " ++ a ++ js " | " ++ b ++ js " | " ++ c ++ js " |")
    with (PIPE :: ((js " " ++ a ++ js " ") ++ PIPE :: (js " " ++ b ++ js " ")
                   ++ PIPE :: (js " " ++ c ++ js " "))
               ++ [PIPE])
    by (cbn [app]; rewrite <- !app_assoc; cbn [app]; rewrite <- !app_assoc;
        cbn [app]; rewrite <- !app_assoc; reflexivity).
  rewrite parseTableRow_outer, split_at by now apply cell_noPipe.
  rewrite split_at by now apply cell_noPipe.
  rewrite split_none by now apply cell_noPipe.
  cbn [map]. now rewrite !cell_clean.
Qed.

Lemma row_shape (middle : jsstring) :
  trim (js "|" ++ middle ++ js "|") = js "|" ++ middle ++ js "|"
  /\ isPipeLine (js "|" ++ middle ++ js "|") = true.
Proof. split; [apply trim_pipes|reflexivity]. Qed.

Variable toLowerCase : jsstring -> jsstring.

(** The rows [extractTable] reads from a table written after its marker,
    a blank line, a header and a separator, and closed by a blank line. *)
Lemma extractTable_lines (marker : jsstring) (a : list jsstring)
      (hdr sep : jsstring) (rows rest : list jsstring) :
  ~ In LF marker -> marker <> [] ->
  Forall (fun l => nowhere (startsWith marker) l) a ->
  Forall (fun l => ~ In LF l) (hdr :: sep :: rows ++ [] :: rest) ->
  trim hdr = hdr -> isPipeLine hdr = true ->
  Forall (fun r => trim r = r /\ isPipeLine r = true) rows ->
  extractTable toLowerCase
               (joinLines (a ++ marker :: [] :: hdr :: sep :: rows ++ [] :: rest))
               marker
  = match parseTableRow hdr with
    | [] => []
    | headers =>
        map (zipRow toLowerCase headers)
            (filter (fun cells => negb (forallb blankCell cells))
                    (map parseTableRow rows))
    end.
Proof.
  intros Hm Hne Fa F Hh Hp Fr.
  assert (Hi : indexOf marker ([] ++ marker ++ []) = Some (length (@nil jschar))).
  { cbn [app length]. rewrite app_nil_r. apply search_head.
    rewrite <- (app_nil_r marker) at 2. apply startsWith_app. }
  destruct (marker_in_lines marker a [] [] ([] :: hdr :: sep :: rows ++ [] :: rest)
                            Hm Hne Fa Hi) as [I1 I2].
  cbn [app] in I1, I2. rewrite !app_nil_r in I1, I2.
  assert (Tr : map trim rows = rows).
  { clear -Fr. induction Fr as [|r rows [Hr _] _ IH]; [reflexivity|].
    cbn [map]. now rewrite Hr, IH. }
  refine (eq_trans
            (extractTable_found toLowerCase _ marker _ [[]; []] hdr
               (trim sep :: rows ++ [] :: map trim rest)
               (firstAt_indexOf _ _ _ I1) _ _ Hp) _).
  - rewrite I2. rewrite split_joinLines.
    + cbn [map app]. rewrite Hh, map_app, Tr. reflexivity.
    + discriminate.
    + constructor; [intros []|]. constructor; [intros []|]. exact F.
  - repeat constructor.
  - destruct (parseTableRow hdr); [reflexivity|]. cbn [tl]. unfold rowsOf.
    rewrite tableLines_rows; [reflexivity|].
    eapply Forall_impl; [|exact Fr]. now intros r [_ H].
Qed.

End TablesInLines.

(** ** Numbers, and the sections of the template *)

Section Numbers.

Lemma digits_are_digits (u : Decimal.uint) :
  Forall (fun c => isDigit c = true) (digits u).
Proof. induction u; cbn [digits]; constructor; (reflexivity || assumption). Qed.

Lemma decimal_digits (n : nat) : Forall (fun c => isDigit c = true) (decimal n).
Proof. apply digits_are_digits. Qed.

Lemma to_uint_nonnil (n : nat) : Nat.to_uint n <> Decimal.Nil.
Proof.
  rewrite DecimalNat.Unsigned.to_uint_alt. intros H.
  apply DecimalFacts.rev_nil_inv in H.
  destruct n as [|n]; [discriminate H|].
  rewrite DecimalNat.Unsigned.to_lu_succ in H.
  destruct (DecimalNat.Unsigned.to_lu n); discriminate H.
Qed.

Lemma decimal_head (n : nat) :
  exists d r, decimal n = d :: r /\ isDigit d = true.
Proof.
  unfold decimal. pose proof (to_uint_nonnil n) as H.
  pose proof (digits_are_digits (Nat.to_uint n)) as F.
  destruct (Nat.to_uint n); try contradiction; cbn [digits] in *;
    inversion F; subst; eexists _, _; (split; [reflexivity|assumption]).
Qed.

Lemma digit_plain (c : jschar) : isDigit c = true -> plainChar c = true.
Proof.
  unfold isDigit. intros H. apply andb_true_iff in H as [H1 H2].
  apply N.leb_le in H1, H2.
  assert (E : exists k, k < 10 /\ c = (48 + N.of_nat k)%N).
  { exists (N.to_nat (c - 48)). split; lia. }
  destruct E as (k & Hk & ->).
  do 10 (destruct k as [|k]; [reflexivity|]). lia.
Qed.

Lemma decimal_plain (n : nat) : forallb plainChar (decimal n) = true.
Proof.
  apply forallb_forall. intros c Hc. apply digit_plain.
  pose proof (decimal_digits n) as F. rewrite Forall_forall in F. now apply F.
Qed.

Lemma recent_plain (b : bool) :
  forallb plainChar (if b then js " (Most Recent)" else []) = true.
Proof. now destruct b. Qed.

End Numbers.

#[export] Hint Resolve decimal_plain recent_plain : plainness.

Section Bodies.

Lemma Forall_map_from {A : Type} (Q : A -> Prop) (P : jsstring -> Prop)
      (f : A -> jsstring) (items : list A) :
  Forall Q items -> (forall i, Q i -> P (f i)) -> Forall P (map f items).
Proof.
  intros F H. induction F as [|i items Hi _ IH]; cbn [map]; constructor; auto.
Qed.

Lemma Forall_flat_map_from {A : Type} (Q : A -> Prop) (P : jsstring -> Prop)
      (f : A -> list jsstring) (items : list A) :
  Forall Q items -> (forall i, Q i -> Forall P (f i)) ->
  Forall P (flat_map f items).
Proof.
  intros F H. induction F as [|i items Hi _ IH]; cbn [flat_map]; [constructor|].
  apply Forall_app. split; auto.
Qed.

Lemma Forall_roleLines (P : jsstring -> Prop) (i : nat) (roles : list Role.t) :
  Forall plainRole roles ->
  (forall i, P (roleHeading i)) ->
  (forall r, plainRole r -> Forall P (roleBody r)) ->
  Forall P (roleLines i roles).
Proof.
  intros F Hh Hb. revert i; induction F as [|r roles Hr _ IH]; intros i;
    cbn [roleLines]; [constructor|].
  constructor; [apply Hh|]. apply Forall_app. split; [now apply Hb|apply IH].
Qed.

Lemma Forall_recognition (P : jsstring -> Prop) (items : list jsstring) :
  P (js "- <!-- Add recognition items if applicable -->") ->
  Forall P (map bulletLine items) -> Forall P (recognitionLines items).
Proof. destruct items; [now repeat constructor|intros _ H; exact H]. Qed.

Lemma Forall_domain (P : jsstring -> Prop) (items : list jsstring) :
  P [] -> Forall P (map bulletLine items) -> Forall P (domainLines items).
Proof. destruct items; [constructor|intros H F; now constructor]. Qed.

Lemma join_blanks (L blanks : list jsstring) :
  L <> [] -> Forall (fun l => l = []) blanks ->
  exists w, Forall (fun c => isWhiteSpace c = true) w /\
            joinLines (L ++ blanks) = joinLines L ++ w.
Proof.
  intros HL F. revert L HL; induction F as [|b blanks Hb _ IH]; intros L HL.
  - exists []. split; [constructor|]. now rewrite !app_nil_r.
  - subst b. destruct (IH (L ++ [[]])) as (w & Hw & E).
    + destruct L; discriminate.
    + exists (LF :: w). split; [now constructor|].
      replace (L ++ [] :: blanks) with ((L ++ [[]]) ++ blanks)
        by (now rewrite <- app_assoc).
      rewrite E, joinLines_last, (unlines_join L HL), app_nil_r.
      now rewrite <- app_assoc.
Qed.

(** The body of a section, trimmed: the lines between the blank lines. *)
Lemma trim_body (L blanks : list jsstring) (c : jschar) (f : jsstring)
      (r r' : list jsstring) (l : jsstring) (c' : jschar) :
  L = (c :: f) :: r -> L = r' ++ [l ++ [c']] ->
  isWhiteSpace c = false -> isWhiteSpace c' = false ->
  Forall (fun l => l = []) blanks ->
  trim (joinLines ([] :: L ++ blanks)) = joinLines L.
Proof.
  intros E1 E2 Hc Hc' Fb.
  assert (HL : L <> []) by (rewrite E1; discriminate).
  assert (T : trim (joinLines L) = joinLines L).
  { destruct (joinLines_head (c :: f) r) as (w & Ew & _).
    apply (trim_ends' _ c (f ++ w) (unlines r' ++ l) c'); try assumption.
    - rewrite E1 at 1. exact Ew.
    - rewrite E2 at 1. rewrite joinLines_last. now rewrite app_assoc. }
  destruct (join_blanks L blanks HL Fb) as (w & Hw & E).
  rewrite joinLines_cons by (destruct L; [contradiction|discriminate]).
  rewrite E. cbn [app].
  change (LF :: joinLines L ++ w) with ([LF] ++ joinLines L ++ w).
  apply trim_pad; [now repeat constructor|exact Hw|exact T].
Qed.

End Bodies.

(** Facts about all the lines of a text. *)
Ltac open_items :=
  repeat match goal with
         | H : plainOffer _ |- _ => destruct H as [? ?]
         | H : plainFinancial _ |- _ => destruct H as (? & ? & ?)
         | H : plainStat _ |- _ => destruct H as [? ?]
         | H : plainOrgType _ |- _ => destruct H as [? ?]
         | H : plainRole _ |- _ => destruct H as (? & ? & ? & ? & ? & ? & ?)
         end;
  unfold bulletLine, financialLine, statLine, orgTypeLine, roleHeading,
    offerLines, roleBody.

Ltac all_lines tac :=
  repeat first
    [ apply Forall_nil
    | apply Forall_cons; [tac|]
    | apply Forall_app; split
    | apply Forall_recognition; [tac|]
    | apply Forall_domain; [tac|]
    | match goal with
      | H : Forall ?Q ?items |- Forall _ (map ?f ?items) =>
          apply (Forall_map_from Q _ f items H);
          let i := fresh "i" in let Hi := fresh "Hi" in
          intros i Hi; open_items; tac
      | H : Forall ?Q ?items |- Forall _ (flat_map ?f ?items) =>
          apply (Forall_flat_map_from Q _ f items H);
          let i := fresh "i" in let Hi := fresh "Hi" in
          intros i Hi; open_items
      | H : Forall plainRole ?roles |- Forall _ (roleLines _ ?roles) =>
          apply (Forall_roleLines _ _ roles H);
          [ let i := fresh "i" in intros i; open_items; tac
          | let r := fresh "r" in let Hr := fresh "Hr" in
            intros r Hr; open_items ]
      end ].

Section TemplateSections.

Lemma trim_body2 (L blanks : list jsstring) (c : jschar) (f l : jsstring)
      (c' : jschar) :
  hd [] L = c :: f -> last L [] = l ++ [c'] ->
  isWhiteSpace c = false -> isWhiteSpace c' = false ->
  Forall (fun l => l = []) blanks ->
  trim (joinLines ([] :: L ++ blanks)) = joinLines L.
Proof.
  intros E1 E2 Hc Hc' Fb.
  assert (HL : L <> []) by (intros ->; discriminate E1).
  apply (trim_body L blanks c f (tl L) (removelast L) l c'); try assumption.
  - destruct L as [|l0 L]; [contradiction|]. cbn [hd tl] in *. now rewrite E1.
  - rewrite <- E2. now apply app_removelast_last.
Qed.

Lemma nth_error_cut {A : Type} (l : list A) (k : nat) (x : A) :
  nth_error l k = Some x -> l = firstn k l ++ x :: skipn (S k) l.
Proof.
  revert k; induction l as [|y l IH]; intros [|k] H; try discriminate H.
  - injection H as ->. reflexivity.
  - cbn [firstn skipn app]. f_equal. now apply IH.
Qed.

Variable data : WizardData.t.
Hypothesis Hdata : plainAnswers data.

Ltac section_lines :=
  destruct Hdata;
  unfold aboutLines, narrativeLines, thesisLines, accomplishmentsLines,
    trackRecordLines, experienceLines, seekingLines, culturalFitLines,
    skillsLines, skillsEnd;
  all_lines line_fact.

Lemma aboutLines_noLF : Forall (fun l => ~ In LF l) (aboutLines data).
Proof. section_lines. Qed.
Lemma narrativeLines_noLF : Forall (fun l => ~ In LF l) (narrativeLines data).
Proof. section_lines. Qed.
Lemma thesisLines_noLF : Forall (fun l => ~ In LF l) (thesisLines data).
Proof. section_lines. Qed.
Lemma accomplishmentsLines_noLF :
  Forall (fun l => ~ In LF l) (accomplishmentsLines data).
Proof. section_lines. Qed.
Lemma trackRecordLines_noLF : Forall (fun l => ~ In LF l) (trackRecordLines data).
Proof. section_lines. Qed.
Lemma experienceLines_noLF : Forall (fun l => ~ In LF l) (experienceLines data).
Proof. section_lines. Qed.
Lemma seekingLines_noLF : Forall (fun l => ~ In LF l) (seekingLines data).
Proof. section_lines. Qed.
Lemma culturalFitLines_noLF : Forall (fun l => ~ In LF l) (culturalFitLines data).
Proof. section_lines. Qed.
Lemma skillsLines_noLF : Forall (fun l => ~ In LF l) (skillsLines data).
Proof. section_lines. Qed.

Lemma aboutLines_calm :
  Forall (fun l => startsWith (js "## ") l = false) (aboutLines data).
Proof. section_lines. Qed.
Lemma narrativeLines_calm :
  Forall (fun l => startsWith (js "## ") l = false) (narrativeLines data).
Proof. section_lines. Qed.
Lemma thesisLines_calm :
  Forall (fun l => startsWith (js "## ") l = false) (thesisLines data).
Proof. section_lines. Qed.
Lemma accomplishmentsLines_calm :
  Forall (fun l => startsWith (js "## ") l = false) (accomplishmentsLines data).
Proof. section_lines. Qed.
Lemma trackRecordLines_calm :
  Forall (fun l => startsWith (js "## ") l = false) (trackRecordLines data).
Proof. section_lines. Qed.
Lemma experienceLines_calm :
  Forall (fun l => startsWith (js "## ") l = false) (experienceLines data).
Proof. section_lines. Qed.
Lemma seekingLines_calm :
  Forall (fun l => startsWith (js "## ") l = false) (seekingLines data).
Proof. section_lines. Qed.
Lemma culturalFitLines_calm :
  Forall (fun l => startsWith (js "## ") l = false) (culturalFitLines data).
Proof. section_lines. Qed.
Lemma skillsLines_calm :
  Forall (fun l => startsWith (js "## ") l = false) (skillsLines data).
Proof. section_lines. Qed.

Lemma body_calm (name : jsstring) (L blanks : list jsstring) :
  ~ In LF name ->
  Forall (fun l => ~ In LF l) L ->
  Forall (fun l => startsWith (js "## ") l = false) L ->
  Forall (fun l => l = []) blanks ->
  calmSection (name, [] :: L ++ blanks).
Proof.
  intros Hn F Q B. unfold calmSection. cbn [fst snd].
  split; [exact Hn|]. split; [discriminate|]. split.
  - constructor; [intros []|]. apply Forall_app. split; [exact F|].
    eapply Forall_impl; [|exact B]. intros l ->. intros [].
  - constructor; [reflexivity|]. apply Forall_app. split; [exact Q|].
    eapply Forall_impl; [|exact B]. now intros l ->.
Qed.

Lemma skillsEnd_blank : Forall (fun l => l = []) (skillsEnd data).
Proof.
  unfold skillsEnd, domainEnd. destruct (WizardData.domain data);
    repeat constructor.
Qed.

Lemma templateSections_calm : Forall calmSection (templateSections data).
Proof.
  unfold templateSections.
  repeat (apply Forall_cons;
          [apply body_calm;
           [vm_compute; intuition discriminate
           |first [ apply aboutLines_noLF | apply narrativeLines_noLF
                  | apply thesisLines_noLF | apply accomplishmentsLines_noLF
                  | apply trackRecordLines_noLF | apply experienceLines_noLF
                  | apply seekingLines_noLF | apply culturalFitLines_noLF
                  | apply skillsLines_noLF ]
           |first [ apply aboutLines_calm | apply narrativeLines_calm
                  | apply thesisLines_calm | apply accomplishmentsLines_calm
                  | apply trackRecordLines_calm | apply experienceLines_calm
                  | apply seekingLines_calm | apply culturalFitLines_calm
                  | apply skillsLines_calm ]
           |first [ apply skillsEnd_blank | repeat constructor ] ]
          |]).
  constructor.
Qed.

(** The text [extractSection] finds for the section at place [k]. *)
Lemma extractSection_template (k : nat) (name : jsstring) (body : list jsstring) :
  nth_error (templateSections data) k = Some (name, body) ->
  forallb (fun s => negb (startsWith (js "## " ++ name) (js "## " ++ fst s)))
          (firstn k (templateSections data)) = true ->
  extractSection (generateTemplate data) name = trim (joinLines body).
Proof.
  intros Hk Hb. rewrite generateTemplate_lines.
  rewrite (nth_error_cut _ k _ Hk) at 1.
  pose proof templateSections_calm as C.
  rewrite (nth_error_cut _ k _ Hk) in C.
  apply Forall_app in C as [C1 C2]. inversion C2 as [|? ? C3 _]; subst.
  apply extractSection_document.
  - discriminate.
  - unfold headerLines. repeat constructor; vm_compute; intuition discriminate.
  - unfold headerLines. cbn [tl]. repeat constructor.
  - exact C1.
  - exact C3.
  - rewrite forallb_forall in Hb. apply Forall_forall. intros s Hs.
    apply negb_true_iff. now apply Hb.
Qed.

End TemplateSections.

(** ** The text of each section *)

Section SectionTexts.

Variable data : WizardData.t.
Hypothesis Hdata : plainAnswers data.

Lemma last_of_app {A : Type} (a b : list A) (d : A) :
  b <> [] -> last (a ++ b) d = last b d.
Proof.
  intros Hb. induction a as [|x a IH]; [reflexivity|].
  cbn [app]. destruct (a ++ b) eqn:E.
  - destruct a; [contradiction|discriminate E].
  - exact IH.
Qed.

Ltac ends_with_rule lines first :=
  apply trim_body2 with (c := first) (f := tl (hd [] (lines data)))
                       (l := js "--") (c' := 45%N);
  [ reflexivity
  | unfold lines;
    first [ reflexivity
          | rewrite ?app_assoc; rewrite last_of_app by discriminate; reflexivity ]
  | reflexivity | reflexivity | repeat constructor ].

Lemma about_body :
  trim (joinLines ([] :: aboutLines data ++ [[]])) = joinLines (aboutLines data).
Proof.
  ends_with_rule aboutLines 42%N.
Qed.

Lemma about_text :
  extractSection (generateTemplate data) (js "About")
  = joinLines (aboutLines data).
Proof.
  rewrite (extractSection_template data Hdata 0 (js "About") _ eq_refl eq_refl).
  apply about_body.
Qed.

Lemma narrative_body :
  trim (joinLines ([] :: narrativeLines data ++ [[]])) = joinLines (narrativeLines data).
Proof.
  ends_with_rule narrativeLines 42%N.
Qed.

Lemma narrative_text :
  extractSection (generateTemplate data) (js "Narrative")
  = joinLines (narrativeLines data).
Proof.
  rewrite (extractSection_template data Hdata 1 (js "Narrative") _ eq_refl eq_refl).
  apply narrative_body.
Qed.

Lemma thesis_body :
  trim (joinLines ([] :: thesisLines data ++ [[]])) = joinLines (thesisLines data).
Proof.
  ends_with_rule thesisLines 42%N.
Qed.

Lemma thesis_text :
  extractSection (generateTemplate data) (js "Thesis")
  = joinLines (thesisLines data).
Proof.
  rewrite (extractSection_template data Hdata 2 (js "Thesis") _ eq_refl eq_refl).
  apply thesis_body.
Qed.

Lemma accomplishments_body :
  trim (joinLines ([] :: accomplishmentsLines data ++ [[]])) = joinLines (accomplishmentsLines data).
Proof.
  ends_with_rule accomplishmentsLines 35%N.
Qed.

Lemma accomplishments_text :
  extractSection (generateTemplate data) (js "Accomplishments")
  = joinLines (accomplishmentsLines data).
Proof.
  rewrite (extractSection_template data Hdata 3 (js "Accomplishments") _ eq_refl eq_refl).
  apply accomplishments_body.
Qed.

Lemma trackRecord_body :
  trim (joinLines ([] :: trackRecordLines data ++ [[]])) = joinLines (trackRecordLines data).
Proof.
  ends_with_rule trackRecordLines 35%N.
Qed.

Lemma trackRecord_text :
  extractSection (generateTemplate data) (js "Track Record")
  = joinLines (trackRecordLines data).
Proof.
  rewrite (extractSection_template data Hdata 4 (js "Track Record") _ eq_refl eq_refl).
  apply trackRecord_body.
Qed.

Lemma roleLines_head (i : nat) (roles : list Role.t) (z : list jsstring) :
  exists c f, hd [] (roleLines i roles ++ [js "---"] ++ z) = c :: f
              /\ isWhiteSpace c = false.
Proof.
  destruct roles as [|r roles].
  - exists 45%N, (js "--"). split; reflexivity.
  - exists 35%N, (js "## Role " ++ decimal (i + 1)
                     ++ (if i =? 0 then js " (Most Recent)" else [])).
    split; reflexivity.
Qed.

Lemma experience_body :
  trim (joinLines ([] :: experienceLines data ++ [[]])) = joinLines (experienceLines data).
Proof.
  unfold experienceLines.
  destruct (roleLines_head 0 (WizardData.experience data) []) as (c & f & E & Hc).
  rewrite app_nil_r in E.
  apply (trim_body2 _ _ c f (js "--") 45%N);
    [exact E|now rewrite last_of_app by discriminate|exact Hc|reflexivity
    |repeat constructor].
Qed.

Lemma experience_text :
  extractSection (generateTemplate data) (js "Experience")
  = joinLines (experienceLines data).
Proof.
  rewrite (extractSection_template data Hdata 5 (js "Experience") _ eq_refl eq_refl).
  apply experience_body.
Qed.

Lemma seeking_body :
  trim (joinLines ([] :: seekingLines data ++ [[]])) = joinLines (seekingLines data).
Proof.
  ends_with_rule seekingLines 42%N.
Qed.

Lemma seeking_text :
  extractSection (generateTemplate data) (js "Seeking")
  = joinLines (seekingLines data).
Proof.
  rewrite (extractSection_template data Hdata 6 (js "Seeking") _ eq_refl eq_refl).
  apply seeking_body.
Qed.

Lemma culturalFit_body :
  trim (joinLines ([] :: culturalFitLines data ++ [[]])) = joinLines (culturalFitLines data).
Proof.
  ends_with_rule culturalFitLines 35%N.
Qed.

Lemma culturalFit_text :
  extractSection (generateTemplate data) (js "Cultural Fit")
  = joinLines (culturalFitLines data).
Proof.
  rewrite (extractSection_template data Hdata 7 (js "Cultural Fit") _ eq_refl eq_refl).
  apply culturalFit_body.
Qed.

Lemma skills_body :
  trim (joinLines ([] :: skillsLines data ++ skillsEnd data)) = joinLines (skillsLines data).
Proof.
  unfold skillsLines, skillsEnd.
  pose proof (plain_domain data Hdata) as Fd.
  destruct (WizardData.domain data) as [|d0 dom] eqn:Ed.
  - cbn [domainLines domainEnd]. rewrite app_nil_r.
    apply trim_body2 with (c := 35%N) (f := js "## Methodologies")
                         (l := js "### Domain Expertis") (c' := 101%N);
      [ reflexivity
      | rewrite ?app_assoc; rewrite last_of_app by discriminate; reflexivity
      | reflexivity | reflexivity | repeat constructor ].
  - destruct (@exists_last _ (d0 :: dom)) as (init & i & Ei); [discriminate|].
    rewrite Ei in *. apply Forall_app in Fd as [_ Fd].
    inversion Fd as [|? ? Hi _]; subst.
    destruct (plain_last i Hi) as (t & c' & -> & Hc').
    assert (El : domainLines (init ++ [t ++ [c']])
                 = ([] :: map bulletLine init) ++ [(js "- " ++ t) ++ [c']]).
    { unfold domainLines. destruct (init ++ [t ++ [c']]) eqn:E0.
      - destruct init; discriminate E0.
      - rewrite <- E0, map_app. cbn [map app]. unfold bulletLine.
        now rewrite <- !app_assoc. }
    assert (Ee : domainEnd (init ++ [t ++ [c']]) = [[]]).
    { unfold domainEnd. destruct (init ++ [t ++ [c']]) eqn:E0; [|reflexivity].
      destruct init; discriminate E0. }
    unfold jsstring, jschar in *. rewrite El, Ee.
    apply trim_body2 with (c := 35%N) (f := js "## Methodologies")
                         (l := js "- " ++ t) (c' := c');
      [ reflexivity
      | rewrite ?app_assoc; rewrite last_of_app by discriminate; reflexivity
      | reflexivity | exact Hc' | repeat constructor ].
Qed.

Lemma skills_text :
  extractSection (generateTemplate data) (js "Skills")
  = joinLines (skillsLines data).
Proof.
  rewrite (extractSection_template data Hdata 8 (js "Skills") _ eq_refl eq_refl).
  apply skills_body.
Qed.

End SectionTexts.

(** ** The fields of About *)

#[export] Hint Resolve insideField_nil insideField_plainLine : plainness.

(** A field whose marker is on the line after the lines [a], after the
    prefix [p]; the text of the field is [v] and the lines [vs]; the line
    [b] ends it. *)
Ltac field_lines label a p v vs b :=
  etransitivity;
  [ refine (extractField_lines label a p v vs b _ _ _ _ _ _ _);
    [ vm_compute; intuition discriminate
    | all_lines line_fact
    | reflexivity
    | all_lines line_fact
    | repeat (apply Forall_cons; [auto with plainness|]); apply Forall_nil
    | reflexivity ]
  | ].

Ltac spaces :=
  repeat (apply Forall_cons; [first [left; reflexivity | right; reflexivity]|]);
  apply Forall_nil.

(** The text [d] written after the marker, on the same line. *)
Ltac inline_value d :=
  apply (cleanValue_pad (js " ") d [LF]); [spaces|spaces|auto with plainness].

(** The text [d] written on the line after the marker. *)
Ltac line_value d :=
  apply (cleanValue_pad [LF] d [LF]); [spaces|spaces|auto with plainness].

Section AboutFields.

Variable data : WizardData.t.
Hypothesis Hdata : plainAnswers data.

Lemma about_name :
  extractField (joinLines (aboutLines data)) (js "Name") = WizardData.name data.
Proof.
  destruct Hdata. unfold aboutLines.
  field_lines (js "Name") (@nil jsstring) (@nil jschar)
              (js " " ++ WizardData.name data) [@nil jschar]
              (js "**Preferred Name:** " ++ WizardData.preferredName data).
  inline_value (WizardData.name data).
Qed.

Lemma about_preferredName :
  extractField (joinLines (aboutLines data)) (js "Preferred Name")
  = WizardData.preferredName data.
Proof.
  destruct Hdata. unfold aboutLines.
  field_lines (js "Preferred Name")
              [js "**Name:** " ++ WizardData.name data; []] (@nil jschar)
              (js " " ++ WizardData.preferredName data) [@nil jschar]
              (js "**Title:** " ++ WizardData.title data).
  inline_value (WizardData.preferredName data).
Qed.

Lemma about_title :
  extractField (joinLines (aboutLines data)) (js "Title") = WizardData.title data.
Proof.
  destruct Hdata. unfold aboutLines.
  field_lines (js "Title")
              [js "**Name:** " ++ WizardData.name data; [];
               js "**Preferred Name:** " ++ WizardData.preferredName data; []]
              (@nil jschar)
              (js " " ++ WizardData.title data) [@nil jschar]
              (js "**Location:** " ++ WizardData.location data).
  inline_value (WizardData.title data).
Qed.

Lemma about_location :
  extractField (joinLines (aboutLines data)) (js "Location")
  = WizardData.location data.
Proof.
  destruct Hdata. unfold aboutLines.
  field_lines (js "Location")
              [js "**Name:** " ++ WizardData.name data; [];
               js "**Preferred Name:** " ++ WizardData.preferredName data; [];
               js "**Title:** " ++ WizardData.title data; []]
              (@nil jschar)
              (js " " ++ WizardData.location data) [@nil jschar]
              (js "**Core Thesis:**").
  inline_value (WizardData.location data).
Qed.

Lemma about_coreThesis :
  extractField (joinLines (aboutLines data)) (js "Core Thesis")
  = WizardData.coreThesis data.
Proof.
  destruct Hdata. unfold aboutLines.
  field_lines (js "Core Thesis")
              [js "**Name:** " ++ WizardData.name data; [];
               js "**Preferred Name:** " ++ WizardData.preferredName data; [];
               js "**Title:** " ++ WizardData.title data; [];
               js "**Location:** " ++ WizardData.location data; []]
              (@nil jschar) (@nil jschar)
              [WizardData.coreThesis data; []]
              (js "**The Moment:**").
  line_value (WizardData.coreThesis data).
Qed.

Lemma about_theMoment :
  extractField (joinLines (aboutLines data)) (js "The Moment")
  = WizardData.theMoment data.
Proof.
  destruct Hdata. unfold aboutLines.
  field_lines (js "The Moment")
              [js "**Name:** " ++ WizardData.name data; [];
               js "**Preferred Name:** " ++ WizardData.preferredName data; [];
               js "**Title:** " ++ WizardData.title data; [];
               js "**Location:** " ++ WizardData.location data; [];
               js "**Core Thesis:**"; WizardData.coreThesis data; []]
              (@nil jschar) (@nil jschar)
              [WizardData.theMoment data; []]
              (js "### What I Offer").
  line_value (WizardData.theMoment data).
Qed.

End AboutFields.

(** ** What I Offer *)

Ltac flat := repeat (progress (cbn [app]; rewrite <- ?app_assoc)).

Section Offered.

Lemma extractWhatIOffer_unfold (section : jsstring) :
  extractWhatIOffer section
  = filter keepsOffer (map offerOfBlock (tl (regexSplit titleRe 0 true section))).
Proof. exact (push_kept offerOfBlock keepsOffer _ []). Qed.

Lemma bolAfter_quiet (bol : bool) (p : jsstring) :
  p <> [] -> Forall (fun c => isLineTerminator c = false) p ->
  bolAfter bol p = false.
Proof.
  intros Hp F. destruct (last_cases p) as [->|(p0 & c & ->)]; [contradiction|].
  rewrite bolAfter_snoc. apply Forall_app in F as [_ F]. now inversion F.
Qed.

Lemma prependHead_twice (a b : jsstring) (X : list jsstring) :
  X <> [] -> prependHead a (prependHead b X) = prependHead (a ++ b) X.
Proof.
  destruct X as [|h r]; [contradiction|]. intros _. cbn [prependHead].
  now rewrite app_assoc.
Qed.

(** A line that the pattern does not start is passed over. *)
Lemma regexSplit_title_line (bol : bool) (l r : jsstring) :
  Forall (fun c => isLineTerminator c = false) l ->
  bol = false \/ startsWith (js "- **Title:**") l = false ->
  regexSplit titleRe 0 bol (l ++ LF :: r)
  = prependHead (l ++ [LF]) (regexSplit titleRe 0 true r).
Proof.
  intros F H.
  replace (l ++ LF :: r) with ((l ++ [LF]) ++ r) by now rewrite <- app_assoc.
  rewrite (regexSplit_quiet titleRe (l ++ [LF]) r bol).
  - now rewrite bolAfter_snoc.
  - intros p q E Hq. unfold titleRe.
    destruct p as [|c p].
    + cbn [bolAfter fold_left]. cbn [app] in E. subst q.
      destruct H as [->|H]; [reflexivity|].
      rewrite <- app_assoc. cbn [app].
      rewrite startsWith_line by (vm_compute; intuition discriminate).
      rewrite H. now rewrite andb_false_r.
    + destruct (last_cases q) as [->|(q0 & d & ->)]; [contradiction|].
      rewrite app_assoc in E. apply app_inj_tail in E as [E _].
      rewrite E in F. apply Forall_app in F as [F _].
      now rewrite (bolAfter_quiet bol (c :: p)) by (discriminate || assumption).
Qed.

Lemma regexSplit_title_lines (ls : list jsstring) (r : jsstring) :
  Forall (fun l => Forall (fun c => isLineTerminator c = false) l
                   /\ startsWith (js "- **Title:**") l = false) ls ->
  regexSplit titleRe 0 true (unlines ls ++ r)
  = prependHead (unlines ls) (regexSplit titleRe 0 true r).
Proof.
  induction 1 as [|l ls [Hl Hs] _ IH].
  - cbn [unlines app].
    destruct (regexSplit_nonempty titleRe 0 true r) as (h & t & ->). reflexivity.
  - cbn [unlines]. rewrite <- app_assoc. cbn [app].
    rewrite regexSplit_title_line by (assumption || now right).
    rewrite IH, prependHead_twice.
    + now rewrite <- app_assoc.
    + destruct (regexSplit_nonempty titleRe 0 true r) as (h & t & ->).
      discriminate.
Qed.

Lemma regexSplit_title_match (x : jsstring) :
  regexSplit titleRe 0 true (js "- **Title:**" ++ x)
  = [] :: regexSplit titleRe 0 false x.
Proof.
  change (js "- **Title:**" ++ x) with (45%N :: js " **Title:**" ++ x).
  rewrite regexSplit_cons.
  change (titleRe true (45%N :: js " **Title:**" ++ x)) with (Some 12).
  cbv iota. reflexivity.
Qed.


Lemma plain_noLT (d : jsstring) :
  forallb plainChar d = true -> Forall (fun c => isLineTerminator c = false) d.
Proof.
  intros Hd. rewrite forallb_forall in Hd. apply Forall_forall.
  intros c Hc. specialize (Hd c Hc). unfold plainChar in Hd.
  apply andb_true_iff in Hd as [Hd _]. now apply negb_true_iff in Hd.
Qed.

Lemma fixed_noLT (l d : jsstring) :
  forallb (fun c => negb (isLineTerminator c)) l = true ->
  forallb plainChar d = true ->
  Forall (fun c => isLineTerminator c = false) (l ++ d).
Proof.
  intros Hl Hd. apply Forall_app. split; [|now apply plain_noLT].
  rewrite forallb_forall in Hl. apply Forall_forall. intros c Hc.
  apply negb_true_iff. now apply Hl.
Qed.

Lemma offerBlock_lines (o : Offer.t) :
  plainOffer o ->
  Forall (fun l => Forall (fun c => isLineTerminator c = false) l
                   /\ startsWith (js "- **Title:**") l = false)
         (tl (offerBlock o)).
Proof.
  intros [Ht Hd]. unfold offerBlock. cbn [tl].
  apply Forall_cons; [split|].
  - apply fixed_noLT; [reflexivity|auto with plainness].
  - reflexivity.
  - apply Forall_cons; [split; [constructor|reflexivity]|constructor].
Qed.

Lemma offerLines_block (o : Offer.t) :
  unlines (offerLines o) = js "- **Title:**" ++ unlines (offerBlock o).
Proof. reflexivity. Qed.

(** The split of one item and of what follows it. *)
Lemma regexSplit_offer (o : Offer.t) (rest : jsstring) :
  plainOffer o ->
  regexSplit titleRe 0 true (unlines (offerLines o) ++ rest)
  = [] :: prependHead (unlines (offerBlock o)) (regexSplit titleRe 0 true rest).
Proof.
  intros Ho. rewrite offerLines_block, <- app_assoc, regexSplit_title_match.
  f_equal.
  replace (unlines (offerBlock o) ++ rest)
    with ((js " " ++ Offer.title o) ++ LF
          :: unlines (tl (offerBlock o)) ++ rest)
    by (unfold offerBlock; cbn [tl unlines]; flat; reflexivity).
  rewrite regexSplit_title_line;
    [|apply fixed_noLT; [reflexivity|destruct Ho; auto with plainness]
     |now left].
  rewrite (regexSplit_title_lines _ _ (offerBlock_lines o Ho)).
  rewrite prependHead_twice.
  - f_equal. unfold offerBlock. cbn [tl unlines]. flat. reflexivity.
  - destruct (regexSplit_nonempty titleRe 0 true rest) as (h & t & ->).
    discriminate.
Qed.

(** The split of the items that follow each other up to [tail]. *)
Lemma regexSplit_offers (offers : list Offer.t) (tail : jsstring) :
  Forall plainOffer offers ->
  regexSplit titleRe 0 true tail = [tail] ->
  offers <> [] ->
  regexSplit titleRe 0 true (unlines (flat_map offerLines offers) ++ tail)
  = [] :: offerBlocks offers tail.
Proof.
  intros F Ht. induction F as [|o offers Ho F IH]; intros Hne; [contradiction|].
  cbn [flat_map]. rewrite unlines_app, <- app_assoc.
  rewrite (regexSplit_offer o _ Ho). f_equal.
  destruct offers as [|o' offers].
  - cbn [flat_map unlines app]. rewrite Ht. reflexivity.
  - rewrite IH by discriminate. cbn [prependHead]. now rewrite app_nil_r.
Qed.


Lemma fixed_noLT' (l : jsstring) :
  forallb (fun c => negb (isLineTerminator c)) l = true ->
  Forall (fun c => isLineTerminator c = false) l.
Proof.
  intros Hl. rewrite forallb_forall in Hl. apply Forall_forall. intros c Hc.
  apply negb_true_iff. now apply Hl.
Qed.

(** The item read from the block of an item of the template. *)
Lemma offerOfBlock_block (o : Offer.t) (tail : jsstring) :
  plainOffer o -> ~ In LF tail ->
  offerOfBlock (unlines (offerBlock o) ++ tail) = offerOf o.
Proof.
  intros [Ht Hd] Hl.
  assert (E : unlines (offerBlock o) ++ tail
              = joinLines ([js " " ++ Offer.title o]
                           ++ (js "  " ++ js "**Description:**"
                                  ++ js " " ++ Offer.description o)
                           :: [[]; tail])).
  { unfold offerBlock. cbn [unlines joinLines app]. flat. reflexivity. }
  assert (F : Forall (fun l => ~ In LF l)
                     [js " " ++ Offer.title o;
                      js "  **Description:** " ++ Offer.description o; []; tail]).
  { repeat (apply Forall_cons; [first [exact Hl | line_fact]|]). constructor. }
  unfold offerOfBlock, offerOf. f_equal.
  - rewrite E. rewrite split_joinLines; [|discriminate|exact F].
    cbn [app hd]. rewrite <- (app_nil_r (Offer.title o)) at 1.
    apply (cleanValue_pad (js " ") (Offer.title o) []);
      [repeat constructor; now left|constructor|auto with plainness].
  - unfold descriptionRe. rewrite E.
    destruct (marker_in_lines (js "**Description:**")
                [js " " ++ Offer.title o] (js "  ")
                (js " " ++ Offer.description o) [[]; tail]) as [I1 I2].
    + vm_compute. intuition discriminate.
    + discriminate.
    + repeat constructor. line_fact.
    + reflexivity.
    + change 16 with (length (js "**Description:**")).
      unfold jsstring, jschar in *. rewrite I1. cbv beta iota zeta. rewrite I2.
      assert (R : dropWhile isWhiteSpace
                    (joinLines [js " " ++ Offer.description o; []; tail])
                  = Offer.description o ++ LF :: LF :: tail).
      { cbn [joinLines]. rewrite <- app_assoc.
        change (js " " ++ Offer.description o ++ LF :: [] ++ LF :: tail)
          with (SPACE :: Offer.description o ++ LF :: LF :: tail).
        cbn [dropWhile]. change (isWhiteSpace SPACE) with true. cbv iota.
        destruct (plain_head _ (filled_plain _ Hd)) as [E0|(c & t & E0 & Hw & Hc)];
          [destruct Hd as [_ Hd]; contradiction|].
        rewrite E0. cbn [app]. now apply dropWhile_head. }
      unfold jsstring, jschar in *. rewrite R.
      assert (T : takeWhile (fun c => negb (isLineTerminator c))
                            (Offer.description o ++ LF :: LF :: tail)
                  = Offer.description o).
      { apply takeWhile_app_stop; [|reflexivity].
        apply Forall_forall. intros x Hx. apply negb_true_iff.
        pose proof (plain_noLT _ (filled_chars _ Hd)) as N.
        rewrite Forall_forall in N. now apply N. }
      destruct Hd as [Hd Hne].
      destruct (Offer.description o) as [|c t]; [contradiction|].
      cbn [app] in T |- *. cbv iota. unfold jsstring, jschar in *. rewrite T.
      now apply cleanValue_plain.
Qed.

Lemma keepsOffer_offer (o : Offer.t) : plainOffer o -> keepsOffer (offerOf o) = true.
Proof. intros [Ht _]. now apply keepsItem_filled. Qed.

Lemma offers_read (offers : list Offer.t) (tail : jsstring) :
  Forall plainOffer offers -> ~ In LF tail ->
  filter keepsOffer (map offerOfBlock (offerBlocks offers tail))
  = map offerOf offers.
Proof.
  intros F Ht. induction F as [|o offers Ho F IH]; [reflexivity|].
  pose proof (offerOfBlock_block o [] Ho (fun H => H)) as E0.
  rewrite app_nil_r in E0.
  destruct offers as [|o' offers].
  - cbn [offerBlocks map filter].
    rewrite (offerOfBlock_block o tail Ho Ht), (keepsOffer_offer o Ho). reflexivity.
  - change (offerBlocks (o :: o' :: offers) tail)
      with (unlines (offerBlock o) :: offerBlocks (o' :: offers) tail).
    cbn [map filter]. rewrite E0, (keepsOffer_offer o Ho). cbn [map] in IH.
    now rewrite IH.
Qed.

Ltac quiet_chars :=
  first [ apply plain_noLT; solve [auto with plainness]
        | apply fixed_noLT; [reflexivity|solve [auto with plainness]]
        | apply fixed_noLT'; reflexivity ].

Variable data : WizardData.t.
Hypothesis Hdata : plainAnswers data.

Lemma about_whatIOffer :
  extractWhatIOffer (joinLines (aboutLines data))
  = map offerOf (WizardData.whatIOffer data).
Proof.
  pose proof (plain_whatIOffer data Hdata) as Fo.
  rewrite extractWhatIOffer_unfold. unfold aboutLines.
  rewrite joinLines_app by (destruct (flat_map _ _); discriminate).
  rewrite joinLines_app by discriminate. cbn [joinLines].
  rewrite regexSplit_title_lines.
  - destruct (WizardData.whatIOffer data) as [|o offers] eqn:Eo.
    + reflexivity.
    + rewrite regexSplit_offers; [|exact Fo|reflexivity|discriminate].
      cbn [prependHead tl]. apply offers_read; [exact Fo|].
      vm_compute. intuition discriminate.
  - destruct Hdata. all_lines ltac:(split; [quiet_chars|line_fact]).
Qed.

End Offered.

(** ** The fields of the other sections *)

Section OtherFields.

Variable data : WizardData.t.
Hypothesis Hdata : plainAnswers data.

Lemma narrative_professionalNarrative :
  extractField (joinLines (narrativeLines data)) (js "Professional Narrative")
  = WizardData.professionalNarrative data.
Proof.
  destruct Hdata. unfold narrativeLines.
  field_lines (js "Professional Narrative") (@nil jsstring) (@nil jschar)
              (@nil jschar) [WizardData.professionalNarrative data; []]
              (js "**Philosophy:**").
  line_value (WizardData.professionalNarrative data).
Qed.

Lemma narrative_philosophy :
  extractField (joinLines (narrativeLines data)) (js "Philosophy")
  = WizardData.philosophy data.
Proof.
  destruct Hdata. unfold narrativeLines.
  field_lines (js "Philosophy")
              [js "**Professional Narrative:**";
               WizardData.professionalNarrative data; []]
              (@nil jschar) (@nil jschar) [WizardData.philosophy data; []]
              (js "---").
  line_value (WizardData.philosophy data).
Qed.

Lemma thesis_coreThesis :
  extractField (joinLines (thesisLines data)) (js "Core Thesis")
  = WizardData.coreThesis data.
Proof.
  destruct Hdata. unfold thesisLines.
  field_lines (js "Core Thesis") (@nil jsstring) (@nil jschar)
              (@nil jschar) [WizardData.coreThesis data; []]
              (js "**The Moment:**").
  line_value (WizardData.coreThesis data).
Qed.

Lemma thesis_theMoment :
  extractField (joinLines (thesisLines data)) (js "The Moment")
  = WizardData.theMoment data.
Proof.
  destruct Hdata. unfold thesisLines.
  field_lines (js "The Moment")
              [js "**Core Thesis:**"; WizardData.coreThesis data; []]
              (@nil jschar) (@nil jschar) [WizardData.theMoment data; []]
              (js "### Implications").
  line_value (WizardData.theMoment data).
Qed.

Lemma seeking_reportingRelationship :
  extractField (joinLines (seekingLines data)) (js "Reporting Relationship")
  = WizardData.reportingRelationship data.
Proof.
  destruct Hdata.
  replace (seekingLines data)
    with (([js "**Target Roles:**"]
           ++ map bulletLine (WizardData.targetRoles data) ++ [[]])
          ++ ([] ++ fieldMarker (js "Reporting Relationship") ++ [])
          :: [WizardData.reportingRelationship data; []]
          ++ js "### Organization Types"
          :: [ []; js "| Organization Type | What I Bring |";
               js "|-------------------|--------------|" ]
          ++ map orgTypeLine (WizardData.organizationTypes data)
          ++ [ []; js "**Industry:**"; WizardData.industry data; []; js "---" ])
    by (unfold seekingLines; flat; reflexivity).
  field_lines (js "Reporting Relationship")
              ([js "**Target Roles:**"]
               ++ map bulletLine (WizardData.targetRoles data) ++ [[]])
              (@nil jschar) (@nil jschar)
              [WizardData.reportingRelationship data; []]
              (js "### Organization Types").
  line_value (WizardData.reportingRelationship data).
Qed.

Lemma seeking_industry :
  extractField (joinLines (seekingLines data)) (js "Industry")
  = WizardData.industry data.
Proof.
  destruct Hdata.
  replace (seekingLines data)
    with (([js "**Target Roles:**"]
           ++ map bulletLine (WizardData.targetRoles data)
           ++ [ []; js "**Reporting Relationship:**";
                WizardData.reportingRelationship data; [];
                js "### Organization Types"; [];
                js "| Organization Type | What I Bring |";
                js "|-------------------|--------------|" ]
           ++ map orgTypeLine (WizardData.organizationTypes data) ++ [[]])
          ++ ([] ++ fieldMarker (js "Industry") ++ [])
          :: [WizardData.industry data; []] ++ js "---" :: [])
    by (unfold seekingLines; flat; reflexivity).
  field_lines (js "Industry")
              ([js "**Target Roles:**"]
               ++ map bulletLine (WizardData.targetRoles data)
               ++ [ []; js "**Reporting Relationship:**";
                    WizardData.reportingRelationship data; [];
                    js "### Organization Types"; [];
                    js "| Organization Type | What I Bring |";
                    js "|-------------------|--------------|" ]
               ++ map orgTypeLine (WizardData.organizationTypes data) ++ [[]])
              (@nil jschar) (@nil jschar)
              [WizardData.industry data; []]
              (js "---").
  line_value (WizardData.industry data).
Qed.

End OtherFields.

(** ** The lists *)

Section ListsRead.

Lemma bulletLoop_quiet (ls acc : list jsstring) :
  Forall (fun l => lineItem l = None) ls -> bulletLoop ls acc = acc.
Proof.
  induction 1 as [|l ls Hl _ IH]; [reflexivity|].
  rewrite bulletLoop_cons. unfold lineItem in Hl. cbv zeta in Hl.
  destruct (isBullet (trim l)).
  - destruct (keepsItem _); [discriminate Hl|exact IH].
  - destruct (isStopper (trim l)); [|exact IH].
    destruct (0 <? length acc); [reflexivity|exact IH].
Qed.

(** A list is read back when a line stops it, or when no line after it is
    an item. *)
Lemma bulletLoop_read (pre : list jsstring) (f : jsstring -> jsstring)
      (items post : list jsstring) :
  Forall (fun l => lineItem l = None) pre ->
  Forall (fun i => lineItem (f i) = Some i) items ->
  (items <> [] /\ post <> [] /\ stopsList (hd [] post) = true)
  \/ Forall (fun l => lineItem l = None) post ->
  bulletLoop (pre ++ map f items ++ post) [] = items.
Proof.
  intros Fp Fi H. induction Fp as [|l pre Hl _ IH].
  - cbn [app]. rewrite bulletLoop_items by exact Fi. cbn [app].
    destruct H as [(Hne & Hp & Hs)|Fq].
    + destruct post as [|s r]; [contradiction|]. now apply bulletLoop_stop.
    + now apply bulletLoop_quiet.
  - cbn [app]. now rewrite bulletLoop_skip.
Qed.

Lemma bulletLines_items (items : list jsstring) :
  Forall filled items -> Forall (fun i => lineItem (bulletLine i) = Some i) items.
Proof.
  intros F. eapply Forall_impl; [|exact F]. intros i. apply lineItem_bulletLine.
Qed.

Lemma lineItem_pipe (t : jsstring) : lineItem (js "| " ++ t) = None.
Proof.
  change (js "| ") with (124%N :: js " "). cbn [app].
  apply lineItem_head; [reflexivity|discriminate|discriminate].
Qed.

Lemma map_pipes {A : Type} (f : A -> jsstring) (items : list A) :
  (forall i, exists t, f i = js "| " ++ t) ->
  Forall (fun l => lineItem l = None) (map f items).
Proof.
  intros H. induction items as [|i items IH]; cbn [map]; constructor; [|exact IH].
  destruct (H i) as [t ->]. apply lineItem_pipe.
Qed.

End ListsRead.

(** The lines that hold no item. *)
Ltac quiet_lines :=
  cbn [app recognitionLines domainLines map];
  repeat first
    [ apply Forall_nil
    | apply Forall_cons;
      [ first [ solve [vm_compute; reflexivity]
              | apply lineItem_plainLine; assumption ] |]
    | apply Forall_app; split
    | apply map_pipes; intros i; eexists; reflexivity ].

(** The list written under [marker], after the lines [a]. *)
Ltac list_lines marker a rest :=
  etransitivity;
  [ refine (extractBulletList_lines marker a [] [] rest _ _ _ _ _);
    [ vm_compute; intuition discriminate
    | discriminate
    | all_lines line_fact
    | reflexivity
    | all_lines line_fact ]
  | ].

Ltac read_list pre items post :=
  refine (bulletLoop_read pre bulletLine items post _ _ _);
  [ quiet_lines | now apply bulletLines_items | ].

Section TemplateLists.

Variable data : WizardData.t.
Hypothesis Hdata : plainAnswers data.

Lemma thesis_implications :
  extractBulletList (joinLines (thesisLines data)) (js "### Implications")
  = WizardData.implications data.
Proof.
  destruct Hdata. unfold thesisLines.
  list_lines (js "### Implications")
             [ js "**Core Thesis:**"; WizardData.coreThesis data; [];
               js "**The Moment:**"; WizardData.theMoment data; [] ]
             ([] :: map bulletLine (WizardData.implications data)
                 ++ [ []; js "---" ]).
  read_list [@nil jschar; []] (WizardData.implications data) [ []; js "---" ].
  right. quiet_lines.
Qed.

Lemma accomplishments_operationalScale :
  extractBulletList (joinLines (accomplishmentsLines data))
                    (js "### Operational Scale")
  = orNext (WizardData.operationalScale data) (WizardData.recognition data).
Proof.
  destruct Hdata.
  replace (accomplishmentsLines data)
    with (([ js "### Financial Impact"; [];
             js "| Accomplishment | Company | Value |";
             js "|----------------|---------|-------|" ]
           ++ map financialLine (WizardData.financialImpact data) ++ [[]])
          ++ js "### Operational Scale"
          :: [] :: map bulletLine (WizardData.operationalScale data)
          ++ [ []; js "### Recognition & Innovation"; [] ]
          ++ recognitionLines (WizardData.recognition data)
          ++ [ []; js "---" ])
    by (unfold accomplishmentsLines; flat; reflexivity).
  list_lines (js "### Operational Scale")
             ([ js "### Financial Impact"; [];
                js "| Accomplishment | Company | Value |";
                js "|----------------|---------|-------|" ]
              ++ map financialLine (WizardData.financialImpact data) ++ [[]])
             ([] :: map bulletLine (WizardData.operationalScale data)
                 ++ [ []; js "### Recognition & Innovation"; [] ]
                 ++ recognitionLines (WizardData.recognition data)
                 ++ [ []; js "---" ]).
  destruct (WizardData.operationalScale data) as [|o os] eqn:E1.
  - cbn [orNext].
    destruct (WizardData.recognition data) as [|r rs] eqn:E2; [reflexivity|].
    rewrite <- E2 in *.
    replace (recognitionLines (WizardData.recognition data))
      with (map bulletLine (WizardData.recognition data)) by now rewrite E2.
    read_list [@nil jschar; []; []; js "### Recognition & Innovation"; []]
              (WizardData.recognition data) [ []; js "---" ].
    right. quiet_lines.
  - cbn [orNext]. rewrite <- E1 in *.
    read_list [@nil jschar; []] (WizardData.operationalScale data)
              ([ []; js "### Recognition & Innovation"; [] ]
               ++ recognitionLines (WizardData.recognition data)
               ++ [ []; js "---" ]).
    left. split; [now rewrite E1|]. split; [discriminate|reflexivity].
Qed.

Lemma accomplishments_recognition :
  extractBulletList (joinLines (accomplishmentsLines data))
                    (js "### Recognition & Innovation")
  = WizardData.recognition data.
Proof.
  destruct Hdata.
  replace (accomplishmentsLines data)
    with (([ js "### Financial Impact"; [];
             js "| Accomplishment | Company | Value |";
             js "|----------------|---------|-------|" ]
           ++ map financialLine (WizardData.financialImpact data)
           ++ [ []; js "### Operational Scale"; [] ]
           ++ map bulletLine (WizardData.operationalScale data) ++ [[]])
          ++ js "### Recognition & Innovation"
          :: [] :: recognitionLines (WizardData.recognition data)
          ++ [ []; js "---" ])
    by (unfold accomplishmentsLines; flat; reflexivity).
  list_lines (js "### Recognition & Innovation")
             ([ js "### Financial Impact"; [];
                js "| Accomplishment | Company | Value |";
                js "|----------------|---------|-------|" ]
              ++ map financialLine (WizardData.financialImpact data)
              ++ [ []; js "### Operational Scale"; [] ]
              ++ map bulletLine (WizardData.operationalScale data) ++ [[]])
             ([] :: recognitionLines (WizardData.recognition data)
                 ++ [ []; js "---" ]).
  destruct (WizardData.recognition data) as [|r rs] eqn:E; [reflexivity|].
  rewrite <- E in *. replace (recognitionLines (WizardData.recognition data))
    with (map bulletLine (WizardData.recognition data)) by now rewrite E.
  read_list [@nil jschar; []] (WizardData.recognition data) [ []; js "---" ].
  right. quiet_lines.
Qed.

Lemma seeking_targetRoles :
  extractBulletList (joinLines (seekingLines data)) (js "**Target Roles:**")
  = WizardData.targetRoles data.
Proof.
  destruct Hdata. unfold seekingLines.
  list_lines (js "**Target Roles:**") (@nil jsstring)
             (map bulletLine (WizardData.targetRoles data)
              ++ [ []; js "**Reporting Relationship:**";
                   WizardData.reportingRelationship data; [];
                   js "### Organization Types"; [];
                   js "| Organization Type | What I Bring |";
                   js "|-------------------|--------------|" ]
              ++ map orgTypeLine (WizardData.organizationTypes data)
              ++ [ []; js "**Industry:**"; WizardData.industry data; [];
                   js "---" ]).
  read_list [@nil jschar] (WizardData.targetRoles data)
            ([ []; js "**Reporting Relationship:**";
               WizardData.reportingRelationship data; [];
               js "### Organization Types"; [];
               js "| Organization Type | What I Bring |";
               js "|-------------------|--------------|" ]
             ++ map orgTypeLine (WizardData.organizationTypes data)
             ++ [ []; js "**Industry:**"; WizardData.industry data; [];
                  js "---" ]).
  right. quiet_lines.
Qed.

Lemma culturalFit_thriveIn :
  extractBulletList (joinLines (culturalFitLines data)) (js "### I Thrive In")
  = orNext (WizardData.thriveIn data) (WizardData.notRightFor data).
Proof.
  destruct Hdata. unfold culturalFitLines.
  list_lines (js "### I Thrive In") (@nil jsstring)
             ([] :: map bulletLine (WizardData.thriveIn data)
                 ++ [ []; js "### Not Right For"; [] ]
                 ++ map bulletLine (WizardData.notRightFor data)
                 ++ [ []; js "---" ]).
  destruct (WizardData.thriveIn data) as [|o os] eqn:E1.
  - cbn [orNext].
    read_list [@nil jschar; []; []; js "### Not Right For"; []]
              (WizardData.notRightFor data) [ []; js "---" ].
    right. quiet_lines.
  - cbn [orNext]. rewrite <- E1 in *.
    read_list [@nil jschar; []] (WizardData.thriveIn data)
              ([ []; js "### Not Right For"; [] ]
               ++ map bulletLine (WizardData.notRightFor data)
               ++ [ []; js "---" ]).
    left. split; [now rewrite E1|]. split; [discriminate|reflexivity].
Qed.

Lemma culturalFit_notRightFor :
  extractBulletList (joinLines (culturalFitLines data)) (js "### Not Right For")
  = WizardData.notRightFor data.
Proof.
  destruct Hdata.
  replace (culturalFitLines data)
    with (([ js "### I Thrive In"; [] ]
           ++ map bulletLine (WizardData.thriveIn data) ++ [[]])
          ++ js "### Not Right For"
          :: [] :: map bulletLine (WizardData.notRightFor data)
          ++ [ []; js "---" ])
    by (unfold culturalFitLines; flat; reflexivity).
  list_lines (js "### Not Right For")
             ([ js "### I Thrive In"; [] ]
              ++ map bulletLine (WizardData.thriveIn data) ++ [[]])
             ([] :: map bulletLine (WizardData.notRightFor data)
                 ++ [ []; js "---" ]).
  read_list [@nil jschar; []] (WizardData.notRightFor data) [ []; js "---" ].
  right. quiet_lines.
Qed.

Lemma skills_methodologies :
  extractBulletList (joinLines (skillsLines data)) (js "### Methodologies")
  = orNext (WizardData.methodologies data)
           (orNext (WizardData.technical data) (WizardData.domain data)).
Proof.
  destruct Hdata. unfold skillsLines.
  list_lines (js "### Methodologies") (@nil jsstring)
             ([] :: map bulletLine (WizardData.methodologies data)
                 ++ [ []; js "### Technical"; [] ]
                 ++ map bulletLine (WizardData.technical data)
                 ++ [ []; js "### Domain Expertise" ]
                 ++ domainLines (WizardData.domain data)).
  destruct (WizardData.methodologies data) as [|o os] eqn:E1.
  - cbn [orNext]. destruct (WizardData.technical data) as [|t ts] eqn:E2.
    + cbn [orNext].
      destruct (WizardData.domain data) as [|d ds] eqn:E3; [reflexivity|].
      rewrite <- E3 in *.
      replace (domainLines (WizardData.domain data))
        with ([] :: map bulletLine (WizardData.domain data)) by now rewrite E3.
      rewrite <- (app_nil_r (map bulletLine (WizardData.domain data))).
      read_list [@nil jschar; []; []; js "### Technical"; []; [];
                 js "### Domain Expertise"; []]
                (WizardData.domain data) (@nil jsstring).
      right. quiet_lines.
    + cbn [orNext]. rewrite <- E2 in *.
      read_list [@nil jschar; []; []; js "### Technical"; []]
                (WizardData.technical data)
                ([ []; js "### Domain Expertise" ]
                 ++ domainLines (WizardData.domain data)).
      left. split; [now rewrite E2|]. split; [discriminate|reflexivity].
  - cbn [orNext]. rewrite <- E1 in *.
    read_list [@nil jschar; []] (WizardData.methodologies data)
              ([ []; js "### Technical"; [] ]
               ++ map bulletLine (WizardData.technical data)
               ++ [ []; js "### Domain Expertise" ]
               ++ domainLines (WizardData.domain data)).
    left. split; [now rewrite E1|]. split; [discriminate|reflexivity].
Qed.

Lemma skills_technical :
  extractBulletList (joinLines (skillsLines data)) (js "### Technical")
  = orNext (WizardData.technical data) (WizardData.domain data).
Proof.
  destruct Hdata.
  replace (skillsLines data)
    with (([ js "### Methodologies"; [] ]
           ++ map bulletLine (WizardData.methodologies data) ++ [[]])
          ++ js "### Technical"
          :: [] :: map bulletLine (WizardData.technical data)
          ++ [ []; js "### Domain Expertise" ]
          ++ domainLines (WizardData.domain data))
    by (unfold skillsLines; flat; reflexivity).
  list_lines (js "### Technical")
             ([ js "### Methodologies"; [] ]
              ++ map bulletLine (WizardData.methodologies data) ++ [[]])
             ([] :: map bulletLine (WizardData.technical data)
                 ++ [ []; js "### Domain Expertise" ]
                 ++ domainLines (WizardData.domain data)).
  destruct (WizardData.technical data) as [|t ts] eqn:E1.
  - cbn [orNext].
    destruct (WizardData.domain data) as [|d ds] eqn:E3; [reflexivity|].
    rewrite <- E3 in *.
    replace (domainLines (WizardData.domain data))
      with ([] :: map bulletLine (WizardData.domain data)) by now rewrite E3.
    rewrite <- (app_nil_r (map bulletLine (WizardData.domain data))).
    read_list [@nil jschar; []; []; js "### Domain Expertise"; []]
              (WizardData.domain data) (@nil jsstring).
    right. quiet_lines.
  - cbn [orNext]. rewrite <- E1 in *.
    read_list [@nil jschar; []] (WizardData.technical data)
              ([ []; js "### Domain Expertise" ]
               ++ domainLines (WizardData.domain data)).
    left. split; [now rewrite E1|]. split; [discriminate|reflexivity].
Qed.

Lemma skills_domain :
  extractBulletList (joinLines (skillsLines data)) (js "### Domain Expertise")
  = WizardData.domain data.
Proof.
  destruct Hdata.
  replace (skillsLines data)
    with (([ js "### Methodologies"; [] ]
           ++ map bulletLine (WizardData.methodologies data)
           ++ [ []; js "### Technical"; [] ]
           ++ map bulletLine (WizardData.technical data) ++ [[]])
          ++ js "### Domain Expertise"
          :: domainLines (WizardData.domain data))
    by (unfold skillsLines; flat; reflexivity).
  list_lines (js "### Domain Expertise")
             ([ js "### Methodologies"; [] ]
              ++ map bulletLine (WizardData.methodologies data)
              ++ [ []; js "### Technical"; [] ]
              ++ map bulletLine (WizardData.technical data) ++ [[]])
             (domainLines (WizardData.domain data)).
  destruct (WizardData.domain data) as [|r rs] eqn:E; [reflexivity|].
  rewrite <- E in *. replace (domainLines (WizardData.domain data))
    with ([] :: map bulletLine (WizardData.domain data)) by now rewrite E.
  rewrite <- (app_nil_r (map bulletLine (WizardData.domain data))).
  read_list [@nil jschar; []] (WizardData.domain data) (@nil jsstring).
  right. quiet_lines.
Qed.

End TemplateLists.

(** ** The tables *)

Section TablesRead.

Variable toLowerCase : jsstring -> jsstring.
Hypothesis Hlower : lowersAscii toLowerCase.

Lemma headerKey_ascii (h : jsstring) :
  forallb (fun c => (c <? 128)%N) h = true ->
  headerKey toLowerCase h = headerKey toLowerCaseAscii h.
Proof. intros H. unfold headerKey. now rewrite Hlower. Qed.

Lemma zipRow_three (h1 h2 h3 a b c : jsstring) :
  forallb (fun c => (c <? 128)%N) h1 = true ->
  forallb (fun c => (c <? 128)%N) h2 = true ->
  forallb (fun c => (c <? 128)%N) h3 = true ->
  zipRow toLowerCase [h1; h2; h3] [a; b; c]
  = zipRow toLowerCaseAscii [h1; h2; h3] [a; b; c].
Proof.
  intros H1 H2 H3. unfold zipRow. cbn [map].
  now rewrite !headerKey_ascii by assumption.
Qed.

Lemma zipRow_two (h1 h2 a b : jsstring) :
  forallb (fun c => (c <? 128)%N) h1 = true ->
  forallb (fun c => (c <? 128)%N) h2 = true ->
  zipRow toLowerCase [h1; h2] [a; b] = zipRow toLowerCaseAscii [h1; h2] [a; b].
Proof.
  intros H1 H2. unfold zipRow. cbn [map].
  now rewrite !headerKey_ascii by assumption.
Qed.

Lemma financialLine_shape (r : Financial.t) :
  trim (financialLine r) = financialLine r /\ isPipeLine (financialLine r) = true.
Proof.
  replace (financialLine r)
    with (js "|" ++ (js " " ++ Financial.accomplishment r ++ js " | "
                     ++ Financial.company r ++ js " | " ++ Financial.value r
                     ++ js " ") ++ js "|")
    by (unfold financialLine; flat; reflexivity).
  apply row_shape.
Qed.

Lemma statLine_shape (r : Stat.t) :
  trim (statLine r) = statLine r /\ isPipeLine (statLine r) = true.
Proof.
  replace (statLine r)
    with (js "|" ++ (js " " ++ Stat.stat r ++ js " | " ++ Stat.context r
                     ++ js " ") ++ js "|")
    by (unfold statLine; flat; reflexivity).
  apply row_shape.
Qed.

Lemma orgTypeLine_shape (r : OrgType.t) :
  trim (orgTypeLine r) = orgTypeLine r /\ isPipeLine (orgTypeLine r) = true.
Proof.
  replace (orgTypeLine r)
    with (js "|" ++ (js " " ++ OrgType.type r ++ js " | " ++ OrgType.whatIBring r
                     ++ js " ") ++ js "|")
    by (unfold orgTypeLine; flat; reflexivity).
  apply row_shape.
Qed.

Lemma rows_shape {A : Type} (f : A -> jsstring) (items : list A) :
  (forall r, trim (f r) = f r /\ isPipeLine (f r) = true) ->
  Forall (fun r => trim r = r /\ isPipeLine r = true) (map f items).
Proof. intros H. induction items; cbn [map]; constructor; auto. Qed.

Lemma truthy_filled (a : jsstring) : filled a -> truthy a = true.
Proof. intros [_ H]. destruct a; [contradiction|reflexivity]. Qed.

Lemma financial_rows (items : list Financial.t) :
  Forall plainFinancial items ->
  map (fun r => {| FinancialRow.accomplishment := objGet (js "accomplishment") r;
                   FinancialRow.company := objGet (js "company") r;
                   FinancialRow.value := objGet (js "value") r |})
      (filter (truthyField (js "accomplishment"))
         (map (zipRow toLowerCase [js "Accomplishment"; js "Company"; js "Value"])
            (filter (fun cells => negb (forallb blankCell cells))
               (map parseTableRow (map financialLine items)))))
  = map financialRowOf items.
Proof.
  induction 1 as [|r items (Ha & Hb & Hc) _ IH]; [reflexivity|].
  cbn [map]. unfold financialLine at 1.
  rewrite (parseTableRow_three _ _ _ (proj1 Ha) Hb Hc).
  cbn [filter forallb]. rewrite (blankCell_filled _ Ha). cbn [andb negb map].
  rewrite zipRow_three by reflexivity.
  change (zipRow toLowerCaseAscii [js "Accomplishment"; js "Company"; js "Value"]
                 [Financial.accomplishment r; Financial.company r;
                  Financial.value r])
    with [(js "accomplishment", Financial.accomplishment r);
          (js "company", Financial.company r);
          (js "value", Financial.value r)].
  cbn [filter].
  change (truthyField (js "accomplishment")
            [(js "accomplishment", Financial.accomplishment r);
             (js "company", Financial.company r);
             (js "value", Financial.value r)])
    with (truthy (Financial.accomplishment r)).
  rewrite (truthy_filled _ Ha). cbn [map]. rewrite IH. reflexivity.
Qed.

Lemma stat_rows (items : list Stat.t) :
  Forall plainStat items ->
  map (fun r => {| StatRow.stat := objGet (js "stat") r;
                   StatRow.context := objGet (js "context") r |})
      (filter (truthyField (js "stat"))
         (map (zipRow toLowerCase [js "Stat"; js "Context"])
            (filter (fun cells => negb (forallb blankCell cells))
               (map parseTableRow (map statLine items)))))
  = map statRowOf items.
Proof.
  induction 1 as [|r items (Ha & Hb) _ IH]; [reflexivity|].
  cbn [map]. unfold statLine at 1.
  rewrite (parseTableRow_two _ _ (proj1 Ha) Hb).
  cbn [filter forallb]. rewrite (blankCell_filled _ Ha). cbn [andb negb map].
  rewrite zipRow_two by reflexivity.
  change (zipRow toLowerCaseAscii [js "Stat"; js "Context"]
                 [Stat.stat r; Stat.context r])
    with [(js "stat", Stat.stat r); (js "context", Stat.context r)].
  cbn [filter].
  change (truthyField (js "stat")
            [(js "stat", Stat.stat r); (js "context", Stat.context r)])
    with (truthy (Stat.stat r)).
  rewrite (truthy_filled _ Ha). cbn [map]. rewrite IH. reflexivity.
Qed.

Lemma orgType_rows (items : list OrgType.t) :
  Forall plainOrgType items ->
  map (fun r => {| OrgTypeRow.type := objGet (js "organization_type") r;
                   OrgTypeRow.what_i_bring := objGet (js "what_i_bring") r |})
      (filter (truthyField (js "organization_type"))
         (map (zipRow toLowerCase [js "Organization Type"; js "What I Bring"])
            (filter (fun cells => negb (forallb blankCell cells))
               (map parseTableRow (map orgTypeLine items)))))
  = map orgTypeRowOf items.
Proof.
  induction 1 as [|r items (Ha & Hb) _ IH]; [reflexivity|].
  cbn [map]. unfold orgTypeLine at 1.
  rewrite (parseTableRow_two _ _ (proj1 Ha) Hb).
  cbn [filter forallb]. rewrite (blankCell_filled _ Ha). cbn [andb negb map].
  rewrite zipRow_two by reflexivity.
  change (zipRow toLowerCaseAscii [js "Organization Type"; js "What I Bring"]
                 [OrgType.type r; OrgType.whatIBring r])
    with [(js "organization_type", OrgType.type r);
          (js "what_i_bring", OrgType.whatIBring r)].
  cbn [filter].
  change (truthyField (js "organization_type")
            [(js "organization_type", OrgType.type r);
             (js "what_i_bring", OrgType.whatIBring r)])
    with (truthy (OrgType.type r)).
  rewrite (truthy_filled _ Ha). cbn [map]. rewrite IH. reflexivity.
Qed.

Variable data : WizardData.t.
Hypothesis Hdata : plainAnswers data.

Lemma accomplishments_financialImpact :
  map (fun r => {| FinancialRow.accomplishment := objGet (js "accomplishment") r;
                   FinancialRow.company := objGet (js "company") r;
                   FinancialRow.value := objGet (js "value") r |})
      (filter (truthyField (js "accomplishment"))
         (extractTable toLowerCase (joinLines (accomplishmentsLines data))
                       (js "### Financial Impact")))
  = map financialRowOf (WizardData.financialImpact data).
Proof.
  destruct Hdata. unfold accomplishmentsLines.
  rewrite <- financial_rows by assumption. do 2 f_equal.
  refine (eq_trans
            (extractTable_lines toLowerCase (js "### Financial Impact") []
               (js "| Accomplishment | Company | Value |")
               (js "|----------------|---------|-------|")
               (map financialLine (WizardData.financialImpact data))
               ([ js "### Operational Scale"; [] ]
                ++ map bulletLine (WizardData.operationalScale data)
                ++ [ []; js "### Recognition & Innovation"; [] ]
                ++ recognitionLines (WizardData.recognition data)
                ++ [ []; js "---" ]) _ _ _ _ _ _ _) _).
  - vm_compute. intuition discriminate.
  - discriminate.
  - constructor.
  - all_lines line_fact.
  - vm_compute. reflexivity.
  - reflexivity.
  - apply rows_shape, financialLine_shape.
  - replace (parseTableRow (js "| Accomplishment | Company | Value |"))
      with [js "Accomplishment"; js "Company"; js "Value"]
      by (vm_compute; reflexivity).
    reflexivity.
Qed.

Lemma trackRecord_headlineStats :
  map (fun r => {| StatRow.stat := objGet (js "stat") r;
                   StatRow.context := objGet (js "context") r |})
      (filter (truthyField (js "stat"))
         (extractTable toLowerCase (joinLines (trackRecordLines data))
                       (js "### Headline Stats")))
  = map statRowOf (WizardData.headlineStats data).
Proof.
  destruct Hdata. unfold trackRecordLines.
  rewrite <- stat_rows by assumption. do 2 f_equal.
  refine (eq_trans
            (extractTable_lines toLowerCase (js "### Headline Stats") []
               (js "| Stat | Context |") (js "|------|---------|")
               (map statLine (WizardData.headlineStats data))
               [ js "---" ] _ _ _ _ _ _ _) _).
  - vm_compute. intuition discriminate.
  - discriminate.
  - constructor.
  - all_lines line_fact.
  - vm_compute. reflexivity.
  - reflexivity.
  - apply rows_shape, statLine_shape.
  - replace (parseTableRow (js "| Stat | Context |"))
      with [js "Stat"; js "Context"] by (vm_compute; reflexivity).
    reflexivity.
Qed.

Lemma seeking_organizationTypes :
  map (fun r => {| OrgTypeRow.type := objGet (js "organization_type") r;
                   OrgTypeRow.what_i_bring := objGet (js "what_i_bring") r |})
      (filter (truthyField (js "organization_type"))
         (extractTable toLowerCase (joinLines (seekingLines data))
                       (js "### Organization Types")))
  = map orgTypeRowOf (WizardData.organizationTypes data).
Proof.
  destruct Hdata.
  replace (seekingLines data)
    with (([js "**Target Roles:**"]
           ++ map bulletLine (WizardData.targetRoles data)
           ++ [ []; js "**Reporting Relationship:**";
                WizardData.reportingRelationship data; [] ])
          ++ js "### Organization Types" :: []
          :: js "| Organization Type | What I Bring |"
          :: js "|-------------------|--------------|"
          :: map orgTypeLine (WizardData.organizationTypes data)
          ++ [] :: [ js "**Industry:**"; WizardData.industry data; []; js "---" ])
    by (unfold seekingLines; flat; reflexivity).
  rewrite <- orgType_rows by assumption. do 2 f_equal.
  refine (eq_trans
            (extractTable_lines toLowerCase (js "### Organization Types")
               ([js "**Target Roles:**"]
                ++ map bulletLine (WizardData.targetRoles data)
                ++ [ []; js "**Reporting Relationship:**";
                     WizardData.reportingRelationship data; [] ])
               (js "| Organization Type | What I Bring |")
               (js "|-------------------|--------------|")
               (map orgTypeLine (WizardData.organizationTypes data))
               [ js "**Industry:**"; WizardData.industry data; []; js "---" ]
               _ _ _ _ _ _ _) _).
  - vm_compute. intuition discriminate.
  - discriminate.
  - all_lines line_fact.
  - all_lines line_fact.
  - vm_compute. reflexivity.
  - reflexivity.
  - apply rows_shape, orgTypeLine_shape.
  - replace (parseTableRow (js "| Organization Type | What I Bring |"))
      with [js "Organization Type"; js "What I Bring"]
      by (vm_compute; reflexivity).
    reflexivity.
Qed.

End TablesRead.

(** ** The blocks of Experience *)

Section RoleBlocks.

Lemma experience_blocks (i : nat) (roles : list Role.t) (tail : jsstring) :
  roles <> [] ->
  unlines (roleLines i roles) ++ tail = sectionText [] (roleBlocks i roles tail).
Proof.
  unfold sectionText. cbn [app].
  revert i; induction roles as [|r rest IH]; intros i Hne; [contradiction|].
  cbn [roleLines unlines]. rewrite unlines_app.
  destruct rest as [|r' rest].
  - cbn [roleLines unlines roleBlocks flat_map fst snd]. unfold roleBlock.
    rewrite !app_nil_r, <- app_assoc. reflexivity.
  - change (roleBlocks i (r :: r' :: rest) tail)
      with ((roleHeading i, roleBlock r) :: roleBlocks (S i) (r' :: rest) tail).
    cbn [flat_map fst snd]. rewrite <- (IH (S i)) by discriminate.
    unfold roleBlock. rewrite <- !app_assoc. cbn [app].
    now rewrite <- app_assoc.
Qed.

Lemma roleHeading_text (i : nat) : roleHeadingText (roleHeading i).
Proof.
  assert (N : ~ In LF (roleHeading i)).
  { unfold roleHeading. line_fact. }
  unfold roleHeading in *.
  destruct (decimal_head (i + 1)) as (d & r & E & Hd). rewrite E in *.
  exists d, (r ++ (if i =? 0 then js " (Most Recent)" else [])).
  split; [reflexivity|]. split; [exact Hd|].
  intros Hin. apply N. apply in_or_app. right. now right.
Qed.

Lemma quietBlock_end (tail : jsstring) :
  Forall (fun c => isLineTerminator c = false) tail -> quietBlock tail.
Proof.
  intros F p c q E Hc. subst tail. apply Forall_app in F as [_ F].
  inversion F; subst. congruence.
Qed.

Lemma quietBlock_app (l Y : jsstring) :
  Forall (fun c => isLineTerminator c = false) l ->
  quietBlock Y -> quietBlock (l ++ Y).
Proof.
  intros F HY. induction F as [|x l Hx _ IH]; [exact HY|].
  intros p c q E Hc. destruct p as [|y p]; cbn [app] in E; injection E as E1 E2.
  - subst. congruence.
  - now apply (IH p c q).
Qed.

Lemma quietBlock_LF (Y : jsstring) :
  roleRe true Y = None -> quietBlock Y -> quietBlock (LF :: Y).
Proof.
  intros HR HY p c q E Hc. destruct p as [|y p]; cbn [app] in E;
    injection E as E1 E2.
  - now subst.
  - now apply (HY p c q).
Qed.

Lemma roleRe_line (l : jsstring) :
  startsWith (js "### Role ") l = false -> roleRe true l = None.
Proof. intros H. unfold roleRe. now rewrite H. Qed.

Lemma quietBlock_lines (ls : list jsstring) (tail : jsstring) :
  Forall (fun l => Forall (fun c => isLineTerminator c = false) l
                   /\ startsWith (js "### Role ") l = false) ls ->
  Forall (fun c => isLineTerminator c = false) tail ->
  startsWith (js "### Role ") tail = false ->
  quietBlock (unlines ls ++ tail) /\ roleRe true (unlines ls ++ tail) = None.
Proof.
  intros F Ft Hs. induction F as [|l ls [Hl Hl'] _ [IH1 IH2]].
  - split; [now apply quietBlock_end|now apply roleRe_line].
  - cbn [unlines]. rewrite <- app_assoc. cbn [app]. split.
    + apply quietBlock_app; [exact Hl|]. now apply quietBlock_LF.
    + apply roleRe_line.
      rewrite startsWith_line by (vm_compute; intuition discriminate).
      exact Hl'.
Qed.

Lemma roleBody_lines (r : Role.t) :
  plainRole r ->
  Forall (fun l => Forall (fun c => isLineTerminator c = false) l
                   /\ startsWith (js "### Role ") l = false) (roleBody r).
Proof.
  intros (Ht & Hc & Hd & Hl & He & Hk & _). unfold roleBody.
  repeat first
    [ apply Forall_nil
    | apply Forall_app; split
    | apply Forall_cons;
      [ split;
        [ first [ apply Forall_nil
                | apply fixed_noLT; [reflexivity|auto with plainness]
                | apply fixed_noLT'; reflexivity ]
        | reflexivity ] |] ].
  apply (Forall_map_from filled _ _ _ Hk). intros i Hi. split.
  - apply fixed_noLT; [reflexivity|auto with plainness].
  - reflexivity.
Qed.

Lemma roleBlock_quiet (r : Role.t) (tail : jsstring) :
  plainRole r ->
  Forall (fun c => isLineTerminator c = false) tail ->
  startsWith (js "### Role ") tail = false ->
  quietBlock (roleBlock r ++ tail).
Proof.
  intros Hr Ft Hs. unfold roleBlock. cbn [app].
  destruct (quietBlock_lines _ tail (roleBody_lines r Hr) Ft Hs) as [Q R].
  now apply quietBlock_LF.
Qed.

Lemma roleBlock_endsLine (r : Role.t) : endsLine (roleBlock r).
Proof.
  exists (LF :: unlines (removelast (roleBody r))), LF. split; [|reflexivity].
  unfold roleBlock, roleBody. rewrite !app_assoc.
  rewrite removelast_last, unlines_app. cbn [unlines app]. reflexivity.
Qed.

Lemma roleBlocks_layout (i : nat) (roles : list Role.t) (tail : jsstring) :
  Forall plainRole roles ->
  Forall (fun c => isLineTerminator c = false) tail ->
  startsWith (js "### Role ") tail = false ->
  roleLayout (roleBlocks i roles tail).
Proof.
  intros F Ft Hs. revert i; induction F as [|r rest Hr F IH]; intros i;
    [exact I|].
  destruct rest as [|r' rest].
  - cbn [roleBlocks roleLayout]. split; [apply roleHeading_text|].
    split; [right; now eexists|]. split; [now apply roleBlock_quiet|].
    split; [now left|exact I].
  - change (roleBlocks i (r :: r' :: rest) tail)
      with ((roleHeading i, roleBlock r) :: roleBlocks (S i) (r' :: rest) tail).
    cbn [roleLayout]. split; [apply roleHeading_text|].
    split; [right; now eexists|]. split.
    + rewrite <- (app_nil_r (roleBlock r)).
      apply roleBlock_quiet; [exact Hr|constructor|reflexivity].
    + split; [right; apply roleBlock_endsLine|apply IH].
Qed.

End RoleBlocks.

(** ** The roles *)

Section RolesRead.

Lemma cleanValue_after_space (d : jsstring) :
  plain d -> cleanValue (js " " ++ d) = d.
Proof.
  intros H. rewrite <- (app_nil_r d) at 1.
  apply cleanValue_pad; [repeat constructor|constructor|exact H].
Qed.

Lemma filter_truthy (items : list jsstring) :
  Forall filled items -> filter truthy items = items.
Proof.
  induction 1 as [|i items Hi _ IH]; [reflexivity|].
  cbn [filter]. now rewrite (truthy_filled i Hi), IH.
Qed.

Lemma contribution_items (items : list jsstring) :
  Forall filled items ->
  Forall (fun i => lineItem (js "  - " ++ i) = Some i) items.
Proof.
  intros F. eapply Forall_impl; [|exact F]. intros i Hi.
  apply (lineItem_bullet (js "  ") i); [repeat constructor|exact Hi].
Qed.

(** The lines of the block of a role. *)
Lemma roleBlock_text (r : Role.t) (tail : jsstring) :
  roleBlock r ++ tail
  = joinLines ([ []; [];
                 js "- **Title:** " ++ Role.title r;
                 js "- **Company:** " ++ Role.company r;
                 js "- **Dates:** " ++ Role.dates r;
                 js "- **Location:** " ++ Role.location r;
                 js "- **Description:** " ++ Role.description r;
                 js "- **Key Contributions:**" ]
               ++ map (fun c => js "  - " ++ c) (Role.contributions r)
               ++ [ []; tail ]).
Proof.
  unfold roleBlock.
  replace ([ []; [];
             js "- **Title:** " ++ Role.title r;
             js "- **Company:** " ++ Role.company r;
             js "- **Dates:** " ++ Role.dates r;
             js "- **Location:** " ++ Role.location r;
             js "- **Description:** " ++ Role.description r;
             js "- **Key Contributions:**" ]
           ++ map (fun c => js "  - " ++ c) (Role.contributions r)
           ++ [ []; tail ])
    with (([] :: roleBody r) ++ [tail])
    by (unfold roleBody; flat; reflexivity).
  rewrite joinLines_last. reflexivity.
Qed.

Variable r : Role.t.
Hypothesis Hr : plainRole r.
Variable tail : jsstring.
Hypothesis Htail : tail = [] \/ tail = js "---".

Lemma role_title :
  extractField (roleBlock r ++ tail) (js "Title") = Role.title r.
Proof.
  rewrite roleBlock_text. destruct Hr as (Ht & Hc & Hd & Hl & He & Hk & _).
  field_lines (js "Title") [@nil jschar; []] (js "- ")
              (js " " ++ Role.title r) (@nil jsstring)
              (js "- **Company:** " ++ Role.company r).
  now apply cleanValue_after_space.
Qed.

Lemma role_company :
  extractField (roleBlock r ++ tail) (js "Company") = Role.company r.
Proof.
  rewrite roleBlock_text. destruct Hr as (Ht & Hc & Hd & Hl & He & Hk & _).
  field_lines (js "Company")
              [ []; []; js "- **Title:** " ++ Role.title r ] (js "- ")
              (js " " ++ Role.company r) (@nil jsstring)
              (js "- **Dates:** " ++ Role.dates r).
  now apply cleanValue_after_space.
Qed.

Lemma role_dates :
  extractField (roleBlock r ++ tail) (js "Dates") = Role.dates r.
Proof.
  rewrite roleBlock_text. destruct Hr as (Ht & Hc & Hd & Hl & He & Hk & _).
  field_lines (js "Dates")
              [ []; []; js "- **Title:** " ++ Role.title r;
                js "- **Company:** " ++ Role.company r ] (js "- ")
              (js " " ++ Role.dates r) (@nil jsstring)
              (js "- **Location:** " ++ Role.location r).
  now apply cleanValue_after_space.
Qed.

Lemma role_location :
  extractField (roleBlock r ++ tail) (js "Location") = Role.location r.
Proof.
  rewrite roleBlock_text. destruct Hr as (Ht & Hc & Hd & Hl & He & Hk & _).
  field_lines (js "Location")
              [ []; []; js "- **Title:** " ++ Role.title r;
                js "- **Company:** " ++ Role.company r;
                js "- **Dates:** " ++ Role.dates r ] (js "- ")
              (js " " ++ Role.location r) (@nil jsstring)
              (js "- **Description:** " ++ Role.description r).
  now apply cleanValue_after_space.
Qed.

Lemma role_description :
  extractField (roleBlock r ++ tail) (js "Description") = Role.description r.
Proof.
  rewrite roleBlock_text. destruct Hr as (Ht & Hc & Hd & Hl & He & Hk & _).
  field_lines (js "Description")
              [ []; []; js "- **Title:** " ++ Role.title r;
                js "- **Company:** " ++ Role.company r;
                js "- **Dates:** " ++ Role.dates r;
                js "- **Location:** " ++ Role.location r ] (js "- ")
              (js " " ++ Role.description r) (@nil jsstring)
              (js "- **Key Contributions:**").
  now apply cleanValue_after_space.
Qed.

Lemma role_contributions :
  extractBulletList (roleBlock r ++ tail) (js "**Key Contributions:**")
  = Role.contributions r.
Proof.
  rewrite roleBlock_text. destruct Hr as (Ht & Hc & Hd & Hl & He & Hk & _).
  assert (Ft : ~ In LF tail /\ lineItem tail = None).
  { destruct Htail as [->| ->]; split;
      solve [vm_compute; intuition discriminate | vm_compute; reflexivity]. }
  destruct Ft as [Ft Fi].
  etransitivity.
  - refine (extractBulletList_lines (js "**Key Contributions:**")
              [ []; []; js "- **Title:** " ++ Role.title r;
                js "- **Company:** " ++ Role.company r;
                js "- **Dates:** " ++ Role.dates r;
                js "- **Location:** " ++ Role.location r;
                js "- **Description:** " ++ Role.description r ]
              (js "- ") []
              (map (fun c => js "  - " ++ c) (Role.contributions r)
               ++ [ []; tail ]) _ _ _ _ _).
    + vm_compute. intuition discriminate.
    + discriminate.
    + all_lines line_fact.
    + reflexivity.
    + apply Forall_cons; [intros []|]. apply Forall_app. split.
      * apply (Forall_map_from filled _ _ _ Hk). intros i Hi. line_fact.
      * repeat constructor; [intros []|exact Ft].
  - refine (bulletLoop_read [[]] (fun c => js "  - " ++ c)
              (Role.contributions r) [ []; tail ] _ _ _).
    + repeat constructor.
    + now apply contribution_items.
    + right. repeat constructor. exact Fi.
Qed.

Lemma roleOfBlock_block : roleOfBlock (roleBlock r ++ tail) = entryOf r.
Proof.
  unfold roleOfBlock, entryOf.
  rewrite role_title, role_company, role_dates, role_location,
    role_description, role_contributions.
  destruct Hr as (_ & _ & _ & _ & _ & Hk & _).
  now rewrite (filter_truthy _ Hk).
Qed.

End RolesRead.

Section ExperienceRead.

Lemma keepsRole_entry (r : Role.t) : plainRole r -> keepsRole (entryOf r) = true.
Proof.
  intros (_ & _ & _ & _ & _ & _ & [H|H]); unfold keepsRole, entryOf; cbn.
  - destruct (Role.title r); [contradiction|reflexivity].
  - destruct (Role.company r); [contradiction|]. apply orb_true_r.
Qed.

Lemma roleBlocks_read (i : nat) (roles : list Role.t) :
  Forall plainRole roles ->
  filter keepsRole (map roleOfBlock (map snd (roleBlocks i roles (js "---"))))
  = map entryOf roles.
Proof.
  intros F. revert i; induction F as [|r rest Hr F IH]; intros i;
    [reflexivity|].
  destruct rest as [|r' rest].
  - cbn [roleBlocks map snd filter].
    rewrite (roleOfBlock_block r Hr (js "---") (or_intror eq_refl)).
    now rewrite (keepsRole_entry r Hr).
  - change (roleBlocks i (r :: r' :: rest) (js "---"))
      with ((roleHeading i, roleBlock r)
            :: roleBlocks (S i) (r' :: rest) (js "---")).
    cbn [map snd filter].
    pose proof (roleOfBlock_block r Hr [] (or_introl eq_refl)) as E.
    rewrite app_nil_r in E. rewrite E, (keepsRole_entry r Hr).
    cbn [map] in IH. now rewrite IH.
Qed.

Variable data : WizardData.t.
Hypothesis Hdata : plainAnswers data.

Lemma experience_roles :
  extractRoles (joinLines (experienceLines data))
  = map entryOf (WizardData.experience data).
Proof.
  pose proof (plain_experience data Hdata) as F. unfold experienceLines.
  rewrite joinLines_last.
  destruct (WizardData.experience data) as [|r rest] eqn:E; [reflexivity|].
  rewrite experience_blocks by discriminate.
  rewrite extractRoles_layout.
  - now apply roleBlocks_read.
  - split; [reflexivity|]. split; [|right; now left].
    intros p c q Hp. destruct p; discriminate Hp.
  - apply roleBlocks_layout; [exact F| |reflexivity].
    apply fixed_noLT'. reflexivity.
Qed.

End ExperienceRead.

(** ** The template, read back *)

Section RoundTrip.

Lemma orNext_guards (items next : list jsstring) :
  guards items next -> orNext items next = items.
Proof.
  intros [H| ->]; destruct items; try reflexivity. contradiction.
Qed.

Lemma listsRead_guarded (data : WizardData.t) :
  guardedLists data -> profileOf (listsRead data) = profileOf data.
Proof.
  intros (G1 & G2 & G3 & G4). unfold profileOf, listsRead. cbv zeta.
  cbn [WizardData.name WizardData.preferredName WizardData.title
       WizardData.location WizardData.coreThesis WizardData.theMoment
       WizardData.whatIOffer WizardData.professionalNarrative
       WizardData.philosophy WizardData.implications
       WizardData.financialImpact WizardData.operationalScale
       WizardData.recognition WizardData.headlineStats WizardData.experience
       WizardData.targetRoles WizardData.reportingRelationship
       WizardData.organizationTypes WizardData.industry WizardData.thriveIn
       WizardData.notRightFor WizardData.methodologies WizardData.technical
       WizardData.domain].
  rewrite (orNext_guards _ _ G1), (orNext_guards _ _ G2), (orNext_guards _ _ G4).
  assert (E : orNext (WizardData.methodologies data) (WizardData.technical data)
              = WizardData.methodologies data).
  { destruct G3 as [H|H].
    - destruct (WizardData.methodologies data); [contradiction|reflexivity].
    - apply app_eq_nil in H as [-> _].
      destruct (WizardData.methodologies data); reflexivity. }
  now rewrite E.
Qed.

Variable toLowerCase : jsstring -> jsstring.
Hypothesis Hlower : lowersAscii toLowerCase.
Variable data : WizardData.t.
Hypothesis Hdata : plainAnswers data.

(** What the parser makes of the template of the wizard. *)
Lemma assemble_template :
  assemble toLowerCase (generateTemplate data) = profileOf (listsRead data).
Proof.
  unfold assemble. cbv zeta.
  rewrite (about_text data Hdata), (narrative_text data Hdata),
    (thesis_text data Hdata), (accomplishments_text data Hdata),
    (trackRecord_text data Hdata), (experience_text data Hdata),
    (seeking_text data Hdata), (culturalFit_text data Hdata),
    (skills_text data Hdata).
  rewrite (about_name data Hdata), (about_preferredName data Hdata),
    (about_title data Hdata), (about_location data Hdata),
    (about_coreThesis data Hdata), (about_theMoment data Hdata),
    (about_whatIOffer data Hdata).
  rewrite (narrative_professionalNarrative data Hdata),
    (narrative_philosophy data Hdata).
  rewrite (thesis_coreThesis data Hdata), (thesis_theMoment data Hdata),
    (thesis_implications data Hdata).
  rewrite (accomplishments_financialImpact toLowerCase Hlower data Hdata),
    (accomplishments_operationalScale data Hdata),
    (accomplishments_recognition data Hdata).
  rewrite (trackRecord_headlineStats toLowerCase Hlower data Hdata).
  rewrite (experience_roles data Hdata).
  rewrite (seeking_targetRoles data Hdata),
    (seeking_reportingRelationship data Hdata),
    (seeking_organizationTypes toLowerCase Hlower data Hdata),
    (seeking_industry data Hdata).
  rewrite (culturalFit_thriveIn data Hdata), (culturalFit_notRightFor data Hdata).
  rewrite (skills_methodologies data Hdata), (skills_technical data Hdata),
    (skills_domain data Hdata).
  reflexivity.
Qed.

End RoundTrip.

Section Sample.

Lemma sampleAnswers_plain : plainAnswers sampleAnswers.
Proof.
  constructor;
    repeat first [ apply Forall_nil | apply Forall_cons | split ];
    vm_compute; first [ reflexivity | discriminate | left; discriminate ].
Defined.

Lemma sampleAnswers_guarded : guardedLists sampleAnswers.
Proof.
  repeat split; first [ left; discriminate | right; reflexivity ].
Defined.

Lemma lowersAscii_ascii : lowersAscii toLowerCaseAscii.
Proof. intros s _. reflexivity. Defined.

Lemma sparseAnswers_plain : plainAnswers sparseAnswers.
Proof.
  constructor;
    repeat first [ apply Forall_nil | apply Forall_cons | split ];
    vm_compute; first [ reflexivity | discriminate | left; discriminate ].
Defined.

End Sample.

(** X12.  The template is read back: when the file reads as the template
    the wizard writes for plain answers whose lists guard the lists after
    them, the parser gives the profile that holds these answers. *)
Theorem template_read_back (toLowerCase : jsstring -> jsstring)
        (fs : FileSystem) (templatePath : path) (data : WizardData.t) :
  lowersAscii toLowerCase -> plainAnswers data -> guardedLists data ->
  readFileSync fs templatePath = Some (generateTemplate data) ->
  parseTemplate toLowerCase fs templatePath = Some (profileOf data).
Proof.
  intros Hl Hd Hg Hf. unfold parseTemplate. rewrite Hf. f_equal.
  rewrite (assemble_template toLowerCase Hl data Hd).
  now apply listsRead_guarded.
Qed.

Lemma template_read_back_witness :
  parseTemplate toLowerCaseAscii
                (fun _ => Some (File (generateTemplate sampleAnswers)))
                [js "resume.md"]
  = Some (profileOf sampleAnswers).
Proof.
  apply (template_read_back toLowerCaseAscii
           (fun _ => Some (File (generateTemplate sampleAnswers)))
           [js "resume.md"] sampleAnswers).
  - exact lowersAscii_ascii.
  - exact sampleAnswers_plain.
  - exact sampleAnswers_guarded.
  - reflexivity.
Defined.

(** X13.  A list left empty takes the items of the list that follows it in
    its section, although [extractBulletList] is meant to give the items
    under its own heading: in the template of plain answers, an empty
    Operational Scale is read as Recognition, an empty I Thrive In as Not
    Right For, an empty Technical as Domain Expertise, and an empty
    Methodologies as Technical is read. *)
Theorem empty_list_reads_next_list (toLowerCase : jsstring -> jsstring)
        (fs : FileSystem) (templatePath : path) (data : WizardData.t) :
  lowersAscii toLowerCase -> plainAnswers data ->
  readFileSync fs templatePath = Some (generateTemplate data) ->
  exists profile,
    parseTemplate toLowerCase fs templatePath = Some profile /\
    (WizardData.operationalScale data = [] ->
     AccomplishmentsData.operational_scale (ProfileData.accomplishments profile)
     = WizardData.recognition data) /\
    (WizardData.thriveIn data = [] ->
     CulturalFitData.thrive_in (ProfileData.cultural_fit profile)
     = WizardData.notRightFor data) /\
    (WizardData.technical data = [] ->
     Expertise.technical (SkillsData.expertise (ProfileData.skills profile))
     = WizardData.domain data) /\
    (WizardData.methodologies data = [] ->
     Expertise.methodologies (SkillsData.expertise (ProfileData.skills profile))
     = Expertise.technical (SkillsData.expertise (ProfileData.skills profile))).
Proof.
  intros Hl Hd Hf. exists (profileOf (listsRead data)). split.
  - unfold parseTemplate. rewrite Hf. f_equal.
    apply (assemble_template toLowerCase Hl data Hd).
  - cbn. repeat split; intros ->; reflexivity.
Qed.

Lemma empty_list_reads_next_list_witness :
  let fs := directoryWith (js "TEMPLATE.md") (generateTemplate sparseAnswers) in
  (WizardData.operationalScale sparseAnswers = [] /\
   WizardData.thriveIn sparseAnswers = [] /\
   WizardData.technical sparseAnswers = [] /\
   WizardData.methodologies sparseAnswers = []) /\
  exists profile,
    parseTemplate toLowerCaseAscii fs [js "TEMPLATE.md"] = Some profile /\
    AccomplishmentsData.operational_scale (ProfileData.accomplishments profile)
    = [js "Royal notice"] /\
    AccomplishmentsData.recognition_innovation (ProfileData.accomplishments profile)
    = [js "Royal notice"] /\
    CulturalFitData.thrive_in (ProfileData.cultural_fit profile) = [js "Noise"] /\
    Expertise.technical (SkillsData.expertise (ProfileData.skills profile))
    = [js "Number theory"] /\
    Expertise.methodologies (SkillsData.expertise (ProfileData.skills profile))
    = [js "Number theory"].
Proof.
  intros fs. split; [repeat split|].
  destruct (empty_list_reads_next_list toLowerCaseAscii fs [js "TEMPLATE.md"]
              sparseAnswers lowersAscii_ascii sparseAnswers_plain eq_refl)
    as (profile & Hp & H1 & H2 & H3 & H4).
  exists profile. split; [exact Hp|].
  rewrite (H4 eq_refl), (H3 eq_refl), (H2 eq_refl), (H1 eq_refl).
  repeat split.
  unfold parseTemplate in Hp. cbn [readFileSync fs directoryWith] in Hp.
  injection Hp as <-. vm_compute. reflexivity.
Defined.

(** ** The template of answers that may be missing *)

Section PartialTemplate.

Lemma ifItems_loop {A : Type} (x : option (list A)) (loop : list A -> jsstring)
      (examples : list A) :
  ifItems x loop (loop examples) = loop (orItems x examples).
Proof. destruct x as [[|i l]|]; reflexivity. Qed.

Lemma orItems_cons {A : Type} (x : option (list A)) (e : A) (examples : list A) :
  exists i l, orItems x (e :: examples) = i :: l.
Proof. destruct x as [[|i l]|]; cbn [orItems]; eauto. Qed.

Lemma recognition_shown (x : option (list jsstring)) (e : jsstring)
      (examples : list jsstring) :
  unlines (recognitionLines (orItems x (e :: examples)))
  = bullets (orItems x (e :: examples)).
Proof.
  destruct (orItems_cons x e examples) as (i & l & ->).
  unfold recognitionLines. apply unlines_bullets.
Qed.

Ltac flatten := repeat (progress (cbn [app]; rewrite <- ?app_assoc)).

Lemma generateTemplateFromPartial_lines (data : PartialData.t) :
  generateTemplateFromPartial data
  = unlines (partialHeaderLines
             ++ flat_map sectionLines (partialSections data)).
Proof.
  unfold partialSections, partialHeaderLines. cbv zeta.
  cbn [flat_map]. unfold sectionLines. cbn [fst snd].
  unfold aboutLines, narrativeLines, thesisLines, accomplishmentsLines,
    trackRecordLines, experienceLines, seekingLines, culturalFitLines,
    skillsLines, skillsEnd.
  repeat (rewrite ?unlines_app, ?unlines_cons).
  cbn [unlines]. flatten. rewrite app_nil_r, unlines_domain.
  rewrite !unlines_bullets, unlines_roleLines, unlines_offers, unlines_financial,
    unlines_stats, unlines_orgTypes.
  unfold shownAnswers, withThesis, shownCoreThesis, shownTheMoment.
  cbn [WizardData.name WizardData.preferredName WizardData.title
       WizardData.location WizardData.coreThesis WizardData.theMoment
       WizardData.whatIOffer WizardData.professionalNarrative
       WizardData.philosophy WizardData.implications
       WizardData.financialImpact WizardData.operationalScale
       WizardData.recognition WizardData.headlineStats WizardData.experience
       WizardData.targetRoles WizardData.reportingRelationship
       WizardData.organizationTypes WizardData.industry WizardData.thriveIn
       WizardData.notRightFor WizardData.methodologies WizardData.technical
       WizardData.domain].
  rewrite recognition_shown.
  rewrite <- !ifItems_loop.
  cbn [unlines]. flatten.
  unfold generateTemplateFromPartial. flatten. reflexivity.
Qed.

End PartialTemplate.

(** ** The template of missing answers, read back *)

Section PartialRead.

Lemma withThesis_plain (c m : jsstring) (data : WizardData.t) :
  plainAnswers data -> plainLine c -> plainLine m ->
  plainAnswers (withThesis c m data).
Proof. intros [] Hc Hm. constructor; assumption. Qed.

Lemma orText_cases (x : option jsstring) (d d' : jsstring) :
  orText x d = orText x d' \/ orText x d' = d'.
Proof.
  destruct x as [s|]; [|now right]. cbn [orText].
  destruct (truthy s); [now left|now right].
Qed.

Lemma orNext_shown (x : option (list jsstring)) (e : jsstring)
      (examples next : list jsstring) :
  orNext (orItems x (e :: examples)) next = orItems x (e :: examples).
Proof. destruct (orItems_cons x e examples) as (i & l & ->). reflexivity. Qed.

Variable toLowerCase : jsstring -> jsstring.
Hypothesis Hlower : lowersAscii toLowerCase.
Variable data : PartialData.t.
Hypothesis Hdata : plainAnswers (shownAnswers data).

Local Abbreviation a := (shownAnswers data).
Local Abbreviation t :=
  (withThesis (shownCoreThesis data) (shownTheMoment data) (shownAnswers data)).

Lemma shownThesis_plain : plainAnswers t.
Proof.
  apply withThesis_plain; [exact Hdata| |].
  - pose proof (plain_coreThesis _ Hdata) as H. unfold shownCoreThesis.
    destruct (orText_cases (PartialData.coreThesis data)
                (js "Your big idea about how your industry should work. " ++ PH)
                (js "Same as About section. " ++ PH)) as [E|E].
    + cbn [shownAnswers WizardData.coreThesis] in H. now rewrite <- E.
    + rewrite E. split; [split|]; vm_compute; reflexivity.
  - pose proof (plain_theMoment _ Hdata) as H. unfold shownTheMoment.
    destruct (orText_cases (PartialData.theMoment data)
                (js "The experience that crystallized your thesis. " ++ PH)
                (js "Same as About section. " ++ PH)) as [E|E].
    + cbn [shownAnswers WizardData.theMoment] in H. now rewrite <- E.
    + rewrite E. split; [split|]; vm_compute; reflexivity.
Qed.

Ltac is_section C :=
  refine (proj1 (Forall_forall _ _) C _ _); unfold templateSections;
  cbn [In]; solve [repeat first [ left; reflexivity | right ]].

Lemma partialSections_calm : Forall calmSection (partialSections data).
Proof.
  pose proof (templateSections_calm a Hdata) as Ca.
  pose proof (templateSections_calm t shownThesis_plain) as Ct.
  unfold partialSections. cbv zeta.
  repeat (apply Forall_cons; [first [is_section Ca | is_section Ct]|]).
  constructor.
Qed.

(** The text [extractSection] finds for the section at place [k]. *)
Lemma extractSection_partial (k : nat) (name : jsstring) (body : list jsstring) :
  nth_error (partialSections data) k = Some (name, body) ->
  forallb (fun s => negb (startsWith (js "## " ++ name) (js "## " ++ fst s)))
          (firstn k (partialSections data)) = true ->
  extractSection (generateTemplateFromPartial data) name = trim (joinLines body).
Proof.
  intros Hk Hb. rewrite generateTemplateFromPartial_lines.
  rewrite (nth_error_cut _ k _ Hk) at 1.
  pose proof partialSections_calm as C.
  rewrite (nth_error_cut _ k _ Hk) in C.
  apply Forall_app in C as [C1 C2]. inversion C2 as [|? ? C3 _]; subst.
  apply extractSection_document.
  - discriminate.
  - unfold partialHeaderLines. repeat constructor; vm_compute; intuition discriminate.
  - unfold partialHeaderLines. cbn [tl]. repeat constructor.
  - exact C1.
  - exact C3.
  - rewrite forallb_forall in Hb. apply Forall_forall. intros s Hs.
    apply negb_true_iff. now apply Hb.
Qed.

(** What the parser makes of the template of answers that may be missing. *)
Lemma assemble_partial :
  assemble toLowerCase (generateTemplateFromPartial data) = shownProfile data.
Proof.
  pose proof shownThesis_plain as Ht.
  unfold assemble. cbv zeta.
  rewrite (extractSection_partial 0 (js "About") _ eq_refl eq_refl),
    (extractSection_partial 1 (js "Narrative") _ eq_refl eq_refl),
    (extractSection_partial 2 (js "Thesis") _ eq_refl eq_refl),
    (extractSection_partial 3 (js "Accomplishments") _ eq_refl eq_refl),
    (extractSection_partial 4 (js "Track Record") _ eq_refl eq_refl),
    (extractSection_partial 5 (js "Experience") _ eq_refl eq_refl),
    (extractSection_partial 6 (js "Seeking") _ eq_refl eq_refl),
    (extractSection_partial 7 (js "Cultural Fit") _ eq_refl eq_refl),
    (extractSection_partial 8 (js "Skills") _ eq_refl eq_refl).
  rewrite (about_body a), (narrative_body a), (thesis_body t),
    (accomplishments_body a), (trackRecord_body a), (experience_body a),
    (seeking_body a), (culturalFit_body a), (skills_body a Hdata).
  rewrite (about_name a Hdata), (about_preferredName a Hdata),
    (about_title a Hdata), (about_location a Hdata),
    (about_coreThesis a Hdata), (about_theMoment a Hdata),
    (about_whatIOffer a Hdata).
  rewrite (narrative_professionalNarrative a Hdata),
    (narrative_philosophy a Hdata).
  rewrite (thesis_coreThesis t Ht), (thesis_theMoment t Ht),
    (thesis_implications t Ht).
  rewrite (accomplishments_financialImpact toLowerCase Hlower a Hdata),
    (accomplishments_operationalScale a Hdata),
    (accomplishments_recognition a Hdata).
  rewrite (trackRecord_headlineStats toLowerCase Hlower a Hdata).
  rewrite (experience_roles a Hdata).
  rewrite (seeking_targetRoles a Hdata),
    (seeking_reportingRelationship a Hdata),
    (seeking_organizationTypes toLowerCase Hlower a Hdata),
    (seeking_industry a Hdata).
  rewrite (culturalFit_thriveIn a Hdata), (culturalFit_notRightFor a Hdata).
  rewrite (skills_methodologies a Hdata), (skills_technical a Hdata),
    (skills_domain a Hdata).
  unfold shownProfile, profileOf. cbv zeta.
  cbn [ProfileData.about ProfileData.narrative ProfileData.thesis
       ProfileData.accomplishments ProfileData.track_record
       ProfileData.experience ProfileData.seeking ProfileData.cultural_fit
       ProfileData.skills ThesisData.implications].
  cbn [shownAnswers withThesis WizardData.operationalScale
       WizardData.recognition WizardData.thriveIn WizardData.notRightFor
       WizardData.methodologies WizardData.technical WizardData.domain
       WizardData.coreThesis WizardData.theMoment WizardData.implications].
  rewrite !orNext_shown. reflexivity.
Qed.

End PartialRead.

(** ** What is published of a template left unfinished *)

Section Shown.

Lemma orText_filled (x : option jsstring) (d : jsstring) :
  d <> [] -> plain (orText x d) -> ~ blankString (orText x d).
Proof.
  intros Hd [_ Ht] Hb. unfold blankString in Hb. rewrite Ht in Hb.
  destruct x as [[|c s]|]; cbn [orText truthy] in Hb;
    first [ contradiction | discriminate Hb ].
Qed.

Lemma orItems_map {A B : Type} (f : A -> B) (x : option (list A)) (e : A)
      (examples : list A) :
  map f (orItems x (e :: examples)) <> [].
Proof. destruct (orItems_cons x e examples) as (i & l & ->). discriminate. Qed.

Lemma orItems_filled {A : Type} (x : option (list A)) (e : A)
      (examples : list A) :
  orItems x (e :: examples) <> [].
Proof. destruct (orItems_cons x e examples) as (i & l & ->). discriminate. Qed.

Variable data : PartialData.t.
Hypothesis Hdata : plainAnswers (shownAnswers data).

(** No record of the profile the template shows is empty. *)
Lemma shown_not_blank (e : jsstring) (B : Prop) :
  In (e, B) (blankness (shownProfile data)) -> ~ B.
Proof.
  destruct Hdata. unfold blankness. intros H.
  repeat (destruct H as [H|H]; [injection H as <- <-|]); [..|contradiction].
  - intros (Hb & _). revert Hb.
    apply orText_filled; [discriminate|assumption].
  - intros (Hb & _). revert Hb.
    apply orText_filled; [discriminate|now apply plainLine_plain].
  - intros (_ & _ & Hb). revert Hb. apply orItems_filled.
  - intros (Hb & _). revert Hb. apply orItems_map.
  - intros (Hb & _). revert Hb. apply orItems_map.
  - intros Hb. revert Hb. apply orItems_map.
  - intros (Hb & _). revert Hb. apply orItems_filled.
  - intros (Hb & _). revert Hb. apply orItems_filled.
  - intros (Hb & _). revert Hb. apply orItems_map.
Qed.

Lemma shown_files (today : jsstring) (fs : FileSystem) (dir : path)
      (version : jsstring) :
  filesWritten (writeEndpointFiles today fs (shownProfile data) dir version)
  = map (endpointFile dir) (keys (objectOfProfile (shownProfile data)))
    ++ [dir ++ [js "root.json"]].
Proof.
  rewrite writeEndpointFiles_files. do 2 f_equal.
  apply forallb_filter_id. apply forallb_forall. intros e He.
  apply negb_true_iff.
  assert (Hin : exists B, In (e, B) (blankness (shownProfile data))).
  { rewrite keys_of_profile in He. unfold blankness. cbn [In] in He |- *.
    repeat (destruct He as [<-|He]; [eexists; auto 12|]). contradiction. }
  destruct Hin as (B & Hin).
  destruct (blankness_sound Hin) as (_ & _ & Hiff).
  destruct (isEmptyData _) eqn:E; [|reflexivity].
  exfalso. apply (shown_not_blank e B Hin). now apply Hiff.
Qed.

End Shown.

Section SamplePartial.

Lemma samplePartial_plain : plainAnswers (shownAnswers samplePartial).
Proof.
  constructor;
    repeat first [ apply Forall_nil | apply Forall_cons | split ];
    vm_compute; first [ reflexivity | discriminate | left; discriminate ].
Defined.

End SamplePartial.

(** X15.  Texts left to replace are read as answers.  When the file reads
    as the template [generateTemplateFromPartial] writes, and the answers
    given are plain, the parser returns what the template shows: each answer
    given, and for each answer that is missing or empty the text or the
    examples written in its place, marker included.  The Thesis section
    shows its own text for a missing core thesis or moment. *)
Theorem partial_template_read_back (toLowerCase : jsstring -> jsstring)
        (fs : FileSystem) (templatePath : path) (data : PartialData.t) :
  lowersAscii toLowerCase -> plainAnswers (shownAnswers data) ->
  readFileSync fs templatePath = Some (generateTemplateFromPartial data) ->
  parseTemplate toLowerCase fs templatePath = Some (shownProfile data).
Proof.
  intros Hl Hd Hf. unfold parseTemplate. rewrite Hf. f_equal.
  now apply assemble_partial.
Qed.

Lemma partial_template_read_back_witness :
  parseTemplate toLowerCaseAscii
                (fun _ => Some (File (generateTemplateFromPartial samplePartial)))
                [js "TEMPLATE.md"]
  = Some (shownProfile samplePartial).
Proof.
  apply (partial_template_read_back toLowerCaseAscii
           (fun _ => Some (File (generateTemplateFromPartial samplePartial)))
           [js "TEMPLATE.md"] samplePartial).
  - exact lowersAscii_ascii.
  - exact samplePartial_plain.
  - reflexivity.
Defined.

(** X16.  A template that was saved on leaving the wizard is published in
    full: when what it shows is plain, however few answers were given, no
    record read from it is empty; so where [data] can take the files, the
    run of [main] ends with status 0 and has written the file of each of
    the nine endpoints and [root.json], ten files. *)
Theorem examples_are_published (toLowerCase : jsstring -> jsstring)
        (today : jsstring) (stringify : value -> jsstring) (fs : FileSystem)
        (argv2 : option jsstring) (data : PartialData.t) :
  lowersAscii toLowerCase -> plainAnswers (shownAnswers data) ->
  fs (mainTemplatePath argv2) = Some (File (generateTemplateFromPartial data)) ->
  takesFiles fs [js "data"] ->
  exists profile,
    parseTemplate toLowerCase fs (mainTemplatePath argv2) = Some profile /\
    (forall e,
        In e (keys (objectOfProfile profile)) ->
        isEmptyData (prop (objectOfProfile profile) e) = false) /\
    let r := main toLowerCase today stringify fs argv2 in
    exitCode r = 0 /\
    filesWritten (trace r)
    = map (endpointFile [js "data"])
          [js "about"; js "narrative"; js "thesis"; js "accomplishments";
           js "track-record"; js "experience"; js "seeking"; js "cultural-fit";
           js "skills"]
      ++ [[js "data"; js "root.json"]].
Proof.
  intros Hl Hd Hf Ht.
  destruct (existsSync_file fs _ _ Hf) as [He Hr].
  assert (Ha : assemble toLowerCase (generateTemplateFromPartial data)
               = shownProfile data) by now apply assemble_partial.
  exists (shownProfile data). split; [|split].
  - unfold parseTemplate. rewrite Hr. now f_equal.
  - intros e He'.
    assert (Hin : exists B, In (e, B) (blankness (shownProfile data))).
    { rewrite keys_of_profile in He'. unfold blankness. cbn [In] in He' |- *.
      repeat (destruct He' as [<-|He']; [eexists; auto 12|]). contradiction. }
    destruct Hin as (B & Hin).
    destruct (blankness_sound Hin) as (_ & _ & Hiff).
    destruct (isEmptyData _) eqn:E; [|reflexivity].
    exfalso. apply (shown_not_blank data Hd e B Hin). now apply Hiff.
  - intros r. unfold r, main, parseTemplate. rewrite He, Hr, Ha. cbn [negb].
    destruct (perform_takes today stringify fs (shownProfile data) [js "data"]
                            defaultVersion Ht) as (fs' & E).
    rewrite E. cbn [trace exitCode]. split; [reflexivity|].
    rewrite !filesWritten_app. cbn [filesWritten flat_map app].
    rewrite app_nil_r. apply (shown_files data Hd).
Qed.

Lemma examples_are_published_witness :
  let fs := directoryWith (js "TEMPLATE.md") (generateTemplateFromPartial samplePartial) in
  takesFiles fs [js "data"] /\
  exists profile,
    parseTemplate toLowerCaseAscii fs (mainTemplatePath None) = Some profile /\
    (forall e,
        In e (keys (objectOfProfile profile)) ->
        isEmptyData (prop (objectOfProfile profile) e) = false) /\
    let r := main toLowerCaseAscii (js "2026-01-01") (fun _ => js "{}") fs None in
    exitCode r = 0 /\
    filesWritten (trace r)
    = map (endpointFile [js "data"])
          [js "about"; js "narrative"; js "thesis"; js "accomplishments";
           js "track-record"; js "experience"; js "seeking"; js "cultural-fit";
           js "skills"]
      ++ [[js "data"; js "root.json"]].
Proof.
  intros fs.
  assert (Ht : takesFiles fs [js "data"]).
  { split; [right; split; reflexivity | intros name; discriminate]. }
  split; [exact Ht|].
  apply (examples_are_published toLowerCaseAscii (js "2026-01-01")
           (fun _ => js "{}") fs None samplePartial).
  - exact lowersAscii_ascii.
  - exact samplePartial_plain.
  - reflexivity.
  - exact Ht.
Defined.

(** ** The token that setup saves *)

Section SavedToken.

Lemma noLT_noLF (s : jsstring) :
  Forall (fun c => isLineTerminator c = false) s -> ~ In LF s.
Proof.
  intros F Hin. rewrite Forall_forall in F. specialize (F _ Hin). discriminate F.
Qed.

Lemma tokenFile_lines (token : jsstring) :
  Forall (fun c => isLineTerminator c = false) token ->
  split LF (tokenFile token) = [js "CLOUDFLARE_API_TOKEN=" ++ token; []].
Proof.
  intros F. unfold tokenFile.
  change (js "\n") with [LF]. rewrite app_assoc.
  rewrite split_at; [reflexivity|].
  intros Hin. apply in_app_or in Hin as [Hin|Hin].
  - revert Hin. vm_compute. intuition discriminate.
  - now apply (noLT_noLF token F).
Qed.

End SavedToken.

(** X14.  The token [setup] saves is loaded at the next start: when the
    answer typed at the prompt, once trimmed, is not empty and holds no
    line terminator, and the variable [CLOUDFLARE_API_TOKEN] is unset or
    empty, loading the [.env] text that [setup] wrote sets the variable to
    the trimmed answer. *)
Theorem saved_token_is_loaded (answer : jsstring) (env : object jsstring) :
  let token := trim answer in
  token <> [] ->
  Forall (fun c => isLineTerminator c = false) token ->
  (forall x, objGet (js "CLOUDFLARE_API_TOKEN") env = Some x -> x = []) ->
  objGet (js "CLOUDFLARE_API_TOKEN") (loadEnvContent (tokenFile token) env)
  = Some token.
Proof.
  intros token Hne F Henv. unfold loadEnvContent.
  rewrite (tokenFile_lines token F). cbn [fold_left].
  assert (L : envLine (js "CLOUDFLARE_API_TOKEN=" ++ token)
              = Some (js "CLOUDFLARE_API_TOKEN", token)).
  { apply envLine_Some. split; [reflexivity|]. split; [discriminate|].
    split; [|split; [exact Hne|exact F]].
    apply Forall_forall. intros c Hc. revert c Hc. apply Forall_forall.
    repeat constructor. }
  unfold envStep at 2. rewrite L.
  assert (T : match objGet (js "CLOUDFLARE_API_TOKEN") env with
              | Some x => truthy x
              | None => false
              end = false).
  { destruct (objGet (js "CLOUDFLARE_API_TOKEN") env) as [x|] eqn:E;
      [|reflexivity].
    now rewrite (Henv x eq_refl). }
  rewrite T. unfold envStep. change (envLine []) with (@None (jsstring * jsstring)).
  cbv iota. rewrite objGet_objDefine, jseqb_refl. unfold token.
  now rewrite trim_idem.
Qed.

Lemma saved_token_is_loaded_witness :
  objGet (js "CLOUDFLARE_API_TOKEN")
         (loadEnvContent (tokenFile (trim (js " abc123 ")))
                         [(js "HOME", js "/root")])
  = Some (trim (js " abc123 ")).
Proof.
  apply (saved_token_is_loaded (js " abc123 ") [(js "HOME", js "/root")]).
  - vm_compute. discriminate.
  - vm_compute. repeat constructor.
  - vm_compute. discriminate.
Defined.

(** ** The name of the worker in wrangler.toml *)

Section WorkerNames.

Local Abbreviation notQuote := (fun c : jschar => negb (c =? QUOTE)%N).
Local Abbreviation inLine := (fun c : jschar => negb (isLineTerminator c)).

Lemma nameAssign_at (ws1 ws2 v : jsstring) :
  Forall (fun c => isWhiteSpace c = true) ws1 ->
  Forall (fun c => isWhiteSpace c = true) ws2 ->
  nameAssign (js "name" ++ ws1 ++ js "=" ++ ws2 ++ QUOTE :: v) = Some v.
Proof.
  intros H1 H2. unfold nameAssign. rewrite startsWith_app.
  change (skipn 4 (js "name" ++ ws1 ++ js "=" ++ ws2 ++ QUOTE :: v))
    with (ws1 ++ 61%N :: ws2 ++ QUOTE :: v).
  rewrite (dropWhile_app_all _ _ _ H1). cbn [dropWhile].
  change (isWhiteSpace 61%N) with false. cbv iota. rewrite N.eqb_refl.
  rewrite (dropWhile_app_all _ _ _ H2). cbn [dropWhile].
  change (isWhiteSpace QUOTE) with false. cbv iota. now rewrite N.eqb_refl.
Qed.

Lemma nameAssign_none (s : jsstring) :
  startsWith (js "name") s = false -> nameAssign s = None.
Proof. intros H. unfold nameAssign. now rewrite H. Qed.

Lemma notQuote_all (s : jsstring) :
  ~ In QUOTE s -> Forall (fun c => notQuote c = true) s.
Proof.
  intros H. apply Forall_forall. intros c Hc. apply negb_true_iff.
  apply N.eqb_neq. intros ->. now apply H.
Qed.

Lemma nameRe_at (ws1 ws2 old post : jsstring) :
  Forall (fun c => isWhiteSpace c = true) ws1 ->
  Forall (fun c => isWhiteSpace c = true) ws2 ->
  ~ In QUOTE old ->
  nameRe (js "name" ++ ws1 ++ js "=" ++ ws2 ++ QUOTE :: old ++ QUOTE :: post)
  = Some post.
Proof.
  intros H1 H2 Ho. unfold nameRe. rewrite (nameAssign_at _ _ _ H1 H2).
  rewrite (dropWhile_app_all _ _ _ (notQuote_all old Ho)). cbn [dropWhile].
  now rewrite N.eqb_refl.
Qed.

Lemma expand_plain (matched before after r : jsstring) :
  ~ In DOLLAR r -> expand matched before after r = r.
Proof.
  induction r as [|c r IH]; intros H; [reflexivity|]. cbn [expand].
  destruct (c =? DOLLAR)%N eqn:E.
  - apply N.eqb_eq in E. subst c. exfalso. apply H. now left.
  - rewrite IH; [reflexivity|]. intros Hin. apply H. now right.
Qed.

Lemma replaceNameFrom_eq (replacement before s : jsstring) :
  replaceNameFrom replacement before s
  = match nameRe s with
    | Some after =>
        before
        ++ expand (firstn (length s - length after) s) before after replacement
        ++ after
    | None =>
        match s with
        | [] => before
        | c :: t => replaceNameFrom replacement (before ++ [c]) t
        end
    end.
Proof. destruct s; reflexivity. Qed.

Lemma firstName_eq (bol : bool) (s : jsstring) :
  firstName bol s
  = match wranglerNameRe bol s with
    | Some capture => Some capture
    | None =>
        match s with
        | [] => None
        | c :: t => firstName (isLineTerminator c) t
        end
    end.
Proof. destruct s; reflexivity. Qed.

(** The text that is passed over before the first [name]. *)
Lemma replaceNameFrom_skip (replacement before pre rest : jsstring) :
  (forall j, j < length pre ->
             startsWith (js "name") (skipn j (pre ++ rest)) = false) ->
  replaceNameFrom replacement before (pre ++ rest)
  = replaceNameFrom replacement (before ++ pre) rest.
Proof.
  revert before; induction pre as [|c pre IH]; intros before H.
  - now rewrite app_nil_r.
  - pose proof (H 0 (Nat.lt_0_succ _)) as H0. cbn [skipn] in H0.
    rewrite replaceNameFrom_eq. unfold nameRe.
    rewrite (nameAssign_none _ H0). cbn [app].
    rewrite IH.
    + now rewrite <- app_assoc.
    + intros j Hj. apply (H (S j)). cbn [length]. lia.
Qed.

Lemma firstName_skip (bol : bool) (pre rest : jsstring) :
  (forall j, j < length pre ->
             startsWith (js "name") (skipn j (pre ++ rest)) = false) ->
  firstName bol (pre ++ rest) = firstName (bolAfter bol pre) rest.
Proof.
  revert bol; induction pre as [|c pre IH]; intros bol H; [reflexivity|].
  pose proof (H 0 (Nat.lt_0_succ _)) as H0. cbn [skipn] in H0.
  rewrite firstName_eq. unfold wranglerNameRe.
  rewrite (nameAssign_none _ H0).
  replace (if bol then None else None) with (@None jsstring)
    by now destruct bol.
  cbn [app]. rewrite IH; [reflexivity|].
  intros j Hj. apply (H (S j)). cbn [length]. lia.
Qed.

Lemma startsWith_short (p s x : jsstring) :
  length p <= length s -> startsWith p (s ++ x) = startsWith p s.
Proof.
  revert s; induction p as [|a p IH]; intros s H; [reflexivity|].
  destruct s as [|b s]; [cbn [length] in H; lia|].
  cbn [app startsWith]. rewrite IH; [reflexivity|]. cbn [length] in H. lia.
Qed.

(** Whether a text starts at a place before [m] does not depend on what
    follows [m]. *)
Lemma startsWith_window (m pre x y : jsstring) (j : nat) :
  j <= length pre ->
  startsWith m (skipn j (pre ++ m ++ x)) = startsWith m (skipn j (pre ++ m ++ y)).
Proof.
  intros Hj.
  assert (E : forall z, skipn j (pre ++ m ++ z) = (skipn j pre ++ m) ++ z).
  { intros z. rewrite skipn_app. replace (j - length pre) with 0 by lia.
    cbn [skipn]. now rewrite app_assoc. }
  rewrite !E.
  rewrite (startsWith_short m (skipn j pre ++ m) x)
    by (rewrite length_app; lia).
  rewrite (startsWith_short m (skipn j pre ++ m) y)
    by (rewrite length_app; lia).
  reflexivity.
Qed.

Lemma takeWhile_app_all (p : jschar -> bool) (k v : jsstring) :
  Forall (fun c => p c = true) k -> takeWhile p (k ++ v) = k ++ takeWhile p v.
Proof.
  induction 1 as [|c k Hc _ IH]; [reflexivity|].
  cbn [app takeWhile]. now rewrite Hc, IH.
Qed.

Lemma inLine_all (w : jsstring) :
  Forall (fun c => isLineTerminator c = false) w ->
  Forall (fun c => inLine c = true) w.
Proof.
  intros F. eapply Forall_impl; [|exact F]. intros c Hc. cbv beta.
  now rewrite Hc.
Qed.

(** The capture when the value [w] is followed by [post]. *)
Lemma quoted_value (w post : jsstring) :
  w <> [] -> Forall (fun c => isLineTerminator c = false) w ->
  exists tail,
    quoted (w ++ QUOTE :: post) = Some (w ++ tail) /\
    (~ In QUOTE (takeWhile inLine post) -> tail = []) /\
    (In QUOTE (takeWhile inLine post) -> exists t, tail = QUOTE :: t).
Proof.
  intros Hw Fw. unfold quoted. cbv zeta.
  rewrite (takeWhile_app_all _ _ _ (inLine_all w Fw)). cbn [takeWhile].
  change (negb (isLineTerminator QUOTE)) with true. cbv iota.
  set (line := takeWhile inLine post).
  rewrite rev_app_distr. cbn [rev]. rewrite <- app_assoc. cbn [app].
  rewrite dropWhile_stop by (cbv beta; now rewrite N.eqb_refl).
  destruct (dropWhile notQuote (rev line)) as [|c0 r0] eqn:E.
  - exists []. cbn [app]. rewrite rev_involutive, app_nil_r. split; [|split].
    + destruct w; [contradiction|reflexivity].
    + reflexivity.
    + intros Hin. exfalso. apply in_rev in Hin.
      assert (F : Forall (fun c => notQuote c = true) (rev line)).
      { clear -E. induction (rev line) as [|c l IH]; [constructor|].
        cbn [dropWhile] in E. destruct (notQuote c) eqn:Ec; [|discriminate E].
        constructor; [exact Ec|now apply IH]. }
      rewrite Forall_forall in F. specialize (F _ Hin). cbv beta in F.
      now rewrite N.eqb_refl in F.
  - exists (QUOTE :: rev r0). cbn [app]. split; [|split].
    + rewrite rev_app_distr. cbn [rev]. rewrite rev_involutive, <- app_assoc.
      cbn [app]. destruct w; [contradiction|reflexivity].
    + intros Hn. exfalso.
      assert (N : dropWhile notQuote (rev line) = []).
      { apply dropWhile_all. apply notQuote_all. intros Hin. apply Hn.
        now apply in_rev. }
      rewrite N in E. discriminate E.
    + intros _. now eexists.
Qed.

End WorkerNames.

(** ** The name that setup writes and deploy reads *)

Section Synced.

Variables pre ws1 ws2 old post workerName : jsstring.

Local Abbreviation wranglerContent :=
  (pre ++ js "name" ++ ws1 ++ js "=" ++ ws2 ++ QUOTE :: old ++ QUOTE :: post).

Hypothesis Hstart : pre = [] \/ endsLine pre.
Hypothesis Hfirst :
  forall j, j < length pre ->
            startsWith (js "name") (skipn j wranglerContent) = false.
Hypothesis Hws1 : Forall (fun c => isWhiteSpace c = true) ws1.
Hypothesis Hws2 : Forall (fun c => isWhiteSpace c = true) ws2.
Hypothesis Hold : ~ In QUOTE old.
Hypothesis Hname : workerName <> [].
Hypothesis Hquote : ~ In QUOTE workerName.
Hypothesis Hdollar : ~ In DOLLAR workerName.
Hypothesis Hline : Forall (fun c => isLineTerminator c = false) workerName.

Lemma updateWrangler_at :
  updateWrangler workerName wranglerContent
  = pre ++ js "name" ++ js " = " ++ QUOTE :: workerName ++ QUOTE :: post.
Proof.
  unfold updateWrangler.
  rewrite (replaceNameFrom_skip _ [] pre _ Hfirst). cbn [app].
  rewrite replaceNameFrom_eq, (nameRe_at _ _ _ _ Hws1 Hws2 Hold).
  rewrite expand_plain.
  - repeat (progress (cbn [app]; rewrite <- ?app_assoc)). reflexivity.
  - intros Hin. apply in_app_or in Hin as [Hin|Hin];
      [revert Hin; vm_compute; intuition discriminate|].
    destruct Hin as [Hin|Hin]; [discriminate Hin|].
    apply in_app_or in Hin as [Hin|Hin]; [now apply Hdollar|].
    revert Hin. vm_compute. intuition discriminate.
Qed.

Lemma wranglerName_updated :
  exists tail,
    wranglerName (updateWrangler workerName wranglerContent)
    = workerName ++ tail /\
    (~ In QUOTE (takeWhile (fun c => negb (isLineTerminator c)) post) ->
     tail = []) /\
    (In QUOTE (takeWhile (fun c => negb (isLineTerminator c)) post) ->
     exists t, tail = QUOTE :: t).
Proof.
  destruct (quoted_value workerName post Hname Hline) as (tail & Q & T1 & T2).
  exists tail. split; [|split; assumption].
  rewrite updateWrangler_at. unfold wranglerName.
  rewrite firstName_skip.
  - assert (B : bolAfter true pre = true).
    { destruct Hstart as [->|He]; [reflexivity|now apply endsLine_bol]. }
    rewrite B, firstName_eq. unfold wranglerNameRe.
    change (js "name" ++ js " = " ++ QUOTE :: workerName ++ QUOTE :: post)
      with (js "name" ++ js " " ++ js "=" ++ js " "
            ++ QUOTE :: workerName ++ QUOTE :: post).
    rewrite (nameAssign_at (js " ") (js " ") (workerName ++ QUOTE :: post))
      by (repeat constructor).
    now rewrite Q.
  - intros j Hj.
    rewrite (startsWith_window (js "name") pre _
               (ws1 ++ js "=" ++ ws2 ++ QUOTE :: old ++ QUOTE :: post) j)
      by lia.
    now apply Hfirst.
Qed.

(** What the checks of [deploy] say after the update. *)
Lemma checkWorkerName_updated :
  workerName <> js "living-resume-your-name" ->
  (~ In QUOTE (takeWhile (fun c => negb (isLineTerminator c)) post) ->
   checkWorkerName workerName
                   (Some (updateWrangler workerName wranglerContent)) = None) /\
  (In QUOTE (takeWhile (fun c => negb (isLineTerminator c)) post) ->
   checkWorkerName workerName
                   (Some (updateWrangler workerName wranglerContent))
   = Some WorkerNameMismatch).
Proof.
  intros Hp. destruct wranglerName_updated as (tail & E & T1 & T2).
  assert (C : checkWorkerName workerName
                (Some (updateWrangler workerName wranglerContent))
              = if jseqb (workerName ++ tail) (js "living-resume-your-name")
                then Some PlaceholderInWrangler
                else if negb (jseqb (workerName ++ tail) workerName)
                     then Some WorkerNameMismatch else None).
  { unfold checkWorkerName. rewrite (jseqb_false _ _ Hp).
    destruct workerName as [|c w]; [contradiction|]. cbn [truthy negb orb].
    cbv zeta. now rewrite E. }
  rewrite C. split.
  - intros Hno. rewrite (T1 Hno), app_nil_r.
    now rewrite (jseqb_false _ _ Hp), jseqb_refl.
  - intros Hin. destruct (T2 Hin) as [t ->].
    rewrite jseqb_false.
    + rewrite jseqb_false; [reflexivity|].
      intros Heq. rewrite <- (app_nil_r workerName) in Heq at 2.
      apply app_inv_head in Heq. discriminate Heq.
    + intros Heq.
      assert (Hin' : In QUOTE (js "living-resume-your-name")).
      { rewrite <- Heq. apply in_or_app. right. now left. }
      revert Hin'. vm_compute. intuition discriminate.
Qed.

End Synced.

(** X17.  [setup] brings the name in [wrangler.toml] in line with the
    worker name, as far as [deploy] reads it.  When the first [name] of the
    file starts the line that sets the name, and the worker name is a line
    of text without quotation mark or dollar sign, the update replaces the
    old value with the worker name.  [deploy] then accepts the name when no
    quotation mark follows the value on its line, and refuses it as a
    mismatch when one does, as in a comment that quotes something. *)
Theorem setup_syncs_worker_name (pre ws1 ws2 old post workerName : jsstring) :
  let wranglerContent :=
    pre ++ js "name" ++ ws1 ++ js "=" ++ ws2 ++ QUOTE :: old ++ QUOTE :: post in
  let updated := updateWrangler workerName wranglerContent in
  let restOfLine := takeWhile (fun c => negb (isLineTerminator c)) post in
  (pre = [] \/ endsLine pre) ->
  (forall j, j < length pre ->
             startsWith (js "name") (skipn j wranglerContent) = false) ->
  Forall (fun c => isWhiteSpace c = true) ws1 ->
  Forall (fun c => isWhiteSpace c = true) ws2 ->
  ~ In QUOTE old ->
  workerName <> [] -> workerName <> js "living-resume-your-name" ->
  ~ In QUOTE workerName -> ~ In DOLLAR workerName ->
  Forall (fun c => isLineTerminator c = false) workerName ->
  updated = pre ++ js "name = " ++ QUOTE :: workerName ++ QUOTE :: post /\
  (~ In QUOTE restOfLine -> checkWorkerName workerName (Some updated) = None) /\
  (In QUOTE restOfLine ->
   checkWorkerName workerName (Some updated) = Some WorkerNameMismatch).
Proof.
  intros wranglerContent updated restOfLine Hs Hf H1 H2 Ho Hn Hp Hq Hd Hl.
  split.
  - unfold updated, wranglerContent.
    rewrite updateWrangler_at by assumption. reflexivity.
  - pose proof (checkWorkerName_updated pre ws1 ws2 old post workerName) as W.
    repeat (specialize (W ltac:(assumption))).
    exact W.
Qed.

Lemma setup_syncs_worker_name_witness :
  let pre := js "# worker\n" in
  let post := js "\nmain = " ++ [QUOTE] ++ js "src/worker.ts" ++ [QUOTE] in
  let wranglerContent :=
    pre ++ js "name" ++ js " " ++ js "=" ++ js " "
    ++ QUOTE :: js "living-resume-your-name" ++ QUOTE :: post in
  let updated := updateWrangler (js "living-resume-ada") wranglerContent in
  let restOfLine := takeWhile (fun c => negb (isLineTerminator c)) post in
  updated = pre ++ js "name = " ++ QUOTE :: js "living-resume-ada" ++ QUOTE :: post /\
  (~ In QUOTE restOfLine ->
   checkWorkerName (js "living-resume-ada") (Some updated) = None) /\
  (In QUOTE restOfLine ->
   checkWorkerName (js "living-resume-ada") (Some updated)
   = Some WorkerNameMismatch).
Proof.
  apply (setup_syncs_worker_name
           (js "# worker\n") (js " ") (js " ") (js "living-resume-your-name")
           (js "\nmain = " ++ [QUOTE] ++ js "src/worker.ts" ++ [QUOTE])
           (js "living-resume-ada")).
  - right. exists (js "# worker"), LF. split; reflexivity.
  - intros j Hj. vm_compute in Hj.
    do 9 (destruct j as [|j]; [vm_compute; reflexivity|]). lia.
  - repeat constructor.
  - repeat constructor.
  - vm_compute. intuition discriminate.
  - discriminate.
  - discriminate.
  - vm_compute. intuition discriminate.
  - vm_compute. intuition discriminate.
  - vm_compute. repeat constructor.
Defined.

(** ** The name that setup suggests *)

Section SuggestedNames.

Variable toLowerCase : jsstring -> jsstring.

Lemma slug_chars (name : jsstring) :
  Forall (fun c => isSlugChar c = true \/ c = HYPHEN) (slug toLowerCase name).
Proof.
  unfold slug.
  destruct (replaceRuns_shape (fun c => negb (isSlugChar c)) HYPHEN false
                              (toLowerCase name) eq_refl)
    as (F & _ & D & _).
  cbv zeta in F, D.
  assert (F' : Forall (fun c => isSlugChar c = true \/ c = HYPHEN)
                      (replaceRuns (fun c => negb (isSlugChar c)) HYPHEN false
                                   (toLowerCase name))).
  { eapply Forall_impl; [|exact F]. cbv beta. intros c [H|H]; [left|now right].
    now apply negb_false_iff in H. }
  now destruct (stripHyphens_shape _ _ F' D) as (G & _).
Qed.

Lemma slugChar_plain (c : jschar) :
  isSlugChar c = true \/ c = HYPHEN ->
  c <> QUOTE /\ c <> DOLLAR /\ isLineTerminator c = false.
Proof.
  intros H.
  assert (R : (45 <= c <= 122)%N).
  { destruct H as [H| ->]; [|unfold HYPHEN; lia].
    unfold isSlugChar in H. apply orb_true_iff in H as [H|H];
      apply andb_true_iff in H as [H1 H2]; apply N.leb_le in H1, H2; lia. }
  unfold QUOTE, DOLLAR, isLineTerminator. repeat split; try lia.
  repeat (apply orb_false_iff; split); apply N.eqb_neq; lia.
Qed.

Lemma suggested_cases (profileData : option value) :
  suggestedWorkerName toLowerCase profileData = js "living-resume-your-name"
  \/ exists name,
       suggestedWorkerName toLowerCase profileData
       = js "living-resume-" ++ slug toLowerCase name.
Proof.
  unfold suggestedWorkerName. destruct profileData as [data|]; [|now left].
  destruct (member data (js "name")); try now left.
  destruct (truthy s); [right; now eexists|now left].
Qed.

(** The worker name [setup] suggests can stand in [wrangler.toml]. *)
Lemma suggested_plain (profileData : option value) :
  let w := suggestedWorkerName toLowerCase profileData in
  w <> [] /\ ~ In QUOTE w /\ ~ In DOLLAR w
  /\ Forall (fun c => isLineTerminator c = false) w.
Proof.
  cbv zeta. destruct (suggested_cases profileData) as [-> |[name ->]].
  - split; [discriminate|].
    split; [vm_compute; intuition discriminate|].
    split; [vm_compute; intuition discriminate|].
    vm_compute. repeat constructor.
  - pose proof (slug_chars name) as F.
    assert (G : Forall (fun c => c <> QUOTE /\ c <> DOLLAR
                                 /\ isLineTerminator c = false)
                       (js "living-resume-" ++ slug toLowerCase name)).
    { apply Forall_app. split.
      - repeat (constructor; [apply slugChar_plain; vm_compute;
                              first [left; reflexivity|right; reflexivity]|]).
        constructor.
      - eapply Forall_impl; [|exact F]. apply slugChar_plain. }
    rewrite Forall_forall in G. split; [discriminate|].
    split; [intros Hin; destruct (G _ Hin) as (A & _); now apply A|].
    split; [intros Hin; destruct (G _ Hin) as (_ & A & _); now apply A|].
    apply Forall_forall. intros c Hc. now destruct (G _ Hc) as (_ & _ & A).
Qed.

End SuggestedNames.

(** X20.  The worker name that [setup] suggests passes the checks of
    [deploy] once [setup] has written it to [wrangler.toml], unless it is
    the placeholder name.  Whatever [profile-data.json] holds, when the
    first [name] of [wrangler.toml] starts the line that sets the name and
    no quotation mark follows the value on its line, [deploy] accepts the
    suggested name after the update; it refuses it as not configured when
    there is no profile name to make it from, or when the name makes the
    slug [your-name]. *)
Theorem suggested_name_is_accepted (toLowerCase : jsstring -> jsstring)
        (profileData : option value) (pre ws1 ws2 old post : jsstring) :
  let workerName := suggestedWorkerName toLowerCase profileData in
  let wranglerContent :=
    pre ++ js "name" ++ ws1 ++ js "=" ++ ws2 ++ QUOTE :: old ++ QUOTE :: post in
  (pre = [] \/ endsLine pre) ->
  (forall j, j < length pre ->
             startsWith (js "name") (skipn j wranglerContent) = false) ->
  Forall (fun c => isWhiteSpace c = true) ws1 ->
  Forall (fun c => isWhiteSpace c = true) ws2 ->
  ~ In QUOTE old ->
  ~ In QUOTE (takeWhile (fun c => negb (isLineTerminator c)) post) ->
  checkWorkerName workerName
                  (Some (updateWrangler workerName wranglerContent))
  = if jseqb workerName (js "living-resume-your-name")
    then Some WorkerNameNotConfigured
    else None.
Proof.
  intros workerName wranglerContent Hs Hf H1 H2 Ho Hr.
  destruct (suggested_plain toLowerCase profileData) as (Hn & Hq & Hd & Hl).
  fold workerName in Hn, Hq, Hd, Hl.
  destruct (jseqb workerName (js "living-resume-your-name")) eqn:E.
  - unfold checkWorkerName. now rewrite E.
  - apply jseqb_neq in E.
    pose proof (checkWorkerName_updated pre ws1 ws2 old post workerName) as W.
    repeat (specialize (W ltac:(assumption))).
    now apply W.
Qed.

Lemma suggested_name_is_accepted_witness :
  let profileData :=
    Some (VObject [(js "name", VString (js "Ada Lovelace"))]) in
  let workerName := suggestedWorkerName toLowerCaseAscii profileData in
  let pre := js "# worker\n" in
  let post := js "\nmain = " ++ [QUOTE] ++ js "src/worker.ts" ++ [QUOTE] in
  let wranglerContent :=
    pre ++ js "name" ++ js " " ++ js "=" ++ js " "
    ++ QUOTE :: js "living-resume-your-name" ++ QUOTE :: post in
  checkWorkerName workerName
                  (Some (updateWrangler workerName wranglerContent))
  = if jseqb workerName (js "living-resume-your-name")
    then Some WorkerNameNotConfigured
    else None.
Proof.
  apply (suggested_name_is_accepted toLowerCaseAscii
           (Some (VObject [(js "name", VString (js "Ada Lovelace"))]))
           (js "# worker\n") (js " ") (js " ") (js "living-resume-your-name")
           (js "\nmain = " ++ [QUOTE] ++ js "src/worker.ts" ++ [QUOTE])).
  - right. exists (js "# worker"), LF. split; reflexivity.
  - intros j Hj. vm_compute in Hj.
    do 9 (destruct j as [|j]; [vm_compute; reflexivity|]). lia.
  - repeat constructor.
  - repeat constructor.
  - vm_compute. intuition discriminate.
  - vm_compute. intuition discriminate.
Defined.

(** ** The check of the live endpoints *)

Section Verifying.

Variable World : Type.
Variable fetch : World -> jsstring -> fetched * World.
Variable sleep : World -> nat -> World.

Lemma checkEndpoints_ok (baseUrl : jsstring) (endpoints : list jsstring)
      (failed : nat) (w : World) :
  (forall w e, In e endpoints ->
               exists status json,
                 fst (fetch w (baseUrl ++ e)) = Responded status json
                 /\ ok status = true) ->
  fst (checkEndpoints World fetch baseUrl endpoints failed w) = failed.
Proof.
  revert failed w; induction endpoints as [|e rest IH]; intros failed w H;
    [reflexivity|].
  cbn [checkEndpoints].
  destruct (H w e (or_introl eq_refl)) as (status & json & E & Hok).
  destruct (fetch w (baseUrl ++ e)) as [res w1]. cbn [fst] in E. subst res.
  rewrite Hok. apply IH. intros w' e' He'. apply H. now right.
Qed.

Lemma attempts_rejected (baseUrl : jsstring) (n attempt : nat) (w : World) :
  (forall w, fst (fetch w baseUrl) = Rejected) ->
  n + attempt = MAX_RETRIES -> 0 < n ->
  fst (attempts World fetch sleep baseUrl n attempt w) = true.
Proof.
  intros H. revert attempt w; induction n as [|n IH]; intros attempt w Hn Hp;
    [lia|].
  cbn [attempts].
  set (w0 := if attempt =? 0 then sleep w (nth 0 DELAYS 0 * 1000) else w).
  pose proof (H w0) as E. destruct (fetch w0 baseUrl) as [res w1].
  cbn [fst] in E. subst res.
  unfold MAX_RETRIES in *.
  destruct (attempt <? 3 - 1) eqn:L.
  - apply Nat.ltb_lt in L. apply IH; lia.
  - reflexivity.
Qed.

Lemma attempts_refused (baseUrl : jsstring) (n attempt : nat) (w : World) :
  (forall w, exists status json,
      fst (fetch w baseUrl) = Responded status json /\ ok status = false) ->
  fst (attempts World fetch sleep baseUrl n attempt w) = false.
Proof.
  intros H. revert attempt w; induction n as [|n IH]; intros attempt w;
    [reflexivity|].
  cbn [attempts].
  set (w0 := if attempt =? 0 then sleep w (nth 0 DELAYS 0 * 1000) else w).
  destruct (H w0) as (status & json & E & Hok).
  destruct (fetch w0 baseUrl) as [res w1]. cbn [fst] in E. subst res.
  rewrite Hok. cbn [negb].
  destruct (attempt <? MAX_RETRIES - 1); [apply IH|reflexivity].
Qed.

(** The first attempt settles the answer when the root is there. *)
Lemma attempts_listed (baseUrl : jsstring) (w : World) (status : nat)
      (rootData : value) (endpoints : list jsstring) :
  (forall w, fst (fetch w baseUrl) = Responded status (Some rootData)) ->
  ok status = true -> listedEndpoints rootData = Some endpoints ->
  (forall w e, In e endpoints ->
               exists status json,
                 fst (fetch w (baseUrl ++ e)) = Responded status json
                 /\ ok status = true) ->
  fst (attempts World fetch sleep baseUrl MAX_RETRIES 0 w) = true.
Proof.
  intros Hroot Hok Hl He. cbn [attempts MAX_RETRIES Nat.eqb].
  set (w0 := sleep w (nth 0 DELAYS 0 * 1000)).
  pose proof (Hroot w0) as E. destruct (fetch w0 baseUrl) as [res w1].
  cbn [fst] in E. subst res. rewrite Hok, Hl. cbn [negb].
  pose proof (checkEndpoints_ok baseUrl endpoints 0 w1 He) as C.
  destruct (checkEndpoints World fetch baseUrl endpoints 0 w1) as [failed w2].
  cbn [fst] in C |- *. now rewrite C.
Qed.

End Verifying.

(** X18.  [verify] without an answer.  When every request to the worker is
    rejected, [verify] gives up after three attempts and reports success:
    a worker that was never reached does not fail the pipeline.  When the
    worker answers every request with a status outside 200 to 299, or there
    is no [config.json], it reports failure. *)
Theorem verify_without_answer (World : Type)
        (fetch : World -> jsstring -> fetched * World)
        (sleep : World -> nat -> World) (config : Config.t) (w : World) :
  let baseUrl := getWorkerURL (Config.worker_name config) in
  ((forall w, fst (fetch w baseUrl) = Rejected) ->
   fst (verify World fetch sleep (Some config) w) = true) /\
  ((forall w, exists status json,
       fst (fetch w baseUrl) = Responded status json /\ ok status = false) ->
   fst (verify World fetch sleep (Some config) w) = false) /\
  fst (verify World fetch sleep None w) = false.
Proof.
  intros baseUrl. split; [|split].
  - intros H. unfold verify. apply attempts_rejected; [exact H|reflexivity|].
    unfold MAX_RETRIES. lia.
  - intros H. unfold verify. now apply attempts_refused.
  - reflexivity.
Qed.

Lemma verify_without_answer_witness :
  let config := {| Config.name := js "Ada";
                   Config.worker_name := js "living-resume-ada";
                   Config.template_path := None |} in
  fst (verify unit (fun w _ => (Rejected, w)) (fun w _ => w) (Some config) tt)
  = true /\
  fst (verify unit (fun w _ => (Responded 503 None, w)) (fun w _ => w)
              (Some config) tt)
  = false.
Proof.
  intros config. split.
  - apply (proj1 (verify_without_answer unit (fun w _ => (Rejected, w))
                    (fun w _ => w) config tt)).
    intros w. reflexivity.
  - apply (proj1 (proj2 (verify_without_answer unit
                           (fun w _ => (Responded 503 None, w))
                           (fun w _ => w) config tt))).
    intros w. exists 503, None. split; reflexivity.
Defined.

(** ** The check against the worker *)

Section VerifyingTheWorker.

Variables today version clock : jsstring.
Variable profile : ProfileData.t.
Variable display : value -> jsstring.

Local Abbreviation worker := (deployed today version profile clock display).

Lemma worker_root :
  exists root,
    answerOf (worker {| method := js "GET"; pathname := js "/" |})
    = Responded 200 (Some root) /\
    listedEndpoints root
    = Some (map (fun e => js "/" ++ e) (keys (objectOfProfile profile))).
Proof.
  unfold deployed. cbv zeta. rewrite fetch_get.
  change (jseqb (stripSlashes (js "/")) []) with true. cbv iota.
  eexists. split; [reflexivity|].
  destruct version, today; reflexivity.
Qed.

Lemma worker_endpoint (e : jsstring) :
  In e (keys (objectOfProfile profile)) ->
  exists json,
    answerOf (worker {| method := js "GET"; pathname := js "/" ++ e |})
    = Responded 200 json.
Proof.
  intros He. pose proof (deployed_route today version clock display profile e 0 He) as R.
  cbn [repeat] in R. rewrite app_nil_r in R. rewrite R. now eexists.
Qed.

End VerifyingTheWorker.

(** X19.  [verify] passes on the worker that serves the written files.
    When the requests go to the worker built from the files that
    [writeEndpointFiles] wrote for a profile none of whose records is empty,
    the first attempt finds the root, reads the nine endpoints from its
    directory, gets each of them, and [verify] reports success. *)
Theorem verify_passes_on_the_worker (World : Type)
        (fetch : World -> jsstring -> fetched * World)
        (sleep : World -> nat -> World)
        (today version clock : jsstring) (display : value -> jsstring)
        (profile : ProfileData.t) (config : Config.t) (w : World) :
  let baseUrl := getWorkerURL (Config.worker_name config) in
  let worker := deployed today version profile clock display in
  (forall e, In e (keys (objectOfProfile profile)) ->
             isEmptyData (prop (objectOfProfile profile) e) = false) ->
  (forall w, fst (fetch w baseUrl)
             = answerOf (worker {| method := js "GET"; pathname := js "/" |})) ->
  (forall w e, In e (keys (objectOfProfile profile)) ->
               fst (fetch w (baseUrl ++ js "/" ++ e))
               = answerOf (worker {| method := js "GET";
                                     pathname := js "/" ++ e |})) ->
  fst (verify World fetch sleep (Some config) w) = true.
Proof.
  intros baseUrl worker _ Hroot Hpath. unfold verify. fold baseUrl.
  destruct (worker_root today version clock profile display)
    as (root & Er & El).
  apply (attempts_listed World fetch sleep baseUrl w 200 root
           (map (fun e => js "/" ++ e) (keys (objectOfProfile profile)))).
  - intros w'. rewrite Hroot. exact Er.
  - reflexivity.
  - exact El.
  - intros w' p Hp. apply in_map_iff in Hp as (e & <- & He).
    destruct (worker_endpoint today version clock profile display e He)
      as (json & Ej).
    exists 200, json. split; [|reflexivity].
    rewrite (Hpath w' e He). exact Ej.
Qed.

Lemma verify_passes_on_the_worker_witness :
  let profile := profileOf sampleAnswers in
  let worker :=
    deployed (js "2026-01-01") (js "1.0.0") profile (js "2026-01-02")
             (fun _ => []) in
  let fetch (w : unit) (url : jsstring) :=
    (answerOf (worker {| method := js "GET";
                         pathname := skipn 46 url ++
                                     (if length url =? 46 then js "/" else []) |}),
     w) in
  fst (verify unit fetch (fun w _ => w)
              (Some {| Config.name := js "Ada";
                       Config.worker_name := js "living-resume-ada";
                       Config.template_path := None |}) tt) = true.
Proof.
  intros profile worker fetch.
  apply (verify_passes_on_the_worker unit fetch (fun w _ => w)
           (js "2026-01-01") (js "1.0.0") (js "2026-01-02") (fun _ => [])
           profile).
  - intros e He. cbn in He.
    repeat (destruct He as [<-|He]; [vm_compute; reflexivity|]). contradiction.
  - intros []. vm_compute. reflexivity.
  - intros [] e He. cbn in He.
    repeat (destruct He as [<-|He]; [vm_compute; reflexivity|]). contradiction.
Defined.
